(* ===== verification/_CoqProject ===== *)
-Q . S2P
Prelude.v
Mem.v
Tailq.v
Queues.v
Strings.v
Scheduler.v
Bystander.v
Stream.v
Ipc.v
Uart.v
Devices.v
Disk.v
Fat16.v
Volume.v
Files.v
Chains.v
Directory.v
Slots.v
Root.v
Paths.v
FileSys.v
Descriptors.v
FileCalls.v
Names.v
Tree.v
Debug.v
Create.v
Subdir.v
FullDir.v
NamedFiles.v
Kernel.v
Machine.v
Syscalls.v
Programs.v
Process.v
Interrupts.v
Startup.v
Commands.v
Session.v
Removal.v
Shell.v
Mush.v
System.v
Sharing.v
Runs.v
Listing.v
Unlink.v
Interleaving.v
Launch.v
Editor.v
Parser.v
