(* ===== verification/Prelude.v ===== *)
(** * malapropOS, verified

    malapropOS is a small operating system for an ARM board under QEMU: a
    kernel with a scheduler, a FAT16 file system on a disk behind a serial line
    and messages between processes; a C library; and a shell with eighteen
    programs. This library models the C code of src/os/src and src/mlibc in
    Rocq and proves what it does. This file opens it with the vocabulary every
    other file uses; the rest of this comment is the guide to all of them.

    ** The parts, and which file models which

    The library of the system (src/mlibc).
    - [Mem]: stdmem.c and [_sbrk], a bump allocator; [stdmem_copy].
    - [Tailq]: the TAILQ macros of stdqueue.h, field write by field write, with
      the [QMD_*] checks. The refinement theorems there let every other file
      use a Rocq list where the code has a tail queue.
    - [Queues]: the rest of stdqueue.h, the loops in either direction, safe or
      not, and [TAILQ_SWAP]; a store with several queues as a map from heads to
      disjoint lists, which every macro refines.
    - [Strings]: stdstring.c. [Stream]: stdstream.c.
    - [Syscalls]: the stubs of syscall.c, stdproc.c and stdio.c.

    The devices (src/os/src/device).
    - [Devices]: the registers of PL011.h, SP804.h and GIC.h, and where PL011.c,
      SP804.c and GIC.c place them. The hardware is an instance of the class
      [Board]; [BoardLaws] is its documented behaviour.
    - [Uart]: PL011.c, over a class [PL011] of what is at the other end of the
      line; [Disk]: disk.c and, from src/test/disk.py, the server it talks to.
      [BlockDevice] is the interface of disk.h and [BlockDeviceLaws] what its
      clients may rely on; the driver with its server is one instance, a disk
      in memory another.

    The kernel (src/os/src/kernel).
    - [Scheduler]: scheduler.c. [sched] is its globals; a pointer to a process
      is its place in the process list.
    - file.c, from the bottom: [Fat16] (boot sector, table, clusters, reading
      and writing along a chain), [Directory] (entries in slots of 32 bytes),
      [Paths] (taking paths apart, finding files), [FileSys] (the table of open
      files and the [sys_*] functions). The proofs about them are in [Volume],
      [Files], [Chains], [Slots], [Root], [Names], [Tree] (looking up a path of
      any depth), [Descriptors], [FileCalls], [Create] (new files in the root
      directory), [Subdir] (changes to the directory at the end of a path),
      [FullDir] (the same without a free slot) and [NamedFiles].
    - [Ipc]: ipc.c. [Debug]: the printers of scheduler.c, file_debug.c, file.c
      and ipc.c.
    - [Kernel]: kernel.c. [kernel] joins the states of the parts with the
      memory of the user; the three handlers take a context to the context
      they return into.

    The programs (src/os/src/user).
    - [Programs]: the eighteen programs. [Shell]: the line editor, the parser
      and the table of commands of sh.c as functions; [Mush]: the whole of sh.c
      as a program. Programs are interaction trees whose events are supervisor
      calls and accesses to memory.

    The parts at work together.
    - [Machine]: user code of any kind, interrupts and supervisor calls, as a
      step relation on [kernel] from reset on.
    - [Process]: a weakest precondition for one program served by the handlers;
      [Commands], [Session] and [Removal] use it for whole programs on a
      volume.
    - [Interrupts]: reset, interrupts and the keyboard on the devices.
    - [Startup]: startup.s and irq.s, the assembly around the handlers, on a
      processor with registers banked by mode.
    - [System]: every process with its own program, as a step relation in which
      the [svc] of a stub of syscall.c and the [mov] that takes its result from
      [r0] are two steps, with interrupts and others' calls in between.
      [Bystander]: what the scheduler's operations on others leave a process;
      [Sharing]: what a process sees of the machine, and the quiet steps that
      do not change it; [Runs]: what [Process] proves of a program alone is what
      it does among others that keep quiet; [Listing]: [ls], and a session with
      a directory; [Unlink]: [rm] at the end of a path.
      [Interleaving]: what one process may rely on among all the others - its
      code and its context, until another's call puts its result in [r0] -, and
      that the shell waits for its child and keeps quiet meanwhile; [Launch]: a
      program under the shell that started it.
    - [Editor] and [Parser]: the shell against its references.

    ** What the theorems show

    - Files: reading is a slice and writing a splice of the bytes of a chain;
      what is written is read back; other files keep their chains and bytes;
      creating, listing and deleting do what they say, in the root directory and
      at the end of a path of any depth; [mkdir] makes
      a directory that takes files; opening a path walks the directories it
      names; a disk over the serial
      line is an array of sectors. All the way up, the commands [touch],
      [write], [cat], [rm], [mkdir] and [ls], as processes of the system, make,
      change, print, remove and list files and directories: each runs to its
      exit and is never stuck before, under time sharing: interrupts, keys and
      the quiet steps of other processes may come in between.
    - Processes: fork, exit, blocking and switching, each on its whole effect
      on the scheduler; round robin and priority; and, in every state reached
      from reset, the invariant of the machine. A process that is not blocked
      keeps its code and its context whatever the others do, unless one of them
      hands it the processor by a [waitpid] that blocks or a [kill], whose
      result it then takes for its own. But for such a call, the shell waits for
      its child and asks for nothing the child would notice, unless it kills it:
      a command that ends well alone ends well under the shell. The messages are
      a mailbox for every process.
    - Devices: reset leaves timer, UART and interrupt controller configured; an
      interrupt is served once; what is typed reaches the readers of standard
      input in order. The assembly of startup.s carries contexts between the
      user and the handlers without a change.
    - Text: the line editor is a zipper, the parser gives the words of its
      line, paths come apart into their parts, numbers print and read back.
    - Ends and bounds: when loops along chains end, which buffers the code
      overruns and when. Theorems of kind error show what goes wrong and where;
      the lemmas beside them cover smaller cases of the same.

    ** Conventions, fuel and bounds

    A C function returns an [outcome]: a value, or the fault it meets. Integers
    are [Z], with [u16], [u32], [i32] and so on at every place where the code
    wraps; [char] is unsigned, as on this target. Loops that are not structural
    take fuel and fault with [OutOfFuel]. [turns] bounds the loops along chains:
    65536 is enough for every chain that ends ([chain_length]), and
    [Chains.num_clusters_terminates] shows that when it is not enough nothing
    is. [depth] bounds the recursion of [find_file]: one for each part of the
    path. [limit] is the length of the longest string the kernel looks at; the
    theorems that depend on it assume strings shorter than that. The parser
    needs twelve turns, decimal digits ten, and the rest a number the theorem
    states. [slack] bounds what the kernel may take from the heap it shares
    with the programs between two requests of theirs.

    ** What is not modelled

    - What the compiler makes of kernel.c: [Startup] takes the compiled handlers
      as a parameter, with the law [compiled]. Interrupts while the kernel runs,
      which reset enables before its last message. Loops of [nop] leave no
      trace.
    - The addresses the kernel's own allocations get: the handlers take as an
      argument [place] the address of a list they export, and [garbage] what an
      uninitialised variable holds. Blocks are fresh and hold zeros.
    - The traces that stdqueue.h keeps when QUEUE_MACRO_DEBUG is defined, which
      it is not; the second copy of the allocation table, which the code does
      not write either.
    - [split_filename] writes through two adjacent blocks, which are modelled as
      one region; the head of the list of open files, which the code does not
      allocate, is taken to be a list.
    - Calls outside [Machine.allowed]: [setpriority] for a process that does not
      exist or cannot run breaks the invariant of the scheduler, as
      [Scheduler.setpriority_requeues_the_dead] shows, and the code lets it
      happen; pids and descriptors are 31 bits wide and never used up. What is
      said of all reachable states, and of the steps of other processes, is said
      of runs without such calls.
    - File names of eight characters, which the code never finds again, and
      extensions of fewer than three where it compares them by the byte: the
      theorems about files say which names they are about, and the findings
      which fail. Between two programs of a session ([Session.started]) the
      files, the disk and the memory of the heap stay as the first left them.
    - A process under time sharing is shown to go on undisturbed only by others
      that leave alone the heap, the files and the console, and that neither
      block nor kill: [Sharing.quiet_call] is the list. For a call that blocks
      or kills this is false, see [Machine.waitpid_clobbers_r0].
    - Stacks of the programs: [Local] gives an address of its own to every local
      that is passed to a call. The token records of the parser are not
      allocated. The thread of a process that has exited is kept, never run.

    ** Vocabulary of this file

    Outcomes of C code, machine integers, byte buffers, counted loops, and the
    list and integer lemmas the components use. *)
From Stdlib Require Export ZArith Lia.
From stdpp Require Export base tactics numbers option list gmap strings.

#[export] Set Default Goal Selector "!".
Open Scope Z_scope.

(** ** Outcomes

    A C function returns a value, or meets one of the situations below. *)
Inductive fault :=
| OutOfBounds      (** an access outside the object it was meant for *)
| NullPointer      (** a dereference of the null pointer *)
| Indeterminate    (** a value the code never defines is used *)
| Panicked         (** [panic] was called: the machine loops for ever *)
| Blocked          (** the code waits for input that will not come *)
| OutOfFuel.       (** the loop did not finish within the given fuel *)

Inductive outcome (A : Type) :=
| Ok (a : A)
| Err (e : fault).
Arguments Ok {A} a.
Arguments Err {A} e.

#[export] Instance fault_eq_dec : EqDecision fault.
Proof. solve_decision. Defined.
#[export] Instance outcome_eq_dec `{EqDecision A} : EqDecision (outcome A).
Proof. solve_decision. Defined.

#[export] Instance outcome_ret : MRet outcome := fun A a => Ok a.
#[export] Instance outcome_bind : MBind outcome := fun A B f m =>
  match m with Ok a => f a | Err e => Err e end.
#[export] Instance outcome_fmap : FMap outcome := fun A B f m =>
  match m with Ok a => Ok (f a) | Err e => Err e end.

Lemma bind_Ok {A B} (m : outcome A) (f : A -> outcome B) b :
  (m ≫= f) = Ok b <-> exists a, m = Ok a /\ f a = Ok b.
Proof. destruct m; simpl; naive_solver. Qed.

Lemma bind_ok_l {A B} (a : A) (f : A -> outcome B) : (Ok a ≫= f) = f a.
Proof. done. Qed.

(** Go past the steps whose result is known. *)
Ltac ok_bind := repeat (rewrite bind_ok_l; cbv beta iota).

(** A value of an optional pointer, a fault when it is null. *)
Definition deref_opt {A} (o : option A) : outcome A :=
  match o with Some a => Ok a | None => Err NullPointer end.

(** ** Machine integers *)
Declare Scope cint_scope.
Delimit Scope cint_scope with cint.

Definition u8 (z : Z) : Z := z mod 2 ^ 8.
Definition u16 (z : Z) : Z := z mod 2 ^ 16.
Definition u32 (z : Z) : Z := z mod 2 ^ 32.
Definition i16 (z : Z) : Z := (z + 2 ^ 15) mod 2 ^ 16 - 2 ^ 15.
Definition i32 (z : Z) : Z := (z + 2 ^ 31) mod 2 ^ 32 - 2 ^ 31.

Notation "a '+u32' b" := (u32 (a + b)) (at level 50, left associativity) : cint_scope.
Notation "a '-u32' b" := (u32 (a - b)) (at level 50, left associativity) : cint_scope.
Notation "a '*u32' b" := (u32 (a * b)) (at level 40, left associativity) : cint_scope.

Definition is_byte (z : Z) : Prop := 0 <= z < 256.
Definition is_bytes (l : list Z) : Prop := Forall is_byte l.

#[export] Instance is_byte_dec z : Decision (is_byte z).
Proof. unfold is_byte. apply _. Defined.

(** ** Byte buffers

    A buffer is the list of its bytes; an access outside it is a fault. *)
Definition buf_get (b : list Z) (i : Z) : outcome Z :=
  if decide (0 <= i) then
    match b !! Z.to_nat i with Some v => Ok v | None => Err OutOfBounds end
  else Err OutOfBounds.

Definition buf_set (b : list Z) (i v : Z) : outcome (list Z) :=
  if decide (0 <= i < Z.of_nat (length b)) then Ok (<[Z.to_nat i := v]> b)
  else Err OutOfBounds.

(** The bytes of [b] from [off] on, [n] of them. *)
Definition slice (b : list Z) (off n : Z) : list Z :=
  take (Z.to_nat n) (drop (Z.to_nat off) b).

(** [b] with [s] written over it from [off] on. *)
Definition splice (b : list Z) (off : Z) (s : list Z) : list Z :=
  take (Z.to_nat off) b ++ s ++ drop (Z.to_nat off + length s) b.

(** The bytes of a string literal, without its terminator. *)
Definition bytes_of (s : string) : list Z :=
  (fun a => Z.of_nat (Ascii.nat_of_ascii a)) <$> String.list_ascii_of_string s.
Arguments bytes_of s%_string_scope.

Abbreviation zlength l := (Z.of_nat (length l)).

(** ** Loops *)

(** [for (i = from; i < from + n; i++) body]. *)
Fixpoint for_loop {S} (n : nat) (i : Z) (body : Z -> S -> outcome S) (s : S) : outcome S :=
  match n with
  | O => Ok s
  | Datatypes.S n => s' ← body i s; for_loop n (i + 1) body s'
  end.

(** The same loop with a [return] inside: [body] says [Some r] to return [r]. *)
Fixpoint for_find {R} (n : nat) (i : Z) (body : Z -> outcome (option R)) : outcome (option R) :=
  match n with
  | O => Ok None
  | Datatypes.S n =>
      r ← body i;
      match r with Some v => Ok (Some v) | None => for_find n (i + 1) body end
  end.

(** [while] with at most [fuel] turns; [body] says [inl s] to go on from [s]
    and [inr r] to leave the loop with [r]. *)
Fixpoint while_loop {S R} (fuel : nat) (body : S -> outcome (S + R)) (s : S) : outcome R :=
  match fuel with
  | O => Err OutOfFuel
  | Datatypes.S fuel =>
      r ← body s;
      match r with inl s' => while_loop fuel body s' | inr v => Ok v end
  end.

Lemma while_loop_S {S R} fuel (body : S -> outcome (S + R)) s :
  while_loop (Datatypes.S fuel) body s =
    r ← body s; match r with inl s' => while_loop fuel body s' | inr v => Ok v end.
Proof. done. Qed.

(** An invariant indexed by the loop counter. *)
Lemma for_loop_inv {S} (P : Z -> S -> Prop) n i body s :
  P i s ->
  (forall j s, i <= j < i + Z.of_nat n -> P j s -> exists s', body j s = Ok s' /\ P (j + 1) s') ->
  exists s', for_loop n i body s = Ok s' /\ P (i + Z.of_nat n) s'.
Proof.
  revert i s; induction n as [|n IH]; intros i s Hi Hstep; simpl.
  - exists s. by rewrite Z.add_0_r.
  - destruct (Hstep i s) as (s1 & -> & H1); [lia|done|]; simpl.
    destruct (IH (i + 1) s1 H1) as (s2 & -> & H2).
    { intros j s' Hj. apply Hstep. lia. }
    exists s2. split; [done|]. by replace (i + Z.of_nat (Datatypes.S n)) with (i + 1 + Z.of_nat n) by lia.
Qed.

(** A loop whose turn [k] faults. *)
Lemma for_loop_fault {S} (P : Z -> S -> Prop) n i k body s e :
  P i s -> i <= k < i + Z.of_nat n ->
  (forall j s, i <= j < k -> P j s -> exists s', body j s = Ok s' /\ P (j + 1) s') ->
  (forall s, P k s -> body k s = Err e) ->
  for_loop n i body s = Err e.
Proof.
  revert i s; induction n as [|n IH]; intros i s Hi Hk Hstep Herr; simpl; [lia|].
  destruct (decide (i = k)) as [->|]; [by rewrite Herr|].
  destruct (Hstep i s) as (s1 & -> & H1); [lia|done|]; simpl.
  apply IH; [done|lia| |done]. intros j s' Hj. apply Hstep. lia.
Qed.

(** A search that meets its first hit at [k]. *)
Lemma for_find_hit {R} n i k body (r : R) :
  i <= k < i + Z.of_nat n ->
  (forall j, i <= j < k -> body j = Ok None) ->
  body k = Ok (Some r) ->
  for_find n i body = Ok (Some r).
Proof.
  revert i; induction n as [|n IH]; intros i Hk Hmiss Hhit; simpl; [lia|].
  destruct (decide (i = k)) as [->|].
  - by rewrite Hhit.
  - rewrite Hmiss by lia; simpl. apply IH; [lia| |done]. intros j Hj. apply Hmiss. lia.
Qed.

Lemma for_find_miss {R} n i (body : Z -> outcome (option R)) :
  (forall j, i <= j < i + Z.of_nat n -> body j = Ok None) ->
  for_find n i body = Ok None.
Proof.
  revert i; induction n as [|n IH]; intros i Hmiss; simpl; [done|].
  rewrite Hmiss by lia; simpl. apply IH. intros j Hj. apply Hmiss. lia.
Qed.

(** A search over a total test, as the first index where the test answers. *)
Lemma for_find_total {R} n i (body : Z -> outcome (option R)) (f : Z -> option R) :
  (forall j, i <= j < i + Z.of_nat n -> body j = Ok (f j)) ->
  (exists k r, i <= k < i + Z.of_nat n /\ f k = Some r /\ (forall j, i <= j < k -> f j = None) /\
     for_find n i body = Ok (Some r)) \/
  ((forall j, i <= j < i + Z.of_nat n -> f j = None) /\ for_find n i body = Ok None).
Proof.
  revert i; induction n as [|n IH]; intros i Hf; simpl.
  - right. split; [intros; lia|done].
  - rewrite Hf by lia; simpl. destruct (f i) as [r|] eqn:Ei.
    + left. exists i, r. repeat split; auto; lia.
    + destruct (IH (i + 1)) as [(k & r & Hk & Hr & Hbefore & E)|[Hnone E]].
      { intros j Hj. apply Hf. lia. }
      * left. exists k, r. repeat split; auto; [lia..|].
        intros j Hj. destruct (decide (j = i)) as [->|]; [done|]. apply Hbefore. lia.
      * right. split; [|done].
        intros j Hj. destruct (decide (j = i)) as [->|]; [done|]. apply Hnone. lia.
Qed.

(** A [while] loop whose measure drops on each turn. *)
Lemma while_loop_measure {S R} (P : S -> Prop) (Q : R -> Prop) (m : S -> nat) body fuel s :
  P s ->
  (forall s, P s -> (exists s', body s = Ok (inl s') /\ P s' /\ (m s' < m s)%nat) \/
               (exists r, body s = Ok (inr r) /\ Q r)) ->
  (m s < fuel)%nat ->
  exists r, while_loop fuel body s = Ok r /\ Q r.
Proof.
  intros HP Hbody. revert s HP; induction fuel as [|fuel IH]; intros s HP Hm; simpl; [lia|].
  destruct (Hbody s HP) as [(s' & -> & HP' & Hlt)|(r & -> & HQ)]; simpl.
  - apply IH; [done|lia].
  - by exists r.
Qed.

(** More fuel does not change an answer. *)
Lemma while_loop_more {S R} (body : S -> outcome (S + R)) fuel fuel' s r :
  while_loop fuel body s = Ok r -> (fuel <= fuel')%nat -> while_loop fuel' body s = Ok r.
Proof.
  revert fuel' s; induction fuel as [|fuel IH]; intros fuel' s; simpl; [done|].
  destruct fuel' as [|fuel']; [lia|]; simpl.
  destruct (body s) as [[s'|v]|e]; simpl; [|done|done]. intros H Hle. apply IH; [done|lia].
Qed.

(** ** Facts about buffers *)
Lemma buf_get_Ok b i : 0 <= i < zlength b -> exists v, b !! Z.to_nat i = Some v /\ buf_get b i = Ok v.
Proof.
  intros Hi. destruct (lookup_lt_is_Some_2 b (Z.to_nat i)) as [v Hv]; [lia|].
  exists v. unfold buf_get. rewrite decide_True by lia. by rewrite Hv.
Qed.

Lemma buf_get_lookup b i v : 0 <= i -> b !! Z.to_nat i = Some v -> buf_get b i = Ok v.
Proof. intros Hi Hv. unfold buf_get. rewrite decide_True by lia. by rewrite Hv. Qed.

Lemma buf_set_Ok b i v : 0 <= i < zlength b -> buf_set b i v = Ok (<[Z.to_nat i := v]> b).
Proof. intros Hi. unfold buf_set. by rewrite decide_True. Qed.

Lemma slice_length b off n :
  0 <= off -> 0 <= n -> off + n <= zlength b -> length (slice b off n) = Z.to_nat n.
Proof. intros. unfold slice. rewrite length_take, length_drop. lia. Qed.

Lemma splice_length b off s :
  0 <= off -> off + zlength s <= zlength b -> length (splice b off s) = length b.
Proof. intros. unfold splice. rewrite !length_app, length_take, length_drop. lia. Qed.

Lemma splice_nil b off : splice b off [] = b.
Proof. unfold splice. simpl. rewrite Nat.add_0_r. apply take_drop. Qed.

Lemma splice_app_l a b off s :
  0 <= off -> off + zlength s <= zlength a -> splice (a ++ b) off s = splice a off s ++ b.
Proof.
  intros. unfold splice. rewrite take_app_le by lia. rewrite drop_app_le by lia.
  by rewrite <- !app_assoc.
Qed.

Lemma splice_app_r a b off s :
  zlength a <= off -> splice (a ++ b) off s = a ++ splice b (off - zlength a) s.
Proof.
  intros. unfold splice. rewrite take_app_ge by lia. rewrite drop_app_ge by lia.
  rewrite <- app_assoc. do 3 f_equal; [lia|]. f_equal. f_equal. lia.
Qed.

(** A write that straddles the border of two buffers. *)
Lemma splice_app_both a b off s1 s2 :
  0 <= off -> off + zlength s1 = zlength a ->
  splice (a ++ b) off (s1 ++ s2) = splice a off s1 ++ splice b 0 s2.
Proof.
  intros Hoff Hlen. unfold splice. rewrite take_app_le by lia.
  rewrite (drop_ge a (Z.to_nat off + length s1)) by lia.
  rewrite drop_app_ge by (rewrite length_app; lia).
  rewrite app_nil_r, Z2Nat.inj_0, take_0, Nat.add_0_l. simpl. rewrite <- !app_assoc.
  do 4 f_equal. rewrite length_app. lia.
Qed.

Lemma slice_splice b off s :
  0 <= off -> off + zlength s <= zlength b -> slice (splice b off s) off (zlength s) = s.
Proof.
  intros. unfold slice, splice. rewrite drop_app_ge by (rewrite length_take; lia).
  rewrite length_take. replace (_ - _)%nat with 0%nat by lia. rewrite drop_0, Nat2Z.id.
  by rewrite take_app_length.
Qed.

Lemma slice_app_l a b off n :
  0 <= off -> 0 <= n -> off + n <= zlength a -> slice (a ++ b) off n = slice a off n.
Proof.
  intros. unfold slice. rewrite drop_app_le by lia. rewrite take_app_le; [done|].
  rewrite length_drop. lia.
Qed.

Lemma slice_app_r a b off n :
  zlength a <= off -> slice (a ++ b) off n = slice b (off - zlength a) n.
Proof. intros. unfold slice. rewrite drop_app_ge by lia. do 2 f_equal. lia. Qed.

Lemma slice_0 b n : zlength b <= n -> slice b 0 n = b.
Proof. intros. unfold slice. rewrite drop_0. apply take_ge. lia. Qed.

Lemma slice_split b off n m :
  0 <= off -> 0 <= n -> 0 <= m -> slice b off (n + m) = slice b off n ++ slice b (off + n) m.
Proof.
  intros. unfold slice. rewrite Z2Nat.inj_add by lia. rewrite Z2Nat.inj_add by lia.
  rewrite <- drop_drop. by rewrite take_take_drop.
Qed.

Lemma slice_one b i v : b !! Z.to_nat i = Some v -> slice b i 1 = [v].
Proof. intros Hv. unfold slice. by rewrite (drop_S _ v). Qed.

(** Reading a spliced buffer. *)
Lemma lookup_splice b off s i :
  0 <= off -> off + zlength s <= zlength b ->
  splice b off s !! i =
    if decide (Z.to_nat off <= i < Z.to_nat off + length s)%nat
    then s !! (i - Z.to_nat off)%nat else b !! i.
Proof.
  intros. unfold splice. case_decide as Hi.
  - rewrite lookup_app_r by (rewrite length_take; lia).
    rewrite length_take, lookup_app_l by lia. f_equal. lia.
  - destruct (decide (i < Z.to_nat off)%nat).
    + rewrite lookup_app_l by (rewrite length_take; lia). by rewrite lookup_take_lt by lia.
    + rewrite lookup_app_r by (rewrite length_take; lia).
      rewrite length_take, lookup_app_r by lia. rewrite lookup_drop. f_equal. lia.
Qed.

Lemma splice_slice b off n : 0 <= off -> 0 <= n -> off + n <= zlength b -> splice b off (slice b off n) = b.
Proof.
  intros. assert (Hl : length (slice b off n) = Z.to_nat n) by (apply slice_length; lia).
  apply list_eq. intros i. rewrite lookup_splice by lia. case_decide; [|done].
  unfold slice. rewrite lookup_take_lt, lookup_drop by lia. f_equal. lia.
Qed.

Lemma splice_snoc b off s x :
  0 <= off -> off + zlength s < zlength b ->
  <[Z.to_nat (off + zlength s) := x]> (splice b off s) = splice b off (s ++ [x]).
Proof.
  intros. apply list_eq. intros i. rewrite list_lookup_insert, splice_length by lia.
  rewrite !lookup_splice by (rewrite ?length_app; simpl; lia). rewrite length_app; simpl.
  repeat case_decide; try lia; try done.
  - subst. rewrite lookup_app_r by lia. by replace (_ - _ - _)%nat with 0%nat by lia.
  - rewrite lookup_app_l by lia. done.
Qed.

(** Two writes at the starts of two buffers, the second empty unless the first
    fills its buffer. *)
Lemma splice_app_0 a b s1 s2 :
  zlength s1 = zlength a \/ (zlength s1 <= zlength a /\ s2 = []) ->
  splice (a ++ b) 0 (s1 ++ s2) = splice a 0 s1 ++ splice b 0 s2.
Proof.
  intros [E|[Hle ->]]; [by apply splice_app_both; lia|]. rewrite app_nil_r, splice_nil. by apply splice_app_l.
Qed.

Lemma splice_splice b off s1 s2 :
  0 <= off -> off + zlength s1 + zlength s2 <= zlength b ->
  splice (splice b off s1) (off + zlength s1) s2 = splice b off (s1 ++ s2).
Proof.
  intros. apply list_eq. intros i. rewrite !lookup_splice; rewrite ?splice_length, ?length_app; try lia.
  repeat case_decide; try lia; try done.
  - rewrite lookup_app_r by lia. f_equal. lia.
  - by rewrite lookup_app_l by lia.
Qed.

Lemma slice_splice_in b off s k n :
  0 <= off -> off + zlength s <= zlength b -> 0 <= k -> 0 <= n -> k + n <= zlength s ->
  slice (splice b off s) (off + k) n = slice s k n.
Proof.
  intros. apply list_eq. intros i. unfold slice.
  destruct (decide (i < Z.to_nat n)%nat); [|by rewrite !lookup_take_ge by lia].
  rewrite !lookup_take_lt, !lookup_drop by done. rewrite lookup_splice, decide_True by lia. f_equal. lia.
Qed.

Lemma buf_set_splice b i v : 0 <= i < zlength b -> buf_set b i v = Ok (splice b i [v]).
Proof.
  intros Hi. rewrite buf_set_Ok by done. f_equal. pose proof (splice_snoc b i [] v) as E.
  rewrite splice_nil in E. simpl in E. rewrite Z.add_0_r in E. apply E; lia.
Qed.

(** Two writes that do not overlap commute with a read of the first. *)
Lemma slice_splice_other b off s off' n :
  0 <= off -> off + zlength s <= zlength b -> 0 <= off' -> 0 <= n ->
  off' + n <= off \/ off + zlength s <= off' -> slice (splice b off s) off' n = slice b off' n.
Proof.
  intros H1 H2 H3 H4 Hd. apply list_eq. intros i. unfold slice.
  destruct (decide (i < Z.to_nat n)%nat); [|by rewrite !lookup_take_ge by lia].
  rewrite !lookup_take_lt, !lookup_drop by done. rewrite lookup_splice, decide_False by lia. done.
Qed.

(** ** Facts about lists *)
Lemma slice_slice b off n k m : 0 <= off -> 0 <= k -> 0 <= m -> k + m <= n -> slice (slice b off n) k m = slice b (off + k) m.
Proof.
  intros. unfold slice. rewrite skipn_firstn_comm, take_take, drop_drop. f_equal; [lia|]. f_equal. lia.
Qed.

(** A splice inside a slice. *)
Lemma slice_splice_shift b off n k s :
  0 <= off -> 0 <= k -> k + zlength s <= n -> off + n <= zlength b -> slice (splice b (off + k) s) off n = splice (slice b off n) k s.
Proof.
  intros Ho Hk Hn Hb. apply list_eq. intros i. rewrite (lookup_splice (slice b off n)) by (rewrite ?slice_length; lia). unfold slice.
  destruct (decide (i < Z.to_nat n)%nat) as [Hi|Hi].
  - rewrite lookup_take_lt, lookup_drop, lookup_splice by lia. repeat case_decide; try lia.
    + f_equal. lia.
    + by rewrite lookup_take_lt, lookup_drop by lia.
  - rewrite lookup_take_ge by lia. case_decide; [lia|]. by rewrite lookup_take_ge by lia.
Qed.

(** The element at which two halves of a flattened list meet. *)
Lemma bind_split {A B} (f : A -> list B) (l : list A) pre x post :
  l ≫= f = pre ++ x :: post ->
  exists l1 a l2 p q, l = l1 ++ a :: l2 /\ f a = p ++ x :: q /\ pre = (l1 ≫= f) ++ p /\ post = q ++ (l2 ≫= f).
Proof.
  revert pre. induction l as [|a l IH]; intros pre E; [by destruct pre|]. cbn in E. change (f a ++ (l ≫= f) = pre ++ x :: post) in E.
  apply app_eq_inv in E as [(k & E1 & E2)|(k & -> & E2)].
  - destruct k as [|y k].
    + rewrite app_nil_r in E1. simpl in E2. destruct (IH [] (eq_sym E2)) as (l1 & a' & l2 & p & q & -> & Ef & Hp & ->).
      exists (a :: l1), a', l2, p, q. split; [done|]. split; [done|]. split; [|done]. cbn. rewrite <- app_assoc. change (mbind f l1) with (l1 ≫= f). rewrite <- Hp, app_nil_r. done.
    + injection E2 as <- ->. exists [], a, l, pre, k. done.
  - destruct (IH k E2) as (l1 & a' & l2 & p & q & -> & Ef & -> & ->). exists (a :: l1), a', l2, p, q.
    split; [done|]. split; [done|]. split; [|done]. cbn. by rewrite <- app_assoc.
Qed.

Lemma filter_ne_absent (p : Z) (q : list Z) : p ∉ q -> filter (fun item => item <> p) q = q.
Proof.
  induction q as [|a q IH]; intros Hp; [done|]. rewrite filter_cons.
  rewrite decide_True by set_solver. f_equal. apply IH. set_solver.
Qed.

(** ** Signed values that fit *)
Lemma i32_small z : - 2 ^ 31 <= z < 2 ^ 31 -> i32 z = z.
Proof. intros. unfold i32. rewrite Z.mod_small; lia. Qed.
Lemma u32_small z : 0 <= z < 2 ^ 32 -> u32 z = z.
Proof. apply Z.mod_small. Qed.
Lemma u16_small z : 0 <= z < 2 ^ 16 -> u16 z = z.
Proof. apply Z.mod_small. Qed.
Lemma u8_small z : 0 <= z < 2 ^ 8 -> u8 z = z.
Proof. apply Z.mod_small. Qed.
Lemma u16_range z : 0 <= u16 z < 2 ^ 16.
Proof. apply Z.mod_pos_bound. lia. Qed.
Lemma u32_range z : 0 <= u32 z < 2 ^ 32.
Proof. apply Z.mod_pos_bound. lia. Qed.

(** An [or] of bits that do not overlap. *)
Lemma lor_shift a b k : 0 <= k -> 0 <= a < 2 ^ k -> Z.lor a (Z.shiftl b k) = a + b * 2 ^ k.
Proof.
  intros Hk Ha. assert (Z.land a (Z.shiftl b k) = 0) as H.
  { apply Z.bits_inj'. intros n Hn. rewrite Z.land_spec, Z.shiftl_spec, Z.bits_0 by done.
    destruct (decide (n < k)).
    - by rewrite (Z.testbit_neg_r b), andb_false_r by lia.
    - rewrite <- (Z.mod_small a (2 ^ k)) by lia. by rewrite Z.mod_pow2_bits_high by lia. }
  rewrite <- Z.lxor_lor, <- Z.add_nocarry_lxor by done. by rewrite Z.shiftl_mul_pow2.
Qed.

(** The bytes of a half word, as masks and shifts take them. *)
Lemma low_byte v : Z.land v 255 = v mod 256.
Proof. change 255 with (Z.ones 8). by rewrite Z.land_ones. Qed.
Lemma byte_at v k : 0 <= k -> Z.land (Z.shiftr v k) 255 = v / 2 ^ k mod 256.
Proof. intros Hk. by rewrite low_byte, Z.shiftr_div_pow2. Qed.
Lemma high_byte v : 0 <= v < 2 ^ 16 -> Z.land (Z.shiftr v 8) 255 = v / 256.
Proof.
  intros Hv. rewrite byte_at by lia. change (2 ^ 8) with 256. apply Z.mod_small.
  split; [apply Z.div_pos|apply Z.div_lt_upper_bound]; lia.
Qed.

(** The four bytes of a word. *)
Lemma le32_sum v :
  0 <= v < 2 ^ 32 ->
  v mod 256 + v / 2 ^ 8 mod 256 * 2 ^ 8 + v / 2 ^ 16 mod 256 * 2 ^ 16 + v / 2 ^ 24 mod 256 * 2 ^ 24 = v.
Proof.
  intros Hv. pose proof (Z.div_mod v 256). pose proof (Z.div_mod (v / 256) 256). pose proof (Z.div_mod (v / 256 / 256) 256).
  change (2 ^ 8) with 256. change (2 ^ 16) with (256 * 256). change (2 ^ 24) with (256 * (256 * 256)).
  rewrite <- !Z.div_div by lia. rewrite (Z.mod_small (v / 256 / 256 / 256)); [lia|].
  rewrite !Z.div_div by lia. split; [apply Z.div_pos|apply Z.div_lt_upper_bound]; lia.
Qed.

(** The two bytes of a half word. *)
Lemma le16_sum v : 0 <= v < 2 ^ 16 -> v mod 256 + v / 2 ^ 8 * 256 = v.
Proof. intros. pose proof (Z.div_mod v 256). change (2 ^ 8) with 256. lia. Qed.

Create HintDb cint.
#[export] Hint Resolve u16_range u32_range : cint.
(** Drop the wrap-around of every machine operation that does not wrap. *)
Ltac nowrap :=
  repeat match goal with
  | |- context [i32 ?z] => rewrite (i32_small z) by lia
  | |- context [u32 ?z] => rewrite (u32_small z) by lia
  | |- context [u16 ?z] => rewrite (u16_small z) by lia
  | |- context [u8 ?z] => rewrite (u8_small z) by lia
  end.

(** Take apart what a computation that succeeded did. *)
Ltac inv_ok :=
  repeat match goal with
  | H : (_ ≫= _) = Ok _ |- _ =>
      let a := fresh "v" in let H1 := fresh "E" in
      apply bind_Ok in H as (a & H1 & H)
  | H : Ok _ = Ok _ |- _ => injection H as H; subst
  | H : Err _ = Ok _ |- _ => discriminate H
  end.
