(* ===== verification/Mem.v ===== *)
(** * Memory

    [stdmem.c] and [_sbrk] of [syscall.c]: the bump allocator on the kernel
    heap, and byte copies. Pointers are 32-bit integers, [NULL] is 0. *)
From S2P Require Import Prelude.

Record heap := Heap {
  current_break : Z;   (** [char* current_break], 0 before the first call *)
  heap_low : Z;        (** linker symbol, start of the heap *)
  heap_top : Z         (** linker symbol, end of the heap *)
}.

Definition NULL : Z := 0.

(** [_sbrk]: the previous break, or [(void* )-1] with the break unmoved. *)
Definition sbrk (incr : Z) (h : heap) : Z * heap :=
  let cb := if current_break h =? 0 then heap_low h else current_break h in
  let prev_break := cb in
  if u32 (cb + incr) >? heap_top h
  then (u32 (-1), Heap cb (heap_low h) (heap_top h))
  else (prev_break, Heap (u32 (cb + incr)) (heap_low h) (heap_top h)).

(** [stdmem_allocate]: the [size_t] argument becomes the [int32_t] of [_sbrk]. *)
Definition stdmem_allocate (size : Z) (h : heap) : Z * heap :=
  let '(p, h) := sbrk 0 h in
  let '(q, h) := sbrk (i32 size) h in
  if q =? u32 (-1) then (NULL, h) else (p, h).

(** [stdmem_free] does not bother. *)
Definition stdmem_free (ptr : Z) (h : heap) : heap := h.

(** [stdmem_copy]: both regions are given as a buffer and an offset into it. *)
Definition stdmem_copy (dest : list Z) (doff : Z) (src : list Z) (soff n : Z) : outcome (list Z) :=
  for_loop (Z.to_nat n) 0 (fun i dest => c ← buf_get src (soff + i); buf_set dest (doff + i) c) dest.

(** A run of requests, with the pointer each one received. *)
Fixpoint allocate_all (sizes : list Z) (h : heap) : list Z * heap :=
  match sizes with
  | [] => ([], h)
  | n :: sizes =>
      let '(p, h) := stdmem_allocate n h in
      let '(ps, h) := allocate_all sizes h in (p :: ps, h)
  end.

(** The heap as the linker script lays it out: 256KB below 2^31. *)
Definition heap_ok (h : heap) : Prop :=
  0 < heap_low h /\ heap_low h <= heap_top h < 2 ^ 31 /\
  (current_break h = 0 \/ heap_low h <= current_break h <= heap_top h).

(** Where the next block starts. *)
Definition brk (h : heap) : Z := if current_break h =? 0 then heap_low h else current_break h.

Lemma brk_bounds h : heap_ok h -> heap_low h <= brk h <= heap_top h.
Proof. unfold heap_ok, brk. case_match; lia. Qed.

Lemma brk_Heap b l t : 0 < b -> brk (Heap b l t) = b.
Proof. intros. unfold brk; simpl. by destruct (Z.eqb_spec b 0); [lia|]. Qed.

Lemma heap_ok_Heap b l t : 0 < l -> l <= b <= t -> t < 2 ^ 31 -> heap_ok (Heap b l t).
Proof. unfold heap_ok; simpl. lia. Qed.

Lemma sbrk_eq h n :
  heap_ok h -> 0 <= n < 2 ^ 31 ->
  sbrk n h = if decide (brk h + n <= heap_top h)
             then (brk h, Heap (brk h + n) (heap_low h) (heap_top h))
             else (u32 (-1), Heap (brk h) (heap_low h) (heap_top h)).
Proof.
  intros Hok Hn. pose proof (brk_bounds h Hok). destruct Hok as (Hl & Ht & _).
  unfold sbrk. fold (brk h). nowrap.
  destruct (Z.gtb_spec (brk h + n) (heap_top h)); case_decide; (done || lia).
Qed.

Lemma allocate_eq h n :
  heap_ok h -> 0 <= n < 2 ^ 31 ->
  stdmem_allocate n h = if decide (brk h + n <= heap_top h)
                        then (brk h, Heap (brk h + n) (heap_low h) (heap_top h))
                        else (NULL, Heap (brk h) (heap_low h) (heap_top h)).
Proof.
  intros Hok Hn. pose proof (brk_bounds h Hok) as Hb. destruct (Hok) as (Hl & Ht & _).
  set (h0 := Heap (brk h) (heap_low h) (heap_top h)).
  assert (Hok0 : heap_ok h0) by (unfold heap_ok; simpl; lia).
  assert (Eb : brk h0 = brk h) by (apply brk_Heap; lia).
  unfold stdmem_allocate. rewrite (sbrk_eq h 0), decide_True by (done || lia).
  rewrite Z.add_0_r. fold h0. nowrap. rewrite (sbrk_eq h0 n), Eb by done. simpl.
  assert (Em : u32 (-1) = 2 ^ 32 - 1) by reflexivity. rewrite Em.
  case_decide; [|done]. destruct (Z.eqb_spec (brk h) (2 ^ 32 - 1)); [lia|done].
Qed.

(** The end of the heap does not move. *)
Lemma allocate_top n h : heap_top (stdmem_allocate n h).2 = heap_top h.
Proof.
  unfold stdmem_allocate, sbrk. repeat (case_match; cbn; simplify_eq/=; try done).
Qed.

Lemma stdmem_copy_spec dest doff src soff n :
  0 <= doff -> 0 <= soff -> 0 <= n -> doff + n <= zlength dest -> soff + n <= zlength src ->
  stdmem_copy dest doff src soff n = Ok (splice dest doff (slice src soff n)).
Proof.
  intros Hd Hs Hn Hdn Hsn. unfold stdmem_copy.
  destruct (for_loop_inv (fun i b => b = splice dest doff (slice src soff i)) (Z.to_nat n) 0
    (fun i dest => c ← buf_get src (soff + i); buf_set dest (doff + i) c) dest) as (b & E & Hb).
  - unfold slice. simpl. by rewrite splice_nil.
  - intros i b Hi ->. destruct (buf_get_Ok src (soff + i)) as (v & Hv & ->); [lia|]. simpl.
    assert (Hlen : zlength (slice src soff i) = i) by (rewrite slice_length; lia).
    eexists; split.
    { apply buf_set_Ok. rewrite splice_length; lia. }
    rewrite slice_split by lia. replace (doff + i) with (doff + zlength (slice src soff i)) by lia.
    rewrite splice_snoc by lia. by rewrite (slice_one src (soff + i) v).
  - rewrite E, Hb. do 3 f_equal. lia.
Qed.

(** A copy of more bytes than the source has. *)
Lemma stdmem_copy_overread dest doff src soff n :
  0 <= doff -> 0 <= soff <= zlength src -> doff + n <= zlength dest -> zlength src < soff + n ->
  stdmem_copy dest doff src soff n = Err OutOfBounds.
Proof.
  intros Hd Hs Hdn Hsn. unfold stdmem_copy.
  apply (for_loop_fault (fun _ b => length b = length dest)) with (k := zlength src - soff); [done|lia|..].
  - intros j b Hj Hb. destruct (buf_get_Ok src (soff + j)) as (v & _ & ->); [lia|]. simpl.
    rewrite buf_set_Ok by lia. eexists. split; [done|]. by rewrite length_insert.
  - intros b _. unfold buf_get. rewrite decide_True by lia.
    by rewrite (proj2 (lookup_ge_None src (Z.to_nat (soff + (zlength src - soff))))) by lia.
Qed.

(** A run of requests moves the break up only, within the same heap, and each
    block it hands out lies between the break before and the break after. *)
Lemma allocate_all_above sizes h ps h' :
  heap_ok h -> Forall (fun n => 0 <= n < 2 ^ 31) sizes -> allocate_all sizes h = (ps, h') ->
  heap_ok h' /\ brk h <= brk h' /\ heap_top h' = heap_top h /\
  (forall i p n, ps !! i = Some p -> sizes !! i = Some n -> p <> NULL -> brk h <= p /\ p + n <= brk h').
Proof.
  revert h ps h'; induction sizes as [|n sizes IH]; intros h ps h' Hok Hall; simpl.
  - intros [= <- <-]. repeat split; try apply Hok; (done || lia).
  - inversion_clear Hall as [|? ? Hn Hrest]. rewrite allocate_eq by done.
    pose proof (brk_bounds h Hok). destruct Hok as (Hl & Ht & _).
    case_decide as Hfit; (destruct (allocate_all _ _) as [ps1 h2] eqn:E1); intros [= <- <-];
      (eapply IH in E1 as (Hok2 & Hmono & Htop & Hblocks); [|apply heap_ok_Heap; lia|done]);
      rewrite brk_Heap in Hmono, Hblocks by lia; (split; [done|]); (split; [lia|]); (split; [done|]);
      intros [|i] p m Hp Hm Hnull; simpl in *; simplify_eq; try done; try lia;
      destruct (Hblocks i p m Hp Hm Hnull); lia.
Qed.

(** C36 (safety): however many blocks of less than 2^31 bytes are requested, the
    ones the allocator hands out are pairwise disjoint, inside the heap, and in
    address order. *)
Theorem allocations_disjoint sizes h ps h' :
  heap_ok h -> Forall (fun n => 0 <= n < 2 ^ 31) sizes -> allocate_all sizes h = (ps, h') ->
  forall i j p q n m, (i < j)%nat ->
    ps !! i = Some p -> sizes !! i = Some n -> ps !! j = Some q -> sizes !! j = Some m ->
    p <> NULL -> q <> NULL ->
    heap_low h <= p /\ p + n <= q /\ q + m <= heap_top h.
Proof.
  revert h ps h'; induction sizes as [|n sizes IH]; intros h ps h' Hok Hall Hrun i j p q n' m Hij; [done|].
  simpl in Hrun. inversion_clear Hall as [|? ? Hn Hrest].
  rewrite allocate_eq in Hrun by done. pose proof (brk_bounds h Hok). destruct Hok as (Hl & Ht & _).
  destruct j as [|j]; [lia|].
  case_decide as Hfit; (destruct (allocate_all _ _) as [ps1 h2] eqn:E1); injection Hrun as <- <-;
    intros Hp Hs Hq Hs' Hpn Hqn; simpl in Hq, Hs';
    (destruct i as [|i]; simpl in Hp, Hs;
     [simplify_eq|refine (IH _ _ _ _ Hrest E1 i j p q n' m _ Hp Hs Hq Hs' Hpn Hqn); [apply heap_ok_Heap; lia|lia]]).
  eapply allocate_all_above in E1 as (Hok2 & _ & Htop & Hblocks); [|apply heap_ok_Heap; lia|done].
  destruct (Hblocks j q m Hq Hs' Hqn) as [Hlo Hhi]. rewrite brk_Heap in Hlo by lia.
  pose proof (brk_bounds h2 Hok2). simpl in Htop. lia.
Qed.

(** The theorem at work: two blocks on a heap of 256KB. *)
Lemma allocations_disjoint_witness :
  exists ps h', allocate_all [16; 100] (Heap 0 4096 266240) = (ps, h') /\ ps = [4096; 4112] /\ 4096 + 16 <= 4112.
Proof.
  eexists _, _. split; [reflexivity|]. split; [reflexivity|].
  eapply (allocations_disjoint [16; 100] (Heap 0 4096 266240) _ _) with (i := 0%nat) (j := 1%nat);
    [unfold heap_ok; simpl; lia|repeat constructor; lia|reflexivity|lia|reflexivity|reflexivity|reflexivity|reflexivity|done|done].
Defined.
