(* ===== verification/Tailq.v ===== *)
(** * Tail queues

    [stdqueue.h]: the intrusive doubly linked tail queue every component of the
    kernel is built on, at the level of its pointers. An element stores the
    address of the next element and the address of the field that points to
    it; the head stores the first element and the address of the last
    [tqe_next] field. The macros are translated field write by field write,
    the [QMD_TAILQ_CHECK_*] tests included, which panic when they fail. *)
From S2P Require Import Prelude.

(** The address of a pointer field: [&head->tqh_first] or [&elm->tqe_next]. *)
Inductive field := FirstOf (head : Z) | NextOf (elm : Z).

#[export] Instance field_eq_dec : EqDecision field.
Proof. solve_decision. Defined.

Record tailq_head := TailqHead { tqh_first : option Z; tqh_last : field }.
Record tailq_entry := TailqEntry { tqe_next : option Z; tqe_prev : field }.

(** The heads and the elements, by address; an element is in one queue. *)
Record store := Store { heads : gmap Z tailq_head; entries : gmap Z tailq_entry }.

Definition get_head (h : Z) (s : store) : outcome tailq_head := deref_opt (heads s !! h).
Definition get_entry (e : Z) (s : store) : outcome tailq_entry := deref_opt (entries s !! e).
Definition put_head (h : Z) (v : tailq_head) (s : store) : store :=
  Store (<[h := v]> (heads s)) (entries s).
Definition put_entry (e : Z) (v : tailq_entry) (s : store) : store :=
  Store (heads s) (<[e := v]> (entries s)).

(** [*f], a read through the address of a pointer field. *)
Definition deref (f : field) (s : store) : outcome (option Z) :=
  match f with
  | FirstOf h => v ← get_head h s; Ok (tqh_first v)
  | NextOf e => v ← get_entry e s; Ok (tqe_next v)
  end.

(** [*f = v]. *)
Definition assign (f : field) (v : option Z) (s : store) : outcome store :=
  match f with
  | FirstOf h => o ← get_head h s; Ok (put_head h (TailqHead v (tqh_last o)) s)
  | NextOf e => o ← get_entry e s; Ok (put_entry e (TailqEntry v (tqe_prev o)) s)
  end.

(** [((struct headname * )f)->tqh_last]: a head and an element entry have the same
    layout, so the cast reads the second word of whichever [f] is part of. *)
Definition deref_as_head_last (f : field) (s : store) : outcome field :=
  match f with
  | FirstOf h => v ← get_head h s; Ok (tqh_last v)
  | NextOf e => v ← get_entry e s; Ok (tqe_prev v)
  end.

Definition set_last (h : Z) (f : field) (s : store) : outcome store :=
  o ← get_head h s; Ok (put_head h (TailqHead (tqh_first o) f) s).
Definition set_prev (e : Z) (f : field) (s : store) : outcome store :=
  o ← get_entry e s; Ok (put_entry e (TailqEntry (tqe_next o) f) s).

(** ** Accessors *)
Definition TAILQ_FIRST (h : Z) (s : store) : outcome (option Z) := deref (FirstOf h) s.
Definition TAILQ_NEXT (e : Z) (s : store) : outcome (option Z) := deref (NextOf e) s.
Definition TAILQ_EMPTY (h : Z) (s : store) : outcome bool :=
  f ← TAILQ_FIRST h s; Ok (bool_decide (f = None)).
Definition TAILQ_LAST (h : Z) (s : store) : outcome (option Z) :=
  v ← get_head h s; f ← deref_as_head_last (tqh_last v) s; deref f s.
Definition TAILQ_PREV (e : Z) (s : store) : outcome (option Z) :=
  v ← get_entry e s; f ← deref_as_head_last (tqe_prev v) s; deref f s.

(** ** Consistency checks *)
Definition panic_unless (b : bool) : outcome unit := if b then Ok tt else Err Panicked.

Definition QMD_TAILQ_CHECK_HEAD (h : Z) (s : store) : outcome unit :=
  f ← TAILQ_FIRST h s;
  match f with
  | None => Ok tt
  | Some e => v ← get_entry e s; panic_unless (bool_decide (tqe_prev v = FirstOf h))
  end.

Definition QMD_TAILQ_CHECK_TAIL (h : Z) (s : store) : outcome unit :=
  v ← get_head h s; p ← deref (tqh_last v) s; panic_unless (bool_decide (p = None)).

Definition QMD_TAILQ_CHECK_NEXT (e : Z) (s : store) : outcome unit :=
  n ← TAILQ_NEXT e s;
  match n with
  | None => Ok tt
  | Some n => v ← get_entry n s; panic_unless (bool_decide (tqe_prev v = NextOf e))
  end.

Definition QMD_TAILQ_CHECK_PREV (e : Z) (s : store) : outcome unit :=
  v ← get_entry e s; p ← deref (tqe_prev v) s; panic_unless (bool_decide (p = Some e)).

(** ** Operations *)
Definition TAILQ_INIT (h : Z) (s : store) : store := put_head h (TailqHead None (FirstOf h)) s.

Definition TAILQ_INSERT_TAIL (h e : Z) (s : store) : outcome store :=
  _ ← QMD_TAILQ_CHECK_TAIL h s;
  s ← assign (NextOf e) None s;
  v ← get_head h s;
  s ← set_prev e (tqh_last v) s;
  s ← assign (tqh_last v) (Some e) s;
  set_last h (NextOf e) s.

Definition TAILQ_INSERT_HEAD (h e : Z) (s : store) : outcome store :=
  _ ← QMD_TAILQ_CHECK_HEAD h s;
  first ← TAILQ_FIRST h s;
  s ← assign (NextOf e) first s;
  s ← match first with
      | Some f => set_prev f (NextOf e) s
      | None => set_last h (NextOf e) s
      end;
  s ← assign (FirstOf h) (Some e) s;
  set_prev e (FirstOf h) s.

Definition TAILQ_INSERT_AFTER (h listelm e : Z) (s : store) : outcome store :=
  _ ← QMD_TAILQ_CHECK_NEXT listelm s;
  next ← TAILQ_NEXT listelm s;
  s ← assign (NextOf e) next s;
  s ← match next with
      | Some n => set_prev n (NextOf e) s
      | None => set_last h (NextOf e) s
      end;
  s ← assign (NextOf listelm) (Some e) s;
  set_prev e (NextOf listelm) s.

Definition TAILQ_INSERT_BEFORE (listelm e : Z) (s : store) : outcome store :=
  _ ← QMD_TAILQ_CHECK_PREV listelm s;
  v ← get_entry listelm s;
  s ← set_prev e (tqe_prev v) s;
  s ← assign (NextOf e) (Some listelm) s;
  s ← assign (tqe_prev v) (Some e) s;
  set_prev listelm (NextOf e) s.

Definition TAILQ_REMOVE (h e : Z) (s : store) : outcome store :=
  _ ← QMD_TAILQ_CHECK_NEXT e s;
  _ ← QMD_TAILQ_CHECK_PREV e s;
  v ← get_entry e s;
  s ← match tqe_next v with
      | Some n => set_prev n (tqe_prev v) s
      | None => set_last h (tqe_prev v) s
      end;
  v ← get_entry e s;
  assign (tqe_prev v) (tqe_next v) s.

Definition TAILQ_CONCAT (h1 h2 : Z) (s : store) : outcome store :=
  empty ← TAILQ_EMPTY h2 s;
  if empty : bool then Ok s else
  v1 ← get_head h1 s; v2 ← get_head h2 s;
  s ← assign (tqh_last v1) (tqh_first v2) s;
  f ← deref_opt (tqh_first v2);
  s ← set_prev f (tqh_last v1) s;
  s ← set_last h1 (tqh_last v2) s;
  Ok (TAILQ_INIT h2 s).

(** [TAILQ_FOREACH(var, head, field) body]: the next element is read after the
    body has run, from the element the body may have removed. *)
Definition foreach_turn {S} (get : S -> store) (body : Z -> S -> outcome S) (x : option Z * S)
  : outcome (option Z * S + S) :=
  match x with
  | (None, s) => Ok (inr s)
  | (Some e, s) => s ← body e s; n ← TAILQ_NEXT e (get s); Ok (inl (n, s))
  end.

Definition foreach {S} (get : S -> store) (h : Z) (body : Z -> S -> outcome S) (fuel : nat) (s : S)
  : outcome S :=
  f ← TAILQ_FIRST h (get s); while_loop fuel (foreach_turn get body) (f, s).

(** The loop of [remove_pid]: every element the test accepts is removed. *)
Definition remove_if (test : Z -> bool) (h e : Z) (s : store) : outcome store :=
  if test e then TAILQ_REMOVE h e s else Ok s.

Definition foreach_remove (test : Z -> bool) (h : Z) (fuel : nat) (s : store) : outcome store :=
  foreach id h (remove_if test h) fuel s.

(** The move of [get_next_process]: the first element goes to the back. *)
Definition rotate_first (h : Z) (s : store) : outcome (option Z * store) :=
  first ← TAILQ_FIRST h s;
  match first with
  | None => Ok (None, s)
  | Some e => s ← TAILQ_REMOVE h e s; s ← TAILQ_INSERT_TAIL h e s; Ok (Some e, s)
  end.

(** ** What a store says about a queue

    A store is read through three views: the value of each pointer field, the
    back pointer of each element, the last field of each head. Each write
    changes one view at one place. *)
Definition get_prev (e : Z) (s : store) : outcome field := v ← get_entry e s; Ok (tqe_prev v).
Definition get_last (h : Z) (s : store) : outcome field := v ← get_head h s; Ok (tqh_last v).

Ltac store_views :=
  unfold get_prev, get_last, deref, get_head, get_entry, put_head, put_entry, deref_opt in *; simpl in *;
  rewrite ?lookup_insert in *; repeat case_decide; simplify_eq; simpl in *; simplify_eq; try done;
  repeat match goal with H : _ !! _ = _ |- _ => rewrite H in * end; simpl in *; simplify_eq; try done.

Lemma assign_spec f v v0 s :
  deref f s = Ok v0 ->
  exists s', assign f v s = Ok s' /\
    (forall g, deref g s' = if decide (g = f) then Ok v else deref g s) /\
    (forall e, get_prev e s' = get_prev e s) /\ (forall h, get_last h s' = get_last h s).
Proof.
  destruct f as [h|e]; simpl; intros (o & Ho & _)%bind_Ok; rewrite Ho; simpl; (eexists; split; [done|]);
    (split; [intros [h'|e']|split; [intros e'|intros h']]);
    unfold get_head, get_entry, deref_opt in Ho; case_match; store_views.
Qed.

Lemma set_prev_spec e f p0 s :
  get_prev e s = Ok p0 ->
  exists s', set_prev e f s = Ok s' /\ (forall g, deref g s' = deref g s) /\
    (forall e', get_prev e' s' = if decide (e' = e) then Ok f else get_prev e' s) /\
    (forall h, get_last h s' = get_last h s).
Proof.
  unfold get_prev at 1, set_prev. intros (o & Ho & _)%bind_Ok. rewrite Ho; simpl. eexists; split; [done|].
  (split; [intros [h'|e']|split; [intros e'|intros h']]);
    unfold get_entry, deref_opt in Ho; case_match; store_views.
Qed.

Lemma set_last_spec h f p0 s :
  get_last h s = Ok p0 ->
  exists s', set_last h f s = Ok s' /\ (forall g, deref g s' = deref g s) /\
    (forall e, get_prev e s' = get_prev e s) /\
    (forall h', get_last h' s' = if decide (h' = h) then Ok f else get_last h' s).
Proof.
  unfold get_last at 1, set_last. intros (o & Ho & _)%bind_Ok. rewrite Ho; simpl. eexists; split; [done|].
  (split; [intros [h''|e']|split; [intros e'|intros h']]);
    unfold get_head, deref_opt in Ho; case_match; store_views.
Qed.

Lemma get_entry_views e s n p :
  deref (NextOf e) s = Ok n -> get_prev e s = Ok p -> get_entry e s = Ok (TailqEntry n p).
Proof.
  unfold get_prev; simpl. destruct (get_entry e s) as [[n' p']|]; simpl; congruence.
Qed.

Lemma get_head_views h s n p :
  deref (FirstOf h) s = Ok n -> get_last h s = Ok p -> get_head h s = Ok (TailqHead n p).
Proof.
  unfold get_last; simpl. destruct (get_head h s) as [[n' p']|]; simpl; congruence.
Qed.

(* From here on a store is known through its views only. *)
#[local] Arguments deref : simpl never.
#[local] Arguments assign : simpl never.

(** ** The representation predicate

    [tailq s h l]: in the store [s], the head at [h] holds the elements [l] in
    order, with every back pointer and the head's last field in place. *)
Definition first_of (l : list Z) (n : option Z) : option Z :=
  match l with [] => n | a :: _ => Some a end.

Fixpoint last_field (f : field) (l : list Z) : field :=
  match l with [] => f | a :: l => last_field (NextOf a) l end.

Fixpoint dseg (s : store) (f : field) (l : list Z) (n : option Z) : Prop :=
  match l with
  | [] => deref f s = Ok n
  | a :: l => deref f s = Ok (Some a) /\ get_prev a s = Ok f /\ dseg s (NextOf a) l n
  end.

Definition tailq (s : store) (h : Z) (l : list Z) : Prop :=
  dseg s (FirstOf h) l None /\ get_last h s = Ok (last_field (FirstOf h) l) /\ NoDup l.

(** The memory of an element exists. *)
Definition allocated (e : Z) (s : store) : Prop := exists v, get_entry e s = Ok v.

(** A write to a queue leaves the fields of every other queue alone. *)
Definition outside (h : Z) (l : list Z) (g : field) : Prop :=
  g <> FirstOf h /\ forall a, a ∈ l -> g <> NextOf a.
Definition frame (h : Z) (l : list Z) (s s' : store) : Prop :=
  (forall g, outside h l g -> deref g s' = deref g s) /\
  (forall a, a ∉ l -> get_prev a s' = get_prev a s) /\
  (forall h', h' <> h -> get_last h' s' = get_last h' s).

Lemma last_field_snoc f l a : last_field f (l ++ [a]) = NextOf a.
Proof. revert f; induction l; intros f; simpl; auto. Qed.

Lemma last_field_in f l : last_field f l = f \/ exists a, a ∈ l /\ last_field f l = NextOf a.
Proof.
  revert f; induction l as [|b l IH]; intros f; simpl; [by left|].
  destruct (IH (NextOf b)) as [->|(a & Ha & ->)]; right; [exists b|exists a]; set_solver.
Qed.

Lemma dseg_app s f l1 l2 n :
  dseg s f (l1 ++ l2) n <-> dseg s f l1 (first_of l2 n) /\ dseg s (last_field f l1) l2 n.
Proof.
  revert f; induction l1 as [|a l1 IH]; intros f; simpl.
  - split; [|tauto]. intros H. split; [|done]. destruct l2; [done|apply H].
  - rewrite IH. tauto.
Qed.

Lemma dseg_first s f l n : dseg s f l n -> deref f s = Ok (first_of l n).
Proof. destruct l; simpl; tauto. Qed.

Lemma dseg_last s f l n : dseg s f l n -> deref (last_field f l) s = Ok n.
Proof. revert f; induction l; intros f; simpl; naive_solver. Qed.

(** A segment survives when only the field at its end, and fields outside it,
    change; it then ends in what that field holds now. *)
Lemma dseg_change s s' f l n m :
  dseg s f l n -> NoDup l -> (forall a, a ∈ l -> f <> NextOf a) ->
  (forall g, (g = f \/ exists a, a ∈ l /\ g = NextOf a) -> g <> last_field f l -> deref g s' = deref g s) ->
  (forall a, a ∈ l -> get_prev a s' = get_prev a s) ->
  deref (last_field f l) s' = Ok m ->
  dseg s' f l m.
Proof.
  revert f; induction l as [|a l IH]; intros f Hs Hnd Hf Hg Hp Hm; simpl in *; [done|].
  destruct Hs as (H1 & H2 & H3). apply NoDup_cons in Hnd as [Ha Hnd].
  assert (Hne : f <> last_field (NextOf a) l).
  { destruct (last_field_in (NextOf a) l) as [->|(b & Hb & ->)]; apply Hf; set_solver. }
  split; [rewrite Hg by auto; done|]. split; [rewrite Hp by set_solver; done|].
  apply IH; try done.
  - intros b Hb [= ->]. done.
  - intros g Hin. apply Hg. right. destruct Hin as [->|(b & ? & ->)]; eexists; split; try done; set_solver.
  - intros b Hb. apply Hp. set_solver.
Qed.

(** A queue survives a write to another queue. *)
Lemma tailq_frame h l s s' h' l' :
  frame h l s s' -> h' <> h -> (forall a, a ∈ l' -> a ∉ l) -> tailq s h' l' -> tailq s' h' l'.
Proof.
  intros (Hd & Hp & Hl) Hh Hdisj (Hs & Hlast & Hnd).
  assert (Hout : forall g, (g = FirstOf h' \/ exists a, a ∈ l' /\ g = NextOf a) -> outside h l g).
  { intros g [->|(a & Ha & ->)]; split; try congruence; try done. intros b Hb [= ->]. by eapply Hdisj. }
  split; [|split; [by rewrite Hl|done]].
  eapply dseg_change; try done.
  - intros g Hg _. apply Hd, Hout, Hg.
  - intros a Ha. apply Hp, Hdisj, Ha.
  - rewrite Hd; [by apply dseg_last|]. apply Hout. apply last_field_in.
Qed.

(** Run one write of an operation. *)
Ltac step_write H s :=
  let E := fresh "E" in let D := fresh "D" in let P := fresh "P" in let L := fresh "L" in
  destruct H as (s & E & D & P & L); rewrite E; simpl.

Lemma last_field_app f l1 l2 : last_field f (l1 ++ l2) = last_field (last_field f l1) l2.
Proof. revert f; induction l1; intros f; simpl; auto. Qed.

Lemma last_field_ne f l e : f <> NextOf e -> e ∉ l -> last_field f l <> NextOf e.
Proof.
  intros Hf He. destruct (last_field_in f l) as [->|(a & Ha & ->)]; [done|]. intros [= ->]. done.
Qed.

Lemma allocated_views e s :
  allocated e s -> exists n p, deref (NextOf e) s = Ok n /\ get_prev e s = Ok p.
Proof. intros (v & Hv). exists (tqe_next v), (tqe_prev v). unfold get_prev, deref. by rewrite Hv. Qed.

Lemma tailq_get_head s h l :
  tailq s h l -> get_head h s = Ok (TailqHead (first_of l None) (last_field (FirstOf h) l)).
Proof. intros (Hs & Hl & _). by apply get_head_views; [apply dseg_first in Hs|]. Qed.

(** A head that was initialised holds the empty queue. *)
Lemma tailq_init h s : tailq (TAILQ_INIT h s) h [].
Proof.
  split; [|split; [|constructor]]; unfold TAILQ_INIT; simpl; store_views.
Qed.

(** What [TAILQ_INSERT_TAIL] writes. *)
Lemma insert_tail_views s h l e :
  tailq s h l -> allocated e s -> e ∉ l ->
  exists s', TAILQ_INSERT_TAIL h e s = Ok s' /\
    (forall g, deref g s' = if decide (g = last_field (FirstOf h) l) then Ok (Some e)
                       else if decide (g = NextOf e) then Ok None else deref g s) /\
    (forall a, get_prev a s' = if decide (a = e) then Ok (last_field (FirstOf h) l) else get_prev a s) /\
    (forall h', get_last h' s' = if decide (h' = h) then Ok (NextOf e) else get_last h' s).
Proof.
  intros Hq (n0 & p0 & Hn0 & Hp0)%allocated_views He.
  pose proof (tailq_get_head _ _ _ Hq) as Hh. destruct Hq as (Hs & Hl & Hnd).
  pose proof (dseg_last _ _ _ _ Hs) as Hlf. pose proof (dseg_first _ _ _ _ Hs) as Hff.
  set (lf := last_field (FirstOf h) l) in *.
  assert (Hlfe : lf <> NextOf e) by by apply last_field_ne.
  unfold TAILQ_INSERT_TAIL, QMD_TAILQ_CHECK_TAIL. rewrite Hh; simpl. rewrite Hlf; simpl.
  step_write (assign_spec (NextOf e) None n0 s Hn0) s1.
  rewrite (get_head_views h s1 (first_of l None) lf) by (rewrite ?D, ?L, ?decide_False; done). simpl.
  step_write (set_prev_spec e lf p0 s1 ltac:(by rewrite P)) s2.
  step_write (assign_spec lf (Some e) None s2 ltac:(by rewrite D0, D, decide_False)) s3.
  step_write (set_last_spec h (NextOf e) lf s3 ltac:(by rewrite L1, L0, L)) s4.
  exists s4. split; [done|].
  split; [intros g; by rewrite D2, D1, D0, D|].
  split; [intros a; by rewrite P2, P1, P0, P|intros h'; by rewrite L2, L1, L0, L].
Qed.

(** [TAILQ_INSERT_TAIL] of an element that is in no queue never panics and
    appends the element, whatever else the store holds. *)
Lemma insert_tail_tailq s h l e :
  tailq s h l -> allocated e s -> e ∉ l ->
  exists s', TAILQ_INSERT_TAIL h e s = Ok s' /\ tailq s' h (l ++ [e]) /\ frame h (l ++ [e]) s s'.
Proof.
  intros Hq Ha He. destruct (insert_tail_views s h l e Hq Ha He) as (s' & E & HD & HP & HL).
  exists s'. split; [done|]. destruct Hq as (Hs & Hl & Hnd).
  split; [split; [|split]|].
  - apply dseg_app. split; simpl.
    + eapply dseg_change; try done; [|intros a Hin; rewrite HP, decide_False by set_solver; done|by rewrite HD, decide_True].
      intros g Hg Hne. rewrite HD, decide_False, decide_False; [done| |done].
      destruct Hg as [->|(a & Hin & ->)]; [done|]. intros [= ->]. done.
    + assert (Hne : NextOf e <> last_field (FirstOf h) l) by by apply not_eq_sym, last_field_ne.
      rewrite !HD, HP. repeat case_decide; done.
  - by rewrite HL, decide_True, last_field_snoc.
  - rewrite NoDup_app. split; [done|]. split; [set_solver|apply NoDup_singleton].
  - split; [|split]; [intros g [Hg1 Hg2]|intros a Hin|intros h' Hh'].
    + rewrite HD, decide_False, decide_False; [done|apply Hg2; set_solver|].
      destruct (last_field_in (FirstOf h) l) as [->|(a & Hin & ->)]; [done|apply Hg2; set_solver].
    + rewrite HP, decide_False by set_solver. done.
    + by rewrite HL, decide_False.
Qed.

(** The position of an element of a queue: what points to it and what follows. *)
Lemma tailq_split s h l1 e l2 :
  tailq s h (l1 ++ e :: l2) ->
  let f1 := last_field (FirstOf h) l1 in
  dseg s (FirstOf h) l1 (Some e) /\ deref f1 s = Ok (Some e) /\ get_prev e s = Ok f1 /\
  dseg s (NextOf e) l2 None /\ get_entry e s = Ok (TailqEntry (first_of l2 None) f1) /\
  get_last h s = Ok (last_field (NextOf e) l2) /\ f1 <> NextOf e /\
  (e ∉ l1) /\ (e ∉ l2) /\ NoDup l1 /\ NoDup l2 /\ (forall a, a ∈ l1 -> a ∉ l2).
Proof.
  intros (Hs & Hl & Hnd) f1. apply dseg_app in Hs as [Hs1 (H1 & H2 & Hs2)].
  apply NoDup_app in Hnd as (Hnd1 & Hdis & Hnd2). apply NoDup_cons in Hnd2 as [He2 Hnd2].
  rewrite last_field_app in Hl. pose proof (dseg_first _ _ _ _ Hs2).
  assert (He1 : e ∉ l1) by (intros Hin; eapply Hdis; [done|set_solver]).
  repeat split; try done.
  - by apply get_entry_views.
  - by apply last_field_ne.
  - intros a Ha Ha2. eapply Hdis; [done|set_solver].
Qed.

Lemma last_field_suffix f g l : l <> [] -> last_field f l = last_field g l.
Proof. destruct l; done. Qed.

(** The checks pass on an element of the queue. *)
Lemma remove_checks s h l1 e l2 :
  tailq s h (l1 ++ e :: l2) ->
  QMD_TAILQ_CHECK_NEXT e s = Ok tt /\ QMD_TAILQ_CHECK_PREV e s = Ok tt.
Proof.
  intros (_ & Hf1 & _ & Hs2 & Hee & _)%tailq_split. split.
  - unfold QMD_TAILQ_CHECK_NEXT, TAILQ_NEXT. rewrite (dseg_first _ _ _ _ Hs2).
    destruct l2 as [|b l2]; simpl; [done|]. destruct Hs2 as (_ & Hpb & Hs2%dseg_first).
    rewrite (get_entry_views b s _ _ Hs2 Hpb); simpl. by rewrite bool_decide_true.
  - unfold QMD_TAILQ_CHECK_PREV. rewrite Hee; simpl. rewrite Hf1; simpl. by rewrite bool_decide_true.
Qed.

(** What [TAILQ_REMOVE] writes. *)
Lemma remove_views s h l1 e l2 :
  tailq s h (l1 ++ e :: l2) ->
  let f1 := last_field (FirstOf h) l1 in
  exists s', TAILQ_REMOVE h e s = Ok s' /\
    (forall g, deref g s' = if decide (g = f1) then Ok (first_of l2 None) else deref g s) /\
    (forall a, get_prev a s' = if decide (first_of l2 None = Some a) then Ok f1 else get_prev a s) /\
    (forall h', get_last h' s' = if decide (h' = h /\ l2 = []) then Ok f1 else get_last h' s).
Proof.
  intros Hq f1. pose proof (remove_checks _ _ _ _ _ Hq) as [Hc1 Hc2].
  apply tailq_split in Hq as (_ & Hf1 & Hpe & Hs2 & Hee & Hl & Hne & _ & He2 & _). fold f1 in Hf1, Hpe, Hee, Hne.
  pose proof (dseg_first _ _ _ _ Hs2) as Hn.
  unfold TAILQ_REMOVE. rewrite Hc1, Hc2; simpl. rewrite Hee; simpl.
  assert (exists s1, match first_of l2 None with Some n => set_prev n f1 s | None => set_last h f1 s end = Ok s1 /\
     (forall g, deref g s1 = deref g s) /\
     (forall a, get_prev a s1 = if decide (first_of l2 None = Some a) then Ok f1 else get_prev a s) /\
     (forall h', get_last h' s1 = if decide (h' = h /\ l2 = []) then Ok f1 else get_last h' s))
    as (s1 & E1 & D1 & P1 & L1).
  { destruct l2 as [|b l2]; simpl.
    - destruct (set_last_spec h f1 _ s Hl) as (s1 & E & D & P & L). exists s1. split; [done|]. split; [done|].
      split; [intros a; by rewrite P|intros h'; rewrite L; repeat case_decide; naive_solver].
    - destruct Hs2 as (_ & Hpb & _). destruct (set_prev_spec b f1 _ s Hpb) as (s1 & E & D & P & L).
      exists s1. split; [done|]. split; [done|].
      split; [intros a; rewrite P|intros h'; rewrite L]; repeat case_decide; naive_solver. }
  assert (Hfe : first_of l2 None <> Some e) by (destruct l2; simpl; set_solver).
  rewrite E1; simpl.
  rewrite (get_entry_views e s1 (first_of l2 None) f1) by (rewrite ?D1, ?P1, ?decide_False; done). simpl.
  destruct (assign_spec f1 (first_of l2 None) (Some e) s1 ltac:(by rewrite D1)) as (s2 & E2 & D2 & P2 & L2).
  exists s2. split; [done|].
  split; [intros g; by rewrite D2, D1|split; [intros a; by rewrite P2, P1|intros h'; by rewrite L2, L1]].
Qed.

(** [TAILQ_REMOVE] of an element of the queue never panics, takes that element
    out, and leaves its own next pointer readable. *)
Lemma remove_tailq s h l1 e l2 :
  tailq s h (l1 ++ e :: l2) ->
  exists s', TAILQ_REMOVE h e s = Ok s' /\ tailq s' h (l1 ++ l2) /\
    frame h (l1 ++ e :: l2) s s' /\ allocated e s' /\ TAILQ_NEXT e s' = Ok (first_of l2 None).
Proof.
  intros Hq. destruct (remove_views _ _ _ _ _ Hq) as (s' & E & HD & HP & HL). exists s'. split; [done|].
  pose proof Hq as (Hs1 & _ & Hpe & Hs2 & _ & Hl & Hne & He1 & He2 & Hnd1 & Hnd2 & Hdis)%tailq_split.
  set (f1 := last_field (FirstOf h) l1) in *.
  assert (Hfe : first_of l2 None <> Some e) by (destruct l2; simpl; set_solver).
  assert (Hne2 : forall a, a ∈ l2 -> NextOf a <> f1).
  { intros a Ha. apply not_eq_sym, last_field_ne; [done|]. intros Ha1. by eapply Hdis. }
  assert (HDe : deref (NextOf e) s' = Ok (first_of l2 None)).
  { rewrite HD, decide_False by done. by apply dseg_first in Hs2. }
  split; [|split; [|split]].
  - split; [|split].
    + apply dseg_app. split.
      * eapply dseg_change; try done; [intros g _ Hg; by rewrite HD, decide_False| |by rewrite HD, decide_True].
        intros a Ha. rewrite HP, decide_False; [done|]. intros Hfa. destruct l2; simplify_eq/=. set_solver.
      * fold f1. destruct l2 as [|b l2]; simpl in *; [by rewrite HD, decide_True|].
        rewrite HD, HP, !decide_True by done. split; [done|]. split; [done|].
        destruct Hs2 as (_ & _ & Hs2). apply NoDup_cons in Hnd2 as [Hb Hnd2].
        eapply dseg_change; try done; [congruence|..].
        -- intros g Hg _. rewrite HD, decide_False; [done|]. destruct Hg as [->|(a & Ha & ->)]; apply Hne2; set_solver.
        -- intros a Ha. rewrite HP, decide_False; [done|congruence].
        -- rewrite HD, decide_False; [by apply dseg_last|].
           destruct (last_field_in (NextOf b) l2) as [->|(a & Ha & ->)]; apply Hne2; set_solver.
    + rewrite HL, last_field_app. fold f1. destruct l2 as [|b l2]; [by rewrite decide_True|].
      rewrite decide_False by naive_solver. by rewrite Hl.
    + by apply NoDup_app.
  - split; [|split]; [intros g [Hg1 Hg2]|intros a Ha|intros h' Hh'].
    + rewrite HD, decide_False; [done|].
      unfold f1. destruct (last_field_in (FirstOf h) l1) as [->|(a & Ha & ->)]; [done|apply Hg2; set_solver].
    + rewrite HP, decide_False; [done|]. destruct l2; simpl; set_solver.
    + rewrite HL, decide_False; naive_solver.
  - exists (TailqEntry (first_of l2 None) f1). apply get_entry_views; [done|].
    by rewrite HP, decide_False.
  - done.
Qed.

Lemma frame_refl h l s : frame h l s s.
Proof. by repeat split. Qed.

Lemma frame_weaken h l l' s s' : frame h l s s' -> (forall a, a ∈ l -> a ∈ l') -> frame h l' s s'.
Proof.
  intros (Hd & Hp & Hl) Hsub. split; [|split; [|done]].
  - intros g [Hg1 Hg2]. apply Hd. split; [done|]. intros a Ha. by apply Hg2, Hsub.
  - intros a Ha. apply Hp. intros Hin. by apply Ha, Hsub.
Qed.

Lemma frame_trans h l s1 s2 s3 : frame h l s1 s2 -> frame h l s2 s3 -> frame h l s1 s3.
Proof.
  intros (Hd & Hp & Hl) (Hd' & Hp' & Hl'). split; [|split].
  - intros g Hg. by rewrite Hd', Hd.
  - intros a Ha. by rewrite Hp', Hp.
  - intros h' Hh. by rewrite Hl', Hl.
Qed.

(** The element after [e] in a queue is what [TAILQ_NEXT] reads. *)
Lemma tailq_next s h l1 e l2 : tailq s h (l1 ++ e :: l2) -> TAILQ_NEXT e s = Ok (first_of l2 None).
Proof. intros (_ & _ & _ & Hs2 & _)%tailq_split. by apply dseg_first in Hs2. Qed.

Lemma tailq_first s h l : tailq s h l -> TAILQ_FIRST h s = Ok (first_of l None).
Proof. intros (Hs & _). by apply dseg_first in Hs. Qed.

Definition kept (test : Z -> bool) (l : list Z) : list Z := filter (fun a => test a = false) l.

Lemma foreach_remove_loop test h todo : forall past fuel s,
  tailq s h (past ++ todo) -> (length todo < fuel)%nat ->
  exists s', while_loop fuel (foreach_turn id (remove_if test h)) (first_of todo None, s) = Ok s' /\
    tailq s' h (past ++ kept test todo) /\ frame h (past ++ todo) s s'.
Proof.
  induction todo as [|e todo IH]; intros past fuel s Hq Hfuel; cbn [length] in Hfuel;
    (destruct fuel as [|fuel]; [lia|]); cbn [while_loop foreach_turn first_of mbind outcome_bind].
  - exists s. split; [done|]. split; [done|apply frame_refl].
  - unfold kept. rewrite filter_cons.
    assert (Er : remove_if test h e s = if test e then TAILQ_REMOVE h e s else Ok s) by done.
    rewrite Er. destruct (test e) eqn:Et.
    + destruct (remove_tailq _ _ _ _ _ Hq) as (s1 & -> & Hq1 & Hfr & _ & Hn).
      cbn [mbind outcome_bind id]. rewrite Hn. cbn [mbind outcome_bind id].
      destruct (IH past fuel s1 Hq1) as (s' & -> & Hq' & Hfr'); [lia|].
      exists s'. split; [done|]. split; [done|]. eapply frame_trans; [done|].
      eapply frame_weaken; [done|set_solver].
    + cbn [mbind outcome_bind id]. rewrite (tailq_next _ _ _ _ _ Hq). cbn [mbind outcome_bind id].
      destruct (IH (past ++ [e]) fuel s) as (s' & -> & Hq' & Hfr'); [by rewrite <- app_assoc|lia|].
      exists s'. rewrite <- !app_assoc in *. done.
Qed.

(** Removing elements inside [TAILQ_FOREACH], as
    [remove_pid] does, removes exactly the elements the test accepts: the loop
    goes on from the removed element, whose next pointer still stands. *)
Lemma foreach_remove_refines s h l test fuel :
  tailq s h l -> (length l < fuel)%nat ->
  exists s', foreach_remove test h fuel s = Ok s' /\ tailq s' h (kept test l) /\ frame h l s s'.
Proof.
  intros Hq Hf. unfold foreach_remove, foreach. rewrite (tailq_first _ _ _ Hq : TAILQ_FIRST h (id s) = _); simpl.
  by apply (foreach_remove_loop test h l []).
Qed.

(** Taking the first element out and inserting it at the tail, as
    [get_next_process] does, rotates the queue. *)
Lemma rotate_first_tailq s h e l :
  tailq s h (e :: l) ->
  exists s', rotate_first h s = Ok (Some e, s') /\ tailq s' h (l ++ [e]) /\ frame h (e :: l) s s'.
Proof.
  intros Hq. unfold rotate_first. rewrite (tailq_first _ _ _ Hq); simpl.
  pose proof (tailq_split _ _ [] _ _ Hq) as (_ & _ & _ & _ & _ & _ & _ & _ & He & _).
  destruct (remove_tailq s h [] e l Hq) as (s1 & E1 & Hq1 & Hf1 & Ha & _). rewrite E1; simpl in *.
  destruct (insert_tail_tailq s1 h l e Hq1 Ha He) as (s2 & E2 & Hq2 & Hf2). rewrite E2; simpl.
  exists s2. split; [done|]. split; [done|]. eapply frame_trans; [done|].
  eapply frame_weaken; [done|set_solver].
Qed.

(** ** Any sequence of operations *)
Inductive queue_op := InsertTail (e : Z) | RemoveElm (e : Z) | RotateFirst.

(** On the list; [None] when the operation is not one the code may perform. *)
Definition list_op (op : queue_op) (l : list Z) : option (list Z) :=
  match op with
  | InsertTail e => if decide (e ∈ l) then None else Some (l ++ [e])
  | RemoveElm e => if decide (e ∈ l) then Some (filter (fun a => a <> e) l) else None
  | RotateFirst => match l with [] => None | e :: l => Some (l ++ [e]) end
  end.

(** On the pointers. *)
Definition store_op (h : Z) (op : queue_op) (s : store) : outcome store :=
  match op with
  | InsertTail e => TAILQ_INSERT_TAIL h e s
  | RemoveElm e => TAILQ_REMOVE h e s
  | RotateFirst => '(_, s) ← rotate_first h s; Ok s
  end.

Fixpoint list_run (ops : list queue_op) (l : list Z) : option (list Z) :=
  match ops with [] => Some l | op :: ops => l ← list_op op l; list_run ops l end.
Fixpoint store_run (h : Z) (ops : list queue_op) (s : store) : outcome store :=
  match ops with [] => Ok s | op :: ops => s ← store_op h op s; store_run h ops s end.

Definition mentions (op : queue_op) (e : Z) : Prop :=
  match op with InsertTail e' | RemoveElm e' => e = e' | RotateFirst => False end.

Lemma tailq_allocated s h l a : tailq s h l -> a ∈ l -> allocated a s.
Proof.
  intros Hq (l1 & l2 & ->)%list_elem_of_split. pose proof (tailq_next _ _ _ _ _ Hq) as Hn.
  apply tailq_split in Hq as (_ & _ & Hp & _). eexists. apply get_entry_views; [exact Hn|exact Hp].
Qed.

Lemma frame_allocated h l s s' a : frame h l s s' -> a ∉ l -> allocated a s -> allocated a s'.
Proof.
  intros (Hd & Hp & _) Ha (n & p & Hn & Hpr)%allocated_views. eexists. apply get_entry_views.
  - rewrite Hd; [exact Hn|]. split; [done|]. intros b Hb [= ->]. done.
  - rewrite Hp; [exact Hpr|done].
Qed.

Lemma store_op_refines h op s l l' :
  tailq s h l -> (forall e, mentions op e -> allocated e s) -> list_op op l = Some l' ->
  exists s', store_op h op s = Ok s' /\ tailq s' h l' /\ (forall a, a ∈ l' -> a ∈ l \/ mentions op a) /\
    (forall a, a ∈ l -> a ∉ l' -> allocated a s') /\
    exists footprint, frame h footprint s s' /\ forall a, a ∈ footprint -> a ∈ l \/ mentions op a.
Proof.
  intros Hq Hal Hop. destruct op as [e|e|]; simpl in *.
  - case_decide as He; [done|]. injection Hop as <-.
    destruct (insert_tail_tailq s h l e Hq (Hal e eq_refl) He) as (s' & E & Hq' & Hf). exists s'.
    split; [done|]. split; [done|]. split; [set_solver|]. split; [set_solver|]. exists (l ++ [e]). split; [done|set_solver].
  - case_decide as He; [|done]. injection Hop as <-. apply list_elem_of_split in He as (l1 & l2 & ->).
    destruct (remove_tailq s h l1 e l2 Hq) as (s' & E & Hq' & Hf & Ha & _). exists s'. split; [done|].
    pose proof Hq as (_ & _ & _ & _ & _ & _ & _ & He1 & He2 & _)%tailq_split.
    assert (filter (fun a => a <> e) (l1 ++ e :: l2) = l1 ++ l2) as ->.
    { rewrite filter_app, filter_cons, decide_False by tauto. by rewrite !filter_ne_absent. }
    split; [done|]. split; [set_solver|]. split; [|eexists; split; [exact Hf|set_solver]].
    intros a Hin Hout. assert (a = e) as -> by set_solver. done.
  - destruct l as [|e l]; [done|]. injection Hop as <-. destruct (rotate_first_tailq s h e l Hq) as (s' & E & Hq' & Hf).
    exists s'. rewrite E. split; [done|]. split; [done|]. split; [set_solver|]. split; [set_solver|].
    eexists. split; [exact Hf|set_solver].
Qed.

(** Any sequence of insertions at the tail, removals and
    rotations that makes sense on a list of distinct elements runs on the
    pointers without a panic and leaves exactly that list in the queue,
    provided the elements inserted are allocated; queues of other elements in
    the same store are what they were. *)
Lemma queue_operations_refine h ops s l l' :
  tailq s h l -> (forall op e, op ∈ ops -> mentions op e -> allocated e s) -> list_run ops l = Some l' ->
  exists s', store_run h ops s = Ok s' /\ tailq s' h l' /\
    forall h2 l2, tailq s h2 l2 -> h2 <> h -> (forall a, a ∈ l2 -> (a ∉ l) /\ forall op, op ∈ ops -> ~ mentions op a) -> tailq s' h2 l2.
Proof.
  revert s l. induction ops as [|op ops IH]; intros s l Hq Hal Hrun; simpl in *.
  - injection Hrun as <-. by exists s.
  - destruct (list_op op l) as [l1|] eqn:Eop; [|done]. simpl in Hrun.
    destruct (store_op_refines h op s l l1 Hq) as (s1 & -> & Hq1 & Hin & Hout & fp & Hf & Hfp); [intros e; apply Hal; set_solver|done|].
    destruct (IH s1 l1 Hq1) as (s' & E & Hq' & Hframe); [|done|].
    { intros op' e Hop' Hm. destruct (decide (e ∈ l1)); [by eapply tailq_allocated|].
      destruct (decide (e ∈ l)); [by apply Hout|]. destruct (decide (e ∈ fp)) as [[|Hme]%Hfp|]; [done| |].
      - destruct op; simpl in *; subst; try done; repeat case_decide; simplify_eq; set_solver.
      - eapply frame_allocated; [done|done|]. apply (Hal op'); [set_solver|done]. }
    exists s'. split; [done|]. split; [done|]. intros h2 l2 Hq2 Hh2 Hdis. apply Hframe; [|done|].
    + eapply tailq_frame; [done|done| |done]. intros a Ha [Hal2|Hme]%Hfp; [by apply (Hdis a)|]. by apply (proj2 (Hdis a Ha) op); [set_solver|].
    + intros a Ha. split; [intros [|]%Hin; [by apply (Hdis a)|by apply (proj2 (Hdis a Ha) op); [set_solver|]]|].
      intros op' Hop'. apply (Hdis a Ha). set_solver.
Qed.

(** ** The theorems at work: three elements in one of two queues *)
Definition demo_store : store :=
  Store {[ 1 := TailqHead (Some 10) (NextOf 12); 2 := TailqHead None (FirstOf 2) ]}
    {[ 10 := TailqEntry (Some 11) (FirstOf 1); 11 := TailqEntry (Some 12) (NextOf 10); 12 := TailqEntry None (NextOf 11) ]}.

Lemma demo_tailq : tailq demo_store 1 [10; 11; 12].
Proof. split; [by repeat split|]. split; [done|]. apply (bool_decide_unpack _). by vm_compute. Qed.

Lemma demo_tailq_empty : tailq demo_store 2 [].
Proof. split; [done|]. split; [done|constructor]. Qed.

Lemma queue_operations_refine_witness :
  exists s', store_run 1 [RotateFirst; RemoveElm 12; InsertTail 12] demo_store = Ok s' /\ tailq s' 1 [11; 10; 12] /\ tailq s' 2 [].
Proof.
  destruct (queue_operations_refine 1 [RotateFirst; RemoveElm 12; InsertTail 12] demo_store [10; 11; 12] [11; 10; 12] demo_tailq)
    as (s' & E & Hq & Hother).
  - intros op e Hop Hm. exists (TailqEntry None (NextOf 11)).
    rewrite !elem_of_cons, elem_of_nil in Hop. destruct Hop as [->|[->|[->|[]]]]; simpl in Hm; [done|subst; reflexivity|subst; reflexivity].
  - reflexivity.
  - exists s'. split; [exact E|]. split; [exact Hq|]. apply Hother; [exact demo_tailq_empty|done|set_solver].
Defined.

Lemma foreach_remove_refines_witness :
  exists s', foreach_remove (fun e => e =? 11) 1 4 demo_store = Ok s' /\ tailq s' 1 [10; 12].
Proof.
  destruct (foreach_remove_refines demo_store 1 [10; 11; 12] (fun e => e =? 11) 4 demo_tailq) as (s' & E & Hq & _); [simpl; lia|].
  exists s'. split; [exact E|exact Hq].
Defined.

