(* ===== verification/Queues.v ===== *)
(** * All the macros of [stdqueue.h]

    What [Tailq] leaves: [TAILQ_SWAP], the loops other than [TAILQ_FOREACH],
    and the effect of every macro. A store with several queues is a map from
    heads to lists; each macro is an operation on the map. *)
From S2P Require Import Prelude Tailq.

(** The value a head is defined with. *)
Definition TAILQ_HEAD_INITIALIZER (h : Z) : tailq_head := TailqHead None (FirstOf h).

(** ** Exchanging two queues *)

(** The first element, if any, points back to the head it is now in. *)
Definition fix_first (h : Z) (s : store) : outcome store :=
  swap_first ← TAILQ_FIRST h s;
  match swap_first with
  | Some e => set_prev e (FirstOf h) s
  | None => set_last h (FirstOf h) s
  end.

Definition TAILQ_SWAP (h1 h2 : Z) (s : store) : outcome store :=
  v1 ← get_head h1 s;
  let swap_first := tqh_first v1 in
  let swap_last := tqh_last v1 in
  v2 ← get_head h2 s;
  s ← assign (FirstOf h1) (tqh_first v2) s;
  v2 ← get_head h2 s;
  s ← set_last h1 (tqh_last v2) s;
  s ← assign (FirstOf h2) swap_first s;
  s ← set_last h2 swap_last s;
  s ← fix_first h1 s;
  fix_first h2 s.

(** ** Loops

    [link] is [TAILQ_NEXT] or [TAILQ_PREV]. The plain loops follow it after the
    body has run, the [SAFE] ones before. *)
Section Loops.
Context {S : Type} (get : S -> store) (link : Z -> store -> outcome (option Z)) (body : Z -> S -> outcome S).

Definition after_turn (x : option Z * S) : outcome (option Z * S + S) :=
  match x with
  | (None, s) => Ok (inr s)
  | (Some e, s) => s ← body e s; n ← link e (get s); Ok (inl (n, s))
  end.

Definition before_turn (x : option Z * S) : outcome (option Z * S + S) :=
  match x with
  | (None, s) => Ok (inr s)
  | (Some e, s) => tvar ← link e (get s); s ← body e s; Ok (inl (tvar, s))
  end.
End Loops.

(** [var ? var : start]. *)
Definition or_else (var : option Z) (start : outcome (option Z)) : outcome (option Z) :=
  match var with Some e => Ok (Some e) | None => start end.

Section Macros.
Context {S : Type} (get : S -> store) (h : Z) (body : Z -> S -> outcome S) (fuel : nat).

Definition TAILQ_FOREACH_FROM (var : option Z) (s : S) : outcome S :=
  var ← or_else var (TAILQ_FIRST h (get s)); while_loop fuel (after_turn get TAILQ_NEXT body) (var, s).
Definition TAILQ_FOREACH_SAFE (s : S) : outcome S :=
  var ← TAILQ_FIRST h (get s); while_loop fuel (before_turn get TAILQ_NEXT body) (var, s).
Definition TAILQ_FOREACH_FROM_SAFE (var : option Z) (s : S) : outcome S :=
  var ← or_else var (TAILQ_FIRST h (get s)); while_loop fuel (before_turn get TAILQ_NEXT body) (var, s).
Definition TAILQ_FOREACH_REVERSE (s : S) : outcome S :=
  var ← TAILQ_LAST h (get s); while_loop fuel (after_turn get TAILQ_PREV body) (var, s).
Definition TAILQ_FOREACH_REVERSE_FROM (var : option Z) (s : S) : outcome S :=
  var ← or_else var (TAILQ_LAST h (get s)); while_loop fuel (after_turn get TAILQ_PREV body) (var, s).
Definition TAILQ_FOREACH_REVERSE_SAFE (s : S) : outcome S :=
  var ← TAILQ_LAST h (get s); while_loop fuel (before_turn get TAILQ_PREV body) (var, s).
Definition TAILQ_FOREACH_REVERSE_FROM_SAFE (var : option Z) (s : S) : outcome S :=
  var ← or_else var (TAILQ_LAST h (get s)); while_loop fuel (before_turn get TAILQ_PREV body) (var, s).
End Macros.

#[local] Arguments deref : simpl never.
#[local] Arguments assign : simpl never.

Lemma initializer_tailq s h : heads s !! h = Some (TAILQ_HEAD_INITIALIZER h) -> tailq s h [].
Proof. intros Hh. unfold tailq, dseg, deref, get_last, get_head. rewrite Hh. split; [done|]. split; [done|constructor]. Qed.

(** ** Insertion *)

(** What an insertion of [e] between [l1] and [l2] writes. *)
Record inserts (s s' : store) (h : Z) (l1 : list Z) (e : Z) (l2 : list Z) : Prop := {
  in_deref : forall g, deref g s' = if decide (g = last_field (FirstOf h) l1) then Ok (Some e)
    else if decide (g = NextOf e) then Ok (first_of l2 None) else deref g s;
  in_prev : forall a, get_prev a s' = if decide (a = e) then Ok (last_field (FirstOf h) l1)
    else if decide (first_of l2 None = Some a) then Ok (NextOf e) else get_prev a s;
  in_last : forall h', get_last h' s' = if decide (h' = h /\ l2 = []) then Ok (NextOf e) else get_last h' s
}.

Lemma first_of_in l a : first_of l None = Some a -> a ∈ l.
Proof. destruct l; [done|]. intros [= ->]. by left. Qed.

(** The queue after such writes, and all that is not in it. *)
Lemma inserts_tailq s s' h l1 e l2 :
  tailq s h (l1 ++ l2) -> e ∉ l1 ++ l2 -> inserts s s' h l1 e l2 -> tailq s' h (l1 ++ e :: l2) /\ frame h (l1 ++ e :: l2) s s'.
Proof.
  intros (Hs & Hl & Hnd) He [HD HP HL]. apply dseg_app in Hs as [Hs1 Hs2]. set (f1 := last_field (FirstOf h) l1) in *.
  assert (Hf1 : f1 = FirstOf h \/ exists a, a ∈ l1 /\ f1 = NextOf a) by apply last_field_in.
  pose proof Hnd as (Hnd1 & Hdis & Hnd2)%NoDup_app.
  assert (Hne : NextOf e <> f1) by (intros E; destruct Hf1 as [|(a & Ha & Ea)]; [congruence|]; rewrite Ea in E; injection E as ->; set_solver).
  assert (Hl2 : forall a, a ∈ l2 -> NextOf a <> f1).
  { intros a Ha E. destruct Hf1 as [|(b & Hb & Eb)]; [congruence|]. rewrite Eb in E. injection E as ->. by apply (Hdis b). }
  split; [split; [|split]|].
  - apply dseg_app. split; [|split; [|split]].
    + eapply dseg_change; try done; [| |by rewrite HD, decide_True].
      * intros g Hg Hgf. rewrite HD, decide_False, decide_False; [done| |done]. destruct Hg as [->|(a & Ha & ->)]; [done|]. intros [= ->]. set_solver.
      * intros a Ha. rewrite HP, decide_False by set_solver. rewrite decide_False; [done|]. intros Hf%first_of_in. by apply (Hdis a).
    + by rewrite HD, decide_True.
    + by rewrite HP, decide_True.
    + destruct l2 as [|b l2]; [change (deref (NextOf e) s' = Ok None); by rewrite HD, decide_False, decide_True|].
      destruct Hs2 as (_ & _ & Hs2). apply NoDup_cons in Hnd2 as [Hb Hnd2]. split; [by rewrite HD, decide_False, decide_True|].
      split; [rewrite HP, decide_False by set_solver; by rewrite decide_True|].
      assert (Hout : forall g, (g = NextOf b \/ exists a, a ∈ l2 /\ g = NextOf a) -> deref g s' = deref g s).
      { intros g Hg. rewrite HD, decide_False, decide_False; [done|..]; destruct Hg as [->|(a & Ha & ->)]; try (intros [= ->]; set_solver); apply Hl2; set_solver. }
      eapply dseg_change; try done; [congruence|by intros g Hg _; apply Hout| |].
      * intros a Ha. rewrite HP, decide_False by set_solver. rewrite decide_False; [done|]. intros [= ->]. done.
      * rewrite Hout by apply last_field_in. by apply dseg_last.
  - rewrite HL, last_field_app. fold f1. destruct l2 as [|b l2]; [by rewrite decide_True|]. rewrite decide_False by naive_solver.
    rewrite Hl, last_field_app. done.
  - apply NoDup_app. split; [done|]. split; [set_solver|]. apply NoDup_cons. set_solver.
  - split; [|split]; [intros g [Hg1 Hg2]|intros a Ha|intros h' Hh'].
    + rewrite HD, decide_False, decide_False; [done|apply Hg2; set_solver|]. destruct Hf1 as [->|(a & Ha & ->)]; [done|apply Hg2; set_solver].
    + rewrite HP, decide_False by set_solver. rewrite decide_False; [done|]. intros Hf%first_of_in. set_solver.
    + rewrite HL, decide_False; [done|]. by intros [].
Qed.

(** The write that makes what comes next, or the head, point back to [f]. *)
Lemma relink h f l s :
  (exists p, get_last h s = Ok p) -> (forall n, first_of l None = Some n -> exists p, get_prev n s = Ok p) ->
  exists s1, match first_of l None with Some n => set_prev n f s | None => set_last h f s end = Ok s1 /\
    (forall g, deref g s1 = deref g s) /\
    (forall a, get_prev a s1 = if decide (first_of l None = Some a) then Ok f else get_prev a s) /\
    (forall h', get_last h' s1 = if decide (h' = h /\ l = []) then Ok f else get_last h' s).
Proof.
  intros [p0 Hl] Hp. destruct l as [|b l]; simpl.
  - destruct (set_last_spec h f p0 s Hl) as (s1 & E & D & P & L). exists s1. split; [done|]. split; [done|].
    split; [intros a; by rewrite P|intros h'; rewrite L; repeat case_decide; naive_solver].
  - destruct (Hp b eq_refl) as [p Hb]. destruct (set_prev_spec b f p s Hb) as (s1 & E & D & P & L).
    exists s1. split; [done|]. split; [done|]. split; [intros a; rewrite P|intros h'; rewrite L]; repeat case_decide; naive_solver.
Qed.

Lemma tailq_prev_known s h l1 l2 n : tailq s h (l1 ++ l2) -> first_of l2 None = Some n -> exists p, get_prev n s = Ok p.
Proof. intros Hq Hn. destruct l2 as [|b l2]; [done|]. injection Hn as ->. apply tailq_split in Hq as (_ & _ & Hp & _). by eexists. Qed.

Lemma insert_head_inserts s h l e :
  tailq s h l -> allocated e s -> e ∉ l -> exists s', TAILQ_INSERT_HEAD h e s = Ok s' /\ inserts s s' h [] e l.
Proof.
  intros Hq (n0 & p0 & Hn0 & Hp0)%allocated_views He. pose proof (tailq_first _ _ _ Hq) as Hf. pose proof Hq as (Hs & Hl & _).
  assert (Hcheck : QMD_TAILQ_CHECK_HEAD h s = Ok tt).
  { unfold QMD_TAILQ_CHECK_HEAD. rewrite Hf; simpl. destruct l as [|b l]; [done|]. cbn [first_of].
    destruct Hs as (_ & Hpb & Hs2%dseg_first). rewrite (get_entry_views b s _ _ Hs2 Hpb); simpl. by rewrite bool_decide_true. }
  unfold TAILQ_INSERT_HEAD. rewrite Hcheck; simpl. rewrite Hf; simpl.
  step_write (assign_spec (NextOf e) (first_of l None) n0 s Hn0) s1.
  step_write (relink h (NextOf e) l s1 ltac:(rewrite L; by eexists) ltac:(intros n; rewrite P; by apply (tailq_prev_known s h []))) s2.
  step_write (assign_spec (FirstOf h) (Some e) (first_of l None) s2 ltac:(rewrite D0, D, decide_False by done; exact Hf)) s3.
  assert (Hfe : first_of l None <> Some e) by by intros ?%first_of_in.
  step_write (set_prev_spec e (FirstOf h) p0 s3 ltac:(by rewrite P1, P0, decide_False, P)) s4.
  exists s4. split; [done|]. split; [intros g; rewrite D2, D1, D0, D; done|intros a; rewrite P2, P1, P0, P; done|intros h'; rewrite L2, L1, L0, L; done].
Qed.

Lemma insert_after_inserts s h l1 x l2 e :
  tailq s h (l1 ++ x :: l2) -> allocated e s -> e ∉ l1 ++ x :: l2 ->
  exists s', TAILQ_INSERT_AFTER h x e s = Ok s' /\ inserts s s' h (l1 ++ [x]) e l2.
Proof.
  intros Hq (n0 & p0 & Hn0 & Hp0)%allocated_views He. pose proof (tailq_next _ _ _ _ _ Hq) as Hn. destruct (remove_checks _ _ _ _ _ Hq) as [Hcheck _].
  assert (Hxe : NextOf x <> NextOf e) by (intros [= ->]; set_solver). assert (Hfe : first_of l2 None <> Some e) by (intros ?%first_of_in; set_solver).
  unfold TAILQ_INSERT_AFTER. rewrite Hcheck; simpl. rewrite Hn; simpl.
  step_write (assign_spec (NextOf e) (first_of l2 None) n0 s Hn0) s1.
  step_write (relink h (NextOf e) l2 s1 ltac:(rewrite L; eexists; apply Hq) ltac:(intros n; rewrite P; apply (tailq_prev_known s h (l1 ++ [x])); by rewrite <- app_assoc)) s2.
  step_write (assign_spec (NextOf x) (Some e) (first_of l2 None) s2 ltac:(rewrite D0, D, decide_False by done; exact Hn)) s3.
  step_write (set_prev_spec e (NextOf x) p0 s3 ltac:(by rewrite P1, P0, decide_False, P)) s4.
  exists s4. split; [done|]. split; [intros g; rewrite D2, D1, D0, D, last_field_snoc; done|intros a; rewrite P2, P1, P0, P, last_field_snoc; done|intros h'; rewrite L2, L1, L0, L; done].
Qed.

Lemma insert_before_inserts s h l1 x l2 e :
  tailq s h (l1 ++ x :: l2) -> allocated e s -> e ∉ l1 ++ x :: l2 ->
  exists s', TAILQ_INSERT_BEFORE x e s = Ok s' /\ inserts s s' h l1 e (x :: l2).
Proof.
  intros Hq (n0 & p0 & Hn0 & Hp0)%allocated_views He. destruct (remove_checks _ _ _ _ _ Hq) as [_ Hcheck].
  pose proof Hq as (_ & Hf1 & Hpx & _ & Hx & _)%tailq_split. set (f1 := last_field (FirstOf h) l1) in *.
  assert (Hxe : x <> e) by (intros ->; set_solver). assert (Hfe : f1 <> NextOf e) by (apply last_field_ne; [done|set_solver]).
  unfold TAILQ_INSERT_BEFORE. rewrite Hcheck; simpl. rewrite Hx; simpl.
  step_write (set_prev_spec e f1 p0 s Hp0) s1.
  step_write (assign_spec (NextOf e) (Some x) n0 s1 ltac:(by rewrite D)) s2.
  step_write (assign_spec f1 (Some e) (Some x) s2 ltac:(by rewrite D0, decide_False, D)) s3.
  step_write (set_prev_spec x (NextOf e) f1 s3 ltac:(by rewrite P1, P0, P, decide_False)) s4.
  exists s4. split; [done|]. split; [intros g; rewrite D2, D1, D0, D; done| |intros h'; rewrite L2, L1, L0, L, decide_False; [done|by intros []]].
  intros a. rewrite P2, P1, P0, P. cbn [first_of]. repeat case_decide; naive_solver.
Qed.

Lemma insert_tail_inserts s h l e :
  tailq s h l -> allocated e s -> e ∉ l -> exists s', TAILQ_INSERT_TAIL h e s = Ok s' /\ inserts s s' h l e [].
Proof.
  intros Hq Ha He. destruct (insert_tail_views s h l e Hq Ha He) as (s' & E & HD & HP & HL). exists s'. split; [done|].
  split; [done|intros a; rewrite HP; cbn [first_of]; by repeat case_decide|intros h'; rewrite HL; repeat case_decide; naive_solver].
Qed.

(** ** Two queues *)

(** Nothing changes but the heads [hs] and the elements [ls]. *)
Definition touches (hs ls : list Z) (s s' : store) : Prop :=
  (forall g, (forall h, h ∈ hs -> g <> FirstOf h) -> (forall a, a ∈ ls -> g <> NextOf a) -> deref g s' = deref g s) /\
  (forall a, a ∉ ls -> get_prev a s' = get_prev a s) /\
  (forall h, h ∉ hs -> get_last h s' = get_last h s).

Lemma frame_touches h l s s' : frame h l s s' -> touches [h] l s s'.
Proof. intros (Hd & Hp & Hl). split; [intros g Hg Ha; apply Hd; split; set_solver|split; [done|set_solver]]. Qed.

Lemma tailq_apart hs ls s s' h l : touches hs ls s s' -> h ∉ hs -> (forall a, a ∈ l -> a ∉ ls) -> tailq s h l -> tailq s' h l.
Proof.
  intros (Hd & Hp & Hl) Hh Hdis (Hs & Hlast & Hnd).
  assert (Hout : forall g, (g = FirstOf h \/ exists a, a ∈ l /\ g = NextOf a) -> deref g s' = deref g s).
  { intros g Hg. apply Hd; destruct Hg as [->|(a & Ha & ->)]; try done; [by intros h' Hh' [= ->]|intros b Hb [= ->]; by apply (Hdis b)]. }
  split; [|split; [by rewrite Hl|done]].
  eapply dseg_change; try done; [by intros g Hg _; apply Hout|intros a Ha; by apply Hp, Hdis|].
  rewrite Hout by apply last_field_in. by apply dseg_last.
Qed.

(** A segment that hangs on another field. *)
Lemma dseg_moved s s' f f' l n :
  dseg s f l n -> NoDup l -> l <> [] -> deref f' s' = Ok (first_of l n) -> (forall a, first_of l None = Some a -> get_prev a s' = Ok f') ->
  (forall a, a ∈ l -> deref (NextOf a) s' = deref (NextOf a) s) -> (forall a, a ∈ l -> first_of l None <> Some a -> get_prev a s' = get_prev a s) ->
  dseg s' f' l n.
Proof.
  intros Hs Hnd Hl Hf Hp Hd Hpr. destruct l as [|a l]; [done|]. destruct Hs as (_ & _ & Hs). apply NoDup_cons in Hnd as [Ha Hnd].
  split; [done|]. split; [by apply Hp|]. eapply dseg_change; try done; [congruence| | |].
  - intros g [->|(b & Hb & ->)] _; apply Hd; set_solver.
  - intros b Hb. apply Hpr; [set_solver|]. intros [= ->]. done.
  - destruct (last_field_in (NextOf a) l) as [E|(b & Hb & E)]; rewrite E, Hd, <- E by set_solver; by apply dseg_last.
Qed.

(** What [TAILQ_INIT] writes. *)
Lemma init_views h s :
  (forall g, deref g (TAILQ_INIT h s) = if decide (g = FirstOf h) then Ok None else deref g s) /\
  (forall a, get_prev a (TAILQ_INIT h s) = get_prev a s) /\
  (forall h', get_last h' (TAILQ_INIT h s) = if decide (h' = h) then Ok (FirstOf h) else get_last h' s).
Proof.
  unfold TAILQ_INIT. split; [intros [h'|a]|split; [done|intros h']]; [|by rewrite decide_False|];
    unfold deref, get_last, get_head, put_head; simpl heads; (destruct (decide (h' = h)) as [->|Hh];
      [rewrite lookup_insert_eq; by rewrite ?decide_True|rewrite lookup_insert_ne by congruence; by rewrite ?decide_False by congruence]).
Qed.

Lemma concat_views s h1 h2 l1 b l2 :
  let f1 := last_field (FirstOf h1) l1 in
  tailq s h1 l1 -> tailq s h2 (b :: l2) -> h1 <> h2 ->
  exists s', TAILQ_CONCAT h1 h2 s = Ok s' /\
    (forall g, deref g s' = if decide (g = FirstOf h2) then Ok None else if decide (g = f1) then Ok (Some b) else deref g s) /\
    (forall a, get_prev a s' = if decide (a = b) then Ok f1 else get_prev a s) /\
    (forall h, get_last h s' = if decide (h = h2) then Ok (FirstOf h2) else if decide (h = h1) then Ok (last_field (NextOf b) l2) else get_last h s).
Proof.
  intros f1 Hq1 Hq2 Hne. unfold TAILQ_CONCAT, TAILQ_EMPTY. rewrite (tailq_first _ _ _ Hq2). cbn [mbind outcome_bind first_of].
  rewrite bool_decide_false by done. rewrite (tailq_get_head _ _ _ Hq1), (tailq_get_head _ _ _ Hq2). cbn [mbind outcome_bind tqh_first tqh_last first_of].
  fold f1. destruct Hq1 as (Hs1 & Hl1 & _). destruct Hq2 as ((_ & Hpb & _) & _ & _).
  step_write (assign_spec f1 (Some b) None s ltac:(by apply (dseg_last _ _ _ _ Hs1))) s1. cbn [deref_opt mbind outcome_bind].
  step_write (set_prev_spec b f1 (FirstOf h2) s1 ltac:(by rewrite P)) s2.
  step_write (set_last_spec h1 (last_field (NextOf b) l2) f1 s2 ltac:(by rewrite L0, L)) s3.
  destruct (init_views h2 s3) as (D2 & P2 & L2). exists (TAILQ_INIT h2 s3). split; [done|].
  split; [intros g; by rewrite D2, D1, D0, D|]. split; [intros a; by rewrite P2, P1, P0, P|intros h; by rewrite L2, L1, L0, L].
Qed.

(** [TAILQ_CONCAT] moves the second queue to the end of the first. *)
Lemma concat_tailq s h1 h2 l1 l2 :
  tailq s h1 l1 -> tailq s h2 l2 -> h1 <> h2 -> (forall a, a ∈ l1 -> a ∉ l2) ->
  exists s', TAILQ_CONCAT h1 h2 s = Ok s' /\ tailq s' h1 (l1 ++ l2) /\ tailq s' h2 [] /\ touches [h1; h2] (l1 ++ l2) s s'.
Proof.
  intros Hq1 Hq2 Hne Hdis. destruct l2 as [|b l2].
  { unfold TAILQ_CONCAT, TAILQ_EMPTY. rewrite (tailq_first _ _ _ Hq2). exists s. rewrite app_nil_r. split; [done|]. split; [done|]. split; [done|]. by split; [|split]. }
  destruct (concat_views s h1 h2 l1 b l2 Hq1 Hq2 Hne) as (s' & E & HD & HP & HL). exists s'. split; [done|].
  destruct Hq1 as (Hs1 & _ & Hnd1), Hq2 as (Hs2 & _ & Hnd2). set (f1 := last_field (FirstOf h1) l1) in *. pose proof (dseg_last _ _ _ _ Hs1) as Hd1.
  assert (Hf1 : f1 = FirstOf h1 \/ exists a, a ∈ l1 /\ f1 = NextOf a) by apply last_field_in.
  assert (Hout : forall a, a ∈ b :: l2 -> NextOf a <> f1) by (intros a Ha Ea; destruct Hf1 as [|(c & Hc & Ec)]; [congruence|]; rewrite Ec in Ea; injection Ea as ->; by apply (Hdis c)).
  assert (Hf12 : FirstOf h2 <> f1) by (destruct Hf1 as [->|(c & _ & ->)]; congruence).
  split; [|split].
  - split; [|split; [rewrite HL, decide_False, decide_True, last_field_app by done; done|apply NoDup_app; split; [done|split; [done|done]]]].
    apply dseg_app. split.
    + eapply dseg_change; try done; [|intros a Ha; rewrite HP, decide_False; [done|intros ->; by apply (Hdis b), list_elem_of_here]|fold f1; by rewrite HD, decide_False, decide_True].
      intros g Hg Hgf. rewrite HD, decide_False, decide_False; [done|done|]. destruct Hg as [->|(a & Ha & ->)]; congruence.
    + fold f1. eapply dseg_moved; [exact Hs2|done|done|by rewrite HD, decide_False, decide_True|intros a [= ->]; by rewrite HP, decide_True| |].
      * intros a Ha. rewrite HD, decide_False, decide_False; [done|by apply Hout|done].
      * intros a Ha Hab. rewrite HP, decide_False by (intros ->; done). done.
  - split; [cbn [dseg]; by rewrite HD, decide_True|]. split; [by rewrite HL, decide_True|constructor].
  - split; [intros g Hg Ha|split; [intros a Ha|intros h Hh]].
    + rewrite HD, decide_False, decide_False; [done| |by apply Hg; set_solver].
      destruct Hf1 as [->|(c & Hc & ->)]; [apply Hg; set_solver|apply Ha; set_solver].
    + rewrite HP, decide_False by (intros ->; set_solver). done.
    + rewrite HL, decide_False, decide_False by (intros ->; set_solver). done.
Qed.

Lemma fix_first_views h s l :
  deref (FirstOf h) s = Ok (first_of l None) -> (exists p, get_last h s = Ok p) -> (forall n, first_of l None = Some n -> exists p, get_prev n s = Ok p) ->
  exists s', fix_first h s = Ok s' /\ (forall g, deref g s' = deref g s) /\
    (forall a, get_prev a s' = if decide (first_of l None = Some a) then Ok (FirstOf h) else get_prev a s) /\
    (forall h', get_last h' s' = if decide (h' = h /\ l = []) then Ok (FirstOf h) else get_last h' s).
Proof.
  intros Hf Hl Hp. unfold fix_first, TAILQ_FIRST. rewrite Hf. cbn [mbind outcome_bind]. by apply relink.
Qed.

Lemma swap_views s h1 h2 l1 l2 :
  tailq s h1 l1 -> tailq s h2 l2 -> h1 <> h2 ->
  exists s', TAILQ_SWAP h1 h2 s = Ok s' /\
    (forall g, deref g s' = if decide (g = FirstOf h2) then Ok (first_of l1 None) else if decide (g = FirstOf h1) then Ok (first_of l2 None) else deref g s) /\
    (forall a, get_prev a s' = if decide (first_of l1 None = Some a) then Ok (FirstOf h2) else if decide (first_of l2 None = Some a) then Ok (FirstOf h1) else get_prev a s) /\
    (forall h, get_last h s' = if decide (h = h2) then Ok (last_field (FirstOf h2) l1) else if decide (h = h1) then Ok (last_field (FirstOf h1) l2) else get_last h s).
Proof.
  intros Hq1 Hq2 Hne. pose proof Hq1 as (Hs1 & Hl1 & Hnd1). pose proof Hq2 as (Hs2 & Hl2 & Hnd2).
  pose proof (dseg_first _ _ _ _ Hs1) as Hf1. pose proof (dseg_first _ _ _ _ Hs2) as Hf2.
  unfold TAILQ_SWAP. rewrite (tailq_get_head _ _ _ Hq1), (tailq_get_head _ _ _ Hq2). cbn [mbind outcome_bind tqh_first tqh_last].
  step_write (assign_spec (FirstOf h1) (first_of l2 None) _ s Hf1) s1.
  erewrite (get_head_views h2 s1); [|by rewrite D, decide_False by congruence|by rewrite L]. cbn [mbind outcome_bind tqh_first tqh_last].
  step_write (set_last_spec h1 (last_field (FirstOf h2) l2) _ s1 ltac:(rewrite L; exact Hl1)) s2.
  step_write (assign_spec (FirstOf h2) (first_of l1 None) _ s2 ltac:(rewrite D0, D, decide_False by congruence; exact Hf2)) s3.
  step_write (set_last_spec h2 (last_field (FirstOf h1) l1) _ s3 ltac:(rewrite L1, L0, decide_False by congruence; rewrite L; exact Hl2)) s4.
  step_write (fix_first_views h1 s4 l2 ltac:(rewrite D2, D1, decide_False, D0, D, decide_True by congruence; done)
    ltac:(rewrite L2, decide_False, L1, L0, decide_True by congruence; by eexists)
    ltac:(intros n Hn; rewrite P2, P1, P0, P; by apply (tailq_prev_known s h2 [] l2 n))) s5.
  step_write (fix_first_views h2 s5 l1 ltac:(rewrite D3, D2, D1, decide_True by congruence; done)
    ltac:(rewrite L3, decide_False, L2, decide_True by naive_solver; by eexists)
    ltac:(intros n Hn; rewrite P3; case_decide; [by eexists|]; rewrite P2, P1, P0, P; by apply (tailq_prev_known s h1 [] l1 n))) s6.
  exists s6. split; [done|].
  split; [intros g; by rewrite D4, D3, D2, D1, D0, D|]. split; [intros a; by rewrite P4, P3, P2, P1, P0, P|].
  intros h. rewrite L4, L3, L2, L1, L0, L. destruct (decide (h = h2)) as [->|]; [|destruct (decide (h = h1)) as [->|]].
  - rewrite (decide_False (P := h2 = h1 /\ _)) by naive_solver. destruct l1 as [|a l1]; [by rewrite decide_True|]. by rewrite decide_False by naive_solver.
  - rewrite (decide_False (P := h1 = h2 /\ _)) by naive_solver. destruct l2 as [|a l2]; [by rewrite decide_True|]. by rewrite decide_False by naive_solver.
  - by rewrite !decide_False by naive_solver.
Qed.

(** [TAILQ_SWAP] exchanges the lists of two heads. *)
Lemma swap_tailq s h1 h2 l1 l2 :
  tailq s h1 l1 -> tailq s h2 l2 -> h1 <> h2 -> (forall a, a ∈ l1 -> a ∉ l2) ->
  exists s', TAILQ_SWAP h1 h2 s = Ok s' /\ tailq s' h1 l2 /\ tailq s' h2 l1 /\ touches [h1; h2] (l1 ++ l2) s s'.
Proof.
  intros Hq1 Hq2 Hne Hdis. destruct (swap_views s h1 h2 l1 l2 Hq1 Hq2 Hne) as (s' & E & HD & HP & HL). exists s'. split; [done|].
  destruct Hq1 as (Hs1 & _ & Hnd1), Hq2 as (Hs2 & _ & Hnd2).
  split; [|split].
  - split; [|split; [by rewrite HL, decide_False, decide_True by congruence|done]].
    destruct l2 as [|b l2]; [cbn [dseg]; by rewrite HD, decide_False, decide_True by congruence|].
    eapply dseg_moved; [exact Hs2|done|done|by rewrite HD, decide_False, decide_True by congruence| | |].
    + intros a [= ->]. rewrite HP, decide_False, decide_True; [done|done|]. intros Ha%first_of_in. apply (Hdis a); [done|by left].
    + intros a _. by rewrite HD, !decide_False by congruence.
    + intros a Ha Hf. rewrite HP, !decide_False; [done|done|]. intros Ha1%first_of_in. by apply (Hdis a).
  - split; [|split; [by rewrite HL, decide_True by congruence|done]].
    destruct l1 as [|b l1]; [cbn [dseg]; by rewrite HD, decide_True by congruence|].
    eapply dseg_moved; [exact Hs1|done|done|by rewrite HD, decide_True by congruence| | |].
    + intros a [= ->]. by rewrite HP, decide_True.
    + intros a _. by rewrite HD, !decide_False by congruence.
    + intros a Ha Hf. rewrite HP, !decide_False; [done| |done]. intros Ha1%first_of_in. by apply (Hdis a).
  - split; [intros g Hg Ha|split; [intros a Ha|intros h Hh]].
    + rewrite HD, !decide_False; [done|apply Hg; set_solver|apply Hg; set_solver].
    + rewrite HP, !decide_False; [done|intros ?%first_of_in; set_solver|intros ?%first_of_in; set_solver].
    + rewrite HL, !decide_False by (intros ->; set_solver). done.
Qed.

(** ** The loops *)

(** The element before a place of a queue is the last one ahead of it: the cast
    of [TAILQ_LAST] and [TAILQ_PREV] reads the back pointer of that element, or
    the last field of the head when there is none. *)
Lemma tailq_behind s h l1 l2 : tailq s h (l1 ++ l2) -> (f ← deref_as_head_last (last_field (FirstOf h) l1) s; deref f s) = Ok (last l1).
Proof.
  intros Hq. destruct l1 as [|a l1 _] using rev_ind.
  - simpl last_field. unfold deref_as_head_last. rewrite (tailq_get_head _ _ _ Hq). cbn [mbind outcome_bind tqh_last].
    by destruct Hq as (Hd%dseg_last & _).
  - rewrite last_field_snoc, last_snoc. unfold deref_as_head_last. rewrite <- app_assoc in Hq.
    pose proof Hq as (_ & Hd & _ & _ & He & _)%tailq_split. by rewrite He.
Qed.

Lemma tailq_last s h l : tailq s h l -> TAILQ_LAST h s = Ok (last l).
Proof. intros Hq. unfold TAILQ_LAST. rewrite (tailq_get_head _ _ _ Hq). apply (tailq_behind s h l []). by rewrite app_nil_r. Qed.

Lemma tailq_prev s h l1 e l2 : tailq s h (l1 ++ e :: l2) -> TAILQ_PREV e s = Ok (last l1).
Proof.
  intros Hq. pose proof Hq as (_ & _ & _ & _ & He & _)%tailq_split. unfold TAILQ_PREV. rewrite He. by apply (tailq_behind s h l1 (e :: l2)).
Qed.

(** The body at each element of a list, in order, up to the first error. *)
Fixpoint visit {S} (body : Z -> S -> outcome S) (todo : list Z) (s : S) : outcome S :=
  match todo with [] => Ok s | e :: todo => s ← body e s; visit body todo s end.

(** A loop visits [todo] when the link leads from each element to the next one:
    [P todo s] says that [todo] is still to come. *)
Section Visits.
Context {S : Type} (get : S -> store) (link : Z -> store -> outcome (option Z)) (body : Z -> S -> outcome S) (P : list Z -> S -> Prop).

Lemma after_turns todo fuel s :
  (forall e todo s s1, P (e :: todo) s -> body e s = Ok s1 -> P todo s1 /\ link e (get s1) = Ok (first_of todo None)) ->
  P todo s -> (length todo < fuel)%nat -> while_loop fuel (after_turn get link body) (first_of todo None, s) = visit body todo s.
Proof.
  intros Hbody. revert fuel s. induction todo as [|e todo IH]; intros fuel s HP Hfuel; (destruct fuel as [|fuel]; [simpl in Hfuel; lia|]);
    [done|]; simpl. destruct (body e s) as [s1|] eqn:E; [|done]. cbn [mbind outcome_bind].
  destruct (Hbody _ _ _ _ HP E) as [HP1 Hn]. rewrite Hn. apply IH; [done|simpl in Hfuel; lia].
Qed.

Lemma before_turns todo fuel s :
  (forall e todo s, P (e :: todo) s -> link e (get s) = Ok (first_of todo None)) ->
  (forall e todo s s1, P (e :: todo) s -> body e s = Ok s1 -> P todo s1) ->
  P todo s -> (length todo < fuel)%nat -> while_loop fuel (before_turn get link body) (first_of todo None, s) = visit body todo s.
Proof.
  intros Hlink Hbody. revert fuel s. induction todo as [|e todo IH]; intros fuel s HP Hfuel; (destruct fuel as [|fuel]; [simpl in Hfuel; lia|]);
    [done|]; simpl. rewrite (Hlink _ _ _ HP). cbn [mbind outcome_bind]. destruct (body e s) as [s1|] eqn:E; [|done].
  apply IH; [by eapply Hbody|simpl in Hfuel; lia].
Qed.
End Visits.

(** What is still to come of a loop over [h], forwards and backwards. *)
Definition ahead {S} (get : S -> store) (h : Z) (todo : list Z) (s : S) : Prop := exists past, tailq (get s) h (past ++ todo).
Definition behind {S} (get : S -> store) (h : Z) (todo : list Z) (s : S) : Prop := exists past, tailq (get s) h (rev todo ++ past).

Lemma ahead_next {S} (get : S -> store) h e todo s : ahead get h (e :: todo) s -> TAILQ_NEXT e (get s) = Ok (first_of todo None).
Proof. intros [past Hq]. by eapply tailq_next. Qed.

Lemma last_rev (l : list Z) : last (rev l) = first_of l None.
Proof. destruct l as [|a l]; [done|]. simpl. by rewrite last_snoc. Qed.

Lemma behind_prev {S} (get : S -> store) h e todo s : behind get h (e :: todo) s -> TAILQ_PREV e (get s) = Ok (first_of todo None).
Proof. intros [past Hq]. simpl in Hq. rewrite <- app_assoc in Hq. rewrite <- last_rev. by eapply tailq_prev. Qed.

Lemma behind_last {S} (get : S -> store) h l s : tailq (get s) h l -> behind get h (rev l) s.
Proof. intros Hq. exists []. by rewrite rev_involutive, app_nil_r. Qed.

(** A body of a [SAFE] loop leaves in place what is still to come; whatever it
    does with the current element and those passed. A body of a plain loop
    leaves the link of the current element, too. *)
Section Bodies.
Context {S : Type} (get : S -> store) (h : Z) (body : Z -> S -> outcome S).

Definition safe_body (P : list Z -> S -> Prop) : Prop := forall e todo s s1, P (e :: todo) s -> body e s = Ok s1 -> P todo s1.
Definition plain_body (P : list Z -> S -> Prop) (link : Z -> store -> outcome (option Z)) : Prop :=
  forall e todo s s1, P (e :: todo) s -> body e s = Ok s1 -> P todo s1 /\ link e (get s1) = Ok (first_of todo None).

(** Where a [FROM] loop starts: at [var] if it is an element, else where the
    other loops do, with nothing passed. *)
Definition starts (var : option Z) (past todo : list Z) : Prop :=
  (var = None /\ past = []) \/ (exists e, var = Some e /\ first_of todo None = Some e).

Lemma start_first s var past todo :
  tailq (get s) h (past ++ todo) -> starts var past todo -> or_else var (TAILQ_FIRST h (get s)) = Ok (first_of todo None).
Proof. intros Hq [[-> ->]|(e & -> & ->)]; [|done]. by apply tailq_first. Qed.

Lemma start_last s var past todo :
  tailq (get s) h (rev todo ++ past) -> starts var past todo -> or_else var (TAILQ_LAST h (get s)) = Ok (first_of todo None).
Proof. intros Hq [[-> ->]|(e & -> & ->)]; [|done]. simpl. rewrite app_nil_r in Hq. by rewrite (tailq_last _ _ _ Hq), last_rev. Qed.

(** The forward loops visit the queue from where they start, each element once
    and in order, with the errors of the body and no other. *)
Lemma forward_loops fuel s past todo var :
  tailq (get s) h (past ++ todo) -> starts var past todo -> (length todo < fuel)%nat ->
  (plain_body (ahead get h) TAILQ_NEXT -> TAILQ_FOREACH_FROM get h body fuel var s = visit body todo s) /\
  (safe_body (ahead get h) -> TAILQ_FOREACH_FROM_SAFE get h body fuel var s = visit body todo s).
Proof.
  intros Hq Hv Hf. unfold TAILQ_FOREACH_FROM, TAILQ_FOREACH_FROM_SAFE. rewrite (start_first _ _ _ _ Hq Hv). cbn [mbind outcome_bind].
  split; intros Hbody.
  - apply (after_turns _ _ _ (ahead get h)); [done|by exists past|done].
  - apply (before_turns _ _ _ (ahead get h)); [by apply ahead_next|done|by exists past|done].
Qed.

Lemma backward_loops fuel s past todo var :
  tailq (get s) h (rev todo ++ past) -> starts var past todo -> (length todo < fuel)%nat ->
  (plain_body (behind get h) TAILQ_PREV -> TAILQ_FOREACH_REVERSE_FROM get h body fuel var s = visit body todo s) /\
  (safe_body (behind get h) -> TAILQ_FOREACH_REVERSE_FROM_SAFE get h body fuel var s = visit body todo s).
Proof.
  intros Hq Hv Hf. unfold TAILQ_FOREACH_REVERSE_FROM, TAILQ_FOREACH_REVERSE_FROM_SAFE. rewrite (start_last _ _ _ _ Hq Hv). cbn [mbind outcome_bind].
  split; intros Hbody.
  - apply (after_turns _ _ _ (behind get h)); [done|by exists past|done].
  - apply (before_turns _ _ _ (behind get h)); [by apply behind_prev|done|by exists past|done].
Qed.

(** Without a [FROM] they visit the whole queue, or its reverse. *)
Lemma whole_loops fuel s l :
  tailq (get s) h l -> (length l < fuel)%nat ->
  (plain_body (ahead get h) TAILQ_NEXT -> foreach get h body fuel s = visit body l s) /\
  (safe_body (ahead get h) -> TAILQ_FOREACH_SAFE get h body fuel s = visit body l s) /\
  (plain_body (behind get h) TAILQ_PREV -> TAILQ_FOREACH_REVERSE get h body fuel s = visit body (rev l) s) /\
  (safe_body (behind get h) -> TAILQ_FOREACH_REVERSE_SAFE get h body fuel s = visit body (rev l) s).
Proof.
  intros Hq Hf. destruct (forward_loops fuel s [] l None Hq (or_introl (conj eq_refl eq_refl)) Hf) as [H1 H2].
  destruct (backward_loops fuel s [] (rev l) None) as [H3 H4]; [by rewrite rev_involutive, app_nil_r|by left|by rewrite length_rev|].
  split; [exact H1|]. split; [exact H2|]. split; [exact H3|exact H4].
Qed.
End Bodies.

(** A [SAFE] loop may remove each element it comes to. *)
Lemma remove_is_safe h : safe_body (TAILQ_REMOVE h) (ahead id h) /\ safe_body (TAILQ_REMOVE h) (behind id h).
Proof.
  split; intros e todo s s1 [past Hq] E; unfold id in *.
  - destruct (remove_tailq s h past e todo Hq) as (s' & E' & Hq' & _). exists past. congruence.
  - simpl in Hq. rewrite <- app_assoc in Hq. destruct (remove_tailq s h (rev todo) e past Hq) as (s' & E' & Hq' & _). exists past. congruence.
Qed.

Lemma visit_remove h l s :
  tailq s h l -> exists s', visit (TAILQ_REMOVE h) l s = Ok s' /\ tailq s' h [] /\ frame h l s s' /\ forall a, a ∈ l -> allocated a s'.
Proof.
  revert s. induction l as [|e l IH]; intros s Hq; simpl; [exists s; split; [done|split; [done|split; [apply frame_refl|set_solver]]]|].
  destruct (remove_tailq s h [] e l Hq) as (s1 & -> & Hq1 & Hf1 & Ha & _). cbn [mbind outcome_bind].
  destruct (IH s1 Hq1) as (s' & -> & Hq' & Hf' & Hal). exists s'. split; [done|]. split; [done|]. split.
  - eapply frame_trans; [exact Hf1|]. eapply frame_weaken; [exact Hf'|set_solver].
  - intros a [->|Hin]%elem_of_cons; [|by apply Hal]. eapply frame_allocated; [exact Hf'| |done].
    by pose proof (tailq_split s h [] e l Hq) as (_ & _ & _ & _ & _ & _ & _ & _ & He & _).
Qed.

(** ** Several queues in one store

    The queues are a map from the heads in use to the lists of their elements;
    an element is in one list at most. [pool] are the addresses of elements
    there is memory for. *)
Abbreviation queues := (gmap Z (list Z)).

Inductive macro :=
  | Init (h : Z) | InsertHead (h e : Z) | InsertLast (h e : Z) | InsertAfter (h x e : Z) | InsertBefore (h x e : Z)
  | Remove (h e : Z) | RemoveAll (h : Z) | Rotate (h : Z) | Concat (h1 h2 : Z) | Swap (h1 h2 : Z).

Definition run_macro (m : macro) (fuel : nat) (s : store) : outcome store :=
  match m with
  | Init h => Ok (TAILQ_INIT h s)
  | InsertHead h e => TAILQ_INSERT_HEAD h e s
  | InsertLast h e => TAILQ_INSERT_TAIL h e s
  | InsertAfter h x e => TAILQ_INSERT_AFTER h x e s
  | InsertBefore h x e => TAILQ_INSERT_BEFORE x e s
  | Remove h e => TAILQ_REMOVE h e s
  | RemoveAll h => TAILQ_FOREACH_SAFE id h (TAILQ_REMOVE h) fuel s
  | Rotate h => '(_, s) ← rotate_first h s; Ok s
  | Concat h1 h2 => TAILQ_CONCAT h1 h2 s
  | Swap h1 h2 => TAILQ_SWAP h1 h2 s
  end.

Fixpoint run_macros (ms : list macro) (fuel : nat) (s : store) : outcome store :=
  match ms with [] => Ok s | m :: ms => s ← run_macro m fuel s; run_macros ms fuel s end.

(** The same on lists; [None] where the macros are not meant to be used. *)
Fixpoint put_after (x e : Z) (l : list Z) : list Z :=
  match l with [] => [] | a :: l => if decide (a = x) then a :: e :: l else a :: put_after x e l end.
Fixpoint put_before (x e : Z) (l : list Z) : list Z :=
  match l with [] => [] | a :: l => if decide (a = x) then e :: a :: l else a :: put_before x e l end.

Definition unused (q : queues) (e : Z) : Prop := map_Forall (fun _ (l : list Z) => e ∉ l) q.

Definition insert_at (pool : list Z) (q : queues) (h e : Z) (f : list Z -> option (list Z)) : option queues :=
  l ← q !! h; if decide (e ∈ pool /\ unused q e) then l' ← f l; Some (<[h := l']> q) else None.

Definition abstract (pool : list Z) (m : macro) (q : queues) : option queues :=
  match m with
  | Init h => Some (<[h := []]> q)
  | InsertHead h e => insert_at pool q h e (fun l => Some (e :: l))
  | InsertLast h e => insert_at pool q h e (fun l => Some (l ++ [e]))
  | InsertAfter h x e => insert_at pool q h e (fun l : list Z => if decide (x ∈ l) then Some (put_after x e l) else None)
  | InsertBefore h x e => insert_at pool q h e (fun l : list Z => if decide (x ∈ l) then Some (put_before x e l) else None)
  | Remove h e => l ← q !! h; if decide (e ∈ (l : list Z)) then Some (<[h := filter (fun a => a <> e) l]> q) else None
  | RemoveAll h => l ← q !! h; Some (<[h := []]> q)
  | Rotate h => l ← q !! h; match l with [] => Some q | e :: l => Some (<[h := l ++ [e]]> q) end
  | Concat h1 h2 => l1 ← q !! h1; l2 ← q !! h2; if decide (h1 = h2) then None else Some (<[h1 := l1 ++ l2]> (<[h2 := []]> q))
  | Swap h1 h2 => l1 ← q !! h1; l2 ← q !! h2; if decide (h1 = h2) then None else Some (<[h1 := l2]> (<[h2 := l1]> q))
  end.

Fixpoint abstracts (pool : list Z) (ms : list macro) (q : queues) : option queues :=
  match ms with [] => Some q | m :: ms => q ← abstract pool m q; abstracts pool ms q end.

(** The queues a store represents. *)
Record represents (pool : list Z) (q : queues) (s : store) : Prop := {
  ho_queues : forall h l, q !! h = Some l -> tailq s h l;
  ho_apart : forall h1 h2 l1 l2 a, q !! h1 = Some l1 -> q !! h2 = Some l2 -> a ∈ l1 -> a ∈ l2 -> h1 = h2;
  ho_pool : forall a, a ∈ pool -> allocated a s;
  ho_within : forall h l a, q !! h = Some l -> a ∈ l -> a ∈ pool
}.

Lemma touches_allocated hs ls s s' a : touches hs ls s s' -> a ∉ ls -> allocated a s -> allocated a s'.
Proof.
  intros (Hd & Hp & _) Ha (n & p & Hn & Hpr)%allocated_views. eexists. apply get_entry_views.
  - rewrite Hd; [exact Hn|done|]. intros b Hb [= ->]. done.
  - rewrite Hp; [exact Hpr|done].
Qed.

(** Writes to the queues of [hs], whose elements and new elements are [ls]. *)
Lemma represents_update pool q s q' s' hs ls :
  represents pool q s -> touches hs ls s s' ->
  (forall h, h ∉ hs -> q' !! h = q !! h) ->
  (forall a, a ∈ ls -> a ∈ pool /\ (unused q a \/ exists h l, h ∈ hs /\ q !! h = Some l /\ a ∈ l)) ->
  (forall a, a ∈ ls -> allocated a s') ->
  (forall h l, h ∈ hs -> q' !! h = Some l -> tailq s' h l /\ forall a, a ∈ l -> a ∈ ls) ->
  (forall h1 h2 l1 l2 a, h1 ∈ hs -> h2 ∈ hs -> q' !! h1 = Some l1 -> q' !! h2 = Some l2 -> a ∈ l1 -> a ∈ l2 -> h1 = h2) ->
  represents pool q' s'.
Proof.
  intros [Hq Ha Hp Hw] Ht Hsame Hls Hal Hnew Hapart.
  assert (Hout : forall h l a, h ∉ hs -> q' !! h = Some l -> a ∈ l -> a ∉ ls).
  { intros h l a Hh Hl Hin Hin'. rewrite Hsame in Hl by done. destruct (Hls a Hin') as [_ [Hu|(h2 & l2 & Hh2 & Hl2 & Hin2)]].
    - by apply (Hu h l).
    - rewrite (Ha h h2 l l2 a) in Hh; done. }
  split.
  - intros h l Hl. destruct (decide (h ∈ hs)) as [Hh|Hh]; [by apply Hnew|].
    eapply tailq_apart; [exact Ht|done|intros a Hin; by eapply Hout|]. apply Hq. by rewrite <- Hsame.
  - intros h1 h2 l1 l2 a H1 H2 Hin1 Hin2. destruct (decide (h1 ∈ hs)) as [Hh1|Hh1], (decide (h2 ∈ hs)) as [Hh2|Hh2].
    + by eapply Hapart.
    + exfalso. eapply (Hout h2); [done..|]. by eapply Hnew.
    + exfalso. eapply (Hout h1); [done..|]. by eapply Hnew.
    + rewrite Hsame in H1, H2 by done. by eapply Ha.
  - intros a Hin. destruct (decide (a ∈ ls)) as [|Hls']; [by apply Hal|]. eapply touches_allocated; [exact Ht|done|by apply Hp].
  - intros h l a Hl Hin. destruct (decide (h ∈ hs)) as [Hh|Hh].
    + apply Hls. by eapply Hnew.
    + rewrite Hsame in Hl by done. by eapply Hw.
Qed.

(** One queue changes. *)
Lemma represents_single pool q s h l l' ls s' :
  represents pool q s -> q !! h = Some l -> frame h ls s s' -> tailq s' h l' ->
  (forall a, a ∈ ls -> a ∈ l \/ (a ∈ pool /\ unused q a)) -> (forall a, a ∈ l' -> a ∈ ls) -> (forall a, a ∈ ls -> a ∈ l' \/ allocated a s') ->
  represents pool (<[h := l']> q) s'.
Proof.
  intros Hh Hl Hf Hq' Hls Hsub Hal. eapply represents_update; [exact Hh|by apply frame_touches| | | | |].
  - intros h' Hne. rewrite lookup_insert_ne; [done|set_solver].
  - intros a [Ha|[Hp Hu]]%Hls; [|by split; [|left]]. split; [by eapply ho_within|]. right. exists h, l. set_solver.
  - intros a [Ha|]%Hal; [|done]. by eapply tailq_allocated.
  - intros h' l1 ->%list_elem_of_singleton. rewrite lookup_insert_eq. by intros [= <-].
  - intros h1 h2 l1 l2 a ->%list_elem_of_singleton ->%list_elem_of_singleton. done.
Qed.

Lemma put_after_split x e l1 l2 : x ∉ l1 -> put_after x e (l1 ++ x :: l2) = (l1 ++ [x]) ++ e :: l2.
Proof.
  induction l1 as [|a l1 IH]; intros Hx; simpl; [by rewrite decide_True|].
  rewrite decide_False by set_solver. rewrite IH by set_solver. done.
Qed.

Lemma put_before_split x e l1 l2 : x ∉ l1 -> put_before x e (l1 ++ x :: l2) = l1 ++ e :: x :: l2.
Proof.
  induction l1 as [|a l1 IH]; intros Hx; simpl; [by rewrite decide_True|].
  rewrite decide_False by set_solver. rewrite IH by set_solver. done.
Qed.

(** The four insertions: [l1] stays before the new element and [l2] after it. *)
Lemma insertion_refines pool q s h e l1 l2 (run : outcome store) :
  represents pool q s -> q !! h = Some (l1 ++ l2) -> e ∈ pool -> unused q e ->
  (allocated e s -> e ∉ l1 ++ l2 -> exists s', run = Ok s' /\ inserts s s' h l1 e l2) ->
  exists s', run = Ok s' /\ represents pool (<[h := l1 ++ e :: l2]> q) s'.
Proof.
  intros Hh Hl Hp Hu Hrun. pose proof (Hu h _ Hl) as He. destruct Hrun as (s' & -> & Hins); [by eapply ho_pool|done|].
  destruct (inserts_tailq s s' h l1 e l2) as [Hq' Hf]; [by eapply ho_queues|done|done|]. exists s'. split; [done|].
  eapply represents_single; [exact Hh|exact Hl|exact Hf|exact Hq'| |done|by left].
  intros a. rewrite !elem_of_app, elem_of_cons. intros [?|[->|?]]; set_solver.
Qed.

Lemma insert_at_inv pool q h e f q' :
  insert_at pool q h e f = Some q' -> exists l l', q !! h = Some l /\ e ∈ pool /\ unused q e /\ f l = Some l' /\ q' = <[h := l']> q.
Proof.
  unfold insert_at. destruct (q !! h) as [l|]; [|done]; simpl. case_decide as Hd; [|done]. destruct (f l) as [l'|] eqn:E; [|done].
  intros [= <-]. exists l, l'. naive_solver.
Qed.

(** A member of a queue splits it where the macros find it. *)
Lemma member_split s h l x : tailq s h l -> x ∈ l -> exists l1 l2, l = l1 ++ x :: l2 /\ (x ∉ l1) /\ (x ∉ l2).
Proof.
  intros Hq (l1 & l2 & ->)%list_elem_of_split. exists l1, l2. split; [done|].
  by pose proof Hq as (_ & _ & _ & _ & _ & _ & _ & Hx1 & Hx2 & _)%tailq_split.
Qed.

Lemma init_refines pool q s h : represents pool q s -> represents pool (<[h := []]> q) (TAILQ_INIT h s).
Proof.
  intros Hh. destruct (init_views h s) as (D & P & L).
  eapply (represents_update pool q s _ _ [h] []); [exact Hh| | |by intros a ?%elem_of_nil|by intros a ?%elem_of_nil| |].
  - split; [intros g Hg _|split; [intros a _; apply P|intros h' Hh']].
    + rewrite D, decide_False; [done|apply Hg; by left].
    + rewrite L, decide_False; [done|set_solver].
  - intros h' Hne. rewrite lookup_insert_ne; [done|set_solver].
  - intros h' l ->%list_elem_of_singleton. rewrite lookup_insert_eq. intros [= <-]. split; [|done].
    split; [cbn [dseg]; by rewrite D, decide_True|]. split; [by rewrite L, decide_True|constructor].
  - intros h1 h2 l1 l2 a ->%list_elem_of_singleton ->%list_elem_of_singleton. done.
Qed.

(** Two queues give and take their elements among them. *)
Lemma two_heads_refine pool q s s' h1 h2 l1 l2 m1 m2 :
  represents pool q s -> q !! h1 = Some l1 -> q !! h2 = Some l2 -> h1 <> h2 -> touches [h1; h2] (l1 ++ l2) s s' ->
  tailq s' h1 m1 -> tailq s' h2 m2 -> (forall a, a ∈ m1 \/ a ∈ m2 <-> a ∈ l1 ++ l2) -> (forall a, a ∈ m1 -> a ∉ m2) ->
  represents pool (<[h1 := m1]> (<[h2 := m2]> q)) s'.
Proof.
  intros Hh H1 H2 Hne Ht Hq1 Hq2 Hel Hdis.
  assert (E1 : <[h1 := m1]> (<[h2 := m2]> q) !! h1 = Some m1) by apply lookup_insert_eq.
  assert (E2 : <[h1 := m1]> (<[h2 := m2]> q) !! h2 = Some m2) by (rewrite lookup_insert_ne by done; apply lookup_insert_eq).
  eapply (represents_update pool q s _ _ [h1; h2]); [exact Hh|exact Ht| | | | |].
  - intros h Hh'. rewrite !lookup_insert_ne; [done|set_solver..].
  - intros a [Ha|Ha]%elem_of_app; [split; [exact (ho_within _ _ _ Hh _ _ _ H1 Ha)|]; right; exists h1, l1|split; [exact (ho_within _ _ _ Hh _ _ _ H2 Ha)|]; right; exists h2, l2]; set_solver.
  - intros a [Ha|Ha]%Hel; [exact (tailq_allocated _ _ _ _ Hq1 Ha)|exact (tailq_allocated _ _ _ _ Hq2 Ha)].
  - intros h l [->| ->%list_elem_of_singleton]%elem_of_cons; rewrite ?E1, ?E2; intros [= <-]; (split; [done|]); intros a Ha; apply Hel; auto.
  - intros h h' l l' a [->| ->%list_elem_of_singleton]%elem_of_cons [->| ->%list_elem_of_singleton]%elem_of_cons; rewrite ?E1, ?E2;
      intros [= <-] [= <-] Hin Hin'; try done; exfalso; by eapply (Hdis a).
Qed.

Lemma lists_apart pool q s h1 h2 l1 l2 :
  represents pool q s -> q !! h1 = Some l1 -> q !! h2 = Some l2 -> h1 <> h2 -> forall a, a ∈ l1 -> a ∉ l2.
Proof. intros Hh H1 H2 Hne a Ha Ha2. apply Hne. by eapply ho_apart. Qed.

Lemma macro_refines pool m q q' fuel s :
  represents pool q s -> abstract pool m q = Some q' -> (length pool < fuel)%nat ->
  exists s', run_macro m fuel s = Ok s' /\ represents pool q' s'.
Proof.
  intros Hh Hm Hfuel. destruct m as [h|h e|h e|h x e|h x e|h e|h|h|h1 h2|h1 h2]; cbn [abstract run_macro] in *.
  - injection Hm as <-. eexists. split; [done|by apply init_refines].
  - apply insert_at_inv in Hm as (l & l' & Hl & Hp & Hu & [= <-] & ->).
    apply (insertion_refines pool q s h e [] l); [done..|]. intros Ha He. apply insert_head_inserts; [by eapply ho_queues|done|done].
  - apply insert_at_inv in Hm as (l & l' & Hl & Hp & Hu & [= <-] & ->).
    apply (insertion_refines pool q s h e l []); [done|by rewrite app_nil_r|done..|]. rewrite app_nil_r. intros Ha He.
    apply insert_tail_inserts; [by eapply ho_queues|done|done].
  - apply insert_at_inv in Hm as (l & l' & Hl & Hp & Hu & Hf & ->). case_decide as Hx; [|done]. injection Hf as <-.
    pose proof (ho_queues _ _ _ Hh _ _ Hl) as Hq. destruct (member_split _ _ _ _ Hq Hx) as (l1 & l2 & -> & Hx1 & _).
    rewrite put_after_split by done. apply (insertion_refines pool q s h e (l1 ++ [x]) l2); [done|by rewrite <- app_assoc|done..|]. rewrite <- app_assoc. by apply insert_after_inserts.
  - apply insert_at_inv in Hm as (l & l' & Hl & Hp & Hu & Hf & ->). case_decide as Hx; [|done]. injection Hf as <-.
    pose proof (ho_queues _ _ _ Hh _ _ Hl) as Hq. destruct (member_split _ _ _ _ Hq Hx) as (l1 & l2 & -> & Hx1 & _).
    rewrite put_before_split by done. apply (insertion_refines pool q s h e l1 (x :: l2)); [done..|]. by apply insert_before_inserts.
  - destruct (q !! h) as [l|] eqn:Hl; [|done]; cbn [mbind option_bind] in Hm. case_decide as He; [|done]. injection Hm as <-.
    pose proof (ho_queues _ _ _ Hh _ _ Hl) as Hq. destruct (member_split _ _ _ _ Hq He) as (l1 & l2 & -> & He1 & He2).
    destruct (remove_tailq s h l1 e l2 Hq) as (s' & E & Hq' & Hf & Ha & _). exists s'. split; [done|].
    rewrite filter_app, filter_cons, decide_False by tauto. rewrite !filter_ne_absent by done.
    eapply represents_single; [exact Hh|exact Hl|exact Hf|exact Hq'|by left|set_solver|].
    intros a [?|[->|?]%elem_of_cons]%elem_of_app; set_solver.
  - destruct (q !! h) as [l|] eqn:Hl; [|done]. injection Hm as <-. pose proof (ho_queues _ _ _ Hh _ _ Hl) as Hq.
    assert (Hlen : (length l <= length pool)%nat).
    { apply submseteq_length, NoDup_submseteq; [apply Hq|]. intros a Ha. by eapply ho_within. }
    destruct (whole_loops id h (TAILQ_REMOVE h) fuel s l Hq ltac:(lia)) as (_ & -> & _); [|apply remove_is_safe].
    destruct (visit_remove h l s Hq) as (s' & E & Hq' & Hf & Ha). exists s'. split; [done|].
    eapply represents_single; [exact Hh|exact Hl|exact Hf|exact Hq'|by left|set_solver|by right; apply Ha].
  - destruct (q !! h) as [l|] eqn:Hl; [|done]; simpl in Hm. pose proof (ho_queues _ _ _ Hh _ _ Hl) as Hq. destruct l as [|e l].
    + injection Hm as <-. exists s. unfold rotate_first. by rewrite (tailq_first _ _ _ Hq).
    + injection Hm as <-. destruct (rotate_first_tailq s h e l Hq) as (s' & E & Hq' & Hf). exists s'. rewrite E. split; [done|].
      eapply represents_single; [exact Hh|exact Hl|exact Hf|exact Hq'|by left|set_solver|set_solver].
  - destruct (q !! h1) as [l1|] eqn:H1, (q !! h2) as [l2|] eqn:H2; cbn [mbind option_bind] in Hm; try done. case_decide as Hne; [done|]. injection Hm as <-.
    pose proof (lists_apart _ _ _ _ _ _ _ Hh H1 H2 Hne) as Hdis.
    destruct (concat_tailq s h1 h2 l1 l2) as (s' & E & Hq1 & Hq2 & Ht); [by eapply ho_queues|by eapply ho_queues|done|done|].
    exists s'. split; [done|]. eapply (two_heads_refine pool q s s' h1 h2 l1 l2); [done..|set_solver|set_solver].
  - destruct (q !! h1) as [l1|] eqn:H1, (q !! h2) as [l2|] eqn:H2; cbn [mbind option_bind] in Hm; try done. case_decide as Hne; [done|]. injection Hm as <-.
    pose proof (lists_apart _ _ _ _ _ _ _ Hh H1 H2 Hne) as Hdis.
    destruct (swap_tailq s h1 h2 l1 l2) as (s' & E & Hq1 & Hq2 & Ht); [by eapply ho_queues|by eapply ho_queues|done|done|].
    exists s'. split; [done|]. eapply (two_heads_refine pool q s s' h1 h2 l1 l2); [done..|set_solver|set_solver].
Qed.

(** C25 (refinement): any sequence of the macros that makes sense on disjoint
    lists - empty a head, insert an element in use nowhere at either end or
    beside a member, remove a member, remove all in a [TAILQ_FOREACH_SAFE],
    rotate, append a queue to another, exchange two - runs on the pointers
    without a panic and leaves in the store exactly those lists, all of them,
    for as many heads as there are; one turn more than there are elements is
    fuel enough for the loops. *)
Theorem macros_refine pool ms q q' fuel s :
  represents pool q s -> abstracts pool ms q = Some q' -> (length pool < fuel)%nat ->
  exists s', run_macros ms fuel s = Ok s' /\ represents pool q' s'.
Proof.
  revert q s. induction ms as [|m ms IH]; intros q s Hh Hms Hfuel; simpl in *; [injection Hms as <-; by exists s|].
  destruct (abstract pool m q) as [q1|] eqn:Em; [|done]. destruct (macro_refines pool m q q1 fuel s Hh Em Hfuel) as (s1 & -> & Hh1).
  by apply (IH q1 s1).
Qed.

Lemma demo_represents : represents [10; 11; 12] {[ 1 := [10; 11; 12]; 2 := [] ]} demo_store.
Proof.
  assert (Hcase : forall h l, ({[ 1 := [10; 11; 12]; 2 := [] ]} : queues) !! h = Some l -> (h = 1 /\ l = [10; 11; 12]) \/ (h = 2 /\ l = [])).
  { intros h l [[<- <-]|[_ [<- <-]%lookup_singleton_Some]]%lookup_insert_Some; auto. }
  split.
  - intros h l [[-> ->]|[-> ->]]%Hcase; [apply demo_tailq|apply demo_tailq_empty].
  - intros h1 h2 l1 l2 a [[-> ->]|[-> ->]]%Hcase [[-> ->]|[-> ->]]%Hcase; set_solver.
  - intros a Ha. rewrite !elem_of_cons, elem_of_nil in Ha. destruct Ha as [->|[->|[->|[]]]]; by eexists.
  - intros h l a [[-> ->]|[-> ->]]%Hcase; set_solver.
Qed.

(** Three elements go through two queues and a third that is made on the way. *)
Definition demo_macros : list macro :=
  [Remove 1 11; Init 3; InsertHead 3 11; Swap 2 1; Remove 2 10; InsertBefore 3 11 10; Concat 2 3; Rotate 2; Remove 2 12; InsertAfter 2 10 12;
   Remove 2 11; InsertLast 1 11; Swap 1 3; RemoveAll 3].

Lemma macros_refine_witness :
  exists s', run_macros demo_macros 4 demo_store = Ok s' /\ tailq s' 1 [] /\ tailq s' 2 [10; 12] /\ tailq s' 3 [].
Proof.
  destruct (macros_refine [10; 11; 12] demo_macros {[ 1 := [10; 11; 12]; 2 := [] ]} {[ 1 := []; 2 := [10; 12]; 3 := [] ]} 4 demo_store)
    as (s' & E & Hh); [exact demo_represents|vm_compute; reflexivity|simpl; lia|].
  exists s'. split; [exact E|]. split; [|split]; apply (ho_queues _ _ _ Hh); reflexivity.
Defined.
