(* ===== verification/Strings.v ===== *)
(** * Strings

    [stdstring.c]. A [char* ] that is only read is the list of bytes from the
    pointer to the end of its object; a string that is written is a buffer and
    an index. [char] is unsigned, as the AAPCS ABI of the build has it. *)
From S2P Require Import Prelude.

(** [t] starts with the NUL-terminated string [s]. *)
Definition nonul (s : list Z) : Prop := Forall (fun c => c <> 0) s.
Definition cstr (s t : list Z) : list Z := s ++ 0 :: t.

(** ** Length and comparison *)
Fixpoint length_loop (str : list Z) (len : Z) : outcome Z :=
  match str with
  | [] => Err OutOfBounds
  | c :: str => if c =? 0 then Ok len else length_loop str (i32 (len + 1))
  end.
Definition stdstring_length (str : list Z) : outcome Z := length_loop str 0.

Fixpoint stdstring_compare (str1 str2 : list Z) : outcome Z :=
  match str1, str2 with
  | c1 :: str1, c2 :: str2 =>
      if (c1 =? 0) && (c2 =? 0) then Ok 0
      else if (c1 =? 0) && negb (c2 =? 0) then Ok (-1)
      else if negb (c1 =? 0) && (c2 =? 0) then Ok 1
      else if c1 <? c2 then Ok (-1)
      else if c1 >? c2 then Ok 1
      else stdstring_compare str1 str2
  | _, _ => Err OutOfBounds
  end.

Fixpoint stdstr_contains_char (c : Z) (str : list Z) : outcome bool :=
  match str with
  | [] => Err OutOfBounds
  | d :: str => if d =? 0 then Ok false else if c =? d then Ok true else stdstr_contains_char c str
  end.

(** ** Reversal, in place *)
Definition stdstring_reverse (str : list Z) : outcome (list Z) :=
  n ← stdstring_length str;
  while_loop (S (length str)) (fun '(i, j, str) =>
    if i <? j then
      c ← buf_get str i;
      d ← buf_get str j;
      str ← buf_set str i d;
      str ← buf_set str j c;
      Ok (inl (i + 1, j - 1, str))
    else Ok (inr str)) (0, n - 1, str).

(** ** Numbers *)

(** The digit loop of [stdstring_int_to_str], from [i]; an [int32_t] has at most
    ten digits. *)
Definition digit_loop (n : Z) (str : list Z) : outcome (Z * list Z) :=
  while_loop 11 (fun '(n, i, str) =>
    str ← buf_set str i (u8 (Z.rem n 10 + 48));
    let n := Z.quot n 10 in
    if n >? 0 then Ok (inl (n, i + 1, str)) else Ok (inr (i + 1, str))) (n, 0, str).

Definition stdstring_int_to_str (n : Z) (str : list Z) : outcome (list Z) :=
  let sign := n in
  let n := if n <? 0 then i32 (- n) else n in
  '(i, str) ← digit_loop n str;
  '(i, str) ← (if sign <? 0 then str ← buf_set str i 45; Ok (i + 1, str) else Ok (i, str));
  str ← buf_set str i 0;
  stdstring_reverse str.

(** ** Tokens and appending *)

(** [while (str[i] != 0 && contains == want) i++]. *)
Fixpoint token_scan (fuel : nat) (want : bool) (str : list Z) (i : Z) (delimeters : list Z) : outcome Z :=
  match fuel with
  | O => Err OutOfFuel
  | S fuel =>
      c ← buf_get str i;
      if c =? 0 then Ok i
      else
        b ← stdstr_contains_char c delimeters;
        if eqb b want then token_scan fuel want str (i + 1) delimeters else Ok i
  end.

(** [stdstring_next_token(&str[start], delimeters)]: the buffer with the token's
    terminator in place, [token_start] and [after_token] as indices. *)
Definition stdstring_next_token (str : list Z) (start : Z) (delimeters : list Z)
  : outcome (list Z * Z * option Z) :=
  i ← token_scan (S (length str)) true str start delimeters;
  let token_start := i in
  i ← token_scan (S (length str)) false str i delimeters;
  c ← buf_get str i;
  if c =? 0 then Ok (str, token_start, None)
  else str ← buf_set str i 0; Ok (str, token_start, Some (i + 1)).

Fixpoint append_loop (dest : list Z) (dest_index : Z) (source : list Z) (source_index : Z)
  : outcome (list Z * Z) :=
  match source with
  | [] => Err OutOfBounds
  | c :: source =>
      if c =? 0 then dest ← buf_set dest (dest_index + source_index) 0; Ok (dest, dest_index + source_index)
      else dest ← buf_set dest (dest_index + source_index) c;
           append_loop dest dest_index source (source_index + 1)
  end.
Definition stdstring_append (dest : list Z) (dest_index : Z) (source : list Z) : outcome (list Z * Z) :=
  append_loop dest dest_index source 0.

(** ** [stdstring_strtol] *)
Definition isupper (c : Z) : bool := (65 <=? c) && (c <=? 90).
Definition isalpha (c : Z) : bool := ((65 <=? c) && (c <=? 90)) || ((97 <=? c) && (c <=? 122)).
Definition isspace (c : Z) : bool := (c =? 32) || (c =? 9) || (c =? 10) || (c =? 10).
Definition isdigit (c : Z) : bool := (48 <=? c) && (c <=? 57).

Definition LONG_MIN : Z := - 2 ^ 31.
Definition LONG_MAX : Z := 2 ^ 31 - 1.

(** [c = *s++]. *)
Definition next_char (s : list Z) : outcome (Z * list Z) :=
  match s with [] => Err OutOfBounds | c :: s => Ok (c, s) end.

Fixpoint skip_space (s : list Z) : outcome (Z * list Z) :=
  match s with
  | [] => Err OutOfBounds
  | c :: s => if isspace c then skip_space s else Ok (c, s)
  end.

(** The value of a digit or letter, [None] for any other character. *)
Definition digit_value (c : Z) : option Z :=
  if isdigit c then Some (c - 48)
  else if isalpha c then Some (c - (if isupper c then 65 - 10 else 97 - 10))
  else None.

(** The accumulation loop, with [c] read and [s] after it: the accumulator,
    [any], and the character that ended the number with what follows it. *)
Fixpoint strtol_loop (base cutoff cutlim : Z) (c : Z) (s : list Z) (acc any : Z)
  : outcome (Z * Z * list Z) :=
  match digit_value c with
  | None => Ok (acc, any, c :: s)
  | Some d =>
      if d >=? base then Ok (acc, any, c :: s)
      else
        let '(acc, any) :=
          if (any <? 0) || (acc >? cutoff) || ((acc =? cutoff) && (d >? cutlim)) then (acc, -1)
          else (u32 (u32 (acc * base) + d), 1) in
        match s with [] => Err OutOfBounds | c :: s => strtol_loop base cutoff cutlim c s acc any end
  end.

(** The prefix of the number: sign, then a base marker where the base allows it. *)
Definition strtol_prefix (base : Z) (nptr : list Z) : outcome (bool * Z * Z * list Z) :=
  '(c, s) ← skip_space nptr;
  '(neg, c, s) ← (if c =? 45 then '(c, s) ← next_char s; Ok (true, c, s)
                  else if c =? 43 then '(c, s) ← next_char s; Ok (false, c, s)
                  else Ok (false, c, s));
  x ← (if ((base =? 0) || (base =? 16) || (base =? 2)) && (c =? 48) then buf_get s 0 else Ok 0);
  if ((base =? 0) || (base =? 16)) && (c =? 48) && ((x =? 120) || (x =? 88)) then
    c ← buf_get s 1; Ok (neg, 16, c, drop 2 s)
  else if ((base =? 0) || (base =? 2)) && (c =? 48) && ((x =? 98) || (x =? 66)) then
    c ← buf_get s 1; Ok (neg, 2, c, drop 2 s)
  else Ok (neg, if base =? 0 then (if c =? 48 then 8 else 10) else base, c, s).

(** The number, and what [*endptr] is set to. *)
Definition stdstring_strtol (nptr : list Z) (base : Z) : outcome (Z * list Z) :=
  '(neg, base, c, s) ← strtol_prefix base nptr;
  let cutoff := if (neg : bool) then u32 (- u32 LONG_MIN) else LONG_MAX in
  let cutlim := cutoff mod base in
  let cutoff := cutoff / base in
  '(acc, any, stop) ← strtol_loop base cutoff cutlim c s 0 0;
  let acc := if any <? 0 then (if neg then u32 LONG_MIN else LONG_MAX)
             else if neg then u32 (- acc) else acc in
  Ok (i32 acc, if any =? 0 then nptr else stop).

(** ** Length and comparison, proved *)
Lemma length_loop_spec s t len :
  nonul s -> 0 <= len -> len + zlength s < 2 ^ 31 -> length_loop (cstr s t) len = Ok (len + zlength s).
Proof.
  revert len; induction s as [|c s IH]; intros len Hs Hlen Hb; simpl in *.
  - do 2 f_equal. lia.
  - apply Forall_cons in Hs as [Hc Hs]. destruct (Z.eqb_spec c 0); [done|].
    nowrap. fold (cstr s t). rewrite IH by (done || lia). f_equal. lia.
Qed.

Lemma stdstring_length_spec s t :
  nonul s -> zlength s < 2 ^ 31 -> stdstring_length (cstr s t) = Ok (zlength s).
Proof. intros. unfold stdstring_length. by rewrite length_loop_spec. Qed.

(** The lexicographic order of two byte strings, as -1, 0 or 1. *)
Fixpoint lex (s1 s2 : list Z) : Z :=
  match s1, s2 with
  | [], [] => 0
  | [], _ => -1
  | _, [] => 1
  | c1 :: s1, c2 :: s2 => if c1 <? c2 then -1 else if c2 <? c1 then 1 else lex s1 s2
  end.

Lemma lex_eq s1 s2 : lex s1 s2 = 0 <-> s1 = s2.
Proof.
  revert s2; induction s1 as [|c1 s1 IH]; intros [|c2 s2]; simpl; try done.
  destruct (Z.ltb_spec c1 c2), (Z.ltb_spec c2 c1); try (split; [done|intros [= -> ->]; lia]).
  rewrite IH. assert (c1 = c2) as -> by lia. naive_solver.
Qed.

Lemma compare_lex s1 s2 t1 t2 :
  nonul s1 -> nonul s2 -> stdstring_compare (cstr s1 t1) (cstr s2 t2) = Ok (lex s1 s2).
Proof.
  revert s2; induction s1 as [|c1 s1 IH]; intros [|c2 s2] H1 H2; try apply Forall_cons in H1 as [Hc1 H1];
    try apply Forall_cons in H2 as [Hc2 H2]; simpl.
  - done.
  - by destruct (Z.eqb_spec c2 0).
  - by destruct (Z.eqb_spec c1 0).
  - destruct (Z.eqb_spec c1 0), (Z.eqb_spec c2 0); try done; simpl.
    destruct (Z.ltb_spec c1 c2); [done|]. rewrite Z.gtb_ltb.
    destruct (Z.ltb_spec c2 c1); [done|]. by apply IH.
Qed.

(** [stdstring_compare] never leaves two terminated strings,
    orders them lexicographically, and says 0 exactly on equal strings. *)
Lemma compare_spec s1 s2 t1 t2 :
  nonul s1 -> nonul s2 ->
  stdstring_compare (cstr s1 t1) (cstr s2 t2) = Ok (lex s1 s2) /\
  (stdstring_compare (cstr s1 t1) (cstr s2 t2) = Ok 0 <-> s1 = s2).
Proof.
  intros H1 H2. rewrite compare_lex by done. split; [done|]. rewrite <- lex_eq. split; [by intros [=]|by intros ->].
Qed.

(** ** Reversal, proved *)
Definition swapped (n : nat) (i : Z) (s s' : list Z) : Prop :=
  length s' = length s /\
  forall k : nat, s' !! k =
    if decide ((k < n)%nat /\ (Z.of_nat k < i \/ Z.of_nat n - 1 - i < Z.of_nat k))
    then s !! (n - 1 - k)%nat else s !! k.

Lemma swapped_step n i s s' c d :
  (n <= length s)%nat -> 0 <= i < Z.of_nat n - 1 - i -> swapped n i s s' ->
  s' !! Z.to_nat i = Some c -> s' !! Z.to_nat (Z.of_nat n - 1 - i) = Some d ->
  swapped n (i + 1) s (<[Z.to_nat (Z.of_nat n - 1 - i) := c]> (<[Z.to_nat i := d]> s')).
Proof.
  intros Hn Hi [Hl Hs] Hc Hd. split; [by rewrite !length_insert|]. intros k.
  rewrite Hs in Hc, Hd. rewrite decide_False in Hc by lia. rewrite decide_False in Hd by lia.
  rewrite !list_lookup_insert, Hs. rewrite ?length_insert.
  repeat case_decide; destruct_and?; subst; try lia; try done.
  - rewrite <- Hc. f_equal. lia.
  - rewrite <- Hd. f_equal. lia.
Qed.

Lemma stdstring_reverse_spec s t :
  nonul s -> zlength s < 2 ^ 31 -> stdstring_reverse (cstr s t) = Ok (cstr (reverse s) t).
Proof.
  intros Hs Hlen. unfold stdstring_reverse. rewrite stdstring_length_spec by done. ok_bind.
  set (n := length s). set (str := cstr s t).
  assert (Hn : (n < length str)%nat) by (unfold str, cstr; rewrite length_app; simpl; lia).
  match goal with |- while_loop ?fuel ?body ?s0 = _ =>
    destruct (while_loop_measure (S := Z * Z * list Z) (R := list Z)
      (fun '(i, j, b) => 0 <= i /\ j = Z.of_nat n - 1 - i /\ i <= j + 2 /\ swapped n i str b)
      (fun b => exists i, Z.of_nat n - 1 - i <= i /\ swapped n i str b)
      (fun '(i, j, _) => Z.to_nat (j - i)) body fuel s0) as (b & E & i & Hi & _ & Hb)
  end.
  - split; [lia|]. split; [lia|]. split; [lia|]. split; [done|]. intros k. by rewrite decide_False by lia.
  - intros [[i j] b] (Hi & -> & Hij & Hb). destruct (Z.ltb_spec i (Z.of_nat n - 1 - i)); [|right; eauto].
    left. pose proof Hb as [Hl _].
    destruct (buf_get_Ok b i) as (c & Hc & ->); [lia|]. ok_bind.
    destruct (buf_get_Ok b (Z.of_nat n - 1 - i)) as (d & Hd & ->); [lia|]. ok_bind.
    rewrite buf_set_Ok by lia. ok_bind.
    rewrite buf_set_Ok by (rewrite length_insert; lia). ok_bind.
    eexists. split; [done|]. split; [|lia]. split; [lia|]. split; [lia|]. split; [lia|].
    by apply swapped_step; try lia.
  - lia.
  - rewrite E. f_equal. apply list_eq. intros k. rewrite Hb. unfold str, cstr.
    case_decide as Hk.
    + rewrite !lookup_app_l by (rewrite ?length_reverse; lia).
      rewrite reverse_lookup by lia. f_equal. lia.
    + destruct (decide (k < n)%nat).
      * rewrite !lookup_app_l by (rewrite ?length_reverse; lia).
        rewrite reverse_lookup by lia. f_equal. lia.
      * rewrite !lookup_app_r by (rewrite ?length_reverse; lia). by rewrite length_reverse.
Qed.

(** ** Numbers, proved *)

(** The digits of [n], the least significant first. *)
Fixpoint lsd_digits (fuel : nat) (n : Z) : list Z :=
  match fuel with
  | O => []
  | S fuel => (n mod 10 + 48) :: if n / 10 =? 0 then [] else lsd_digits fuel (n / 10)
  end.

(** The decimal text of an [int32_t]. *)
Definition decimal (n : Z) : list Z :=
  (if n <? 0 then [45] else []) ++ reverse (lsd_digits 10 (Z.abs n)).

Lemma lsd_digits_nonempty fuel n : (0 < fuel)%nat -> lsd_digits fuel n <> [].
Proof. destruct fuel; [lia|done]. Qed.

Lemma lsd_digits_length fuel n : (length (lsd_digits fuel n) <= fuel)%nat.
Proof.
  revert n; induction fuel as [|fuel IH]; intros n; simpl; [lia|].
  destruct (n / 10 =? 0); simpl; [lia|]. specialize (IH (n / 10)). lia.
Qed.

Lemma lsd_digits_range fuel n : Forall (fun c => 48 <= c <= 57) (lsd_digits fuel n).
Proof.
  revert n; induction fuel as [|fuel IH]; intros n; simpl; [done|].
  constructor; [pose proof (Z.mod_pos_bound n 10); lia|]. destruct (n / 10 =? 0); [done|apply IH].
Qed.

(** How many digits a number has. *)
Lemma lsd_digits_count fuel n k :
  0 <= n < 10 ^ Z.of_nat fuel -> (0 < k)%nat -> (length (lsd_digits fuel n) <= k)%nat <-> n < 10 ^ Z.of_nat k.
Proof.
  revert n k; induction fuel as [|fuel IH]; intros n k Hn Hk.
  - change (10 ^ Z.of_nat 0) with 1 in Hn. pose proof (Z.pow_pos_nonneg 10 (Z.of_nat k) ltac:(lia) ltac:(lia)). simpl. lia.
  - destruct k as [|k]; [lia|]. rewrite Nat2Z.inj_succ, Z.pow_succ_r in * by lia. cbn [lsd_digits].
    pose proof (Z.div_mod n 10 ltac:(lia)). pose proof (Z.mod_pos_bound n 10 ltac:(lia)).
    pose proof (Z.pow_pos_nonneg 10 (Z.of_nat k) ltac:(lia) ltac:(lia)). destruct (Z.eqb_spec (n / 10) 0) as [E|E]; [simpl; lia|].
    assert (Hd : 0 <= n / 10 < 10 ^ Z.of_nat fuel) by (split; [apply Z.div_pos; lia|apply Z.div_lt_upper_bound; lia]).
    cbn [length]. destruct (decide (k = 0)%nat) as [->|Hk0].
    + change (10 ^ Z.of_nat 0) with 1 in *. pose proof (lsd_digits_nonempty fuel (n / 10)). destruct fuel; [change (10 ^ Z.of_nat 0) with 1 in Hd; lia|].
      destruct (lsd_digits (S fuel) (n / 10)); [naive_solver lia|simpl; lia].
    + pose proof (IH (n / 10) k Hd ltac:(lia)) as HI. split; intros Hl.
      * assert (n / 10 < 10 ^ Z.of_nat k) by (apply HI; lia). lia.
      * assert (length (lsd_digits fuel (n / 10)) <= k)%nat by (apply HI; apply Z.div_lt_upper_bound; lia). lia.
Qed.

Lemma buf_set_full b i v : zlength b <= i -> buf_set b i v = Err OutOfBounds.
Proof. intros Hi. unfold buf_set. by rewrite decide_False by lia. Qed.

(** The digits go to the start of the buffer, as far as it has room. *)
Lemma digit_loop_spec n str :
  0 <= n < 2 ^ 31 ->
  digit_loop n str = if decide (zlength (lsd_digits 10 n) <= zlength str) then Ok (zlength (lsd_digits 10 n), splice str 0 (lsd_digits 10 n)) else Err OutOfBounds.
Proof.
  intros Hn. unfold digit_loop.
  match goal with |- while_loop ?f ?b _ = _ =>
    assert (H : forall fuel n pre, (fuel < 11)%nat -> 0 <= n < 10 ^ Z.of_nat fuel -> (0 < fuel)%nat -> (length pre <= length str)%nat ->
      while_loop (S fuel) b (n, zlength pre, splice str 0 pre) =
        if decide (zlength (pre ++ lsd_digits fuel n) <= zlength str) then Ok (zlength (pre ++ lsd_digits fuel n), splice str 0 (pre ++ lsd_digits fuel n))
        else Err OutOfBounds)
  end.
  { intros fuel; induction fuel as [|fuel IH]; intros m pre Hf Hm Hf0 Hpre; [lia|]. clear Hf0.
    pose proof (Z.mod_pos_bound m 10). rewrite while_loop_S. cbn [lsd_digits]. destruct (decide (length pre = length str)) as [E|E].
    - rewrite decide_False by (rewrite length_app; simpl; lia). by rewrite buf_set_full by (rewrite splice_length; lia).
    - rewrite buf_set_Ok by (rewrite splice_length; lia). ok_bind.
      rewrite (splice_snoc str 0 pre) by lia. ok_bind.
      rewrite Z.rem_mod_nonneg, Z.quot_div_nonneg by lia. nowrap.
      replace (0 + zlength pre) with (zlength pre) by lia.
      assert (Hsnoc : zlength pre + 1 = zlength (pre ++ [m mod 10 + 48])) by (rewrite length_app; simpl; lia).
      rewrite Hsnoc. destruct (Z.gtb_spec (m / 10) 0), (Z.eqb_spec (m / 10) 0); try lia; ok_bind.
      + destruct (decide (fuel = 0)%nat) as [->|].
        { change (10 ^ Z.of_nat 1) with 10 in Hm. rewrite Z.div_small in * by lia. lia. }
        rewrite IH; [by rewrite <- app_assoc|lia| |lia|rewrite length_app; simpl; lia].
        rewrite Nat2Z.inj_succ, Z.pow_succ_r in Hm by lia. split; [lia|]. apply Z.div_lt_upper_bound; lia.
      + rewrite decide_True by (rewrite length_app; simpl; lia). done.
      + pose proof (Z.div_pos m 10). lia. }
  specialize (H 10%nat n []). rewrite splice_nil in H. apply H; simpl; lia.
Qed.

Lemma decimal_length n : - 2 ^ 31 < n < 2 ^ 31 -> zlength (decimal n) <= 11.
Proof.
  intros Hn. pose proof (lsd_digits_length 10 (Z.abs n)). unfold decimal. rewrite length_app, length_reverse. destruct (n <? 0); cbn [length]; lia.
Qed.

(** How many characters a number takes. *)
Lemma decimal_fits n c :
  - 2 ^ 31 < n < 2 ^ 31 -> 2 <= c -> zlength (decimal n) < c <-> - 10 ^ (c - 2) < n < 10 ^ (c - 1).
Proof.
  intros Hn Hc. unfold decimal. rewrite length_app, length_reverse.
  pose proof (lsd_digits_count 10 (Z.abs n) (Z.to_nat (c - 1)) ltac:(lia) ltac:(lia)) as H1.
  pose proof (lsd_digits_nonempty 10 (Z.abs n) ltac:(lia)) as Hne. rewrite Z2Nat.id in H1 by lia.
  assert (Hpos : (0 < length (lsd_digits 10 (Z.abs n)))%nat) by (destruct (lsd_digits 10 (Z.abs n)); [done|simpl; lia]).
  destruct (Z.ltb_spec n 0) as [Hs|Hs]; cbn [length].
  - assert (H2 : (length (lsd_digits 10 (Z.abs n)) <= Z.to_nat (c - 2))%nat <-> Z.abs n < 10 ^ (c - 2)).
    { destruct (decide (c = 2)) as [->|]; [change (10 ^ (2 - 2)) with 1; lia|].
      rewrite (lsd_digits_count 10 (Z.abs n) (Z.to_nat (c - 2))), Z2Nat.id by lia. done. }
    pose proof (Z.pow_pos_nonneg 10 (c - 1) ltac:(lia) ltac:(lia)). lia.
  - pose proof (Z.pow_pos_nonneg 10 (c - 2) ltac:(lia) ltac:(lia)). lia.
Qed.

(** For every [int32_t] but [INT_MIN], [stdstring_int_to_str] writes the decimal
    text and its terminator at the start of the buffer and leaves the rest of it
    alone, if there is room for both; else it writes past the buffer. *)
Lemma int_to_str_eq n str :
  - 2 ^ 31 < n < 2 ^ 31 ->
  stdstring_int_to_str n str =
    if decide (zlength (decimal n) < zlength str) then Ok (cstr (decimal n) (drop (S (length (decimal n))) str)) else Err OutOfBounds.
Proof.
  intros Hn. set (ds := lsd_digits 10 (Z.abs n)). set (sg := if n <? 0 then [45] else []).
  assert (Hnonul : forall l, Forall (fun c => 48 <= c <= 57) l -> nonul l).
  { intros l Hl. eapply Forall_impl; [done|]. simpl. lia. }
  assert (Hdec : decimal n = reverse (ds ++ sg)).
  { unfold decimal. fold sg ds. rewrite reverse_app. f_equal. unfold sg. by destruct (n <? 0). }
  assert (Hld : zlength (decimal n) = zlength ds + zlength sg) by (rewrite Hdec, length_reverse, length_app; lia).
  pose proof (decimal_length n Hn). unfold stdstring_int_to_str.
  assert (Habs : (if n <? 0 then i32 (- n) else n) = Z.abs n).
  { destruct (Z.ltb_spec n 0); [nowrap|]; lia. }
  rewrite Habs, digit_loop_spec by lia. fold ds. destruct (decide (zlength ds <= zlength str)) as [Hd|Hd]; [|by rewrite decide_False by lia]. ok_bind.
  assert (Hsign : (if n <? 0 then str' ← buf_set (splice str 0 ds) (zlength ds) 45; Ok (zlength ds + 1, str')
                   else Ok (zlength ds, splice str 0 ds)) =
      if decide (zlength (ds ++ sg) <= zlength str) then Ok (zlength (ds ++ sg), splice str 0 (ds ++ sg)) else Err OutOfBounds).
  { unfold sg. destruct (n <? 0); [|by rewrite app_nil_r, decide_True]. rewrite length_app. change (length [45]) with 1%nat. rewrite Nat2Z.inj_add. destruct (decide _) as [Hr|Hr].
    - rewrite buf_set_Ok by (rewrite splice_length; lia). ok_bind. by rewrite <- (splice_snoc str 0 ds) by lia.
    - by rewrite buf_set_full by (rewrite splice_length; lia). }
  rewrite Hsign. clear Hsign Habs. set (w := ds ++ sg) in *. assert (Hw : zlength (decimal n) = zlength w) by (by rewrite Hdec, length_reverse).
  destruct (decide (zlength w <= zlength str)) as [Hr|Hr]; [|by rewrite decide_False by lia]. ok_bind.
  destruct (decide (zlength (decimal n) < zlength str)) as [Hroom|Hroom]; [|by rewrite buf_set_full by (rewrite splice_length; lia)].
  rewrite buf_set_Ok by (rewrite splice_length; lia). ok_bind.
  assert (Hsn : zlength w = 0 + zlength w) by lia. rewrite Hsn, (splice_snoc str 0 w) by lia.
  assert (Hs : splice str 0 (w ++ [0]) = cstr w (drop (S (length (decimal n))) str)).
  { unfold splice, cstr. rewrite length_app, Z2Nat.inj_0, take_0, Hdec, length_reverse. cbn [length app]. rewrite <- (app_assoc w). cbn [app]. do 4 f_equal. lia. }
  rewrite Hs, stdstring_reverse_spec; [by rewrite Hdec| |lia].
  apply Forall_app. split; [apply Hnonul, lsd_digits_range|]. unfold sg. destruct (n <? 0); repeat constructor; lia.
Qed.

(** C35 (bounds): [stdstring_int_to_str] stays inside a buffer of [c] bytes for
    exactly the numbers between [-10^(c-2)] and [10^(c-1)], both excluded; for
    these the buffer then holds the number's decimal text, and for every other
    [int32_t] but [INT_MIN] it writes past the end. The ten bytes of
    [stdio_printint] do not hold every [int32_t]. *)
Theorem int_to_str_bounds n str c :
  - 2 ^ 31 < n < 2 ^ 31 -> zlength str = c -> 2 <= c ->
  (- 10 ^ (c - 2) < n < 10 ^ (c - 1) /\ exists t, stdstring_int_to_str n str = Ok (cstr (decimal n) t)) \/
  (~ (- 10 ^ (c - 2) < n < 10 ^ (c - 1)) /\ stdstring_int_to_str n str = Err OutOfBounds).
Proof.
  intros Hn Hl Hc. rewrite int_to_str_eq by done. pose proof (decimal_fits n c Hn Hc) as Hfit. rewrite Hl.
  destruct (decide (zlength (decimal n) < c)); [left; split; [by apply Hfit|eauto]|right; split; [|done]]. rewrite <- Hfit. lia.
Qed.

(** The value of a run of decimal digits. *)
Definition horner (acc : Z) (ds : list Z) : Z := foldl (fun a c => a * 10 + (c - 48)) acc ds.

Definition all_digits (ds : list Z) : Prop := Forall (fun c => 48 <= c <= 57) ds.

Lemma horner_mono acc ds : 0 <= acc -> all_digits ds -> acc <= horner acc ds.
Proof.
  revert acc; induction ds as [|d ds IH]; intros acc Ha Hds; simpl; [lia|].
  apply Forall_cons in Hds as [Hd Hds]. etrans; [|apply IH; [lia|done]]. lia.
Qed.

Lemma digit_value_digit c : 48 <= c <= 57 -> digit_value c = Some (c - 48).
Proof.
  intros. unfold digit_value, isdigit. destruct (Z.leb_spec 48 c), (Z.leb_spec c 57); (done || lia).
Qed.

(** A character that ends a decimal number. *)
Definition ends_number (c : Z) : Prop :=
  match digit_value c with None => True | Some d => 10 <= d end.

(** The cutoff test says exactly whether one more digit goes over the limit. *)
Lemma cutoff_exact L acc d :
  0 <= L -> 0 <= d < 10 ->
  (acc >? L / 10) || (acc =? L / 10) && (d >? L mod 10) = negb (acc * 10 + d <=? L).
Proof.
  intros. pose proof (Z.div_mod L 10 ltac:(lia)). pose proof (Z.mod_pos_bound L 10 ltac:(lia)).
  destruct (Z.gtb_spec acc (L / 10)), (Z.eqb_spec acc (L / 10)), (Z.gtb_spec d (L mod 10)),
    (Z.leb_spec (acc * 10 + d) L); (done || lia).
Qed.

(** The accumulation loop over digits: the value while it stays below the
    limit, and the overflow mark for ever after it does not. *)
Lemma strtol_loop_digits L ds : forall c0 rest stop t acc any,
  0 <= L < 2 ^ 32 -> all_digits ds -> ends_number stop -> 0 <= acc <= L -> -1 <= any <= 1 ->
  ds ++ stop :: t = c0 :: rest ->
  exists acc', strtol_loop 10 (L / 10) (L mod 10) c0 rest acc any =
    Ok (acc', (if any <? 0 then -1 else if ds is [] then any else if horner acc ds <=? L then 1 else -1), stop :: t)
    /\ (0 <= any -> horner acc ds <= L -> acc' = horner acc ds).
Proof.
  induction ds as [|d ds IH]; intros c0 rest stop t acc any HL Hds Hstop Hacc Hany Hc0; injection Hc0 as <- <-.
  - exists acc. split; [|done]. unfold ends_number in Hstop.
    assert (strtol_loop 10 (L / 10) (L mod 10) stop t acc any = Ok (acc, any, stop :: t)) as ->.
    { destruct t; simpl; (destruct (digit_value stop) as [v|]; [|done]); by destruct (Z.geb_spec v 10); [|lia]. }
    destruct (Z.ltb_spec any 0); [|done]. by replace any with (-1) by lia.
  - apply Forall_cons in Hds as [Hd Hds]. destruct (ds ++ stop :: t) as [|c1 rest] eqn:Erest; [by destruct ds|].
    pose proof (horner_mono (acc * 10 + (d - 48)) ds ltac:(lia) Hds) as Hmono.
    cbn [strtol_loop]. rewrite digit_value_digit by done. destruct (Z.geb_spec (d - 48) 10); [lia|].
    rewrite <- orb_assoc, cutoff_exact by lia.
    cbn [horner foldl]. fold (horner (acc * 10 + (d - 48)) ds).
    destruct (Z.ltb_spec any 0) as [Hneg|Hpos]; cbn [orb].
    { destruct (IH c1 rest stop t acc (-1)) as (acc' & E & _); try (done || lia).
      exists acc'. rewrite E. split; [done|lia]. }
    destruct (Z.leb_spec (acc * 10 + (d - 48)) L) as [Hfit|Hover]; cbn [negb]; nowrap.
    + destruct (IH c1 rest stop t (acc * 10 + (d - 48)) 1) as (acc' & E & Hval); try (done || lia).
      exists acc'. rewrite E. split; [|intros _ H'; by apply Hval].
      destruct ds; [|done]. simpl. by destruct (Z.leb_spec (acc * 10 + (d - 48)) L); [|lia].
    + destruct (IH c1 rest stop t acc (-1)) as (acc' & E & _); try (done || lia).
      exists acc'. rewrite E. split; [|lia]. by destruct (Z.leb_spec (horner (acc * 10 + (d - 48)) ds) L); [lia|].
Qed.

Inductive sign_text : bool -> list Z -> Prop :=
| sign_none : sign_text false []
| sign_plus : sign_text false [43]
| sign_minus : sign_text true [45].

Lemma skip_space_spec ws c s :
  Forall (fun c => isspace c = true) ws -> isspace c = false -> skip_space (ws ++ c :: s) = Ok (c, s).
Proof.
  induction ws as [|w ws IH]; intros Hws Hc; simpl.
  - by rewrite Hc.
  - apply Forall_cons in Hws as [-> Hws]. by apply IH.
Qed.

Lemma strtol_prefix_decimal ws neg sg c rest :
  Forall (fun c => isspace c = true) ws -> sign_text neg sg -> 48 <= c <= 57 ->
  strtol_prefix 10 (ws ++ sg ++ c :: rest) = Ok (neg, 10, c, rest).
Proof.
  intros Hws Hsg Hc. unfold strtol_prefix.
  destruct Hsg; cbn [app]; rewrite skip_space_spec; try done; ok_bind; try done.
  - destruct (Z.eqb_spec c 45); [lia|]. destruct (Z.eqb_spec c 43); [lia|]. ok_bind. done.
  - unfold isspace. destruct (Z.eqb_spec c 32), (Z.eqb_spec c 9), (Z.eqb_spec c 10); (done || lia).
Qed.

Lemma strtol_decimal_eq ws neg sg ds stop t :
  Forall (fun c => isspace c = true) ws -> sign_text neg sg -> ds <> [] -> all_digits ds -> ends_number stop ->
  stdstring_strtol (ws ++ sg ++ ds ++ stop :: t) 10 =
    Ok ((if neg then Z.max LONG_MIN (- horner 0 ds) else Z.min LONG_MAX (horner 0 ds)), stop :: t).
Proof.
  intros Hws Hsg Hne Hds Hstop. unfold stdstring_strtol.
  destruct (ds ++ stop :: t) as [|c rest] eqn:E; [by destruct ds|].
  assert (Hc : 48 <= c <= 57).
  { destruct ds as [|d ds]; [done|]. injection E as -> _. by apply Forall_cons in Hds as [? _]. }
  rewrite (strtol_prefix_decimal ws neg) by done. ok_bind.
  pose proof (horner_mono 0 ds ltac:(lia) Hds) as Hpos.
  set (L := if neg then 2 ^ 31 else 2 ^ 31 - 1).
  assert (HL : (if neg then u32 (- u32 LONG_MIN) else LONG_MAX) = L) by by destruct neg.
  rewrite HL. destruct (strtol_loop_digits L ds c rest stop t 0 0) as (acc & -> & Hval); try done.
  { unfold L. destruct neg; lia. }
  { unfold L. destruct neg; lia. }
  ok_bind. cbn [Z.ltb Z.compare]. destruct ds as [|d ds]; [done|].
  destruct (Z.leb_spec (horner 0 (d :: ds)) L) as [Hle|Hgt]; cbn [Z.ltb Z.eqb Z.compare]; do 2 f_equal.
  - rewrite Hval by done. unfold L, LONG_MIN, LONG_MAX in *. destruct neg; [|rewrite i32_small by lia; lia].
    destruct (decide (horner 0 (d :: ds) = 0)) as [->|]; [done|].
    unfold u32. rewrite <- (Z.mod_unique _ (2 ^ 32) (-1) (2 ^ 32 - horner 0 (d :: ds))) by lia.
    unfold i32. rewrite <- (Z.mod_unique _ (2 ^ 32) 1 (2 ^ 31 - horner 0 (d :: ds))) by lia. lia.
  - unfold L, LONG_MIN, LONG_MAX in *. destruct neg; [change (i32 (u32 (- 2 ^ 31))) with (- 2 ^ 31)|rewrite i32_small by lia]; lia.
Qed.

(** On optional blanks, an optional sign and decimal digits,
    [stdstring_strtol] in base 10 returns the number, clamped to the range of
    [long], and stops at the first character after the digits. *)
Lemma strtol_decimal ws neg sg ds stop t :
  Forall (fun c => isspace c = true) ws -> sign_text neg sg -> ds <> [] -> all_digits ds -> ends_number stop ->
  stdstring_strtol (ws ++ sg ++ ds ++ stop :: t) 10 =
    Ok ((if neg then Z.max LONG_MIN (- horner 0 ds) else Z.min LONG_MAX (horner 0 ds)), stop :: t).
Proof. apply strtol_decimal_eq. Qed.

Lemma horner_app acc ds1 ds2 : horner acc (ds1 ++ ds2) = horner (horner acc ds1) ds2.
Proof. apply foldl_app. Qed.

Lemma horner_lsd fuel n : 0 <= n < 10 ^ Z.of_nat fuel -> horner 0 (reverse (lsd_digits fuel n)) = n.
Proof.
  revert n; induction fuel as [|fuel IH]; intros n Hn.
  - change (10 ^ Z.of_nat 0) with 1 in Hn. simpl. change (horner 0 (reverse [])) with 0. lia.
  - cbn [lsd_digits]. pose proof (Z.div_mod n 10 ltac:(lia)). pose proof (Z.mod_pos_bound n 10 ltac:(lia)).
    rewrite reverse_cons, horner_app. destruct (Z.eqb_spec (n / 10) 0) as [E|E].
    + change (reverse []) with (@nil Z). cbn. lia.
    + rewrite IH; [cbn; lia|]. rewrite Nat2Z.inj_succ, Z.pow_succ_r in Hn by lia.
      split; [apply Z.div_pos; lia|apply Z.div_lt_upper_bound; lia].
Qed.

(** C34 (roundtrip): for every [int32_t] but [INT_MIN], [stdstring_int_to_str]
    writes the decimal text, of eleven characters at most, with its terminator,
    and [stdstring_strtol] in base 10 reads the number back. *)
Theorem strtol_int_to_str n str :
  - 2 ^ 31 < n < 2 ^ 31 -> 12 <= zlength str ->
  exists t, stdstring_int_to_str n str = Ok (cstr (decimal n) t) /\ zlength (decimal n) <= 11 /\
    stdstring_strtol (cstr (decimal n) t) 10 = Ok (n, 0 :: t).
Proof.
  intros Hn Hlen. exists (drop (S (length (decimal n))) str). pose proof (decimal_length n Hn) as Hd.
  pose proof (int_to_str_eq n str Hn) as E. rewrite decide_True in E by lia.
  pose proof (horner_lsd 10 (Z.abs n)) as Hval. specialize (Hval ltac:(lia)).
  split; [done|]. split; [done|]. unfold cstr, decimal at 1. rewrite <- app_assoc.
  set (t := drop _ _). set (sg := if n <? 0 then [45] else []).
  assert (Hsg : sign_text (n <? 0) sg) by (unfold sg; destruct (n <? 0); constructor).
  pose proof (strtol_decimal_eq [] (n <? 0) sg (reverse (lsd_digits 10 (Z.abs n))) 0 t) as H.
  rewrite Hval in H. cbn [app] in H. rewrite H; clear H; try done.
  - unfold LONG_MIN, LONG_MAX. destruct (Z.ltb_spec n 0); do 2 f_equal; lia.
  - intros Hnil. apply (f_equal length) in Hnil. rewrite length_reverse in Hnil. by apply nil_length_inv, lsd_digits_nonempty in Hnil; [|lia].
  - apply Forall_reverse, lsd_digits_range.
Qed.

(** ** Tokens and appending, proved *)
Lemma contains_char_spec c s t :
  nonul s -> stdstr_contains_char c (cstr s t) = Ok (bool_decide (c ∈ s)).
Proof.
  induction s as [|d s IH]; intros Hs; simpl; [done|].
  apply Forall_cons in Hs as [Hd Hs]. destruct (Z.eqb_spec d 0); [done|].
  destruct (Z.eqb_spec c d) as [->|]; [rewrite bool_decide_true; [done|set_solver]|].
  fold (cstr s t). rewrite IH by done. f_equal. apply bool_decide_ext. set_solver.
Qed.

Lemma buf_get_drop str i run c t :
  0 <= i -> drop (Z.to_nat i) str = run ++ c :: t -> buf_get str (i + zlength run) = Ok c.
Proof.
  intros Hi Hd. apply buf_get_lookup; [lia|].
  replace (Z.to_nat (i + zlength run)) with (Z.to_nat i + length run)%nat by lia.
  rewrite <- lookup_drop, Hd. by rewrite list_lookup_middle.
Qed.

(** A maximal run of characters that are ([want]) or are not delimiters. *)
Lemma token_scan_spec want delims tl str run : forall c t i fuel,
  nonul delims -> 0 <= i -> drop (Z.to_nat i) str = run ++ c :: t -> nonul run ->
  Forall (fun d => bool_decide (d ∈ delims) = want) run ->
  c = 0 \/ bool_decide (c ∈ delims) <> want -> (length run < fuel)%nat ->
  token_scan fuel want str i (cstr delims tl) = Ok (i + zlength run).
Proof.
  induction run as [|d run IH]; intros c t i fuel Hdl Hi Hd Hn Hrun Hc Hf;
    (destruct fuel as [|fuel]; [simpl in Hf; lia|]); cbn [token_scan].
  - pose proof (buf_get_drop str i [] c t Hi Hd) as E. simpl in E. rewrite Z.add_0_r in E. rewrite E. ok_bind.
    simpl. rewrite Z.add_0_r. destruct (Z.eqb_spec c 0); [done|]. rewrite contains_char_spec by done. ok_bind.
    destruct (eqb_spec (bool_decide (c ∈ delims)) want); [naive_solver|done].
  - apply Forall_cons in Hn as [Hd0 Hn]. apply Forall_cons in Hrun as [Hdw Hrun].
    pose proof (buf_get_drop str i [] d (run ++ c :: t) Hi Hd) as E. simpl in E. rewrite Z.add_0_r in E. rewrite E. ok_bind.
    destruct (Z.eqb_spec d 0); [done|]. rewrite contains_char_spec by done. ok_bind.
    rewrite Hdw. destruct (eqb_spec want want); [|done].
    rewrite (IH c t); try done; [f_equal; simpl; lia|lia| |simpl in Hf; lia].
    replace (Z.to_nat (i + 1)) with (S (Z.to_nat i)) by lia.
    by apply (f_equal (drop 1)) in Hd; rewrite drop_drop, Nat.add_1_r in Hd.
Qed.

(** [stdstring_next_token] skips the delimiters, stops at the
    end of the maximal run of other characters, terminates it there, and gives
    the place after it unless the string ended. *)
Lemma next_token_spec str start ds tok c t delims tl :
  0 <= start -> nonul delims -> drop (Z.to_nat start) str = ds ++ tok ++ c :: t ->
  nonul ds -> Forall (fun d => d ∈ delims) ds ->
  nonul tok -> Forall (fun d => d ∉ delims) tok ->
  (c = 0 \/ (c ∈ delims /\ tok <> [])) ->
  let b := start + zlength ds in let e := b + zlength tok in
  stdstring_next_token str start (cstr delims tl) =
    Ok (if c =? 0 then (str, b, None) else (<[Z.to_nat e := 0]> str, b, Some (e + 1))).
Proof.
  intros Hs Hdl Hd Hnd Hds Hnt Htok Hc b e. unfold stdstring_next_token.
  assert (Hlen : (length str > Z.to_nat start + length ds + length tok)%nat).
  { apply (f_equal length) in Hd. rewrite length_drop, !length_app in Hd. simpl in Hd. lia. }
  assert (Hd2 : drop (Z.to_nat b) str = tok ++ c :: t).
  { unfold b. replace (Z.to_nat (start + zlength ds)) with (Z.to_nat start + length ds)%nat by lia.
    rewrite <- drop_drop, Hd. by rewrite drop_app_length. }
  assert (Hfst : exists c1 t1, tok ++ c :: t = c1 :: t1 /\ (c1 = 0 \/ bool_decide (c1 ∈ delims) <> true)).
  { destruct tok as [|c1 tok]; [exists c, t; naive_solver|].
    exists c1, (tok ++ c :: t). split; [done|]. right. apply Forall_cons in Htok as [Hc1 _]. by rewrite bool_decide_false. }
  destruct Hfst as (c1 & t1 & Ec1 & Hc1).
  rewrite (token_scan_spec true delims tl str ds c1 t1); try done; try lia; [|by rewrite Hd, Ec1|].
  2:{ eapply Forall_impl; [done|]. intros d Hin. by apply bool_decide_true. }
  ok_bind. fold b.
  rewrite (token_scan_spec false delims tl str tok c t); try done; try lia.
  2:{ eapply Forall_impl; [done|]. intros d Hin. by apply bool_decide_false. }
  2:{ destruct Hc as [|[Hin _]]; [by left|right]. by rewrite bool_decide_true. }
  ok_bind. fold e. unfold e. rewrite (buf_get_drop str b tok c t) by (done || lia). ok_bind.
  destruct (Z.eqb_spec c 0); [done|]. rewrite buf_set_Ok by lia. by ok_bind.
Qed.

Lemma append_loop_spec dest dest_index s t si :
  nonul s -> 0 <= dest_index -> 0 <= si -> dest_index + si + zlength s < zlength dest ->
  append_loop dest dest_index (cstr s t) si =
    Ok (splice dest (dest_index + si) (s ++ [0]), dest_index + si + zlength s).
Proof.
  revert dest si; induction s as [|c s IH]; intros dest si Hs Hdi Hsi Hlen; simpl in *.
  - rewrite buf_set_Ok by lia. ok_bind. f_equal. f_equal; [|lia].
    pose proof (splice_snoc dest (dest_index + si) [] 0) as E. rewrite splice_nil in E. simpl in E.
    rewrite Z.add_0_r in E. by apply E; lia.
  - apply Forall_cons in Hs as [Hc Hs]. destruct (Z.eqb_spec c 0); [done|]. rewrite buf_set_Ok by lia. ok_bind.
    fold (cstr s t). rewrite IH by (done || rewrite ?length_insert; lia). f_equal. f_equal; [|lia].
    apply list_eq. intros k. rewrite !lookup_splice by (rewrite ?length_insert, ?length_app; simpl; rewrite ?length_app; simpl; lia).
    rewrite list_lookup_insert, !length_app. simpl. rewrite length_app. simpl.
    replace (Z.to_nat (dest_index + (si + 1))) with (S (Z.to_nat (dest_index + si))) by lia.
    repeat case_decide; destruct_and?; try lia; try done.
    + by replace (k - Z.to_nat (dest_index + si))%nat with (S (k - S (Z.to_nat (dest_index + si))))%nat by lia.
    + subst k. by replace (_ - _)%nat with 0%nat by lia.
Qed.

(** [stdstring_append] writes the source and its terminator at the index,
    nothing else, and returns the terminator's position. *)
Lemma append_eq dest dest_index s t :
  nonul s -> 0 <= dest_index -> dest_index + zlength s < zlength dest ->
  stdstring_append dest dest_index (cstr s t) =
    Ok (splice dest dest_index (s ++ [0]), dest_index + zlength s).
Proof. intros. unfold stdstring_append. rewrite append_loop_spec by (done || lia). by rewrite Z.add_0_r. Qed.

(** ** The theorems at work *)
Lemma compare_spec_witness :
  stdstring_compare (cstr [108; 115] []) (cstr [108; 115] [7]) = Ok 0.
Proof. apply (compare_spec [108; 115] [108; 115] [] [7]); [by repeat constructor|by repeat constructor|reflexivity]. Defined.

Lemma strtol_decimal_witness :
  stdstring_strtol ([32] ++ [45] ++ [52; 50] ++ 0 :: []) 10 = Ok (-42, [0]).
Proof.
  rewrite (strtol_decimal [32] true [45] [52; 50] 0 []); [reflexivity|apply (bool_decide_unpack _); by vm_compute|constructor|discriminate|repeat constructor; lia|exact I].
Defined.

Lemma strtol_int_to_str_witness :
  exists t, stdstring_int_to_str (-42) (replicate 15 0) = Ok (cstr [45; 52; 50] t) /\ stdstring_strtol (cstr [45; 52; 50] t) 10 = Ok (-42, 0 :: t).
Proof.
  destruct (strtol_int_to_str (-42) (replicate 15 0)) as (t & E & _ & R); [lia|simpl; lia|]. exists t. split; [exact E|exact R].
Defined.

Lemma int_to_str_bounds_witness :
  (exists t, stdstring_int_to_str 999999999 (replicate 10 0) = Ok (cstr (decimal 999999999) t)) /\
  stdstring_int_to_str 1000000000 (replicate 10 0) = Err OutOfBounds /\ stdstring_int_to_str (-100000000) (replicate 10 0) = Err OutOfBounds.
Proof.
  split; [|split].
  - destruct (int_to_str_bounds 999999999 (replicate 10 0) 10) as [[_ E]|[H _]]; [lia|done|lia|exact E|exfalso; apply H; lia].
  - destruct (int_to_str_bounds 1000000000 (replicate 10 0) 10) as [[H _]|[_ E]]; [lia|done|lia|exfalso; lia|exact E].
  - destruct (int_to_str_bounds (-100000000) (replicate 10 0) 10) as [[H _]|[_ E]]; [lia|done|lia|exfalso; lia|exact E].
Defined.

Lemma next_token_spec_witness :
  stdstring_next_token [32; 108; 115; 32; 97; 0] 0 (cstr [32] []) = Ok ([32; 108; 115; 0; 97; 0], 1, Some 4).
Proof.
  apply (next_token_spec [32; 108; 115; 32; 97; 0] 0 [32] [108; 115] 32 [97; 0] [32] []); try done.
  - by repeat constructor.
  - by repeat constructor.
  - repeat constructor; set_solver.
  - by repeat constructor.
  - repeat constructor; set_solver by lia.
  - right. split; [set_solver|done].
Defined.

