(* ===== verification/Scheduler.v ===== *)
(** * The scheduler

    [scheduler.c]: the process list, the two priority queues, the record of
    events, and the operations the supervisor calls and the timer perform on
    them. The queues are the lists that [Tailq] shows the pointer code to
    implement; a pointer to a process control block is its index in the
    process list, which only grows at its tail. *)
From S2P Require Import Prelude Mem Tailq.

(** ** Data ([stdproc.h]) *)
Definition PROCESS_EVENT_EXITED := 1.
Definition PROCESS_EVENT_SUSPENDED := 2.
Definition PROCESS_EVENT_UNSUSPENDED := 3.
Definition PROCESS_EVENT_BLOCKED := 4.
Definition PROCESS_EVENT_UNBLOCKED := 5.
Definition PROCESS_EVENT_CREATED := 6.
Definition PROCESS_STATUS_RUNNING := 1.
Definition PROCESS_STATUS_READY := 2.
Definition PROCESS_STATUS_BLOCKED := 3.
Definition PROCESS_STATUS_TERMINATED := 4.

Record ctx_t := Ctx { cpsr : Z; pc : Z; gpr : list Z; sp : Z; lr : Z }.
Record event_t := Event { event : Z; from_process : Z }.
Record pcb_t := Pcb { pid : Z; ctx : ctx_t; status : Z; blocked_until : event_t }.

#[export] Instance ctx_eq_dec : EqDecision ctx_t.
Proof. solve_decision. Defined.
#[export] Instance event_eq_dec : EqDecision event_t.
Proof. solve_decision. Defined.
#[export] Instance pcb_eq_dec : EqDecision pcb_t.
Proof. solve_decision. Defined.

(** The globals of [scheduler.c], the console and the memory [fork] copies. *)
Record sched := Sched {
  current_pid : Z;
  next_pid : Z;
  current_stack_break : Z;
  events_head : list event_t;
  process_list : list pcb_t;
  low_priority_queue : list Z;
  high_priority_queue : list Z;
  console : list Z;
  memory : Z -> Z
}.

Definition with_current (p : Z) (s : sched) : sched :=
  Sched p (next_pid s) (current_stack_break s) (events_head s) (process_list s)
    (low_priority_queue s) (high_priority_queue s) (console s) (memory s).
Definition with_events (l : list event_t) (s : sched) : sched :=
  Sched (current_pid s) (next_pid s) (current_stack_break s) l (process_list s)
    (low_priority_queue s) (high_priority_queue s) (console s) (memory s).
Definition with_procs (l : list pcb_t) (s : sched) : sched :=
  Sched (current_pid s) (next_pid s) (current_stack_break s) (events_head s) l
    (low_priority_queue s) (high_priority_queue s) (console s) (memory s).
Definition with_low (q : list Z) (s : sched) : sched :=
  Sched (current_pid s) (next_pid s) (current_stack_break s) (events_head s) (process_list s)
    q (high_priority_queue s) (console s) (memory s).
Definition with_high (q : list Z) (s : sched) : sched :=
  Sched (current_pid s) (next_pid s) (current_stack_break s) (events_head s) (process_list s)
    (low_priority_queue s) q (console s) (memory s).
Definition with_memory (m : Z -> Z) (s : sched) : sched :=
  Sched (current_pid s) (next_pid s) (current_stack_break s) (events_head s) (process_list s)
    (low_priority_queue s) (high_priority_queue s) (console s) m.

Definition set_ctx (c : ctx_t) (p : pcb_t) : pcb_t := Pcb (pid p) c (status p) (blocked_until p).
Definition set_status (v : Z) (p : pcb_t) : pcb_t := Pcb (pid p) (ctx p) v (blocked_until p).
Definition set_blocked_until (e : event_t) (p : pcb_t) : pcb_t := Pcb (pid p) (ctx p) (status p) e.
Definition set_gpr (i : nat) (v : Z) (c : ctx_t) : ctx_t :=
  Ctx (cpsr c) (pc c) (<[i := v]> (gpr c)) (sp c) (lr c).
Definition get_gpr (i : nat) (c : ctx_t) : Z := default 0 (gpr c !! i).

(** ** Copies *)
Definition copy_ctx (destination source : ctx_t) : ctx_t :=
  Ctx (cpsr source) (pc source) (gpr source) (sp source) (lr source).
Definition copy_event (destination source : event_t) : event_t :=
  Event (event source) (from_process source).
Definition copy_pcb (destination source : pcb_t) : pcb_t :=
  Pcb (pid source) (copy_ctx (ctx destination) (ctx source)) (status source)
    (copy_event (blocked_until destination) (blocked_until source)).

(** ** Process list *)
Definition set_stack_break (increment : Z) (s : sched) : Z * sched :=
  let old_stack_break := current_stack_break s in
  (old_stack_break,
   Sched (current_pid s) (next_pid s) (u32 (current_stack_break s - increment)) (events_head s)
     (process_list s) (low_priority_queue s) (high_priority_queue s) (console s) (memory s)).

Definition get_new_pid (s : sched) : Z * sched :=
  let pid := next_pid s in
  (pid, Sched (current_pid s) (i32 (next_pid s + 1)) (current_stack_break s) (events_head s)
     (process_list s) (low_priority_queue s) (high_priority_queue s) (console s) (memory s)).

(** The pointer to the first entry with the pid, [None] for [NULL]. *)
Fixpoint find_pcb (p : Z) (l : list pcb_t) : option nat :=
  match l with
  | [] => None
  | item :: l => if pid item =? p then Some O else S <$> find_pcb p l
  end.
Definition find_process (p : Z) (s : sched) : option nat := find_pcb p (process_list s).

(** A write through such a pointer. *)
Definition update_pcb (ptr : option nat) (f : pcb_t -> pcb_t) (s : sched) : outcome sched :=
  match ptr with
  | None => Err NullPointer
  | Some i => Ok (with_procs (alter f i (process_list s)) s)
  end.

Definition read_pcb (ptr : option nat) (s : sched) : outcome pcb_t :=
  i ← deref_opt ptr; deref_opt (process_list s !! i).

Definition save_current_process (c : ctx_t) (s : sched) : outcome sched :=
  let current_process := find_process (current_pid s) s in
  update_pcb current_process (fun p => set_ctx (copy_ctx (ctx p) c) p) s.

Definition run_process (c : ctx_t) (p : Z) (s : sched) : outcome (ctx_t * sched) :=
  to_schedule ← read_pcb (find_process p s) s;
  Ok (copy_ctx c (ctx to_schedule), with_current p s).

(** ** Priority queues

    Neither [switch] has a [break]: priority 0 runs on into the code for 1. *)
Definition remove_all (p : Z) (q : list Z) : list Z := filter (fun item => item <> p) q.

Definition remove_pid (p priority : Z) (s : sched) : sched :=
  let case_1 s := with_low (remove_all p (low_priority_queue s)) s in
  if priority =? 0 then case_1 (with_high (remove_all p (high_priority_queue s)) s)
  else if priority =? 1 then case_1 s
  else s.

Definition add_pid (p priority : Z) (s : sched) : sched :=
  let case_1 s := with_low (low_priority_queue s ++ [p]) s in
  if priority =? 0 then case_1 (with_high (high_priority_queue s ++ [p]) s)
  else if priority =? 1 then case_1 s
  else s.

Definition set_priority (p priority : Z) (s : sched) : sched :=
  add_pid p priority (remove_pid p priority s).

Definition get_next_process (priority : Z) (s : sched) : Z * sched :=
  if priority =? 0 then
    match high_priority_queue s with
    | [] => (-1, s)
    | p :: q => (p, with_high (q ++ [p]) s)
    end
  else if priority =? 1 then
    match low_priority_queue s with
    | [] => (-1, s)
    | p :: q => (p, with_low (q ++ [p]) s)
    end
  else (-1, s).

(** ** Switching *)
Definition scheduler_run (c : ctx_t) (s : sched) : outcome (ctx_t * sched) :=
  let '(next_proc_pid, s) := get_next_process 0 s in
  let '(next_proc_pid, s) :=
    if next_proc_pid =? -1 then get_next_process 1 s else (next_proc_pid, s) in
  s ← save_current_process c s;
  run_process c next_proc_pid s.

(** ** Events *)

(** The body of the loop of [scheduler_emit_event] at one entry. *)
Definition emit_visit (ev : event_t) (s : sched) (i : nat) : sched :=
  match process_list s !! i with
  | None => s
  | Some item =>
      if status item =? PROCESS_STATUS_BLOCKED then
        if (event (blocked_until item) =? event ev) &&
           (from_process (blocked_until item) =? from_process ev)
        then
          let item := set_status PROCESS_STATUS_RUNNING item in
          let item := set_ctx (set_gpr 0 (u32 (from_process ev)) (ctx item)) item in
          set_priority (pid item) 1 (with_procs (<[i := item]> (process_list s)) s)
        else s
      else s
  end.

Definition scheduler_emit_event (ev : event_t) (s : sched) : sched :=
  let s :=
    if negb (event ev =? PROCESS_EVENT_SUSPENDED) && negb (event ev =? PROCESS_EVENT_UNSUSPENDED)
    then with_events (events_head s ++ [copy_event ev ev]) s else s in
  foldl (emit_visit ev) s (seq 0 (length (process_list s))).

Definition scheduler_has_event_occurred (ev : event_t) (s : sched) : Z :=
  if decide (Exists (fun item => event item = event ev /\ from_process item = from_process ev) (events_head s))
  then from_process ev else 0.

Definition scheduler_block_process (c : ctx_t) (until_event : event_t) (s : sched)
  : outcome (Z * ctx_t * sched) :=
  s ← save_current_process c s;
  let current_process := find_process (current_pid s) s in
  s ← update_pcb current_process (set_blocked_until until_event) s;
  s ← update_pcb current_process (set_status PROCESS_STATUS_BLOCKED) s;
  let s := remove_pid (current_pid s) 0 s in
  let s := remove_pid (current_pid s) 1 s in
  let s := scheduler_emit_event (Event PROCESS_EVENT_BLOCKED (current_pid s)) s in
  '(c, s) ← scheduler_run c s;
  Ok (from_process until_event, c, s).

(** [PL011_puts(UART0, str, len)]. *)
Definition puts (str : list Z) (len : Z) (s : sched) : sched :=
  Sched (current_pid s) (next_pid s) (current_stack_break s) (events_head s) (process_list s)
    (low_priority_queue s) (high_priority_queue s) (console s ++ take (Z.to_nat len) str) (memory s).

(** ** Ending processes *)
Definition scheduler_exit (c : ctx_t) (s : sched) : outcome (ctx_t * sched) :=
  let exited_pid := current_pid s in
  let s := remove_pid (current_pid s) 0 s in
  let s := remove_pid (current_pid s) 1 s in
  '(c, s) ← scheduler_run c s;
  if negb (current_pid s =? exited_pid) then
    s ← update_pcb (find_process exited_pid s) (set_status PROCESS_STATUS_TERMINATED) s;
    Ok (c, scheduler_emit_event (Event PROCESS_EVENT_EXITED exited_pid) s)
  else Ok (c, puts (bytes_of "Scheduler: cannot exit last remaining process" ++ [10]) 46 s).

Definition scheduler_kill (c : ctx_t) (p : Z) (s : sched) : outcome (Z * ctx_t * sched) :=
  let s := remove_pid p 0 s in
  let s := remove_pid p 1 s in
  '(c, s) ← scheduler_run c s;
  s ← update_pcb (find_process p s) (set_status PROCESS_STATUS_TERMINATED) s;
  let s := scheduler_emit_event (Event PROCESS_EVENT_EXITED p) s in
  Ok (0, c, s).

Definition scheduler_setpriority (c : ctx_t) (p priority : Z) (s : sched) : Z * sched :=
  (0, set_priority p priority s).

Definition scheduler_getpid (c : ctx_t) (s : sched) : Z := current_pid s.

(** ** Starting processes *)

(** [stdmem_copy] within the memory of the machine. *)
Fixpoint copy_memory (n : nat) (i : Z) (destination source : Z) (m : Z -> Z) : Z -> Z :=
  match n with
  | O => m
  | S n => copy_memory n (i + 1) destination source
             (fun a => if a =? u32 (destination + i) then m (u32 (source + i)) else m a)
  end.

(** [*(uint32_t* )addr = v], little endian. *)
Definition write32 (addr v : Z) (m : Z -> Z) : Z -> Z := fun a =>
  if a =? u32 addr then v mod 256
  else if a =? u32 (addr + 1) then (v / 2 ^ 8) mod 256
  else if a =? u32 (addr + 2) then (v / 2 ^ 16) mod 256
  else if a =? u32 (addr + 3) then (v / 2 ^ 24) mod 256
  else m a.

(** The context of the child: [fork] returns 0 in it, and its frame pointer and
    stack pointer are as far below its break as the parent's are below [fp]. *)
Definition child_ctx (c : ctx_t) (new_break stack_pointer fp : Z) : ctx_t :=
  let c := set_gpr 0 0 c in
  let c := set_gpr 11 (u32 (new_break - u32 (fp - get_gpr 11 c))) c in
  Ctx (cpsr c) (pc c) (gpr c) (u32 (new_break - u32 (fp - stack_pointer))) (lr c).

Definition scheduler_fork (c : ctx_t) (stack_pointer fp : Z) (s : sched) : outcome (Z * sched) :=
  if current_pid s <? 1 then
    Ok (-1, puts (bytes_of "Scheduler: no process currently executing" ++ [10]) 42 s)
  else
    let '(new_pid, s) := get_new_pid s in
    let '(new_break, s) := set_stack_break 2000 s in
    process_to_copy ← read_pcb (find_process (current_pid s) s) s;
    let child := copy_pcb process_to_copy process_to_copy in
    let child := set_ctx (copy_ctx (ctx child) c) child in
    let child := Pcb new_pid (child_ctx (ctx child) new_break stack_pointer fp)
                   PROCESS_STATUS_READY (blocked_until child) in
    let m := copy_memory (Z.to_nat (u32 (fp - stack_pointer))) 0 (sp (ctx child)) stack_pointer (memory s) in
    let r11 := get_gpr 11 (ctx child) in
    let m := write32 (r11 - 12) new_break m in
    let m := write32 (r11 - 16) new_break m in
    let m := write32 (r11 - 0) new_break m in
    let m := write32 (r11 + 24) new_break m in
    let s := with_memory m s in
    let s := with_procs (process_list s ++ [child]) s in
    let s := set_priority new_pid 1 s in
    let s := scheduler_emit_event (Event PROCESS_EVENT_CREATED (pid child)) s in
    Ok (pid child, s).

Definition scheduler_exec (c : ctx_t) (function argc argv : Z) (s : sched) : outcome (Z * ctx_t * sched) :=
  let c := Ctx (cpsr c) function (gpr c) (sp c) (lr c) in
  let c := set_gpr 0 (u32 argc) c in
  let c := set_gpr 1 argv c in
  s ← save_current_process c s;
  let current_process := find_process (current_pid s) s in
  s ← update_pcb current_process (set_status PROCESS_STATUS_RUNNING) s;
  Ok (current_pid s, c, s).

(** The copy handed to user code. *)
Definition scheduler_list_procs (s : sched) : list pcb_t :=
  (fun item => copy_pcb item item) <$> process_list s.

(** [scheduler_initialise], with the address of [entry_sh]; what the code does
    not initialise is 0, as the machine's memory starts out. *)
Definition scheduler_initialise (entry_sh : Z) (c : ctx_t) (s : sched) : outcome (ctx_t * sched) :=
  let s := with_low [] s in
  let s := with_high [] s in
  let s := with_events [] s in
  let s := with_procs [] s in
  let '(new_pid, s) := get_new_pid s in
  let '(new_sp, s) := set_stack_break 2000 s in
  let sh := Pcb new_pid (Ctx 80 entry_sh (replicate 13 0) new_sp 0) PROCESS_STATUS_RUNNING (Event 0 0) in
  let s := with_procs (process_list s ++ [sh]) s in
  let s := with_low (low_priority_queue s ++ [new_pid]) s in
  run_process c new_pid s.

(** The globals before [scheduler_initialise]. *)
Definition scheduler_reset (stack_top_usr : Z) (m : Z -> Z) : sched :=
  Sched 0 1 stack_top_usr [] [] [] [] [] m.

(** ** The process list as a map from pids

    [proc p s] is what [find_process] reaches. *)
Definition pids (s : sched) : list Z := pid <$> process_list s.
Definition proc (p : Z) (s : sched) : option pcb_t := i ← find_process p s; process_list s !! i.

Lemma find_pcb_Some p l i :
  find_pcb p l = Some i -> exists item, l !! i = Some item /\ pid item = p.
Proof.
  revert i; induction l as [|a l IH]; intros i; simpl; [done|].
  destruct (Z.eqb_spec (pid a) p); [intros [= <-]; eauto|].
  intros (j & Hj & ->)%fmap_Some. simpl. by apply IH.
Qed.

Lemma find_pcb_None p l : find_pcb p l = None <-> p ∉ pid <$> l.
Proof.
  induction l as [|a l IH]; simpl; [set_solver|].
  destruct (Z.eqb_spec (pid a) p) as [<-|]; [set_solver|]. rewrite fmap_None, IH. set_solver.
Qed.

Lemma find_pcb_fmap f p l : (forall item, pid (f item) = pid item) -> find_pcb p (f <$> l) = find_pcb p l.
Proof. intros Hf. induction l as [|a l IH]; csimpl; [done|]. by rewrite Hf, IH. Qed.

Lemma find_pcb_alter f p i l : (forall item, pid (f item) = pid item) -> find_pcb p (alter f i l) = find_pcb p l.
Proof.
  intros Hf. revert i; induction l as [|a l IH]; intros i; simpl; [done|].
  destruct i as [|i]; cbn [alter list_alter find_pcb]; [by rewrite Hf|]. by setoid_rewrite IH.
Qed.

Lemma find_pcb_app p l k :
  find_pcb p (l ++ k) = match find_pcb p l with Some i => Some i | None => Nat.add (length l) <$> find_pcb p k end.
Proof.
  induction l as [|a l IH]; simpl; [by destruct (find_pcb p k)|].
  destruct (pid a =? p); [done|]. rewrite IH. destruct (find_pcb p l); simpl; [done|]. by destruct (find_pcb p k).
Qed.

Lemma proc_known p s : is_Some (proc p s) <-> p ∈ pids s.
Proof.
  unfold proc, find_process, pids. destruct (find_pcb p (process_list s)) as [i|] eqn:E; simpl.
  - destruct (find_pcb_Some _ _ _ E) as (item & Hi & <-). rewrite Hi. split; [|by eauto].
    intros _. apply list_elem_of_fmap. exists item. split; [done|]. by eapply list_elem_of_lookup_2.
  - apply find_pcb_None in E. split; [by intros []|done].
Qed.

Lemma proc_pid p s item : proc p s = Some item -> pid item = p.
Proof.
  unfold proc, find_process. destruct (find_pcb p (process_list s)) as [i|] eqn:E; simpl; [|done].
  destruct (find_pcb_Some _ _ _ E) as (item' & Hi & <-). naive_solver.
Qed.

(** Two processes in the list with one pid are one process. *)
Lemma proc_elem p s item : NoDup (pids s) -> item ∈ process_list s -> pid item = p -> proc p s = Some item.
Proof.
  intros Hnd [k Hk]%list_elem_of_lookup_1 Hp. unfold proc, find_process.
  destruct (find_pcb p (process_list s)) as [i|] eqn:E; simpl.
  - destruct (find_pcb_Some _ _ _ E) as (item' & Hi & Hp'). rewrite <- Hk. f_equal.
    eapply (NoDup_lookup _ _ _ p); [done|..]; unfold pids; rewrite list_lookup_fmap; [rewrite Hi|rewrite Hk]; simpl; congruence.
  - apply find_pcb_None in E. destruct E. apply list_elem_of_fmap. exists item. split; [done|]. by eapply list_elem_of_lookup_2.
Qed.

Lemma read_pcb_proc p s item : proc p s = Some item -> read_pcb (find_process p s) s = Ok item.
Proof. unfold proc, read_pcb. destruct (find_process p s); simpl; [|done]. by intros ->. Qed.

(** A write through [find_process] changes that process only. *)
Lemma update_pcb_spec p f s item :
  proc p s = Some item -> (forall item, pid (f item) = pid item) ->
  exists s', update_pcb (find_process p s) f s = Ok s' /\
    s' = with_procs (process_list s') s /\ pids s' = pids s /\
    (forall q, find_process q s' = find_process q s) /\
    (forall q, proc q s' = if decide (q = p) then Some (f item) else proc q s).
Proof.
  unfold proc. destruct (find_process p s) as [i|] eqn:Ei; simpl; [|done]. intros Hi Hf.
  eexists. split; [done|]. split; [done|]. unfold find_process in *; simpl in *.
  split; [|split; [intros q; by apply find_pcb_alter|]].
  - unfold pids; simpl. apply list_eq. intros k. rewrite !list_lookup_fmap.
    destruct (decide (k = i)) as [->|]; [rewrite list_lookup_alter_eq, Hi; simpl; by rewrite Hf|by rewrite list_lookup_alter_ne].
  - intros q. rewrite find_pcb_alter by done. case_decide as Hq.
    + subst q. rewrite Ei; simpl. by rewrite list_lookup_alter_eq, Hi.
    + destruct (find_pcb q (process_list s)) as [j|] eqn:Ej; simpl; [|done].
      rewrite list_lookup_alter_ne; [done|]. intros ->.
      destruct (find_pcb_Some _ _ _ Ej) as (? & ? & <-), (find_pcb_Some _ _ _ Ei) as (? & ? & <-). congruence.
Qed.

(** ** What emitting an event does *)
Definition should_wake (ev : event_t) (item : pcb_t) : bool :=
  (status item =? PROCESS_STATUS_BLOCKED) &&
  ((event (blocked_until item) =? event ev) && (from_process (blocked_until item) =? from_process ev)).

Definition wake (ev : event_t) (item : pcb_t) : pcb_t :=
  if should_wake ev item
  then set_ctx (set_gpr 0 (u32 (from_process ev)) (ctx item)) (set_status PROCESS_STATUS_RUNNING item)
  else item.

Definition woken (ev : event_t) (l : list pcb_t) : list Z :=
  pid <$> filter (fun item => should_wake ev item = true) l.

Definition requeue (q : list Z) (p : Z) : list Z := remove_all p q ++ [p].

Definition recorded (ev : event_t) : bool :=
  negb (event ev =? PROCESS_EVENT_SUSPENDED) && negb (event ev =? PROCESS_EVENT_UNSUSPENDED).

Lemma wake_pid ev item : pid (wake ev item) = pid item.
Proof. unfold wake. by destruct (should_wake ev item). Qed.

Lemma emit_visit_eq ev s i item :
  process_list s !! i = Some item ->
  emit_visit ev s i =
    with_low (if should_wake ev item then requeue (low_priority_queue s) (pid item) else low_priority_queue s)
      (with_procs (<[i := wake ev item]> (process_list s)) s).
Proof.
  intros Hi. unfold emit_visit, wake, should_wake. rewrite Hi.
  destruct (status item =? PROCESS_STATUS_BLOCKED); simpl;
    [destruct ((event (blocked_until item) =? event ev) && _); [done|]|];
    rewrite list_insert_id by done; by destruct s.
Qed.

Lemma emit_loop ev s n :
  (n <= length (process_list s))%nat ->
  foldl (emit_visit ev) s (seq 0 n) =
    with_low (foldl requeue (low_priority_queue s) (woken ev (take n (process_list s))))
      (with_procs ((wake ev <$> take n (process_list s)) ++ drop n (process_list s)) s).
Proof.
  induction n as [|n IH]; intros Hn.
  - simpl. rewrite drop_0. by destruct s.
  - rewrite seq_S, foldl_app, IH by lia. simpl.
    destruct (lookup_lt_is_Some_2 (process_list s) n) as [item Hitem]; [lia|].
    assert (Hlen : length (wake ev <$> take n (process_list s)) = n) by (rewrite length_fmap, length_take; lia).
    rewrite (emit_visit_eq ev _ n item); simpl.
    2:{ rewrite lookup_app_r by lia. rewrite Hlen, Nat.sub_diag, lookup_drop. by rewrite Nat.add_0_r. }
    rewrite (take_S_r _ _ item) by done. rewrite (drop_S _ item n) by done.
    unfold woken. rewrite filter_app, !fmap_app, foldl_app, filter_cons, filter_nil. csimpl.
    rewrite insert_app_r_alt by lia. rewrite Hlen, Nat.sub_diag, <- app_assoc. simpl.
    by destruct (should_wake ev item).
Qed.

(** [scheduler_emit_event] records the event, wakes every process blocked on it
    and moves the woken processes, in list order, to the back of the low queue. *)
Lemma emit_event_eq ev s :
  scheduler_emit_event ev s =
    with_low (foldl requeue (low_priority_queue s) (woken ev (process_list s)))
      (with_procs (wake ev <$> process_list s)
        (with_events (if recorded ev then events_head s ++ [ev] else events_head s) s)).
Proof.
  unfold scheduler_emit_event. fold (recorded ev). destruct (recorded ev); rewrite emit_loop by done;
    simpl; rewrite firstn_all, drop_all, app_nil_r; destruct s, ev; done.
Qed.

Lemma emit_proc ev s p : proc p (scheduler_emit_event ev s) = wake ev <$> proc p s.
Proof.
  rewrite emit_event_eq. unfold proc, find_process. simpl. rewrite find_pcb_fmap by apply wake_pid.
  destruct (find_pcb p (process_list s)); simpl; [|done]. by rewrite list_lookup_fmap.
Qed.

Lemma emit_pids ev s : pids (scheduler_emit_event ev s) = pids s.
Proof.
  rewrite emit_event_eq. unfold pids; simpl. rewrite <- list_fmap_compose. apply list_fmap_ext.
  intros i item _. apply wake_pid.
Qed.

Lemma remove_all_elem p q x : x ∈ remove_all p q <-> x ∈ q /\ x <> p.
Proof. unfold remove_all. rewrite list_elem_of_filter. tauto. Qed.

Lemma remove_all_nodup p q : NoDup q -> NoDup (remove_all p q).
Proof. apply NoDup_filter. Qed.

Lemma remove_all_absent p q : p ∉ q -> remove_all p q = q.
Proof. apply filter_ne_absent. Qed.

Lemma requeue_all_elem q l x : x ∈ foldl requeue q l <-> x ∈ q \/ x ∈ l.
Proof.
  revert q; induction l as [|p l IH]; intros q; simpl; [set_solver|].
  rewrite IH. unfold requeue. rewrite elem_of_app, remove_all_elem. destruct (decide (x = p)); set_solver.
Qed.

Lemma requeue_all_nodup q l : NoDup q -> NoDup (foldl requeue q l).
Proof.
  revert q; induction l as [|p l IH]; intros q Hq; simpl; [done|]. apply IH. unfold requeue.
  apply NoDup_app. split; [by apply remove_all_nodup|]. split; [|apply NoDup_singleton].
  intros x. rewrite remove_all_elem. set_solver.
Qed.

(** Nobody woken is queued already: the woken are appended as they come. *)
Lemma requeue_all_fresh q l : (forall x, x ∈ l -> x ∉ q) -> NoDup l -> foldl requeue q l = q ++ l.
Proof.
  revert q; induction l as [|p l IH]; intros q Hf Hnd; simpl; [by rewrite app_nil_r|].
  apply NoDup_cons in Hnd as [Hp Hnd]. unfold requeue at 2. rewrite remove_all_absent by set_solver.
  rewrite IH; [by rewrite <- app_assoc| |done]. intros x Hx. specialize (Hf x). set_solver.
Qed.

(** ** Well-formed states *)
Definition runnable (item : pcb_t) : Prop :=
  status item = PROCESS_STATUS_RUNNING \/ status item = PROCESS_STATUS_READY.

(** What holds at every point of every operation. *)
Record core (s : sched) : Prop := {
  core_pids : NoDup (pids s);
  core_range : forall p, p ∈ pids s -> 1 <= p < next_pid s;
  core_next : 1 <= next_pid s < 2 ^ 31;
  core_low : NoDup (low_priority_queue s);
  core_high : NoDup (high_priority_queue s);
  core_high_low : forall p, p ∈ high_priority_queue s -> p ∈ low_priority_queue s;
  core_known : forall p, p ∈ low_priority_queue s -> p ∈ pids s;
  core_current : current_pid s ∈ pids s
}.

(** Close the conditions a step does not touch. *)
Ltac core_fields Hc :=
  try solve [exact (core_pids _ Hc) | exact (core_range _ Hc) | exact (core_next _ Hc) | exact (core_low _ Hc)
            | exact (core_high _ Hc) | exact (core_high_low _ Hc) | exact (core_known _ Hc) | exact (core_current _ Hc)].

(** A process is in the low queue exactly when its status says it can run. *)
Definition exact (s : sched) (p : Z) : Prop :=
  p ∈ low_priority_queue s <-> exists item, proc p s = Some item /\ runnable item.

Record sched_wf (s : sched) : Prop := {
  wf_core : core s;
  wf_exact : forall p, exact s p;
  wf_current : current_pid s ∈ low_priority_queue s
}.

(** ** Switching *)

(** What [scheduler_run] changes: the two queues rotate, the context of the
    process that ran is saved, the context of the next one is loaded. *)
Record switched (c : ctx_t) (s : sched) (c' : ctx_t) (s' : sched) : Prop := {
  sw_next : match high_priority_queue s with
            | p :: q => current_pid s' = p /\ high_priority_queue s' = q ++ [p] /\
                        low_priority_queue s' = low_priority_queue s
            | [] => high_priority_queue s' = [] /\
                    match low_priority_queue s with
                    | p :: q => current_pid s' = p /\ low_priority_queue s' = q ++ [p]
                    | [] => False
                    end
            end;
  sw_proc : forall q, proc q s' = if decide (q = current_pid s) then set_ctx c <$> proc q s else proc q s;
  sw_ctx : ctx <$> proc (current_pid s') s' = Some c';
  sw_pids : pids s' = pids s;
  sw_next_pid : next_pid s' = next_pid s;
  sw_events : events_head s' = events_head s;
  sw_console : console s' = console s
}.

Lemma get_next_core s :
  core s -> low_priority_queue s <> [] ->
  exists p s1,
    (let '(p, s) := get_next_process 0 s in if p =? -1 then get_next_process 1 s else (p, s)) = (p, s1) /\
    p ∈ low_priority_queue s /\
    match high_priority_queue s with
    | p' :: q => p = p' /\ s1 = with_high (q ++ [p]) s
    | [] => match low_priority_queue s with
            | p' :: q => p = p' /\ s1 = with_low (q ++ [p]) s
            | [] => False
            end
    end.
Proof.
  intros Hc Hne. unfold get_next_process. simpl. destruct (high_priority_queue s) as [|p q] eqn:Eh; simpl.
  - destruct (low_priority_queue s) as [|p q] eqn:El; [done|]. do 2 eexists. split; [done|]. split; [set_solver|done].
  - assert (Hp : p ∈ low_priority_queue s) by (apply (core_high_low s Hc); rewrite Eh; set_solver).
    pose proof (core_range s Hc p (core_known s Hc p Hp)). destruct (Z.eqb_spec p (-1)); [lia|].
    do 2 eexists. split; [done|]. split; done.
Qed.

Lemma run_spec c s :
  core s -> low_priority_queue s <> [] ->
  exists c' s', scheduler_run c s = Ok (c', s') /\ switched c s c' s'.
Proof.
  intros Hc Hne. destruct (get_next_core s Hc Hne) as (p & s1 & E & Hp & Hrot).
  assert (Hs1 : process_list s1 = process_list s /\ current_pid s1 = current_pid s /\ next_pid s1 = next_pid s /\
                events_head s1 = events_head s /\ console s1 = console s).
  { destruct (high_priority_queue s); [destruct (low_priority_queue s); [done|]|]; destruct Hrot as [_ ->]; done. }
  destruct Hs1 as (Hl & Hcur & Hn & He & Hcons).
  assert (Hproc : forall q, proc q s1 = proc q s) by (intros q; unfold proc, find_process; by rewrite Hl).
  unfold scheduler_run. destruct (get_next_process 0 s) as [p0 s0]. rewrite E. unfold save_current_process.
  destruct (proj2 (proc_known (current_pid s) s) (core_current s Hc)) as [item Hitem].
  destruct (update_pcb_spec (current_pid s1) (fun p => set_ctx (copy_ctx (ctx p) c) p) s1 item) as (s2 & -> & Es2 & Hp2 & _ & Hq2);
    [by rewrite Hproc, Hcur|done|]. ok_bind. unfold run_process.
  assert (is_Some (proc p s2)) as [item2 Hitem2].
  { apply proc_known. rewrite Hp2. unfold pids. rewrite Hl. by apply (core_known s Hc). }
  rewrite (read_pcb_proc p s2 item2) by done. ok_bind. do 2 eexists. split; [done|].
  assert (Ecopy : forall x, copy_ctx x c = c) by (by destruct c).
  rewrite Es2. constructor; simpl; try done.
  - destruct (high_priority_queue s) eqn:Eh; [destruct (low_priority_queue s); [done|]|];
      destruct Hrot as [-> ->]; simpl; rewrite ?Eh; done.
  - intros q. transitivity (proc q s2); [done|]. rewrite Hq2, Hproc, Hcur, Ecopy. case_decide; [|done]. by subst; rewrite Hitem.
  - transitivity (ctx <$> proc p s2); [done|]. rewrite Hitem2; simpl. f_equal. unfold copy_ctx. by destruct (ctx item2).
  - transitivity (pids s2); [done|]. rewrite Hp2. unfold pids. by rewrite Hl.
Qed.

Lemma switched_low c s c' s' : switched c s c' s' -> low_priority_queue s' ≡ₚ low_priority_queue s.
Proof.
  intros [H _ _ _ _ _ _]. destruct (high_priority_queue s); [|by destruct H as (_ & _ & ->)].
  destruct H as [_ H]. destruct (low_priority_queue s); [done|]. destruct H as [_ ->]. apply Permutation_app_comm.
Qed.

Lemma switched_high c s c' s' : switched c s c' s' -> high_priority_queue s' ≡ₚ high_priority_queue s.
Proof.
  intros [H _ _ _ _ _ _]. destruct (high_priority_queue s); [by destruct H as [-> _]|].
  destruct H as (_ & -> & _). apply Permutation_app_comm.
Qed.

(** The next process comes from the low queue whichever queue it was taken from. *)
Lemma switched_current c s c' s' : core s -> switched c s c' s' -> current_pid s' ∈ low_priority_queue s'.
Proof.
  intros Hc Hsw. rewrite (switched_low _ _ _ _ Hsw). destruct Hsw as [H _ _ _ _ _ _].
  destruct (high_priority_queue s) as [|p q] eqn:Eh.
  - destruct H as [_ H]. destruct (low_priority_queue s); [done|]. destruct H as [-> _]. set_solver.
  - destruct H as (-> & _). apply (core_high_low s Hc). rewrite Eh. set_solver.
Qed.

Lemma switched_status c s c' s' p : switched c s c' s' -> status <$> proc p s' = status <$> proc p s.
Proof. intros [_ H _ _ _ _ _]. rewrite H. case_decide; [|done]. by destruct (proc p s). Qed.

Lemma runnable_status s s' p :
  status <$> proc p s' = status <$> proc p s ->
  (exists item, proc p s = Some item /\ runnable item) -> exists item, proc p s' = Some item /\ runnable item.
Proof.
  intros E (item & Hi & Hr). rewrite Hi in E. destruct (proc p s') as [item'|]; [|done]. exists item'.
  split; [done|]. injection E as E. unfold runnable in *. by rewrite E.
Qed.

(** [exact] looks at the membership of the low queue and the statuses only. *)
Lemma exact_transfer s s' p :
  (p ∈ low_priority_queue s' <-> p ∈ low_priority_queue s) ->
  status <$> proc p s' = status <$> proc p s -> exact s p -> exact s' p.
Proof.
  unfold exact. intros Hq Hs He. rewrite Hq, He. split; apply runnable_status; congruence.
Qed.

Lemma switched_exact c s c' s' p : switched c s c' s' -> exact s p -> exact s' p.
Proof.
  intros Hsw. apply exact_transfer; [by rewrite (switched_low _ _ _ _ Hsw)|by eapply switched_status].
Qed.

Lemma switched_core c s c' s' : core s -> switched c s c' s' -> core s'.
Proof.
  intros Hc Hsw. pose proof (switched_low _ _ _ _ Hsw) as Hl. pose proof (switched_high _ _ _ _ Hsw) as Hh.
  pose proof (switched_current _ _ _ _ Hc Hsw) as Hcur. rewrite Hl in Hcur.
  pose proof (sw_pids _ _ _ _ Hsw) as Hp. pose proof (sw_next_pid _ _ _ _ Hsw) as Hn.
  constructor; rewrite ?Hp, ?Hn, ?Hl, ?Hh; core_fields Hc.
  - intros p. rewrite Hl, Hh. apply Hc.
  - intros p. rewrite Hl. apply Hc.
  - by apply (core_known s Hc).
Qed.

Lemma remove_core p s : core s -> core (remove_pid p 0 s).
Proof.
  intros Hc. unfold remove_pid; simpl. constructor; simpl; core_fields Hc.
  - apply remove_all_nodup, Hc.
  - apply remove_all_nodup, Hc.
  - intros q. rewrite !remove_all_elem. intros [Hq ?]. split; [by apply (core_high_low s Hc)|done].
  - intros q. rewrite remove_all_elem. intros [Hq _]. by apply (core_known s Hc).
Qed.

Lemma remove_pid_1_core p s : core s -> p ∉ high_priority_queue s -> core (remove_pid p 1 s).
Proof.
  intros Hc Hp. unfold remove_pid; simpl. constructor; simpl; core_fields Hc.
  - apply remove_all_nodup, Hc.
  - intros q Hq. rewrite remove_all_elem. split; [by apply (core_high_low s Hc)|]. intros ->. done.
  - intros q. rewrite remove_all_elem. intros [Hq _]. by apply (core_known s Hc).
Qed.

(** The two removals every ending performs. *)
Definition dequeue (p : Z) (s : sched) : sched := remove_pid p 1 (remove_pid p 0 s).

Lemma dequeue_core p s : core s -> core (dequeue p s).
Proof.
  intros Hc. apply remove_pid_1_core; [by apply remove_core|]. unfold remove_pid; simpl. rewrite remove_all_elem. tauto.
Qed.

Lemma dequeue_low p s x : x ∈ low_priority_queue (dequeue p s) <-> x ∈ low_priority_queue s /\ x <> p.
Proof. unfold dequeue, remove_pid; simpl. rewrite !remove_all_elem. tauto. Qed.

Lemma dequeue_exact p s x : x <> p -> exact s x -> exact (dequeue p s) x.
Proof. intros Hx. apply exact_transfer; [|done]. rewrite dequeue_low. tauto. Qed.

Lemma emit_core ev s : core s -> core (scheduler_emit_event ev s).
Proof.
  intros Hc. pose proof (emit_pids ev s) as Hp. pose proof (emit_event_eq ev s) as E.
  assert (Hw : forall x, x ∈ woken ev (process_list s) -> x ∈ pids s).
  { intros x (item & -> & [_ Hin]%list_elem_of_filter)%list_elem_of_fmap. apply list_elem_of_fmap. eauto. }
  constructor; rewrite ?Hp; core_fields Hc; rewrite E; simpl; core_fields Hc.
  - apply requeue_all_nodup, Hc.
  - intros q Hq. apply requeue_all_elem. left. by apply (core_high_low s Hc).
  - intros q [Hq|Hq]%requeue_all_elem; [by apply (core_known s Hc)|by apply Hw].
Qed.

Lemma wake_runnable ev item : should_wake ev item = true -> runnable (wake ev item).
Proof. unfold wake. intros ->. by left. Qed.

(** Waking keeps the queue and the statuses in step. *)
Lemma emit_exact ev s p : core s -> exact s p -> exact (scheduler_emit_event ev s) p.
Proof.
  unfold exact. intros Hc He. rewrite emit_proc, emit_event_eq; simpl. rewrite requeue_all_elem, He.
  split.
  - intros [(item & -> & Hr)|(item & -> & [Hw Hin]%list_elem_of_filter)%list_elem_of_fmap].
    + exists (wake ev item). split; [done|]. unfold wake. destruct (should_wake ev item) eqn:Ew; [by left|done].
    + rewrite (proc_elem (pid item) s item); [|apply Hc|done|done]. exists (wake ev item).
      split; [done|]. by apply wake_runnable.
  - intros (item' & Hi & Hr). destruct (proc p s) as [item|] eqn:Ei; [|done]. simplify_eq/=.
    unfold wake in Hr. destruct (should_wake ev item) eqn:Ew; [|by left; eauto].
    right. apply list_elem_of_fmap. exists item. split; [by rewrite (proc_pid p s item)|].
    apply list_elem_of_filter. split; [done|]. unfold proc in Ei. destruct (find_process p s); simpl in Ei; [|done].
    by eapply list_elem_of_lookup_2.
Qed.

(** ** The operations keep states well formed *)

(** A write to a process control block that keeps its pid keeps [core]. *)
Lemma with_procs_core l s : core s -> pid <$> l = pids s -> core (with_procs l s).
Proof.
  intros Hc Hl. constructor; unfold pids in *; simpl; rewrite ?Hl; core_fields Hc.
Qed.

Lemma update_pcb_core p f s item :
  core s -> proc p s = Some item -> (forall item, pid (f item) = pid item) ->
  exists s', update_pcb (find_process p s) f s = Ok s' /\ core s' /\
    s' = with_procs (process_list s') s /\ pids s' = pids s /\
    (forall q, find_process q s' = find_process q s) /\
    (forall q, proc q s' = if decide (q = p) then Some (f item) else proc q s).
Proof.
  intros Hc Hp Hf. destruct (update_pcb_spec p f s item Hp Hf) as (s' & E & Es & Epids & Eproc).
  exists s'. split; [done|]. split; [|done]. rewrite Es. by apply with_procs_core.
Qed.

(** The end of a process: out of the queues, another process is switched to,
    the status is set and the event goes out. *)
Lemma end_process c p s item :
  sched_wf s -> proc p s = Some item -> (exists q, q ∈ low_priority_queue s /\ q <> p) ->
  exists c' s1 s2, scheduler_run c (dequeue p s) = Ok (c', s1) /\ current_pid s1 <> p /\
    switched c (dequeue p s) c' s1 /\
    update_pcb (find_process p s1) (set_status PROCESS_STATUS_TERMINATED) s1 = Ok s2 /\
    let s' := scheduler_emit_event (Event PROCESS_EVENT_EXITED p) s2 in
    sched_wf s' /\ current_pid s' <> p /\ (p ∉ low_priority_queue s') /\ (p ∉ high_priority_queue s') /\
    (exists item', proc p s' = Some item' /\ status item' = PROCESS_STATUS_TERMINATED) /\
    events_head s' = events_head s ++ [Event PROCESS_EVENT_EXITED p] /\ console s' = console s /\
    (forall q waiting, q <> p -> q <> current_pid s -> proc q s = Some waiting ->
       proc q s' = Some (wake (Event PROCESS_EVENT_EXITED p) waiting)).
Proof.
  intros [Hc He Hcur] Hp (q & Hq & Hqp). pose proof (dequeue_core p s Hc) as Hc0.
  destruct (run_spec c (dequeue p s) Hc0) as (c' & s1 & E1 & Hsw).
  { intros Hnil. assert (q ∈ low_priority_queue (dequeue p s)) by by apply dequeue_low. rewrite Hnil in *. set_solver. }
  pose proof (switched_core _ _ _ _ Hc0 Hsw) as Hc1. pose proof (switched_current _ _ _ _ Hc0 Hsw) as Hcur1.
  pose proof (switched_low _ _ _ _ Hsw) as Hl1.
  assert (Hp1 : p ∉ low_priority_queue s1) by (rewrite Hl1, dequeue_low; tauto).
  assert (Hcp : current_pid s1 <> p) by congruence.
  assert (is_Some (proc p s1)) as [item1 Hi1].
  { rewrite (sw_proc _ _ _ _ Hsw). case_decide; change (proc p (dequeue p s)) with (proc p s); rewrite Hp; eauto. }
  destruct (update_pcb_core p (set_status PROCESS_STATUS_TERMINATED) s1 item1 Hc1 Hi1) as (s2 & E2 & Hc2 & Es2 & Hpids2 & _ & Hproc2); [done|].
  assert (Hex2 : forall x, exact s2 x).
  { intros x. destruct (decide (x = p)) as [->|Hx].
    - unfold exact. rewrite Es2 at 1; simpl. rewrite Hproc2, decide_True by done.
      split; [done|]. intros (? & [= <-] & [|]); done.
    - eapply (exact_transfer s1); [by rewrite Es2|by rewrite Hproc2, decide_False|].
      eapply switched_exact; [done|]. by apply dequeue_exact. }
  exists c', s1, s2. split; [done|]. split; [done|]. split; [done|]. split; [done|].
  pose proof (emit_event_eq (Event PROCESS_EVENT_EXITED p) s2) as Ee. intros s'.
  assert (Hterm : should_wake (Event PROCESS_EVENT_EXITED p) (set_status PROCESS_STATUS_TERMINATED item1) = false) by done.
  assert (Hlow' : p ∉ low_priority_queue s').
  { intros Hin. apply (proj1 (emit_exact (Event PROCESS_EVENT_EXITED p) s2 p Hc2 (Hex2 p))) in Hin as (x & Hx & Hr).
    rewrite emit_proc, Hproc2, decide_True in Hx by done. simpl in Hx. injection Hx as <-.
    unfold wake in Hr. rewrite Hterm in Hr. by destruct Hr. }
  split; [split|split; [|split; [|split; [|split; [|split; [|split]]]]]].
  - by apply emit_core.
  - intros x. by apply emit_exact.
  - unfold s'. rewrite Ee; simpl. rewrite Es2; simpl. apply requeue_all_elem. by left.
  - unfold s'. rewrite Ee; simpl. by rewrite Es2.
  - done.
  - intros Hin. apply Hlow'. by apply (core_high_low s' (emit_core _ _ Hc2)).
  - unfold s'. rewrite emit_proc, Hproc2, decide_True by done. simpl. unfold wake. rewrite Hterm. by eexists.
  - unfold s'. rewrite Ee; simpl. rewrite Es2; simpl. by rewrite (sw_events _ _ _ _ Hsw).
  - unfold s'. rewrite Ee; simpl. rewrite Es2; simpl. by rewrite (sw_console _ _ _ _ Hsw).
  - intros x w Hx Hxc Hw. unfold s'. rewrite emit_proc, Hproc2, decide_False, (sw_proc _ _ _ _ Hsw) by done.
    rewrite decide_False by done. by change (proc x (dequeue p s)) with (proc x s); rewrite Hw.
Qed.

(** With nobody left in the queue, [run_process] dereferences [NULL]. *)
Lemma run_empty c s : core s -> low_priority_queue s = [] -> scheduler_run c s = Err NullPointer.
Proof.
  intros Hc Hl. assert (Hh : high_priority_queue s = []).
  { destruct (high_priority_queue s) as [|p q] eqn:E; [done|]. assert (p ∈ low_priority_queue s) as Hin.
    { apply (core_high_low s Hc). rewrite E. set_solver. } rewrite Hl in Hin. set_solver. }
  destruct (proj2 (proc_known (current_pid s) s) (core_current s Hc)) as [item Hitem].
  unfold scheduler_run, get_next_process. simpl. rewrite Hh; simpl. rewrite Hl. unfold save_current_process.
  destruct (update_pcb_spec (current_pid s) (fun p => set_ctx (copy_ctx (ctx p) c) p) s item Hitem) as (s2 & -> & _ & Hp2 & _); [done|].
  ok_bind. unfold run_process, read_pcb. destruct (find_process (-1) s2) as [i|] eqn:Ef; [|done].
  assert (Hin : -1 ∈ pids s2).
  { destruct (find_pcb_Some _ _ _ Ef) as (x & Hx & Hxp). apply list_elem_of_fmap. exists x.
    split; [done|]. by eapply list_elem_of_lookup_2. }
  rewrite Hp2 in Hin. pose proof (core_range s Hc _ Hin). lia.
Qed.

Lemma run_Ok c s r : core s -> scheduler_run c s = Ok r -> low_priority_queue s <> [].
Proof. intros Hc Hr Hl. rewrite run_empty in Hr by done. done. Qed.

Lemma dequeue_nonempty p s : low_priority_queue (dequeue p s) <> [] -> exists q, q ∈ low_priority_queue s /\ q <> p.
Proof.
  destruct (low_priority_queue (dequeue p s)) as [|q l] eqn:E; [done|]. intros _. exists q.
  apply dequeue_low. rewrite E. set_solver.
Qed.

Lemma scheduler_exit_eq c s :
  scheduler_exit c s =
    ('(c', s') ← scheduler_run c (dequeue (current_pid s) s);
     if negb (current_pid s' =? current_pid s) then
       s' ← update_pcb (find_process (current_pid s) s') (set_status PROCESS_STATUS_TERMINATED) s';
       Ok (c', scheduler_emit_event (Event PROCESS_EVENT_EXITED (current_pid s)) s')
     else Ok (c', puts (bytes_of "Scheduler: cannot exit last remaining process" ++ [10]) 46 s')).
Proof. done. Qed.

Lemma scheduler_kill_eq c p s :
  scheduler_kill c p s =
    ('(c', s') ← scheduler_run c (dequeue p s);
     s' ← update_pcb (find_process p s') (set_status PROCESS_STATUS_TERMINATED) s';
     Ok (0, c', scheduler_emit_event (Event PROCESS_EVENT_EXITED p) s')).
Proof. done. Qed.

(** C20 (functional): while another process can run, [scheduler_exit]
    terminates the current process for good: out of both queues, marked
    TERMINATED, its EXITED event on record, every process blocked on that
    event woken with the pid in its [r0]; and control is with another process. *)
Theorem exit_spec c s :
  sched_wf s -> (exists q, q ∈ low_priority_queue s /\ q <> current_pid s) ->
  let ev := Event PROCESS_EVENT_EXITED (current_pid s) in
  exists c' s', scheduler_exit c s = Ok (c', s') /\ sched_wf s' /\
    current_pid s' <> current_pid s /\
    (current_pid s ∉ low_priority_queue s') /\ (current_pid s ∉ high_priority_queue s') /\
    (exists item, proc (current_pid s) s' = Some item /\ status item = PROCESS_STATUS_TERMINATED) /\
    scheduler_has_event_occurred ev s' = current_pid s /\
    (forall q waiting, proc q s = Some waiting -> should_wake ev waiting = true ->
       proc q s' = Some (set_ctx (set_gpr 0 (u32 (current_pid s)) (ctx waiting)) (set_status PROCESS_STATUS_RUNNING waiting)) /\
       (q ∈ low_priority_queue s')).
Proof.
  intros Hwf Hq ev. destruct (proj2 (proc_known (current_pid s) s) (core_current s (wf_core s Hwf))) as [item Hitem].
  destruct (end_process c (current_pid s) s item Hwf Hitem Hq)
    as (c' & s1 & s2 & E1 & Hne & Hsw & E2 & Hwf' & Hcur' & Hl & Hh & Ht & Hev & _ & Hw).
  exists c', (scheduler_emit_event ev s2). split; [|do 5 (split; [done|]); split].
  - rewrite scheduler_exit_eq, E1. ok_bind.
    destruct (Z.eqb_spec (current_pid s1) (current_pid s)); [done|]. simpl. rewrite E2. by ok_bind.
  - unfold scheduler_has_event_occurred. fold ev in Hev. rewrite Hev, decide_True; [done|]. apply Exists_app. right. by constructor.
  - intros q w Hpq Hwake. assert (status w = PROCESS_STATUS_BLOCKED) as Hst.
    { unfold should_wake in Hwake. by destruct (Z.eqb_spec (status w) PROCESS_STATUS_BLOCKED). }
    assert (q <> current_pid s) as Hqc.
    { intros ->. destruct (proj1 (wf_exact s Hwf (current_pid s)) (wf_current s Hwf)) as (x & Hx & Hr).
      rewrite Hpq in Hx. injection Hx as Hx. subst x. unfold runnable in Hr. rewrite Hst in Hr. by destruct Hr. }
    specialize (Hw q w Hqc Hqc Hpq). unfold wake in Hw. fold ev in Hw. rewrite Hwake in Hw. split; [done|].
    apply (wf_exact _ Hwf'). eexists. split; [done|]. by left.
Qed.

(** When the current process is the only one that can run,
    [scheduler_exit] does not print its message: it dereferences [NULL], and
    the message is never printed from a well-formed state. *)
Lemma exit_last_faults c s :
  sched_wf s ->
  (low_priority_queue s = [current_pid s] -> scheduler_exit c s = Err NullPointer) /\
  (forall c' s', scheduler_exit c s = Ok (c', s') -> console s' = console s).
Proof.
  intros Hwf. pose proof (dequeue_core (current_pid s) s (wf_core s Hwf)) as Hc0. split.
  - intros Hl. rewrite scheduler_exit_eq, run_empty; [done..|].
    destruct (low_priority_queue (dequeue (current_pid s) s)) as [|q l] eqn:E; [done|].
    assert (q ∈ low_priority_queue (dequeue (current_pid s) s)) as [Hq Hne]%dequeue_low by (rewrite E; set_solver).
    rewrite Hl in Hq. set_solver.
  - intros c' s' E. assert (exists q, q ∈ low_priority_queue s /\ q <> current_pid s) as Hq.
    { rewrite scheduler_exit_eq in E. apply bind_Ok in E as (r & E & _). by apply dequeue_nonempty, (run_Ok c _ r). }
    destruct (proj2 (proc_known (current_pid s) s) (core_current s (wf_core s Hwf))) as [item Hitem].
    destruct (end_process c (current_pid s) s item Hwf Hitem Hq) as (c1 & s1 & s2 & E1 & Hne & _ & E2 & _ & _ & _ & _ & _ & _ & Hcons & _).
    rewrite scheduler_exit_eq, E1 in E. revert E. ok_bind.
    destruct (Z.eqb_spec (current_pid s1) (current_pid s)); [done|]. simpl. rewrite E2. ok_bind.
    by intros [= <- <-].
Qed.

(** Killing keeps states well formed; it needs the process to exist and
    another one to run. *)
Lemma kill_wf c p s r c' s' : sched_wf s -> scheduler_kill c p s = Ok (r, c', s') -> sched_wf s'.
Proof.
  intros Hwf E. pose proof (dequeue_core p s (wf_core s Hwf)) as Hc0.
  assert (exists q, q ∈ low_priority_queue s /\ q <> p) as Hq.
  { pose proof E as E'. rewrite scheduler_kill_eq in E'. apply bind_Ok in E' as (x & E' & _). by apply dequeue_nonempty, (run_Ok c _ x). }
  destruct (run_spec c (dequeue p s) Hc0) as (c1 & s1 & E1 & Hsw).
  { destruct Hq as (q & Hq & Hqp). intros Hnil. assert (q ∈ low_priority_queue (dequeue p s)) by by apply dequeue_low. rewrite Hnil in *. set_solver. }
  destruct (proc p s) as [item|] eqn:Hp.
  - destruct (end_process c p s item Hwf Hp Hq) as (c2 & s2 & s3 & E2 & _ & _ & E3 & Hwf' & _).
    rewrite scheduler_kill_eq, E2 in E. revert E. ok_bind. rewrite E3. ok_bind. by intros [= <- <- <-].
  - rewrite scheduler_kill_eq, E1 in E. revert E. ok_bind.
    assert (find_process p s1 = None) as ->; [|done].
    destruct (find_process p s1) as [i|] eqn:Ef; [|done].
    assert (p ∈ pids s1) as Hin.
    { destruct (find_pcb_Some _ _ _ Ef) as (x & Hx & Hxp). apply list_elem_of_fmap. exists x.
      split; [done|]. by eapply list_elem_of_lookup_2. }
    rewrite (sw_pids _ _ _ _ Hsw) in Hin. apply (proc_known p s) in Hin as [x Hx]. congruence.
Qed.

Lemma exit_wf c s c' s' : sched_wf s -> scheduler_exit c s = Ok (c', s') -> sched_wf s'.
Proof.
  intros Hwf E. assert (exists q, q ∈ low_priority_queue s /\ q <> current_pid s) as Hq.
  { pose proof (dequeue_core (current_pid s) s (wf_core s Hwf)) as Hc0. rewrite scheduler_exit_eq in E.
    apply bind_Ok in E as (r & E & _). by apply dequeue_nonempty, (run_Ok c _ r). }
  destruct (proj2 (proc_known (current_pid s) s) (core_current s (wf_core s Hwf))) as [item Hitem].
  destruct (end_process c (current_pid s) s item Hwf Hitem Hq) as (c1 & s1 & s2 & E1 & Hne & _ & E2 & Hwf' & _).
  rewrite scheduler_exit_eq, E1 in E. revert E. ok_bind.
  destruct (Z.eqb_spec (current_pid s1) (current_pid s)); [done|]. simpl. rewrite E2. ok_bind. by intros [= <- <-].
Qed.

(** The state in which a process has just been blocked: saved and marked. *)
Lemma block_marked c until_event s item :
  core s -> proc (current_pid s) s = Some item ->
  exists s1, (s ← save_current_process c s;
              let current_process := find_process (current_pid s) s in
              s ← update_pcb current_process (set_blocked_until until_event) s;
              update_pcb current_process (set_status PROCESS_STATUS_BLOCKED) s) = Ok s1 /\
    core s1 /\ s1 = with_procs (process_list s1) s /\
    (forall q, proc q s1 = if decide (q = current_pid s)
                      then Some (Pcb (pid item) c PROCESS_STATUS_BLOCKED until_event) else proc q s).
Proof.
  intros Hc Hi. unfold save_current_process.
  destruct (update_pcb_core (current_pid s) (fun p => set_ctx (copy_ctx (ctx p) c) p) s item Hc Hi)
    as (s1 & -> & Hc1 & Es1 & _ & _ & Hp1); [done|]. ok_bind.
  assert (Hcur1 : current_pid s1 = current_pid s) by by rewrite Es1. rewrite Hcur1.
  assert (Hi1 := Hp1 (current_pid s)). rewrite decide_True in Hi1 by done.
  destruct (update_pcb_core (current_pid s) (set_blocked_until until_event) s1 _ Hc1 Hi1)
    as (s2 & E2 & Hc2 & Es2 & Hpids2 & Hf & Hp2); [done|]. cbv zeta. rewrite E2. ok_bind.
  assert (Hi2 := Hp2 (current_pid s)). rewrite decide_True in Hi2 by done. rewrite <- Hf.
  destruct (update_pcb_core (current_pid s) (set_status PROCESS_STATUS_BLOCKED) s2 _ Hc2 Hi2)
    as (s3 & -> & Hc3 & Es3 & _ & _ & Hp3); [done|].
  exists s3. split; [done|]. split; [done|]. split; [by rewrite Es3, Es2, Es1|].
  intros q. rewrite Hp3, Hp2, Hp1. case_decide; [|done]. unfold set_status, set_blocked_until, set_ctx; simpl.
  by destruct c.
Qed.

Lemma scheduler_block_eq c ev s :
  scheduler_block_process c ev s =
    (s1 ← (s ← save_current_process c s;
           let current_process := find_process (current_pid s) s in
           s ← update_pcb current_process (set_blocked_until ev) s;
           update_pcb current_process (set_status PROCESS_STATUS_BLOCKED) s);
     let s2 := scheduler_emit_event (Event PROCESS_EVENT_BLOCKED (current_pid s1)) (dequeue (current_pid s1) s1) in
     '(c, s3) ← scheduler_run c s2;
     Ok (from_process ev, c, s3)).
Proof.
  unfold scheduler_block_process. destruct (save_current_process c s) as [s1|]; [|done]. rewrite !bind_ok_l; cbv zeta.
  destruct (update_pcb (find_process (current_pid s1) s1) (set_blocked_until ev) s1) as [s2|] eqn:E2; [|done].
  rewrite !bind_ok_l. by destruct (update_pcb _ (set_status PROCESS_STATUS_BLOCKED) s2).
Qed.

Lemma wake_keeps_runnable ev item : runnable item -> runnable (wake ev item).
Proof. unfold wake. destruct (should_wake ev item); [by left|done]. Qed.

(** The state [scheduler_block_process] hands to [scheduler_run]. *)
Lemma block_parked c ev s :
  sched_wf s ->
  exists s2, scheduler_block_process c ev s = ('(c, s3) ← scheduler_run c s2; Ok (from_process ev, c, s3)) /\
    core s2 /\ (forall x, exact s2 x) /\ current_pid s2 = current_pid s /\
    (forall x, proc x s2 = wake (Event PROCESS_EVENT_BLOCKED (current_pid s)) <$>
       if decide (x = current_pid s) then Some (Pcb x c PROCESS_STATUS_BLOCKED ev) else proc x s).
Proof.
  intros [Hc He Hcur]. destruct (proj2 (proc_known (current_pid s) s) (core_current s Hc)) as [item Hi].
  destruct (block_marked c ev s item Hc Hi) as (s1 & E1 & Hc1 & Es1 & Hp1).
  assert (Hcur1 : current_pid s1 = current_pid s) by by rewrite Es1. rewrite (proc_pid _ _ _ Hi) in Hp1.
  set (evb := Event PROCESS_EVENT_BLOCKED (current_pid s)).
  assert (Hd : core (dequeue (current_pid s) s1)) by by apply dequeue_core.
  assert (Hex : forall x, exact (dequeue (current_pid s) s1) x).
  { intros x. destruct (decide (x = current_pid s)) as [->|Hx].
    - unfold exact. rewrite dequeue_low. change (proc (current_pid s) (dequeue (current_pid s) s1)) with (proc (current_pid s) s1).
      rewrite Hp1, decide_True by done. split; [tauto|]. intros (? & [= <-] & [|]); done.
    - apply dequeue_exact; [done|]. apply (exact_transfer s); [by rewrite Es1|by rewrite Hp1, decide_False|done]. }
  exists (scheduler_emit_event evb (dequeue (current_pid s) s1)).
  split; [|split; [by apply emit_core|split; [intros x; by apply emit_exact|split]]].
  - rewrite scheduler_block_eq, E1. ok_bind. by rewrite Hcur1.
  - rewrite emit_event_eq. simpl. by rewrite Es1.
  - intros x. rewrite emit_proc. change (proc x (dequeue (current_pid s) s1)) with (proc x s1). rewrite Hp1.
    case_decide; [by subst x|done].
Qed.

(** Switching away from a state in which the statuses and the queue agree. *)
Lemma run_wf c s r : core s -> (forall x, exact s x) -> scheduler_run c s = Ok r -> switched c s (fst r) (snd r) /\ sched_wf (snd r).
Proof.
  intros Hc He E. destruct (run_spec c s Hc (run_Ok c s r Hc E)) as (c' & s' & E' & Hsw).
  rewrite E' in E. injection E as <-. split; [done|]. split; [by eapply switched_core|intros x; by eapply switched_exact|].
  by eapply switched_current.
Qed.

Lemma exact_nonempty s x item : exact s x -> proc x s = Some item -> runnable item -> low_priority_queue s <> [].
Proof. intros He Hx Hr Hl. assert (x ∈ low_priority_queue s) as Hin by (apply He; eauto). rewrite Hl in Hin. set_solver. Qed.

Lemma block_wf c ev s r c' s' : sched_wf s -> scheduler_block_process c ev s = Ok (r, c', s') -> sched_wf s'.
Proof.
  intros Hwf. destruct (block_parked c ev s Hwf) as (s2 & -> & Hc & He & _).
  intros (r2 & E & Hr)%bind_Ok. destruct r2 as [c2 s2']. injection Hr as <- <- <-. by apply (run_wf c s2 (c2, s2')).
Qed.

Lemma block_full c ev s :
  sched_wf s -> (exists q, q ∈ low_priority_queue s /\ q <> current_pid s) ->
  ev <> Event PROCESS_EVENT_BLOCKED (current_pid s) ->
  exists c' s', scheduler_block_process c ev s = Ok (from_process ev, c', s') /\ sched_wf s' /\
    proc (current_pid s) s' = Some (Pcb (current_pid s) c PROCESS_STATUS_BLOCKED ev) /\
    (current_pid s ∉ low_priority_queue s') /\ (current_pid s ∉ high_priority_queue s') /\
    current_pid s' <> current_pid s /\
    (forall q, q <> current_pid s -> proc q s' = wake (Event PROCESS_EVENT_BLOCKED (current_pid s)) <$> proc q s) /\
    ctx <$> proc (current_pid s') s' = Some c'.
Proof.
  intros Hwf (q & Hq & Hqc) Hev. destruct (block_parked c ev s Hwf) as (s2 & -> & Hc & He & Hcur & Hp).
  destruct (proj1 (wf_exact s Hwf q) Hq) as (w & Hw & Hr).
  destruct (run_spec c s2 Hc) as (c' & s' & E & Hsw).
  { apply (exact_nonempty s2 q (wake (Event PROCESS_EVENT_BLOCKED (current_pid s)) w)); [done| |by apply wake_keeps_runnable].
    by rewrite Hp, decide_False, Hw. }
  destruct (run_wf c s2 (c', s') Hc He E) as [_ Hwf']. rewrite E. ok_bind. exists c', s'. split; [done|]. split; [done|].
  assert (Hpark : proc (current_pid s) s' = Some (Pcb (current_pid s) c PROCESS_STATUS_BLOCKED ev)).
  { rewrite (sw_proc _ _ _ _ Hsw), Hcur, Hp, !decide_True by done. simpl. unfold wake, should_wake; simpl.
    destruct ev as [e f]; simpl in *. destruct (Z.eqb_spec e PROCESS_EVENT_BLOCKED), (Z.eqb_spec f (current_pid s)); [by subst|done..]. }
  assert (Hout : current_pid s ∉ low_priority_queue s').
  { intros Hin. apply (wf_exact _ Hwf') in Hin as (x & Hx & Hrx). simpl in Hx. rewrite Hpark in Hx. injection Hx as <-. by destruct Hrx. }
  split; [done|]. split; [done|]. split; [|split; [|split; [|apply Hsw]]].
  - intros Hin. apply Hout. by apply (core_high_low _ (wf_core _ Hwf')).
  - intros Heq. apply Hout. rewrite <- Heq. apply (wf_current _ Hwf').
  - intros x Hx. rewrite (sw_proc _ _ _ _ Hsw), Hcur, decide_False, Hp by done. by rewrite decide_False.
Qed.

(** C21 (functional): while another process can run, [scheduler_block_process]
    parks the current process with its context and the event it waits for, out
    of both queues, wakes whoever waited for it to block, and gives control to
    a process that can run. *)
Theorem block_spec c ev s :
  sched_wf s -> (exists q, q ∈ low_priority_queue s /\ q <> current_pid s) ->
  ev <> Event PROCESS_EVENT_BLOCKED (current_pid s) ->
  exists c' s', scheduler_block_process c ev s = Ok (from_process ev, c', s') /\ sched_wf s' /\
    proc (current_pid s) s' = Some (Pcb (current_pid s) c PROCESS_STATUS_BLOCKED ev) /\
    (current_pid s ∉ low_priority_queue s') /\ (current_pid s ∉ high_priority_queue s') /\
    current_pid s' <> current_pid s /\
    (forall q, q <> current_pid s -> proc q s' = wake (Event PROCESS_EVENT_BLOCKED (current_pid s)) <$> proc q s).
Proof.
  intros Hwf Hq Hev. destruct (block_full c ev s Hwf Hq Hev) as (c' & s' & E & H1 & H2 & H3 & H4 & H5 & H6 & _). by exists c', s'.
Qed.

(** ** Starting processes *)

(** The child [scheduler_fork] makes of the current process. *)
Definition forked (c : ctx_t) (stack_pointer fp : Z) (s : sched) (parent : pcb_t) : pcb_t :=
  Pcb (next_pid s) (child_ctx c (current_stack_break s) stack_pointer fp) PROCESS_STATUS_READY (blocked_until parent).

(** The words of the child's frame that hold a saved frame pointer. *)
Definition frame_links (r11 : Z) : list Z := [r11 - 12; r11 - 16; r11 - 0; r11 + 24].

Definition forked_memory (c : ctx_t) (stack_pointer fp : Z) (s : sched) : Z -> Z :=
  let child := child_ctx c (current_stack_break s) stack_pointer fp in
  foldl (fun m w => write32 w (current_stack_break s) m)
    (copy_memory (Z.to_nat (u32 (fp - stack_pointer))) 0 (sp child) stack_pointer (memory s))
    (frame_links (get_gpr 11 child)).

Lemma fork_eq c stack_pointer fp s parent :
  1 <= current_pid s -> proc (current_pid s) s = Some parent ->
  scheduler_fork c stack_pointer fp s = Ok (next_pid s,
    scheduler_emit_event (Event PROCESS_EVENT_CREATED (next_pid s))
      (set_priority (next_pid s) 1
        (Sched (current_pid s) (i32 (next_pid s + 1)) (u32 (current_stack_break s - 2000)) (events_head s)
          (process_list s ++ [forked c stack_pointer fp s parent])
          (low_priority_queue s) (high_priority_queue s) (console s) (forked_memory c stack_pointer fp s)))).
Proof.
  intros Hcur Hp. unfold scheduler_fork. destruct (Z.ltb_spec (current_pid s) 1); [lia|].
  unfold get_new_pid, set_stack_break; cbv beta iota zeta; cbn [current_stack_break current_pid].
  rewrite (read_pcb_proc (current_pid s) _ parent) by exact Hp. ok_bind.
  assert (Hcopy : forall x y, copy_ctx x y = y) by (by destruct y).
  assert (He : forall x y, copy_event x y = y) by (by destruct y).
  unfold copy_pcb, set_ctx; cbn [pid ctx status blocked_until]. by rewrite !Hcopy, He.
Qed.

(** A state with one more process, at the end of the list and of the low queue. *)
Lemma add_process_wf s s' item :
  sched_wf s -> pid item = next_pid s -> runnable item ->
  next_pid s + 1 < 2 ^ 31 -> next_pid s' = next_pid s + 1 ->
  process_list s' = process_list s ++ [item] -> low_priority_queue s' = low_priority_queue s ++ [next_pid s] ->
  high_priority_queue s' = high_priority_queue s -> current_pid s' = current_pid s ->
  sched_wf s' /\ proc (next_pid s) s' = Some item /\ (forall q, q <> next_pid s -> proc q s' = proc q s).
Proof.
  intros [Hc He Hcur] Hpid Hrun Hn Hn' Hl Hlow Hhigh Hcur'.
  assert (Hpids : pids s' = pids s ++ [next_pid s]) by (unfold pids; by rewrite Hl, fmap_app, <- Hpid).
  assert (Hfresh : next_pid s ∉ pids s) by (intros Hin; pose proof (core_range s Hc _ Hin); lia).
  assert (Hnew : proc (next_pid s) s' = Some item).
  { unfold proc, find_process. rewrite Hl, find_pcb_app. rewrite (proj2 (find_pcb_None _ _) Hfresh). simpl.
    rewrite Hpid, Z.eqb_refl. simpl. rewrite lookup_app_r by lia. by replace (_ - _)%nat with 0%nat by lia. }
  assert (Hold : forall q, q <> next_pid s -> proc q s' = proc q s).
  { intros q Hq. unfold proc, find_process. rewrite Hl, find_pcb_app.
    destruct (find_pcb q (process_list s)) as [i|] eqn:Ef; simpl.
    - destruct (find_pcb_Some _ _ _ Ef) as (x & Hx & _). rewrite lookup_app_l; [done|]. by eapply lookup_lt_Some.
    - by destruct (Z.eqb_spec (pid item) q); [congruence|]. }
  split; [|done]. pose proof (core_next s Hc). split.
  - constructor; rewrite ?Hpids, ?Hn', ?Hlow, ?Hhigh, ?Hcur'; core_fields Hc; try lia.
    + apply NoDup_app. split; [apply Hc|]. split; [set_solver|apply NoDup_singleton].
    + intros p. rewrite elem_of_app. intros [Hp| ->%list_elem_of_singleton]; [pose proof (core_range s Hc p Hp); lia|lia].
    + apply NoDup_app. split; [apply Hc|]. split; [|apply NoDup_singleton].
      intros x Hx ->%list_elem_of_singleton. by apply Hfresh, (core_known s Hc).
    + intros p Hp. rewrite elem_of_app. left. by apply (core_high_low s Hc).
    + intros p. rewrite !elem_of_app. intros [Hp|Hp]; [left; by apply (core_known s Hc)|by right].
    + apply elem_of_app. left. by apply (core_current s Hc).
  - intros q. unfold exact. rewrite Hlow, elem_of_app. destruct (decide (q = next_pid s)) as [->|Hq].
    + rewrite Hnew. split; [eauto|]. intros _. right. by apply list_elem_of_singleton.
    + rewrite Hold by done. specialize (He q). unfold exact in He. rewrite <- He, list_elem_of_singleton. naive_solver.
  - rewrite Hcur', Hlow. apply elem_of_app. by left.
Qed.

Lemma emit_wf ev s : sched_wf s -> sched_wf (scheduler_emit_event ev s).
Proof.
  intros [Hc He Hcur]. split; [by apply emit_core|intros x; by apply emit_exact|].
  rewrite emit_event_eq; simpl. apply requeue_all_elem. by left.
Qed.

Lemma fork_full c stack_pointer fp s :
  sched_wf s -> next_pid s + 1 < 2 ^ 31 ->
  exists s' parent, scheduler_fork c stack_pointer fp s = Ok (next_pid s, s') /\ sched_wf s' /\
    (next_pid s ∉ pids s) /\ pids s' = pids s ++ [next_pid s] /\ current_pid s' = current_pid s /\
    next_pid s' = next_pid s + 1 /\ current_stack_break s' = u32 (current_stack_break s - 2000) /\
    memory s' = forked_memory c stack_pointer fp s /\
    proc (current_pid s) s = Some parent /\ proc (next_pid s) s' = Some (forked c stack_pointer fp s parent) /\
    (forall q, q <> next_pid s -> proc q s' = wake (Event PROCESS_EVENT_CREATED (next_pid s)) <$> proc q s).
Proof.
  intros Hwf Hn. pose proof (wf_core s Hwf) as Hc. destruct (proj2 (proc_known (current_pid s) s) (core_current s Hc)) as [parent Hp].
  pose proof (core_range s Hc _ (core_current s Hc)). pose proof (core_next s Hc).
  rewrite (fork_eq c stack_pointer fp s parent) by (lia || done).
  assert (Hfresh : next_pid s ∉ pids s) by (intros Hin; pose proof (core_range s Hc _ Hin); lia).
  rewrite i32_small by lia. unfold set_priority, add_pid, remove_pid. cbn [Z.eqb with_low low_priority_queue].
  assert (next_pid s ∉ low_priority_queue s) as Hq by (intros Hin; by apply Hfresh, (core_known s Hc)).
  rewrite remove_all_absent by done.
  match goal with |- context [scheduler_emit_event _ ?st] => set (s1 := st) end.
  destruct (add_process_wf s s1 (forked c stack_pointer fp s parent)) as (Hwf1 & Hnew & Hold); try done; [by right|].
  eexists (scheduler_emit_event _ s1), parent. split; [done|]. split; [by apply emit_wf|]. split; [done|].
  rewrite emit_pids. split; [unfold pids, s1; simpl; by rewrite fmap_app|].
  do 4 (split; [by rewrite emit_event_eq|]).
  split; [done|]. split; [|intros q Hq'; by rewrite emit_proc, Hold].
  rewrite emit_proc, Hnew. done.
Qed.

(** The woken wait, so they are not in the queue, and each is there once. *)
Lemma woken_waits ev s x : sched_wf s -> x ∈ woken ev (process_list s) -> x ∈ pids s /\ x ∉ low_priority_queue s.
Proof.
  intros Hwf (item & -> & [Hw Hin]%list_elem_of_filter)%list_elem_of_fmap. split; [by apply list_elem_of_fmap; exists item|].
  intros (item' & Hi & Hr)%(wf_exact s Hwf). rewrite (proc_elem (pid item) s item) in Hi by (done || apply Hwf). injection Hi as <-.
  unfold should_wake in Hw. destruct (Z.eqb_spec (status item) PROCESS_STATUS_BLOCKED) as [E|]; [|done]. by destruct Hr as [Hr|Hr]; rewrite E in Hr.
Qed.

Lemma woken_nodup ev s : NoDup (pids s) -> NoDup (woken ev (process_list s)).
Proof. intros Hnd. by eapply sublist_NoDup, (fmap_sublist pid), sublist_filter. Qed.

Lemma fork_queues c stack_pointer fp s r s' :
  sched_wf s -> next_pid s + 1 < 2 ^ 31 -> scheduler_fork c stack_pointer fp s = Ok (r, s') ->
  let ev := Event PROCESS_EVENT_CREATED (next_pid s) in
  low_priority_queue s' = low_priority_queue s ++ [next_pid s] ++ woken ev (process_list s) /\
  high_priority_queue s' = high_priority_queue s /\ events_head s' = events_head s ++ [ev].
Proof.
  intros Hwf Hn E ev. pose proof (wf_core s Hwf) as Hc. destruct (proj2 (proc_known (current_pid s) s) (core_current s Hc)) as [parent Hp].
  pose proof (core_range s Hc _ (core_current s Hc)). rewrite (fork_eq c stack_pointer fp s parent) in E by (lia || done). injection E as _ <-.
  assert (Hfresh : next_pid s ∉ pids s) by (intros Hin; pose proof (core_range s Hc _ Hin); lia).
  assert (next_pid s ∉ low_priority_queue s) as Hq by (intros Hin; by apply Hfresh, (core_known s Hc)).
  assert (Hw : woken ev (process_list s ++ [forked c stack_pointer fp s parent]) = woken ev (process_list s)).
  { unfold woken. by rewrite filter_app, filter_cons, decide_False, filter_nil, app_nil_r. }
  rewrite emit_event_eq. unfold set_priority, add_pid, remove_pid.
  cbn [Z.eqb Pos.eqb with_low with_procs with_events low_priority_queue high_priority_queue process_list events_head].
  fold ev. rewrite Hw, remove_all_absent by done. split; [|done]. rewrite requeue_all_fresh; [by rewrite <- app_assoc| |by apply woken_nodup, Hc].
  intros x Hx. destruct (woken_waits ev s x Hwf Hx) as [Hin Hout]. rewrite elem_of_app, list_elem_of_singleton. by intros [Hx'| ->].
Qed.

(** C22 (functional): [scheduler_fork] returns a pid no process has, to a
    child that sees [r0 = 0], resumes where its parent does, and whose frame
    hangs below its own 2000 bytes of stack as the parent's hangs below [fp].
    The child is queued behind everybody who can run; those who wait for its
    creation are woken, and queued behind it in the order of the process list;
    nobody else is touched. *)
Theorem fork_spec c stack_pointer fp s :
  sched_wf s -> next_pid s + 1 < 2 ^ 31 -> length (gpr c) = 13%nat ->
  exists s' child, let ev := Event PROCESS_EVENT_CREATED (pid child) in
    scheduler_fork c stack_pointer fp s = Ok (pid child, s') /\ sched_wf s' /\
    (pid child ∉ pids s) /\ pids s' = pids s ++ [pid child] /\ proc (pid child) s' = Some child /\
    low_priority_queue s' = low_priority_queue s ++ [pid child] ++ woken ev (process_list s) /\
    high_priority_queue s' = high_priority_queue s /\ events_head s' = events_head s ++ [ev] /\ current_pid s' = current_pid s /\
    get_gpr 0 (ctx child) = 0 /\ pc (ctx child) = pc c /\
    (forall i, i <> 0%nat -> i <> 11%nat -> get_gpr i (ctx child) = get_gpr i c) /\
    sp (ctx child) = u32 (current_stack_break s - (fp - stack_pointer)) /\
    get_gpr 11 (ctx child) = u32 (current_stack_break s - (fp - get_gpr 11 c)) /\
    current_stack_break s' = u32 (current_stack_break s - 2000) /\
    (forall q, q <> pid child -> proc q s' = wake ev <$> proc q s).
Proof.
  intros Hwf Hn Hg. destruct (fork_full c stack_pointer fp s Hwf Hn) as (s' & parent & E & Hwf' & Hf & Hp & Hcur & _ & Hb & _ & _ & Hnew & Hold).
  destruct (fork_queues c stack_pointer fp s _ s' Hwf Hn E) as (Hlow & Hhigh & Hev).
  exists s', (forked c stack_pointer fp s parent). cbn [forked pid ctx]. do 9 (split; [done|]).
  unfold child_ctx, get_gpr, set_gpr; cbn [gpr pc sp cpsr lr].
  assert (Hu : forall a b, u32 (a - u32 b) = u32 (a - b)).
  { intros a b. unfold u32. by rewrite Zminus_mod_idemp_r. }
  split; [|split; [done|split; [|split; [|split; [|done]]]]].
  - rewrite list_lookup_insert_ne, list_lookup_insert_eq by (rewrite ?length_insert; lia). done.
  - intros i Hi0 Hi11. by rewrite !list_lookup_insert_ne.
  - apply Hu.
  - rewrite list_lookup_insert_eq by (rewrite length_insert; lia). simpl. rewrite Hu.
    by rewrite list_lookup_insert_ne.
Qed.

(** Reading back what [write32] wrote. *)
Definition read32 (addr : Z) (m : Z -> Z) : Z :=
  m (u32 addr) + m (u32 (addr + 1)) * 2 ^ 8 + m (u32 (addr + 2)) * 2 ^ 16 + m (u32 (addr + 3)) * 2 ^ 24.

(** The word at [w] does not share a byte with the address [a]. *)
Definition apart (w a : Z) : Prop := forall j, 0 <= j < 4 -> a <> u32 (w + j).

Lemma write32_apart w v m a : apart w a -> write32 w v m a = m a.
Proof.
  intros H. unfold write32. destruct (Z.eqb_spec a (u32 w)) as [E|]; [by destruct (H 0); rewrite ?Z.add_0_r|].
  destruct (Z.eqb_spec a (u32 (w + 1))); [by destruct (H 1)|]. destruct (Z.eqb_spec a (u32 (w + 2))); [by destruct (H 2)|].
  by destruct (Z.eqb_spec a (u32 (w + 3))); [destruct (H 3)|].
Qed.

Lemma u32_neq a b : a - b <> 0 -> - 2 ^ 32 < a - b < 2 ^ 32 -> u32 a <> u32 b.
Proof.
  unfold u32. intros H1 H2 E. pose proof (Z.div_mod a (2 ^ 32)). pose proof (Z.div_mod b (2 ^ 32)). nia.
Qed.

Lemma read32_write32 w v m : 0 <= v < 2 ^ 32 -> read32 w (write32 w v m) = v.
Proof.
  intros Hv. unfold read32, write32. rewrite !Z.eqb_refl.
  repeat match goal with |- context [u32 ?a =? u32 ?b] => destruct (Z.eqb_spec (u32 a) (u32 b)) as [E|_]; [exfalso; revert E; apply u32_neq; lia|] end.
  by apply le32_sum.
Qed.

(** A copy to memory below the original. *)
Lemma copy_memory_spec n i destination source m a :
  0 <= destination + i -> 0 <= i -> destination + i + Z.of_nat n <= source -> source + i + Z.of_nat n <= 2 ^ 32 ->
  copy_memory n i destination source m a =
    if decide (destination + i <= a < destination + i + Z.of_nat n) then m (source + (a - destination)) else m a.
Proof.
  revert i m; induction n as [|n IH]; intros i m H1 H2 H3 H4; simpl; [by rewrite decide_False by lia|].
  rewrite IH by lia. rewrite (u32_small (destination + i)), (u32_small (source + i)) by lia.
  repeat case_decide; try lia.
  - destruct (Z.eqb_spec (source + (a - destination)) (destination + i)); [lia|done].
  - destruct (Z.eqb_spec a (destination + i)) as [->|]; [|lia]. f_equal. lia.
  - destruct (Z.eqb_spec a (destination + i)); [lia|done].
Qed.

Lemma read32_other w w' v m : 4 <= Z.abs (w - w') < 2 ^ 32 - 4 -> read32 w (write32 w' v m) = read32 w m.
Proof.
  intros H. unfold read32. rewrite !write32_apart; [done|..]; intros j Hj; apply u32_neq; lia.
Qed.

Lemma links_apart links v m a :
  (forall w, w ∈ links -> apart w a) -> foldl (fun m w => write32 w v m) m links a = m a.
Proof.
  revert m; induction links as [|w links IH]; intros m H; simpl; [done|].
  rewrite IH by set_solver. apply write32_apart, H. set_solver.
Qed.

(** C23 (functional): the child starts on a copy of its parent's frame, byte
    for byte, moved below its own break, in which the four saved frame
    pointers are replaced by that break; all other memory is as it was. *)
Theorem fork_copies_frame c stack_pointer fp s :
  sched_wf s -> next_pid s + 1 < 2 ^ 31 -> length (gpr c) = 13%nat ->
  0 <= stack_pointer <= fp -> fp < 2 ^ 32 -> fp - stack_pointer <= current_stack_break s <= stack_pointer ->
  let new_break := current_stack_break s in
  let links := frame_links (u32 (new_break - (fp - get_gpr 11 c))) in
  exists r s', scheduler_fork c stack_pointer fp s = Ok (r, s') /\
    (forall a, (forall w, w ∈ links -> apart w a) ->
       memory s' a = if decide (new_break - (fp - stack_pointer) <= a < new_break)
                     then memory s (fp - (new_break - a)) else memory s a) /\
    (forall w, w ∈ links -> read32 w (memory s') = new_break).
Proof.
  intros Hwf Hn Hg Hsp Hfp Hb new_break links.
  destruct (fork_full c stack_pointer fp s Hwf Hn) as (s' & parent & E & _ & _ & _ & _ & _ & _ & Hm & _).
  exists (next_pid s), s'. split; [done|]. rewrite Hm. unfold forked_memory. cbv zeta.
  assert (Hr : get_gpr 11 (child_ctx c (current_stack_break s) stack_pointer fp) = u32 (new_break - (fp - get_gpr 11 c))).
  { unfold child_ctx, get_gpr, set_gpr; cbn [gpr]. rewrite list_lookup_insert_eq by (rewrite length_insert; lia). simpl.
    rewrite list_lookup_insert_ne by done. unfold u32. by rewrite Zminus_mod_idemp_r. }
  rewrite Hr. fold links. unfold child_ctx; cbn [sp]. nowrap. split.
  - intros a Ha. rewrite links_apart by done. rewrite copy_memory_spec by lia. fold new_break.
    destruct (decide (new_break - (fp - stack_pointer) <= a < new_break));
      [rewrite decide_True by lia; f_equal; lia|by rewrite decide_False by lia].
  - intros w Hw. unfold links, frame_links in *. fold new_break. cbn [foldl]. assert (0 <= new_break < 2 ^ 32) by lia.
    assert (Hrw : forall m, read32 w (write32 w new_break m) = new_break) by (intros; by apply read32_write32).
    rewrite !elem_of_cons, elem_of_nil in Hw.
    destruct Hw as [->|[->|[->|[->|[]]]]]; rewrite ?Hrw; rewrite ?(read32_other _ _ new_break) by lia; by rewrite ?Hrw.
Qed.

(** ** The other calls *)
Lemma exec_full c function argc argv s :
  sched_wf s ->
  exists s', scheduler_exec c function argc argv s =
      Ok (current_pid s, Ctx (cpsr c) function (<[1%nat := argv]> (<[0%nat := u32 argc]> (gpr c))) (sp c) (lr c), s') /\
    sched_wf s' /\ current_pid s' = current_pid s /\ pids s' = pids s /\ low_priority_queue s' = low_priority_queue s /\
    (forall q, q <> current_pid s -> proc q s' = proc q s).
Proof.
  intros [Hc He Hcur]. destruct (proj2 (proc_known (current_pid s) s) (core_current s Hc)) as [item Hi].
  unfold scheduler_exec, set_gpr, save_current_process; cbn [cpsr pc gpr sp lr].
  set (c' := Ctx (cpsr c) function (<[1%nat := argv]> (<[0%nat := u32 argc]> (gpr c))) (sp c) (lr c)).
  destruct (update_pcb_core (current_pid s) (fun p => set_ctx (copy_ctx (ctx p) c') p) s item Hc Hi)
    as (s1 & -> & Hc1 & Es1 & Hpids1 & _ & Hp1); [done|]. ok_bind.
  assert (Hcur1 : current_pid s1 = current_pid s) by by rewrite Es1. rewrite Hcur1.
  assert (Hi1 := Hp1 (current_pid s)). rewrite decide_True in Hi1 by done.
  destruct (update_pcb_core (current_pid s) (set_status PROCESS_STATUS_RUNNING) s1 _ Hc1 Hi1)
    as (s2 & E2 & Hc2 & Es2 & Hpids2 & _ & Hp2); [done|]. cbv zeta. rewrite E2. ok_bind.
  assert (Hcur2 : current_pid s2 = current_pid s) by (by rewrite Es2, <- Hcur1).
  assert (Hlow : low_priority_queue s2 = low_priority_queue s) by (by rewrite Es2, Es1). rewrite Hcur2.
  exists s2. split; [done|]. split; [|split; [done|split; [congruence|split; [done|intros q Hq; by rewrite Hp2, Hp1, !decide_False]]]].
  split; [done| |by rewrite Hcur2, Hlow]. intros q. unfold exact. rewrite Hlow, Hp2, Hp1. case_decide as Hq.
  - subst q. split; [|done]. intros _. eexists. split; [done|]. by left.
  - apply He.
Qed.

Lemma remove_all_elem_high p s : p ∉ high_priority_queue (remove_pid p 0 s).
Proof. simpl. rewrite remove_all_elem. tauto. Qed.

Lemma set_priority_proc p priority s q : proc q (set_priority p priority s) = proc q s.
Proof. unfold set_priority, add_pid, remove_pid. by destruct (priority =? 0), (priority =? 1). Qed.

(** [setpriority] of a process that can run only reorders the queues. *)
Lemma set_priority_wf p priority s item :
  sched_wf s -> proc p s = Some item -> runnable item -> sched_wf (set_priority p priority s).
Proof.
  intros [Hc He Hcur] Hp Hr. assert (Hq : p ∈ low_priority_queue s) by (apply He; eauto).
  assert (Hmem : forall q, q ∈ low_priority_queue (set_priority p priority s) <-> q ∈ low_priority_queue s).
  { intros q. unfold set_priority, add_pid, remove_pid. destruct (priority =? 0), (priority =? 1); simpl; try done;
      rewrite elem_of_app, remove_all_elem, list_elem_of_singleton; destruct (decide (q = p)); naive_solver. }
  assert (Hsnoc : forall l, NoDup l -> NoDup (remove_all p l ++ [p])) by (intros l Hl; by apply (requeue_all_nodup l [p])).
  split.
  - constructor; unfold pids; unfold set_priority, add_pid, remove_pid;
      destruct (priority =? 0), (priority =? 1); simpl; core_fields Hc; try (apply Hsnoc, Hc).
    all: try (intros q; rewrite !elem_of_app, !remove_all_elem; intros [[Hx ?]|?]; [left; split; [by apply (core_high_low s Hc)|done]|by right]).
    all: try (intros q Hx; rewrite elem_of_app, remove_all_elem, list_elem_of_singleton; destruct (decide (q = p)); [by right|left; split; [by apply (core_high_low s Hc)|done]]).
    all: intros q; rewrite elem_of_app, remove_all_elem, list_elem_of_singleton; intros [[Hx _]| ->]; by apply (core_known s Hc).
  - intros q. apply (exact_transfer s); [apply Hmem|by rewrite set_priority_proc|apply He].
  - assert (current_pid (set_priority p priority s) = current_pid s) as Hcp.
    { unfold set_priority, add_pid, remove_pid. by destruct (priority =? 0), (priority =? 1). }
    apply Hmem. by rewrite Hcp.
Qed.

(** The state [scheduler_initialise] leaves. *)
Lemma initialise_full entry_sh c stack_top_usr m :
  exists s, scheduler_initialise entry_sh c (scheduler_reset stack_top_usr m) =
      Ok (Ctx 80 entry_sh (replicate 13 0) stack_top_usr 0, s) /\
    sched_wf s /\ current_pid s = 1 /\ next_pid s = 2 /\ low_priority_queue s = [1] /\ high_priority_queue s = [] /\
    process_list s = [Pcb 1 (Ctx 80 entry_sh (replicate 13 0) stack_top_usr 0) PROCESS_STATUS_RUNNING (Event 0 0)] /\
    events_head s = [] /\ console s = [] /\ memory s = m.
Proof.
  eexists. split; [reflexivity|]. split; [|done]. split.
  - constructor; unfold pids; simpl; try apply NoDup_singleton; try apply NoDup_nil_2; try set_solver; try lia.
    by change (i32 (1 + 1)) with 2.
  - intros p. unfold exact. simpl. rewrite list_elem_of_singleton. unfold proc, find_process; simpl.
    destruct p as [|[]|]; simpl; split; intros H; try done; try (by destruct H as (? & ? & _)).
    eexists. split; [done|]. by left.
  - simpl. by apply list_elem_of_singleton.
Qed.

(** ** Fairness *)

(** Timer ticks, one after another: each interrupts the current process in the
    next context of the list. What is logged is the process switched to and the
    context it gets. *)
Fixpoint ticks (cs : list ctx_t) (s : sched) : outcome (list (Z * ctx_t) * sched) :=
  match cs with
  | [] => Ok ([], s)
  | c :: cs =>
      '(c', s) ← scheduler_run c s;
      '(log, s') ← ticks cs s;
      Ok ((current_pid s, c') :: log, s')
  end.

Lemma wf_nonempty s : sched_wf s -> low_priority_queue s <> [].
Proof. intros Hwf Hl. pose proof (wf_current s Hwf) as H. rewrite Hl in H. set_solver. Qed.

Lemma run_total c s : sched_wf s -> exists c' s', scheduler_run c s = Ok (c', s') /\ switched c s c' s' /\ sched_wf s'.
Proof.
  intros Hwf. destruct (run_spec c s (wf_core s Hwf) (wf_nonempty s Hwf)) as (c' & s' & E & Hsw). exists c', s'.
  split; [done|]. split; [done|]. destruct (run_wf c s (c', s') (wf_core s Hwf) (wf_exact s Hwf) E). done.
Qed.

Lemma ticks_rotate cs s q1 q2 :
  sched_wf s -> high_priority_queue s = [] -> low_priority_queue s = q1 ++ q2 -> length cs = length q1 ->
  exists log s', ticks cs s = Ok (log, s') /\ log.*1 = q1 /\ low_priority_queue s' = q2 ++ q1 /\
    high_priority_queue s' = [] /\ sched_wf s'.
Proof.
  revert s q1 q2; induction cs as [|c cs IH]; intros s q1 q2 Hwf Hh Hl Hlen.
  - destruct q1; [|done]. exists [], s. by rewrite app_nil_r.
  - destruct q1 as [|p q1]; [done|]. destruct (run_total c s Hwf) as (c1 & s1 & E & Hsw & Hwf1).
    pose proof (sw_next _ _ _ _ Hsw) as Hn. rewrite Hh, Hl in Hn. cbn [app] in Hn. destruct Hn as (Hh1 & Hc1 & Hl1).
    rewrite <- app_assoc in Hl1. destruct (IH s1 q1 (q2 ++ [p]) Hwf1 Hh1 Hl1) as (log & s' & E' & Hlog & Hl' & Hh' & Hwf'); [by injection Hlen|].
    exists ((p, c1) :: log), s'. cbn [ticks]. rewrite E. ok_bind. rewrite E'. ok_bind. rewrite Hc1. csimpl.
    split; [done|]. split; [by rewrite Hlog|]. split; [|done]. by rewrite Hl', <- app_assoc.
Qed.

(** C19 (liveness): with no high-priority process, as many timer ticks as there
    are processes that can run give each of them the processor exactly once, in
    the order of the queue, whatever they were doing, and leave the queue as it
    was: the low queue is a round robin. *)
Theorem round_robin cs s :
  sched_wf s -> high_priority_queue s = [] -> length cs = length (low_priority_queue s) ->
  exists log s', ticks cs s = Ok (log, s') /\ log.*1 = low_priority_queue s /\
    low_priority_queue s' = low_priority_queue s /\ sched_wf s' /\
    (forall p item, proc p s = Some item -> runnable item -> p ∈ log.*1).
Proof.
  intros Hwf Hh Hlen. destruct (ticks_rotate cs s (low_priority_queue s) [] Hwf Hh) as (log & s' & E & Hlog & Hl & _ & Hwf');
    [by rewrite app_nil_r|done|]. exists log, s'. do 4 (split; [done|]).
  intros p item Hp Hr. rewrite Hlog. apply (wf_exact s Hwf). by exists item.
Qed.

Lemma ticks_high cs s :
  sched_wf s -> high_priority_queue s <> [] ->
  exists log s', ticks cs s = Ok (log, s') /\ length log = length cs /\ sched_wf s' /\
    high_priority_queue s' ≡ₚ high_priority_queue s /\ low_priority_queue s' = low_priority_queue s /\
    Forall (fun p => p ∈ high_priority_queue s) log.*1.
Proof.
  revert s; induction cs as [|c cs IH]; intros s Hwf Hh.
  - exists [], s. do 5 (split; [done|]). constructor.
  - destruct (run_total c s Hwf) as (c1 & s1 & E & Hsw & Hwf1). pose proof (switched_high _ _ _ _ Hsw) as Hp.
    pose proof (sw_next _ _ _ _ Hsw) as Hn. destruct (high_priority_queue s) as [|p q] eqn:Eh; [done|].
    destruct Hn as (Hc1 & Hh1 & Hl1).
    destruct (IH s1 Hwf1) as (log & s' & E' & Hlen & Hwf' & Hh' & Hl' & Hall); [rewrite Hh1; by destruct q|].
    exists ((current_pid s1, c1) :: log), s'. cbn [ticks]. rewrite E. ok_bind. rewrite E'. ok_bind. csimpl.
    split; [done|]. split; [by f_equal|]. split; [done|]. split; [by rewrite Hh', Hp|]. split; [congruence|].
    constructor; [rewrite Hc1; set_solver|]. eapply Forall_impl; [exact Hall|]. intros x Hx. simpl in Hx. by rewrite Hp in Hx.
Qed.

(** C33 (liveness): as long as there is a high-priority process, a timer tick
    only ever switches to high-priority processes: the others wait however many
    ticks go by, and keep their places in the low queue. *)
Theorem high_priority_precedence cs s :
  sched_wf s -> high_priority_queue s <> [] ->
  exists log s', ticks cs s = Ok (log, s') /\ length log = length cs /\
    Forall (fun p => p ∈ high_priority_queue s) log.*1 /\ low_priority_queue s' = low_priority_queue s.
Proof.
  intros Hwf Hh. destruct (ticks_high cs s Hwf Hh) as (log & s' & E & Hlen & _ & _ & Hl & Hall). by exists log, s'.
Qed.

(** [scheduler_setpriority] can raise a process to high priority but
    not lower it again: the call with priority 1 leaves it in the high queue,
    and every tick after it still goes to that process. *)
Lemma lowering_priority_is_ineffective c p cs s :
  sched_wf s -> high_priority_queue s = [p] ->
  exists s1 log s2, scheduler_setpriority c p 1 s = (0, s1) /\ high_priority_queue s1 = [p] /\
    ticks cs s1 = Ok (log, s2) /\ log.*1 = replicate (length cs) p.
Proof.
  intros Hwf Hh. assert (p ∈ low_priority_queue s) as Hp by (apply (core_high_low s (wf_core s Hwf)); rewrite Hh; set_solver).
  apply (wf_exact s Hwf) in Hp as (item & Hi & Hr). pose proof (set_priority_wf p 1 s item Hwf Hi Hr) as Hwf1.
  eexists _. destruct (ticks_high cs (set_priority p 1 s) Hwf1) as (log & s2 & E & Hlen & _ & _ & _ & Hall).
  { unfold set_priority, add_pid, remove_pid; simpl. by rewrite Hh. }
  exists log, s2. split; [reflexivity|]. split; [done|]. split; [exact E|].
  change (high_priority_queue (set_priority p 1 s)) with (high_priority_queue s) in Hall. rewrite Hh in Hall.
  rewrite <- Hlen, <- (length_fmap fst). symmetry. apply replicate_as_Forall. split; [done|].
  eapply Forall_impl; [exact Hall|]. intros x Hx. by apply list_elem_of_singleton in Hx.
Qed.

(** [scheduler_setpriority] does not look at the status: it puts a
    process that has terminated, or that waits for an event, back in the queue,
    and the state is no longer well formed. *)
Lemma setpriority_requeues_the_dead c p priority s item :
  sched_wf s -> proc p s = Some item -> ~ runnable item -> priority = 0 \/ priority = 1 ->
  (p ∉ low_priority_queue s) /\ (p ∈ low_priority_queue (snd (scheduler_setpriority c p priority s))) /\
  ~ sched_wf (snd (scheduler_setpriority c p priority s)).
Proof.
  intros Hwf Hp Hr Hpr. simpl.
  assert (Hin : p ∈ low_priority_queue (set_priority p priority s)).
  { unfold set_priority, add_pid, remove_pid. destruct Hpr as [->| ->]; simpl; apply elem_of_app; right; by apply list_elem_of_singleton. }
  split; [|split; [done|]].
  - intros H. apply (wf_exact s Hwf) in H as (x & Hx & Hrx). congruence.
  - intros Hwf'. apply (wf_exact _ Hwf') in Hin as (x & Hx & Hrx). rewrite set_priority_proc in Hx. congruence.
Qed.

Lemma ticks_saved cs s log s' p item :
  sched_wf s -> ticks cs s = Ok (log, s') -> current_pid s <> p -> p ∉ log.*1 -> proc p s = Some item ->
  sched_wf s' /\ current_pid s' <> p /\ proc p s' = Some item.
Proof.
  revert s log; induction cs as [|c cs IH]; intros s log Hwf E Hcur Hlog Hp.
  - by injection E as <- <-.
  - destruct (run_total c s Hwf) as (c1 & s1 & E1 & Hsw & Hwf1). cbn [ticks] in E. rewrite E1 in E. revert E. ok_bind.
    destruct (ticks cs s1) as [[log1 s2]|] eqn:E2; [|done]. ok_bind. intros [= <- <-]. csimpl in Hlog.
    eapply IH; [done|done|set_solver|set_solver|]. by rewrite (sw_proc _ _ _ _ Hsw), decide_False.
Qed.

(** A context switch is transparent. A process interrupted in context [c] gets
    exactly [c] back when it is next switched to, whatever contexts the
    processes that ran in between were interrupted in. *)
Lemma context_is_restored c cs c' s log s1 c1 s2 c2 s3 :
  sched_wf s -> scheduler_run c s = Ok (c1, s1) -> current_pid s1 <> current_pid s ->
  ticks cs s1 = Ok (log, s2) -> current_pid s ∉ log.*1 ->
  scheduler_run c' s2 = Ok (c2, s3) -> current_pid s3 = current_pid s ->
  c2 = c.
Proof.
  intros Hwf E1 Hne Et Hlog E3 Hback. destruct (run_total c s Hwf) as (x & y & E & Hsw & Hwf1).
  rewrite E in E1. injection E1 as -> ->.
  destruct (proj2 (proc_known (current_pid s) s) (core_current s (wf_core s Hwf))) as [item Hi].
  assert (Hp1 : proc (current_pid s) s1 = Some (set_ctx c item)) by (by rewrite (sw_proc _ _ _ _ Hsw), decide_True, Hi).
  destruct (ticks_saved cs s1 log s2 _ _ Hwf1 Et Hne Hlog Hp1) as (Hwf2 & Hcur2 & Hp2).
  destruct (run_total c' s2 Hwf2) as (x & y & E' & Hsw' & _). rewrite E' in E3. injection E3 as -> ->.
  pose proof (sw_ctx _ _ _ _ Hsw') as Hctx. rewrite Hback, (sw_proc _ _ _ _ Hsw'), decide_False, Hp2 in Hctx by congruence.
  by injection Hctx as <-.
Qed.

(** ** The theorems at work: the machine after the boot and after one [fork] *)
Definition demo_ctx : ctx_t := Ctx 80 32768 (replicate 13 0) 458752 0.
Definition result_state {A} (r : outcome (A * sched)) (s : sched) : sched :=
  match r with Ok (_, s) => s | Err _ => s end.
Definition demo0 : sched := scheduler_reset 458752 (fun _ => 0).
Definition demo1 : sched := result_state (scheduler_initialise 32768 demo_ctx demo0) demo0.
Definition demo2 : sched := result_state (scheduler_fork demo_ctx 458652 458752 demo1) demo1.

Lemma demo1_wf : sched_wf demo1.
Proof.
  unfold demo1, demo0. destruct (initialise_full 32768 demo_ctx 458752 (fun _ => 0)) as (s & E & Hwf & _).
  by rewrite E.
Qed.

Lemma demo2_wf : sched_wf demo2.
Proof.
  unfold demo2. destruct (fork_full demo_ctx 458652 458752 demo1 demo1_wf) as (s & parent & E & Hwf & _); [done|].
  by rewrite E.
Qed.

Lemma demo2_other : exists q, q ∈ low_priority_queue demo2 /\ q <> current_pid demo2.
Proof. exists 2. split; [by apply (bool_decide_unpack _); vm_compute|done]. Qed.

Lemma exit_spec_witness :
  current_pid demo2 = 1 /\ exists c' s', scheduler_exit demo_ctx demo2 = Ok (c', s') /\ scheduler_has_event_occurred (Event 1 1) s' = 1.
Proof.
  split; [reflexivity|].
  destruct (exit_spec demo_ctx demo2 demo2_wf demo2_other) as (c' & s' & E & _ & _ & _ & _ & _ & H & _).
  exists c', s'. split; [exact E|exact H].
Defined.

Lemma exit_last_faults_witness : scheduler_exit demo_ctx demo1 = Err NullPointer.
Proof. apply (exit_last_faults demo_ctx demo1 demo1_wf). reflexivity. Defined.

Lemma block_spec_witness :
  exists c' s', scheduler_block_process demo_ctx (Event 1 2) demo2 = Ok (2, c', s') /\
    proc 1 s' = Some (Pcb 1 demo_ctx PROCESS_STATUS_BLOCKED (Event 1 2)).
Proof.
  destruct (block_spec demo_ctx (Event 1 2) demo2 demo2_wf demo2_other) as (c' & s' & E & _ & H & _); [done|].
  exists c', s'. split; [exact E|exact H].
Defined.

Lemma fork_spec_witness :
  exists s' child, scheduler_fork demo_ctx 458652 458752 demo1 = Ok (pid child, s') /\ low_priority_queue s' = [1; pid child] /\ get_gpr 0 (ctx child) = 0.
Proof.
  destruct (fork_spec demo_ctx 458652 458752 demo1 demo1_wf) as (s' & child & E & _ & _ & _ & _ & Hq & _ & _ & _ & H & _);
    [done|done|]. exists s', child. split; [exact E|]. split; [exact Hq|exact H].
Defined.

Lemma fork_copies_frame_witness :
  exists r s', scheduler_fork demo_ctx 458652 458752 demo1 = Ok (r, s') /\ memory s' 456700 = 0.
Proof.
  destruct (fork_copies_frame demo_ctx 458652 458752 demo1 demo1_wf) as (r & s' & E & Hm & _); [done|done|lia|lia|done|].
  exists r, s'. split; [exact E|]. rewrite Hm; [done|].
  intros w Hw j Hj. change (u32 _) with 4294965296 in Hw. unfold frame_links in Hw. rewrite !elem_of_cons, elem_of_nil in Hw.
  destruct Hw as [->|[->|[->|[->|[]]]]]; unfold u32; rewrite Z.mod_small by lia; lia.
Defined.

Lemma round_robin_witness :
  exists log s', ticks [demo_ctx; demo_ctx] demo2 = Ok (log, s') /\ log.*1 = [1; 2].
Proof.
  destruct (round_robin [demo_ctx; demo_ctx] demo2 demo2_wf) as (log & s' & E & H & _); [done|done|].
  exists log, s'. split; [exact E|exact H].
Defined.

Lemma demo_high_wf : sched_wf (set_priority 2 0 demo2).
Proof. eapply set_priority_wf; [exact demo2_wf|reflexivity|by right]. Qed.

Lemma high_priority_precedence_witness :
  exists log s', ticks [demo_ctx; demo_ctx] (set_priority 2 0 demo2) = Ok (log, s') /\
    Forall (fun p => p ∈ [2]) log.*1.
Proof.
  destruct (high_priority_precedence [demo_ctx; demo_ctx] (set_priority 2 0 demo2) demo_high_wf) as (log & s' & E & _ & H & _); [done|].
  exists log, s'. split; [exact E|exact H].
Defined.

Lemma lowering_priority_is_ineffective_witness :
  exists s1 log s2, scheduler_setpriority demo_ctx 2 1 (set_priority 2 0 demo2) = (0, s1) /\
    ticks [demo_ctx; demo_ctx] s1 = Ok (log, s2) /\ log.*1 = [2; 2].
Proof.
  destruct (lowering_priority_is_ineffective demo_ctx 2 [demo_ctx; demo_ctx] (set_priority 2 0 demo2) demo_high_wf)
    as (s1 & log & s2 & E1 & _ & E2 & H); [done|].
  exists s1, log, s2. split; [exact E1|]. split; [exact E2|exact H].
Defined.

Definition demo_blocked : sched :=
  match scheduler_block_process demo_ctx (Event 1 2) demo2 with Ok (_, _, s) => s | Err _ => demo2 end.

Lemma demo_blocked_wf : sched_wf demo_blocked.
Proof.
  unfold demo_blocked. destruct (scheduler_block_process demo_ctx (Event 1 2) demo2) as [[[r c'] s']|] eqn:E.
  - by eapply block_wf; [exact demo2_wf|exact E].
  - exact demo2_wf.
Qed.

Lemma setpriority_requeues_the_dead_witness :
  ~ sched_wf (snd (scheduler_setpriority demo_ctx 1 1 demo_blocked)).
Proof.
  eapply (setpriority_requeues_the_dead demo_ctx 1 1 demo_blocked); [exact demo_blocked_wf|reflexivity| |by right].
  intros [H|H]; discriminate H.
Defined.

(** Process 1 is interrupted in its own context and gets it back two ticks later. *)
Lemma context_is_restored_witness :
  let c := Ctx 80 36864 (replicate 13 7) 458700 5 in
  exists c1 s1 c2 s2 s3, scheduler_run demo_ctx demo2 = Ok (c1, s1) /\
    scheduler_run c s1 = Ok (c2, s2) /\ scheduler_run demo_ctx s2 = Ok (c, s3).
Proof.
  intros c. destruct (run_total demo_ctx demo2 demo2_wf) as (c1 & s1 & E1 & Hsw1 & Hwf1).
  destruct (run_total c s1 Hwf1) as (c2 & s2 & E2 & Hsw2 & Hwf2).
  destruct (run_total demo_ctx s2 Hwf2) as (c3 & s3 & E3 & Hsw3 & Hwf3).
  exists c1, s1, c2, s2, s3. split; [exact E1|]. split; [exact E2|]. rewrite E3.
  assert (Hn1 := sw_next _ _ _ _ Hsw1). destruct Hn1 as (Hh1 & Hc1 & Hl1). cbn [app] in Hl1.
  assert (Hn2 := sw_next _ _ _ _ Hsw2). rewrite Hh1, Hl1 in Hn2. destruct Hn2 as (Hh2 & Hc2 & Hl2).
  assert (Hn3 := sw_next _ _ _ _ Hsw3). rewrite Hh2, Hl2 in Hn3. destruct Hn3 as (Hh3 & Hc3 & Hl3).
  rewrite (context_is_restored c [] demo_ctx s1 [] s2 c2 s2 c3 s3 Hwf1 E2); [done| |done| |exact E3|].
  - rewrite Hc2, Hc1. discriminate.
  - set_solver.
  - by rewrite Hc3, Hc1.
Defined.
