(* ===== verification/Bystander.v ===== *)
(** * Bystanders

    What the scheduler's operations leave a process that does not wait for an
    event: its context, whoever blocks, kills, forks or exits; and what those of
    them that neither block nor kill leave a process that can run: its place in
    the queue, the console, and the memory below the stacks, and that it is not
    reported to have exited. *)
From S2P Require Import Prelude Scheduler.

(** ** Memory below the stacks *)
Definition agree (top : Z) (m m' : Z -> Z) : Prop := forall a, 0 <= a < top -> m' a = m a.

#[export] Instance agree_preorder top : PreOrder (agree top).
Proof. split; [by intros m a|]. intros m1 m2 m3 H1 H2 a Ha. by rewrite H2, H1. Qed.

Lemma write32_above top w v m : 0 <= top <= w -> w + 4 <= 2 ^ 32 -> agree top m (write32 w v m).
Proof. intros Hw Hw' a Ha. apply write32_apart. intros j Hj. rewrite u32_small by lia. lia. Qed.

Lemma copy_above top n i destination source m :
  0 <= top <= destination + i -> destination + i + Z.of_nat n <= 2 ^ 32 -> agree top m (copy_memory n i destination source m).
Proof.
  revert i m. induction n as [|n IH]; intros i m Hd Hn; [done|]. cbn [copy_memory]. etrans; [|apply IH; lia].
  intros a Ha. rewrite u32_small by lia. by destruct (Z.eqb_spec a (destination + i)); [lia|].
Qed.

(** The stack that [fork] copies for the child, and the words of it that it
    sets. *)
Definition stack_apart (top : Z) (c : ctx_t) (stack_pointer fp : Z) (s : sched) : Prop :=
  let child := child_ctx c (current_stack_break s) stack_pointer fp in
  top <= sp child /\ sp child + u32 (fp - stack_pointer) <= 2 ^ 32 /\
  Forall (fun w => top <= w /\ w + 4 <= 2 ^ 32) (frame_links (get_gpr 11 child)).

Lemma forked_above top c stack_pointer fp s :
  0 <= top -> stack_apart top c stack_pointer fp s -> agree top (memory s) (forked_memory c stack_pointer fp s).
Proof.
  unfold stack_apart. cbv zeta. intros Htop (Hd & Hn & Hl). unfold forked_memory. pose proof (u32_range (fp - stack_pointer)).
  etrans; [apply (copy_above top (Z.to_nat (u32 (fp - stack_pointer))) 0 (sp (child_ctx c (current_stack_break s) stack_pointer fp)) stack_pointer); [|rewrite Z2Nat.id]; lia|].
  match goal with |- agree _ ?x _ => generalize x end. induction Hl as [|w l [Hw Hw'] _ IH]; intros m; cbn [foldl]; [done|].
  etrans; [by apply (write32_above top w (current_stack_break s))|apply IH].
Qed.

Section Bystander.
Context (p top : Z).

(** The context of [p], whether it has the processor or not. *)
Definition context_in (c : ctx_t) (s : sched) : option ctx_t := if decide (current_pid s = p) then Some c else ctx <$> proc p s.

(** It can run and waits for its turn, or has it. *)
Definition ready (s : sched) : Prop := p ∈ low_priority_queue s /\ exists item, proc p s = Some item /\ runnable item.

(** Its exit is on record. *)
Definition gone (s : sched) : Prop :=
  Exists (fun item => event item = PROCESS_EVENT_EXITED /\ from_process item = p) (events_head s).

(** It does not wait for an event. *)
Definition awake (s : sched) : Prop := exists item, proc p s = Some item /\ status item <> PROCESS_STATUS_BLOCKED.

(** Its context stays what it is. *)
Definition steady (st st' : ctx_t * sched) : Prop :=
  awake st.2 -> awake st'.2 /\ context_in st'.1 st'.2 = context_in st.1 st.2.

(** It is left in its place, the console and the memory below the stacks too. *)
Definition spared (s s' : sched) : Prop :=
  ready s -> ready s' /\ console s' = console s /\ agree top (memory s) (memory s') /\ (gone s' -> gone s).

#[export] Instance steady_preorder : PreOrder steady.
Proof.
  split; [done|]. intros st1 st2 st3 H1 H2 H. destruct (H1 H) as [A1 C1], (H2 A1) as [A2 C2]. split; [done|congruence].
Qed.

#[export] Instance spared_preorder : PreOrder spared.
Proof.
  split; [done|]. intros st1 st2 st3 H1 H2 H. destruct (H1 H) as (R1 & N1 & M1 & G1), (H2 R1) as (R2 & N2 & M2 & G2).
  split; [done|]. split; [congruence|]. split; [by etrans|auto].
Qed.

Lemma ready_awake s : ready s -> awake s.
Proof. intros (_ & item & Hi & [E|E]); exists item; by rewrite E. Qed.

(** ** Its context *)
Lemma same_steady c s s' : process_list s' = process_list s -> current_pid s' = current_pid s -> steady (c, s) (c, s').
Proof. intros El Ec Ha. unfold awake, context_in, proc, find_process in *. cbn in *. by rewrite El, Ec. Qed.

Lemma remove_steady c q priority s : steady (c, s) (c, remove_pid q priority s).
Proof. unfold remove_pid. by destruct (priority =? 0), (priority =? 1). Qed.

Lemma set_priority_steady c q priority s : steady (c, s) (c, set_priority q priority s).
Proof. apply same_steady; unfold set_priority, add_pid, remove_pid; by destruct (priority =? 0), (priority =? 1). Qed.

Lemma next_steady c priority s : steady (c, s) (c, (get_next_process priority s).2).
Proof.
  apply same_steady; unfold get_next_process; destruct (priority =? 0), (priority =? 1); try done.
  all: try by destruct (high_priority_queue s). all: by destruct (low_priority_queue s).
Qed.

(** A change in the list: of another process, or of this one where it is not
    told to wait. *)
Lemma update_steady c q f s s' :
  (forall item, pid (f item) = pid item) -> (q <> p \/ forall item, ctx (f item) = ctx item /\ status (f item) <> PROCESS_STATUS_BLOCKED) ->
  update_pcb (find_process q s) f s = Ok s' -> steady (c, s) (c, s') /\ s' = with_procs (process_list s') s.
Proof.
  intros Hf Hq E. destruct (proc q s) as [item|] eqn:Hi.
  - destruct (update_pcb_spec q f s item Hi Hf) as (s1 & E1 & Es & _ & _ & Hp). rewrite E in E1. injection E1 as <-. split; [|done].
    intros (item' & Hi' & Hs). cbn in *. unfold context_in, awake. rewrite (Hp p). assert (current_pid s' = current_pid s) as -> by by rewrite Es.
    case_decide as Ep; [|split; [by exists item'|done]]. subst q. rewrite Hi in Hi'. injection Hi' as <-. destruct Hq as [|Hq]; [done|].
    destruct (Hq item) as [Hc Hst]. split; [by eexists|]. rewrite Hi. cbn. by rewrite Hc.
  - unfold proc, find_process in *. destruct (find_pcb q (process_list s)) as [i|] eqn:Ef; [|done]. apply find_pcb_Some in Ef as (x & Hx & _). cbn in Hi. by rewrite Hx in Hi.
Qed.

Lemma save_proc c s s' q : save_current_process c s = Ok s' ->
  s' = with_procs (process_list s') s /\ proc q s' = if decide (q = current_pid s) then set_ctx c <$> proc q s else proc q s.
Proof.
  intros E. unfold save_current_process in E. destruct (proc (current_pid s) s) as [item|] eqn:Hi.
  - destruct (update_pcb_spec (current_pid s) (fun p => set_ctx (copy_ctx (ctx p) c) p) s item Hi) as (s1 & E1 & Es & _ & _ & Hp); [done|].
    rewrite E in E1. injection E1 as <-. split; [done|]. rewrite Hp. case_decide as Hq; [|done]. subst q. rewrite Hi. by destruct c.
  - unfold proc, find_process in *. destruct (find_pcb (current_pid s) (process_list s)) as [i|] eqn:Ef; [|done].
    apply find_pcb_Some in Ef as (x & Hx & _). cbn in Hi. by rewrite Hx in Hi.
Qed.

Lemma save_steady c s s' : save_current_process c s = Ok s' -> steady (c, s) (c, s').
Proof.
  intros E (item & Hi & Hs). destruct (save_proc c s s' p E) as [Es Hp]. cbn in *. unfold awake, context_in. rewrite Hp, Hi.
  assert (current_pid s' = current_pid s) as -> by by rewrite Es.
  case_decide as He; [rewrite !decide_True by done|rewrite ?decide_False by congruence]; (split; [by eexists|done]).
Qed.

(** Another process gets the processor, or [p] does, with its context. *)
Lemma switch_steady c n s s1 c' s' :
  save_current_process c s = Ok s1 -> run_process c n s1 = Ok (c', s') -> steady (c, s) (c', s').
Proof.
  intros E1 E2 (item & Hi & Hr). cbn in *. destruct (save_proc c s s1 p E1) as [Es Hp]. unfold run_process in E2.
  apply bind_Ok in E2 as (next & En & [= <- <-]). cbn in En.
  assert (Hn : proc n s1 = Some next).
  { unfold read_pcb, proc in *. destruct (find_process n s1) as [i|]; [|done]. cbn in *. by destruct (process_list s1 !! i); [injection En as ->|]. }
  assert (Ec : copy_ctx c (ctx next) = ctx next) by by destruct (ctx next).
  unfold context_in, awake. cbn [fst snd]. change (proc p (with_current n s1)) with (proc p s1). rewrite Ec, Hp, Hi. cbn [with_current current_pid].
  split; [case_decide; by eexists|]. destruct (decide (n = p)) as [->|Hne].
  - rewrite Hp, Hi in Hn. case_decide as Hc; [rewrite decide_True by done; by injection Hn as <-|rewrite decide_False by congruence; by injection Hn as <-].
  - case_decide as Hc; [by rewrite decide_True|by rewrite decide_False by congruence].
Qed.

Lemma run_steady c s c' s' : scheduler_run c s = Ok (c', s') -> steady (c, s) (c', s').
Proof.
  unfold scheduler_run. pose proof (next_steady c 0 s) as H0. destruct (get_next_process 0 s) as [q s0]. cbn in H0. intros E. etrans; [exact H0|].
  assert (exists r s1, (if q =? -1 then get_next_process 1 s0 else (q, s0)) = (r, s1) /\ steady (c, s0) (c, s1)) as (r & s1 & E1 & H1).
  { destruct (q =? -1); [|by exists q, s0]. pose proof (next_steady c 1 s0). destruct (get_next_process 1 s0) as [r s1]. by eauto. }
  rewrite E1 in E. apply bind_Ok in E as (s2 & E2 & E). etrans; [exact H1|]. by eapply switch_steady.
Qed.

(** An event does not wake who does not wait. *)
Lemma emit_steady c ev s : steady (c, s) (c, scheduler_emit_event ev s).
Proof.
  intros (item & Hi & Hr). cbn in *. unfold awake, context_in. rewrite emit_proc, Hi. cbn. unfold wake.
  assert (should_wake ev item = false) as -> by (unfold should_wake; by rewrite (proj2 (Z.eqb_neq _ _) Hr)).
  rewrite emit_event_eq; cbn. split; [by eexists|done].
Qed.

(** What is in the registers of another that has the processor. *)
Lemma own_steady c c' s : current_pid s <> p -> steady (c, s) (c', s).
Proof. intros Hne Ha. unfold context_in; cbn. by rewrite !decide_False. Qed.

Lemma end_steady c q c' s s1 s2 :
  scheduler_run c (dequeue q s) = Ok (c', s1) -> update_pcb (find_process q s1) (set_status PROCESS_STATUS_TERMINATED) s1 = Ok s2 ->
  steady (c, s) (c', scheduler_emit_event (Event PROCESS_EVENT_EXITED q) s2).
Proof.
  intros E1 E2. etrans; [apply (remove_steady c q 0)|]. etrans; [apply (remove_steady c q 1)|]. etrans; [by eapply run_steady|].
  etrans; [|apply emit_steady]. by apply (update_steady c' q (set_status PROCESS_STATUS_TERMINATED) s1); [|right|].
Qed.

Lemma exit_steady c s c' s' : scheduler_exit c s = Ok (c', s') -> steady (c, s) (c', s').
Proof.
  rewrite scheduler_exit_eq. intros E. apply bind_Ok in E as ([c1 s1] & E1 & E). destruct (negb _).
  - apply bind_Ok in E as (s2 & E2 & [= <- <-]). by eapply end_steady.
  - injection E as <- <-. etrans; [apply (remove_steady c (current_pid s) 0)|]. etrans; [apply (remove_steady c (current_pid s) 1)|].
    etrans; [by eapply run_steady|]. by apply same_steady.
Qed.

Lemma kill_steady c q s r c' s' : scheduler_kill c q s = Ok (r, c', s') -> steady (c, s) (c', s').
Proof.
  rewrite scheduler_kill_eq. intros E. apply bind_Ok in E as ([c1 s1] & E1 & E). apply bind_Ok in E as (s2 & E2 & [= _ <- <-]). by eapply end_steady.
Qed.

Lemma block_steady c ev s r c' s' :
  current_pid s <> p -> scheduler_block_process c ev s = Ok (r, c', s') -> steady (c, s) (c', s').
Proof.
  intros Hne. unfold scheduler_block_process. intros E. apply bind_Ok in E as (s1 & E1 & E). apply bind_Ok in E as (s2 & E2 & E).
  apply bind_Ok in E as (s3 & E3 & E). apply bind_Ok in E as ([c4 s4] & E4 & [= _ <- <-]).
  assert (Ec1 : current_pid s1 = current_pid s) by (destruct (save_proc _ _ _ p E1) as [-> _]; done).
  assert (E3' : update_pcb (find_process (current_pid s1) s2) (set_status PROCESS_STATUS_BLOCKED) s2 = Ok s3).
  { rewrite <- E3. f_equal. unfold update_pcb in E2. destruct (find_process (current_pid s1) s1) as [i|] eqn:Ei; [|done]. injection E2 as <-.
    unfold find_process in *. cbn. by rewrite find_pcb_alter. }
  destruct (update_steady c (current_pid s1) (set_blocked_until ev) s1 s2) as [H2 _]; [done|left; congruence|done|].
  destruct (update_steady c (current_pid s1) (set_status PROCESS_STATUS_BLOCKED) s2 s3) as [H3 _]; [done|left; congruence|done|].
  etrans; [by eapply save_steady|]. etrans; [exact H2|]. etrans; [exact H3|].
  etrans; [apply (remove_steady c (current_pid s3) 0)|]. etrans; [apply (remove_steady c (current_pid s3) 1)|].
  etrans; [apply emit_steady|]. by eapply run_steady.
Qed.

Lemma exec_steady c function argc argv s r c' s' :
  current_pid s <> p -> scheduler_exec c function argc argv s = Ok (r, c', s') -> steady (c, s) (c', s').
Proof.
  intros Hne. unfold scheduler_exec. intros E. apply bind_Ok in E as (s1 & E1 & E). apply bind_Ok in E as (s2 & E2 & [= _ <- <-]).
  etrans; [by apply (own_steady c (set_gpr 1 argv (set_gpr 0 (u32 argc) (Ctx (cpsr c) function (gpr c) (sp c) (lr c)))))|].
  etrans; [by eapply save_steady|]. by eapply (update_steady _ (current_pid s1) (set_status PROCESS_STATUS_RUNNING) s1); [|right|].
Qed.

(** One more process in the list. *)
Lemma forked_proc item c stack_pointer fp s parent next sb m :
  proc p s = Some item ->
  proc p (Sched (current_pid s) next sb (events_head s) (process_list s ++ [forked c stack_pointer fp s parent])
    (low_priority_queue s) (high_priority_queue s) (console s) m) = Some item.
Proof.
  unfold proc, find_process in *. cbn [process_list]. rewrite find_pcb_app. destruct (find_pcb p (process_list s)) as [i|]; [|done].
  cbn in *. intros Hi. rewrite lookup_app_l; [done|]. by eapply lookup_lt_Some.
Qed.

Lemma fork_steady c stack_pointer fp s r s' : core s -> scheduler_fork c stack_pointer fp s = Ok (r, s') -> steady (c, s) (c, s').
Proof.
  intros Hc E. destruct (proj2 (proc_known (current_pid s) s) (core_current s Hc)) as [parent Hp].
  pose proof (core_range s Hc _ (core_current s Hc)). rewrite (fork_eq c stack_pointer fp s parent) in E by (lia || done). injection E as _ <-.
  etrans; [|apply emit_steady]. etrans; [|apply set_priority_steady]. intros (item & Hi & Hr). cbn [fst snd] in *.
  unfold awake, context_in. cbn [fst snd current_pid]. rewrite (forked_proc item) by done. split; [by eexists|]. by rewrite Hi.
Qed.

(** ** Its place *)
Lemma queues_spared s s' :
  process_list s' = process_list s -> console s' = console s -> memory s' = memory s ->
  events_head s' = events_head s -> (p ∈ low_priority_queue s -> p ∈ low_priority_queue s') -> spared s s'.
Proof.
  intros El En Em Ev Hq [Hp Hr]. cbn in *. unfold ready, gone, proc, find_process in *. rewrite El, En, Em, Ev. split; [split; [by apply Hq|done]|done].
Qed.

Lemma remove_spared q priority s : q <> p -> spared s (remove_pid q priority s).
Proof.
  intros Hq. apply queues_spared; unfold remove_pid; destruct (priority =? 0), (priority =? 1); simpl; try done; rewrite remove_all_elem; naive_solver.
Qed.

Lemma dequeue_spared q s : q <> p -> spared s (dequeue q s).
Proof. intros Hq. unfold dequeue. etrans; by apply remove_spared. Qed.

Lemma set_priority_spared q priority s : spared s (set_priority q priority s).
Proof.
  apply queues_spared; unfold set_priority, add_pid, remove_pid; destruct (priority =? 0), (priority =? 1); try done.
  all: simpl; rewrite ?elem_of_app, ?remove_all_elem, ?list_elem_of_singleton; destruct (decide (p = q)); tauto.
Qed.

Lemma next_spared priority s : spared s (get_next_process priority s).2.
Proof.
  apply queues_spared; unfold get_next_process; destruct (priority =? 0), (priority =? 1); try done.
  all: try by destruct (high_priority_queue s). all: try by destruct (low_priority_queue s).
  all: destruct (low_priority_queue s) as [|q l] eqn:E; simpl; [by rewrite E|]; rewrite elem_of_app, elem_of_cons, list_elem_of_singleton; tauto.
Qed.

(** A change of another process in the list. *)
Lemma update_spared q f s s' :
  (forall item, pid (f item) = pid item) -> q <> p -> update_pcb (find_process q s) f s = Ok s' -> spared s s'.
Proof.
  intros Hf Hq E. destruct (proc q s) as [item|] eqn:Hi.
  - destruct (update_pcb_spec q f s item Hi Hf) as (s1 & E1 & Es & _ & _ & Hp). rewrite E in E1. injection E1 as <-.
    intros [Hl Hr]. cbn in *. unfold ready, gone. rewrite (Hp p), decide_False by done. by rewrite Es.
  - unfold proc, find_process in *. destruct (find_pcb q (process_list s)) as [i|] eqn:Ef; [|done]. apply find_pcb_Some in Ef as (x & Hx & _). cbn in Hi. by rewrite Hx in Hi.
Qed.

Lemma switch_spared c n s s1 c' s' :
  save_current_process c s = Ok s1 -> run_process c n s1 = Ok (c', s') -> spared s s'.
Proof.
  intros E1 E2 [Hl (item & Hi & Hr)]. cbn in *. destruct (save_proc c s s1 p E1) as [Es Hp]. unfold run_process in E2.
  apply bind_Ok in E2 as (next & _ & [= _ <-]). unfold ready, gone. cbn [snd]. change (proc p (with_current n s1)) with (proc p s1).
  rewrite Hp, Hi. cbn [with_current low_priority_queue console memory events_head]. rewrite Es. split; [split; [done|]|done].
  case_decide; eexists; (split; [done|]); [by destruct item|done].
Qed.

Lemma run_spared c s c' s' : scheduler_run c s = Ok (c', s') -> spared s s'.
Proof.
  unfold scheduler_run. pose proof (next_spared 0 s) as H0. destruct (get_next_process 0 s) as [q s0]. cbn in H0. intros E. etrans; [exact H0|].
  assert (exists r s1, (if q =? -1 then get_next_process 1 s0 else (q, s0)) = (r, s1) /\ spared s0 s1) as (r & s1 & E1 & H1).
  { destruct (q =? -1); [|by exists q, s0]. pose proof (next_spared 1 s0). destruct (get_next_process 1 s0) as [r s1]. by eauto. }
  rewrite E1 in E. apply bind_Ok in E as (s2 & E2 & E). etrans; [exact H1|]. by eapply switch_spared.
Qed.

Lemma emit_spared ev s : ~ (event ev = PROCESS_EVENT_EXITED /\ from_process ev = p) -> spared s (scheduler_emit_event ev s).
Proof.
  intros Hev [Hl (item & Hi & Hr)]. cbn in *. unfold ready. rewrite emit_proc, Hi. cbn. unfold wake.
  assert (should_wake ev item = false) as -> by (unfold should_wake; by destruct Hr as [-> | ->]).
  rewrite emit_event_eq; cbn. split; [split; [apply requeue_all_elem; by left|by eexists]|]. do 2 (split; [done|]).
  unfold gone; cbn. destruct (recorded ev); [|done]. rewrite Exists_app, Exists_cons. intros [Hg|[Hg|Hg]]; [done|by destruct ev|by apply Exists_nil in Hg].
Qed.

(** ** The operations of others *)

(** [exit] of another finds [p] in the queue, and prints nothing. *)
Lemma exit_spared c s c' s' : core s -> current_pid s <> p -> scheduler_exit c s = Ok (c', s') -> spared s s'.
Proof.
  intros Hc Hne. rewrite scheduler_exit_eq. intros E Hp. apply bind_Ok in E as ([c1 s1] & E1 & E).
  pose proof (dequeue_spared (current_pid s) s Hne) as H0. pose proof (run_spared _ _ _ _ E1) as H1.
  destruct (run_spec c (dequeue (current_pid s) s)) as (c2 & s2 & E2 & Hsw); [by apply dequeue_core|intros En; destruct (H0 Hp) as [[Hl _] _]; change (p ∈ low_priority_queue (dequeue (current_pid s) s)) in Hl; rewrite En in Hl; set_solver|].
  rewrite E1 in E2. injection E2 as <- <-.
  assert (Hcur : current_pid s1 <> current_pid s).
  { pose proof (switched_current _ _ _ _ (dequeue_core (current_pid s) _ Hc) Hsw) as Hl. rewrite (switched_low _ _ _ _ Hsw) in Hl. by apply dequeue_low in Hl as [_ Hl]. }
  rewrite (proj2 (Z.eqb_neq _ _) Hcur) in E. cbn [negb] in E. apply bind_Ok in E as (s3 & E3 & [= <- <-]).
  revert Hp. change (spared s (scheduler_emit_event (Event PROCESS_EVENT_EXITED (current_pid s)) s3)).
  etrans; [exact H0|]. etrans; [exact H1|]. etrans; [|apply emit_spared; by intros [_ Hp]]. by apply (update_spared (current_pid s) (set_status PROCESS_STATUS_TERMINATED)).
Qed.

(** [exec] of another. *)
Lemma exec_spared c function argc argv s r c' s' :
  current_pid s <> p -> scheduler_exec c function argc argv s = Ok (r, c', s') -> spared s s'.
Proof.
  intros Hne. unfold scheduler_exec. intros E. apply bind_Ok in E as (s1 & E1 & E). apply bind_Ok in E as (s2 & E2 & [= _ <- <-]).
  destruct (save_proc _ _ _ p E1) as [Es _].
  etrans; [eapply (update_spared (current_pid s)); [|exact Hne|exact E1]; done|].
  eapply (update_spared (current_pid s1) (set_status PROCESS_STATUS_RUNNING)); [done|by rewrite Es|exact E2].
Qed.

(** [fork] of another, when the child's stack is above the heap. *)
Lemma fork_spared c stack_pointer fp s r s' :
  core s -> 0 <= top -> stack_apart top c stack_pointer fp s -> scheduler_fork c stack_pointer fp s = Ok (r, s') -> spared s s'.
Proof.
  intros Hc Htop Hs E. destruct (proj2 (proc_known (current_pid s) s) (core_current s Hc)) as [parent Hp].
  pose proof (core_range s Hc _ (core_current s Hc)). rewrite (fork_eq c stack_pointer fp s parent) in E by (lia || done). injection E as _ <-.
  etrans; [|apply emit_spared; by intros []]. etrans; [|apply set_priority_spared]. intros [Hl (item & Hi & Hr)]. cbn [fst snd] in *.
  unfold ready. cbn [fst snd current_pid low_priority_queue console memory]. rewrite (forked_proc item) by done.
  split; [split; [done|by eexists]|]. split; [done|]. split; [by apply forked_above|done].
Qed.
End Bystander.
