(* ===== verification/Stream.v ===== *)
(** * Character streams

    [stdstream.c]: the queue between the UART interrupt, which pushes, and
    [sys_read] on standard input, which pops. The queue is the list that
    [Tailq] shows the pointer code to implement. *)
From S2P Require Import Prelude.

(** [(char)-1], an unsigned [char] on this machine. *)
Definition EOF : Z := u8 (-1).

Definition stdstream_initialise_buffer : list Z := [].

Definition stdstream_push_char (stream : list Z) (c : Z) : list Z := stream ++ [c].

Definition stdstream_pop_char (stream : list Z) : Z * list Z :=
  match stream with
  | [] => (EOF, stream)
  | chr :: stream => (chr, stream)
  end.

(** What happens to a stream, one event after another; the characters popped
    are logged. *)
Inductive stream_op := Push (c : Z) | Pop.

Fixpoint stream_run (ops : list stream_op) (stream : list Z) : list Z * list Z :=
  match ops with
  | [] => ([], stream)
  | Push c :: ops => stream_run ops (stdstream_push_char stream c)
  | Pop :: ops =>
      let '(c, stream) := stdstream_pop_char stream in
      let '(log, stream) := stream_run ops stream in (c :: log, stream)
  end.

Definition pushed (ops : list stream_op) : list Z :=
  omap (fun op => match op with Push c => Some c | Pop => None end) ops.

(** However pushes and pops interleave, the characters popped,
    less the [EOF]s an empty stream gives, followed by those still in the stream
    are the characters pushed, in order: none is lost, repeated or overtaken. *)
Lemma stream_fifo ops stream log stream' :
  EOF ∉ stream -> EOF ∉ pushed ops -> stream_run ops stream = (log, stream') ->
  filter (fun c => c <> EOF) log ++ stream' = stream ++ pushed ops.
Proof.
  revert stream log; induction ops as [|[c|] ops IH]; intros stream log Hs Hops; csimpl.
  - intros [= <- <-]. by rewrite app_nil_r.
  - intros E. change (pushed (Push c :: ops)) with (c :: pushed ops) in *.
    assert (EOF ∉ stdstream_push_char stream c) as Hs' by (unfold stdstream_push_char; set_solver).
    rewrite (IH _ _ Hs' ltac:(set_solver) E). unfold stdstream_push_char. by rewrite <- app_assoc.
  - destruct stream as [|c stream]; simpl; destruct (stream_run ops _) as [log1 s1] eqn:E; intros [= <- <-];
      rewrite filter_cons.
    + rewrite decide_False by tauto. by apply (IH []).
    + rewrite decide_True by set_solver. simpl. f_equal. apply IH; [set_solver|done|done].
Qed.

Lemma stream_fifo_witness :
  exists log s, stream_run [Pop; Push 104; Push 105; Pop; Push 10] [] = (log, s) /\
    filter (fun c => c <> EOF) log ++ s = [104; 105; 10].
Proof.
  eexists _, _. split; [reflexivity|].
  apply (stream_fifo [Pop; Push 104; Push 105; Pop; Push 10] []); [set_solver| |reflexivity].
  unfold pushed, EOF; simpl. rewrite !not_elem_of_cons. split_and!; try lia; set_solver.
Defined.
