(* ===== verification/Ipc.v ===== *)
(** * Messages between processes

    [ipc.c]: one queue of messages in the kernel, sent to and received from by
    pid. The queue is the list that [Tailq] shows the pointer code to
    implement; the content of a message is the block of bytes allocated for it. *)
From S2P Require Import Prelude Mem Strings.

Record tailq_message_t := Message {
  content : list Z;
  nbytes : Z;
  from : Z;
  to : Z
}.

Definition ipc_initialise : list tailq_message_t := [].

(** The function falls off its end: it has no return value. *)
Definition ipc_send_message (buf : list Z) (n f t : Z) (messages : list tailq_message_t)
  : outcome (list tailq_message_t) :=
  let block := replicate (Z.to_nat n) 0 in
  content ← stdmem_copy block 0 buf 0 n;
  Ok (messages ++ [Message content n f t]).

Fixpoint ipc_receive_message_from (buf : list Z) (n f t : Z) (messages : list tailq_message_t)
  : outcome (Z * list Z * list tailq_message_t) :=
  match messages with
  | [] => Ok (-1, buf, [])
  | message :: messages =>
      if (from message =? f) && (to message =? t) then
        buf ← stdmem_copy buf 0 (content message) 0 n;
        Ok (0, buf, messages)
      else
        '(r, buf, messages) ← ipc_receive_message_from buf n f t messages;
        Ok (r, buf, message :: messages)
  end.

Fixpoint ipc_receive_any_message (buf : list Z) (n t : Z) (messages : list tailq_message_t)
  : outcome (Z * list Z * list tailq_message_t) :=
  match messages with
  | [] => Ok (-1, buf, [])
  | message :: messages =>
      if to message =? t then
        buf ← stdmem_copy buf 0 (content message) 0 n;
        Ok (0, buf, messages)
      else
        '(r, buf, messages) ← ipc_receive_any_message buf n t messages;
        Ok (r, buf, message :: messages)
  end.

(** [debug_message_list], into its static buffer of 200 bytes. *)
Fixpoint debug_message_loop (result : list Z) (result_index : Z) (tmp : list Z) (messages : list tailq_message_t)
  : outcome (list Z) :=
  match messages with
  | [] => Ok result
  | message :: messages =>
      tmp ← stdstring_int_to_str (from message) tmp;
      '(result, result_index) ← stdstring_append result result_index (cstr (bytes_of "{") []);
      '(result, result_index) ← stdstring_append result result_index tmp;
      '(result, result_index) ← stdstring_append result result_index (cstr (bytes_of "->") []);
      tmp ← stdstring_int_to_str (to message) tmp;
      '(result, result_index) ← stdstring_append result result_index tmp;
      '(result, result_index) ← stdstring_append result result_index (cstr (bytes_of ", ") []);
      '(result, result_index) ← stdstring_append result result_index (content message);
      '(result, result_index) ← stdstring_append result result_index (cstr (bytes_of "} ") []);
      debug_message_loop result result_index tmp messages
  end.

Definition debug_message_list (messages : list tailq_message_t) : outcome (list Z) :=
  '(result, result_index) ← stdstring_append (replicate 200 0) 0 (cstr (bytes_of "Messages: ") []);
  debug_message_loop result result_index (replicate 15 0) messages.

(** ** Specification: a mailbox for every process

    A letter is its sender and its bytes. *)
Abbreviation letter := (Z * list Z)%type.
Definition mailbox (t : Z) (messages : list tailq_message_t) : list letter :=
  (fun m => (from m, content m)) <$> filter (fun m => to m = t) messages.

Definition put_box (t : Z) (l : list letter) (boxes : Z -> list letter) : Z -> list letter :=
  fun t' => if decide (t' = t) then l else boxes t'.

(** The oldest letter that is wanted, and the others. *)
Fixpoint oldest (wanted : letter -> bool) (l : list letter) : option (letter * list letter) :=
  match l with
  | [] => None
  | x :: l => if wanted x then Some (x, l) else '(y, l) ← oldest wanted l; Some (y, x :: l)
  end.

(** [buf] with the first [n] bytes of [m] over its own. *)
Definition overwrite (n : Z) (m buf : list Z) : list Z := splice buf 0 (slice m 0 n).

(** A process [t] asks for [n] bytes: the result, its buffer and the letter it
    took, if any; no result when the letter has fewer bytes. *)
Definition collect (wanted : letter -> bool) (buf : list Z) (n t : Z) (boxes : Z -> list letter)
  : option (Z * list Z * option (Z * letter) * (Z -> list letter)) :=
  match oldest wanted (boxes t) with
  | None => Some (-1, buf, None, boxes)
  | Some (x, l) => if n <=? zlength x.2 then Some (0, overwrite n x.2 buf, Some (t, x), put_box t l boxes) else None
  end.

Definition from_sender (f : Z) (x : letter) : bool := x.1 =? f.
Definition from_anyone (x : letter) : bool := true.

(** ** Sequences of calls

    Each with its buffer and its size. *)
Inductive ipc_op :=
| Send (buf : list Z) (n f t : Z)
| Receive (buf : list Z) (n f t : Z)
| ReceiveAny (buf : list Z) (n t : Z).

(** The results and buffers of the calls that receive, one after another. *)
Fixpoint ipc_run (ops : list ipc_op) (messages : list tailq_message_t) : outcome (list (Z * list Z) * list tailq_message_t) :=
  match ops with
  | [] => Ok ([], messages)
  | Send buf n f t :: ops =>
      messages ← ipc_send_message buf n f t messages;
      ipc_run ops messages
  | Receive buf n f t :: ops =>
      '(r, buf, messages) ← ipc_receive_message_from buf n f t messages;
      '(log, messages) ← ipc_run ops messages;
      Ok ((r, buf) :: log, messages)
  | ReceiveAny buf n t :: ops =>
      '(r, buf, messages) ← ipc_receive_any_message buf n t messages;
      '(log, messages) ← ipc_run ops messages;
      Ok ((r, buf) :: log, messages)
  end.

(** The same on mailboxes, with the letters that were taken. *)
Fixpoint mail_run (ops : list ipc_op) (boxes : Z -> list letter)
  : option (list (Z * list Z * option (Z * letter)) * (Z -> list letter)) :=
  match ops with
  | [] => Some ([], boxes)
  | Send buf n f t :: ops => mail_run ops (put_box t (boxes t ++ [(f, slice buf 0 n)]) boxes)
  | Receive buf n f t :: ops =>
      '(entry, boxes) ← collect (from_sender f) buf n t boxes;
      '(log, boxes) ← mail_run ops boxes;
      Some (entry :: log, boxes)
  | ReceiveAny buf n t :: ops =>
      '(entry, boxes) ← collect from_anyone buf n t boxes;
      '(log, boxes) ← mail_run ops boxes;
      Some (entry :: log, boxes)
  end.

(** Buffers hold what the call says. *)
Definition fits (op : ipc_op) : Prop :=
  match op with Send buf n _ _ | Receive buf n _ _ | ReceiveAny buf n _ => 0 <= n <= zlength buf end.

(** What was sent from [f] to [t], what [t] took of it, and what it has not. *)
Definition sent (f t : Z) (ops : list ipc_op) : list (list Z) :=
  omap (fun op => match op with Send buf n f' t' => if decide (f' = f /\ t' = t) then Some (slice buf 0 n) else None | _ => None end) ops.
Definition taken (f t : Z) (log : list (Z * list Z * option (Z * letter))) : list (list Z) :=
  omap (fun entry => match entry.2 with Some (t', x) => if decide (x.1 = f /\ t' = t) then Some x.2 else None | None => None end) log.
Definition waiting_from (f : Z) (l : list letter) : list (list Z) := snd <$> filter (fun x => x.1 = f) l.

Lemma send_spec buf n f t messages :
  0 <= n <= zlength buf ->
  ipc_send_message buf n f t messages = Ok (messages ++ [Message (slice buf 0 n) n f t]).
Proof.
  intros Hn. unfold ipc_send_message. rewrite stdmem_copy_spec by (rewrite ?length_replicate; lia). simpl.
  do 5 f_equal. unfold splice. rewrite drop_ge by (rewrite length_replicate, slice_length; lia). simpl. apply app_nil_r.
Qed.

Lemma send_mailbox m t messages :
  mailbox t (messages ++ [m]) = mailbox t messages ++ (if decide (t = to m) then [(from m, content m)] else []).
Proof. unfold mailbox. rewrite filter_app, fmap_app, filter_cons, filter_nil. repeat case_decide; congruence || done. Qed.

Lemma mailbox_cons m t messages :
  mailbox t (m :: messages) = if decide (to m = t) then (from m, content m) :: mailbox t messages else mailbox t messages.
Proof. unfold mailbox. rewrite filter_cons. by case_decide. Qed.

(** What a receive does to the mailboxes. *)
Definition receives (wanted : letter -> bool) (buf : list Z) (n t : Z) (messages : list tailq_message_t)
    (result : outcome (Z * list Z * list tailq_message_t)) : Prop :=
  match collect wanted buf n t (fun t => mailbox t messages) with
  | Some (r, buf, x, boxes) => exists messages', result = Ok (r, buf, messages') /\ forall t', mailbox t' messages' = boxes t'
  | None => result = Err OutOfBounds
  end.

(** The head of the queue: it is what the process wants, or it is passed over. *)
Lemma receives_head wanted buf n t m messages result :
  0 <= n <= zlength buf -> to m = t -> wanted (from m, content m) = true ->
  result = (buf ← stdmem_copy buf 0 (content m) 0 n; Ok (0, buf, messages)) ->
  receives wanted buf n t (m :: messages) result.
Proof.
  intros Hn Ht Hw ->. unfold receives, collect. rewrite mailbox_cons, decide_True by done. cbn [oldest]. rewrite Hw. cbn [snd].
  destruct (Z.leb_spec n (zlength (content m))); [|by rewrite stdmem_copy_overread by lia].
  rewrite stdmem_copy_spec by lia. exists messages. split; [done|]. intros t'. unfold put_box. case_decide as Hd; [by subst|].
  rewrite mailbox_cons. by rewrite decide_False by congruence.
Qed.

Lemma receives_later wanted buf n t m messages result :
  to m <> t \/ wanted (from m, content m) = false -> receives wanted buf n t messages result ->
  receives wanted buf n t (m :: messages) ('(r, buf, messages) ← result; Ok (r, buf, m :: messages)).
Proof.
  intros Hm. unfold receives, collect. rewrite mailbox_cons.
  assert (oldest wanted (if decide (to m = t) then (from m, content m) :: mailbox t messages else mailbox t messages) =
    '(y, l) ← oldest wanted (mailbox t messages); Some (y, if decide (to m = t) then (from m, content m) :: l else l)) as ->.
  { case_decide; [destruct Hm as [|Hm]; [done|]; cbn [oldest]; by rewrite Hm|by destruct (oldest _ _) as [[]|]]. }
  destruct (oldest wanted (mailbox t messages)) as [[x l]|]; cbn [mbind option_bind].
  - destruct (n <=? zlength x.2); [|by intros ->]. intros (messages' & -> & Hb). exists (m :: messages'). split; [done|].
    intros t'. rewrite !mailbox_cons, Hb. unfold put_box. destruct (decide (t' = t)) as [->|]; [done|]. by rewrite mailbox_cons.
  - intros (messages' & -> & Hb). exists (m :: messages'). split; [done|]. intros t'. by rewrite !mailbox_cons, Hb.
Qed.

Lemma receive_from_spec buf n f t messages :
  0 <= n <= zlength buf -> receives (from_sender f) buf n t messages (ipc_receive_message_from buf n f t messages).
Proof.
  intros Hn. induction messages as [|m messages IH]; [by exists []|]. cbn [ipc_receive_message_from].
  destruct ((from m =? f) && (to m =? t)) eqn:E; [apply andb_true_iff in E as [Ef Et%Z.eqb_eq]|].
  - by apply receives_head.
  - apply receives_later; [|exact IH]. apply andb_false_iff in E as [E|E%Z.eqb_neq]; [by right|by left].
Qed.

Lemma receive_any_spec buf n t messages :
  0 <= n <= zlength buf -> receives from_anyone buf n t messages (ipc_receive_any_message buf n t messages).
Proof.
  intros Hn. induction messages as [|m messages IH]; [by exists []|]. cbn [ipc_receive_any_message].
  destruct (Z.eqb_spec (to m) t); [by apply receives_head|]. apply receives_later; [by left|exact IH].
Qed.

(** Order within a channel. *)
Lemma put_waiting f t t' l boxes : waiting_from f (put_box t l boxes t') = if decide (t' = t) then waiting_from f l else waiting_from f (boxes t').
Proof. unfold put_box. by case_decide. Qed.

Lemma oldest_waiting wanted l x rest f :
  (forall y, wanted y = wanted (y.1, [])) -> oldest wanted l = Some (x, rest) ->
  waiting_from f l = (if decide (x.1 = f) then [x.2] else []) ++ waiting_from f rest.
Proof.
  intros Hw. revert x rest. induction l as [|y l IH]; intros x rest E; [done|]. cbn [oldest] in E. unfold waiting_from in *.
  destruct (wanted y) eqn:Ey.
  - injection E as <- <-. rewrite filter_cons. by case_decide.
  - apply bind_Some in E as ([z l'] & E & [= <- <-]). specialize (IH _ _ E). rewrite !filter_cons. destruct (decide (y.1 = f)) as [Hf|Hf]; [|exact IH].
    assert (z.1 <> f) as Hz.
    { intros Hz. assert (wanted z = true) as Ez; [|by rewrite Hw, Hz, <- Hf, <- Hw, Ey in Ez].
      clear -E. revert z l' E. induction l as [|u l IH]; intros z l' E; [done|]. cbn [oldest] in E. destruct (wanted u) eqn:Eu; [by injection E as <- _|].
      apply bind_Some in E as ([z' l''] & E & [= <- <-]). by eapply IH. }
    rewrite decide_False in IH |- * by done. cbn. cbn in IH. by rewrite IH.
Qed.

Lemma taken_cons f t entry log : taken f t (entry :: log) = taken f t [entry] ++ taken f t log.
Proof. unfold taken; csimpl. destruct entry as [result [[t1 x]|]]; cbn; [|done]. by case_decide. Qed.

Lemma mail_run_order ops boxes log boxes' f t :
  mail_run ops boxes = Some (log, boxes') ->
  taken f t log ++ waiting_from f (boxes' t) = waiting_from f (boxes t) ++ sent f t ops.
Proof.
  assert (Hc : forall wanted buf n t1 boxes entry boxes1, (forall y, wanted y = wanted (y.1, [])) -> collect wanted buf n t1 boxes = Some (entry, boxes1) ->
    waiting_from f (boxes t) = taken f t [entry] ++ waiting_from f (boxes1 t)).
  { intros wanted buf n t1 b entry b1 Hw. unfold collect. destruct (oldest wanted (b t1)) as [[x l]|] eqn:Eo; [|by intros [= <- <-]].
    destruct (n <=? _); [|done]. intros [= <- <-]. rewrite put_waiting. unfold taken; cbn. destruct (decide (t = t1)) as [<-|Ht].
    - rewrite (oldest_waiting _ _ _ _ f Hw Eo). destruct (decide (x.1 = f)); [rewrite decide_True by done|rewrite decide_False by naive_solver]; done.
    - by rewrite decide_False by naive_solver. }
  revert boxes log. induction ops as [|[buf n f1 t1|buf n f1 t1|buf n t1] ops IH]; intros boxes log E; cbn [mail_run] in E.
  - injection E as <- <-. by rewrite app_nil_r.
  - rewrite (IH _ _ E), put_waiting. unfold sent; csimpl. destruct (decide (t = t1)) as [<-|Ht]; [|by rewrite decide_False by naive_solver].
    unfold waiting_from. rewrite filter_app, fmap_app, filter_cons, filter_nil, <- app_assoc. cbn [fst]. f_equal.
    case_decide as Hf; [by rewrite decide_True|by rewrite decide_False by naive_solver].
  - apply bind_Some in E as ([entry b1] & E1 & E). apply bind_Some in E as ([log1 b2] & E2 & [= <- <-]).
    rewrite (Hc (from_sender f1) buf n t1 boxes entry b1), <- app_assoc by done. change (sent f t (_ :: ops)) with (sent f t ops). by rewrite <- (IH _ _ E2), app_assoc, <- taken_cons.
  - apply bind_Some in E as ([entry b1] & E1 & E). apply bind_Some in E as ([log1 b2] & E2 & [= <- <-]).
    rewrite (Hc from_anyone buf n t1 boxes entry b1), <- app_assoc by done. change (sent f t (_ :: ops)) with (sent f t ops). by rewrite <- (IH _ _ E2), app_assoc, <- taken_cons.
Qed.

Lemma collect_ext wanted buf n t boxes boxes1 :
  (forall t, boxes t = boxes1 t) ->
  match collect wanted buf n t boxes, collect wanted buf n t boxes1 with
  | Some (e, b), Some (e1, b1) => e = e1 /\ forall t, b t = b1 t
  | None, None => True
  | _, _ => False
  end.
Proof.
  intros Hb. unfold collect. rewrite <- Hb. destruct (oldest wanted (boxes t)) as [[x l]|]; [|done]. destruct (n <=? _); [|done].
  split; [done|]. intros t'. unfold put_box. by rewrite Hb.
Qed.

(** The queue of the kernel does what the mailboxes do. *)
Lemma ipc_run_boxes ops messages boxes :
  Forall fits ops -> (forall t, boxes t = mailbox t messages) ->
  match mail_run ops boxes with
  | Some (log, boxes') => exists messages', ipc_run ops messages = Ok (log.*1, messages') /\ forall t, mailbox t messages' = boxes' t
  | None => ipc_run ops messages = Err OutOfBounds
  end.
Proof.
  intros Hops. revert messages boxes. induction Hops as [|op ops Hop _ IH]; intros messages boxes Hb; [by exists messages|].
  assert (Hr : forall wanted buf n t result, receives wanted buf n t messages result ->
    match '(entry, boxes) ← collect wanted buf n t boxes; '(log, boxes) ← mail_run ops boxes; Some (entry :: log, boxes) with
    | Some (log, boxes') => exists messages',
        ('(r, buf, messages) ← result; '(log, messages) ← ipc_run ops messages; Ok ((r, buf) :: log, messages)) = Ok (log.*1, messages') /\
        forall t, mailbox t messages' = boxes' t
    | None => ('(r, buf, messages) ← result; '(log, messages) ← ipc_run ops messages; Ok ((r, buf) :: log, messages)) = Err OutOfBounds
    end).
  { intros wanted buf n t result. unfold receives. pose proof (collect_ext wanted buf n t boxes (fun t => mailbox t messages) Hb) as Hext.
    destruct (collect wanted buf n t boxes) as [[e b]|], (collect wanted buf n t (fun t => mailbox t messages)) as [[[[r buf1] x] b1]|]; try done; [|by intros ->].
    destruct Hext as [-> Hb1]. intros (messages1 & -> & Hm). ok_bind. cbn [mbind option_bind].
    specialize (IH messages1 b ltac:(intros t'; by rewrite Hb1, Hm)). destruct (mail_run ops b) as [[log b2]|]; cbn [mbind option_bind]; [|by rewrite IH].
    destruct IH as (messages' & -> & Hm'). by exists messages'. }
  destruct op as [buf n f t|buf n f t|buf n t]; cbn [fits ipc_run mail_run] in *.
  - rewrite send_spec by done. ok_bind. apply IH. intros t'. rewrite send_mailbox. cbn [from to content]. unfold put_box.
    case_decide as Ht; [by rewrite Ht, Hb|by rewrite app_nil_r, Hb].
  - by apply Hr, receive_from_spec.
  - by apply Hr, receive_any_spec.
Qed.

(** C30 (refinement): messages keep their order and their content. For any
    sequence of calls, each with its own buffer and size and the buffer as long
    as the size says: the kernel's one queue does what a mailbox for every
    process would, where a message waits with the bytes sent; a receive, from a
    sender or from anybody, takes the oldest of the process's own letters that
    it asks for and puts the first bytes of it, as many as it asks for, over its
    buffer, or returns -1 and leaves the buffer alone when there is none; and
    the calls read past the end of a message exactly when a receive asks for
    more bytes than its letter has. On each channel, what was taken, followed by
    what waits, is what waited, followed by what was sent, in order. *)
Theorem ipc_fifo ops messages :
  Forall fits ops ->
  match mail_run ops (fun t => mailbox t messages) with
  | Some (log, boxes) => exists messages', ipc_run ops messages = Ok (log.*1, messages') /\ (forall t, mailbox t messages' = boxes t) /\
      forall f t, taken f t log ++ waiting_from f (mailbox t messages') = waiting_from f (mailbox t messages) ++ sent f t ops
  | None => ipc_run ops messages = Err OutOfBounds
  end.
Proof.
  intros Hops. pose proof (ipc_run_boxes ops messages (fun t => mailbox t messages) Hops (fun t => eq_refl)) as Hrun.
  destruct (mail_run ops _) as [[log boxes]|] eqn:E; [|done]. destruct Hrun as (messages' & Er & Hb). exists messages'. split; [done|]. split; [done|].
  intros f t. rewrite Hb. exact (mail_run_order _ _ _ _ f t E).
Qed.

(** A receiver that asks for more bytes than the message has reads
    past the end of the message: the size kept with it is not looked at. *)
Lemma receive_overreads buf n t messages f m rest :
  0 <= n <= zlength buf -> mailbox t messages = (f, m) :: rest -> zlength m < n ->
  ipc_receive_any_message buf n t messages = Err OutOfBounds.
Proof.
  intros Hn Hb Hm. pose proof (receive_any_spec buf n t messages Hn) as Hr. unfold receives, collect in Hr. rewrite Hb in Hr. cbn in Hr.
  by rewrite (proj2 (Z.leb_gt _ _)) in Hr.
Qed.

(** ** The theorems at work

    Two processes send to a third, which takes the first bytes of the oldest
    letter, then the letter of the other, and finds no more. *)
Definition demo_ops : list ipc_op :=
  [Send [72; 73; 74] 3 1 2; Send [33; 34] 2 3 2; Send [35] 1 1 3; ReceiveAny [0; 0; 0; 0] 2 2; Receive [9; 9] 2 3 2; ReceiveAny [7] 1 2].

Lemma ipc_fifo_witness :
  exists messages', ipc_run demo_ops [] = Ok ([(0, [72; 73; 0; 0]); (0, [33; 34]); (-1, [7])], messages') /\ mailbox 3 messages' = [(1, [35])].
Proof.
  assert (H : Forall fits demo_ops) by (repeat (constructor; [cbn; lia|]); constructor).
  pose proof (ipc_fifo demo_ops [] H) as (messages' & E & Hb & _). exists messages'. split; [exact E|exact (Hb 3)].
Defined.

Lemma receive_overreads_witness :
  ipc_receive_any_message [0; 0; 0] 3 2 [Message [72; 73] 2 1 2] = Err OutOfBounds.
Proof. apply (receive_overreads [0; 0; 0] 3 2 [Message [72; 73] 2 1 2] 1 [72; 73] []); [cbn; lia|reflexivity|done]. Defined.
