(* ===== verification/Uart.v ===== *)
(** * The PL011 UART

    [PL011.c] over the registers it uses: writing [DR] transmits, reading it
    receives, and bit [0x10] of [FR] says that nothing has been received. What
    is at the other end of the line is an instance of the class. *)
From S2P Require Import Prelude.

Class PL011 (U : Type) := {
  DR_write : Z -> U -> U;
  DR_read : U -> Z * U;
  FR_rx_empty : U -> bool
}.

(** ** Hexadecimal digits *)
Definition xtoi (x : Z) : Z :=
  if (48 <=? x) && (x <=? 57) then 0 + (x - 48)
  else if (97 <=? x) && (x <=? 102) then 10 + (x - 97)
  else if (65 <=? x) && (x <=? 70) then 10 + (x - 65)
  else -1.

Definition itox (x : Z) : Z :=
  if (0 <=? x) && (x <=? 9) then 48 + (x - 0)
  else if (10 <=? x) && (x <=? 15) then 65 + (x - 10)
  else u8 (-1).

Section Transfers.
Context `{PL011 U}.

(** The transmit queue always drains. *)
Definition PL011_putc (x : Z) (d : U) : U := DR_write x d.

(** A turn of the loop of [PL011_puts]. *)
Definition puts_turn (str : list Z) (len : Z) (st : Z * U) : outcome (Z * U + U) :=
  let '(i, d) := st in
  if i <? len then
    c ← buf_get str i;
    Ok (if negb (c =? 0) then inl (i + 1, DR_write c d) else inr d)
  else Ok (inr d).

Definition PL011_puts (str : list Z) (len : Z) (d : U) : outcome U :=
  while_loop (S (Z.to_nat len)) (puts_turn str len) (0, d).

Definition PL011_puti (num : Z) (d : U) : U :=
  foldl (fun d i => DR_write (itox (Z.land (Z.shiftr num (4 * i)) 15)) d) d [7; 6; 5; 4; 3; 2; 1; 0].

(** A wait for a character that does not come is for ever. *)
Definition PL011_getc (d : U) : outcome (Z * U) :=
  if FR_rx_empty d then Err Blocked else Ok (DR_read d).

Definition PL011_gets (buf : list Z) (nbytes : Z) (d : U) : outcome (Z * list Z * U) :=
  '(c, d) ← PL011_getc d;
  buf ← buf_set buf 0 c;
  while_loop (S (Z.to_nat nbytes)) (fun '(done, buf, d) =>
    if done <? nbytes then
      if FR_rx_empty d then Ok (inr (done, buf, d))
      else
        let '(c, d) := DR_read d in
        buf ← buf_set buf done c;
        Ok (inl (done + 1, buf, d))
    else Ok (inr (done, buf, d))) (1, buf, d).

Definition PL011_puth (x : Z) (d : U) : U :=
  let d := PL011_putc (itox (Z.land (Z.shiftr x 4) 15)) d in
  PL011_putc (itox (Z.land (Z.shiftr x 0) 15)) d.

Definition PL011_geth (d : U) : outcome (Z * U) :=
  '(c, d) ← PL011_getc d;
  let x := u8 (Z.shiftl (xtoi c) 4) in
  '(c, d) ← PL011_getc d;
  let x := u8 (Z.lor x (Z.shiftl (xtoi c) 0)) in
  Ok (x, d).

Definition PL011_clear (d : U) : U := DR_write 0 d.
End Transfers.

(** ** A terminal: what was sent to it, and what was typed *)
Record terminal := Terminal { screen : list Z; typed : list Z }.

#[export] Instance terminal_uart : PL011 terminal := {|
  DR_write c t := Terminal (screen t ++ [c]) (typed t);
  DR_read t := (default 0 (head (typed t)), Terminal (screen t) (tail (typed t)));
  FR_rx_empty t := match typed t with [] => true | _ => false end
|}.

(** ** Facts *)

(** The two digits of a byte, as [PL011_puth] sends them. *)
Definition hex (x : Z) : list Z := [itox (x / 16); itox (x mod 16)].

Lemma nibbles x : is_byte x ->
  Z.land (Z.shiftr x 4) 15 = x / 16 /\ Z.land (Z.shiftr x 0) 15 = x mod 16 /\ 0 <= x / 16 < 16 /\ 0 <= x mod 16 < 16.
Proof.
  intros [H1 H2]. rewrite Z.shiftr_div_pow2, Z.shiftr_0_r by lia. change 15 with (Z.ones 4).
  rewrite !Z.land_ones by lia. change (2 ^ 4) with 16.
  assert (0 <= x / 16 < 16) by (split; [apply Z.div_pos|apply Z.div_lt_upper_bound]; lia).
  pose proof (Z.mod_pos_bound x 16). rewrite Z.mod_small; lia.
Qed.

(** All sixteen digits, upper case as this end sends them and lower case as
    Python's [hexlify] does. *)
Lemma digit_ind (P : Z -> Prop) :
  Forall P [0; 1; 2; 3; 4; 5; 6; 7; 8; 9; 10; 11; 12; 13; 14; 15] -> forall x, 0 <= x < 16 -> P x.
Proof.
  rewrite Forall_forall. intros HP x Hx. apply HP.
  assert (x = 0 \/ x = 1 \/ x = 2 \/ x = 3 \/ x = 4 \/ x = 5 \/ x = 6 \/ x = 7 \/ x = 8 \/ x = 9 \/ x = 10 \/ x = 11 \/
          x = 12 \/ x = 13 \/ x = 14 \/ x = 15) by lia.
  repeat (destruct H as [->|H]; [set_solver|]). subst. set_solver.
Qed.

Lemma xtoi_itox x : 0 <= x < 16 -> xtoi (itox x) = x.
Proof. revert x. apply digit_ind. by repeat constructor. Qed.

(** What [PL011_geth] makes of two digits. *)
Lemma assemble_byte a b : 0 <= a < 16 -> 0 <= b < 16 -> u8 (Z.lor (u8 (Z.shiftl a 4)) (Z.shiftl b 0)) = a * 16 + b.
Proof.
  intros Ha Hb. revert b Hb. revert a Ha.
  apply (digit_ind (fun a => forall b, 0 <= b < 16 -> _)).
  repeat constructor; apply digit_ind; by repeat constructor.
Qed.

Lemma puts_turn_eq str len i (tm : terminal) :
  puts_turn str len (i, tm) =
    if i <? len then c ← buf_get str i; Ok (if negb (c =? 0) then inl (i + 1, DR_write c tm) else inr tm)
    else Ok (inr tm).
Proof. done. Qed.

Lemma puts_loop str t pre rest tm len fuel :
  str = pre ++ rest -> Forall (fun c => c <> 0) rest -> zlength str <= len -> (length rest < fuel)%nat ->
  while_loop fuel (puts_turn (str ++ 0 :: t) len) (zlength pre, Terminal (screen tm ++ pre) (typed tm)) =
    Ok (Terminal (screen tm ++ str) (typed tm)).
Proof.
  intros Hs Hnz Hlen. revert pre fuel Hs. induction rest as [|c rest IH]; intros pre fuel Hs Hf;
    (destruct fuel as [|fuel]; [simpl in Hf; lia|]); rewrite while_loop_S, puts_turn_eq.
  - rewrite app_nil_r in Hs. subst pre. destruct (Z.ltb_spec (zlength str) len); [|done].
    by rewrite (buf_get_lookup _ _ 0) by (try lia; rewrite lookup_app_r by lia; by replace (_ - _)%nat with 0%nat by lia).
  - inversion_clear Hnz as [|? ? Hc Hrest].
    assert (zlength pre < len) by (rewrite Hs, length_app in Hlen; simpl in Hlen; lia).
    destruct (Z.ltb_spec (zlength pre) len); [|lia]. rewrite (buf_get_lookup _ _ c).
    2: lia.
    2: { rewrite Hs, <- app_assoc, lookup_app_r by lia. by replace (_ - _)%nat with 0%nat by lia. }
    ok_bind. destruct (Z.eqb_spec c 0); [done|]. cbn [negb].
    specialize (IH Hrest (pre ++ [c]) fuel ltac:(by rewrite Hs, <- app_assoc) ltac:(simpl in Hf; lia)).
    rewrite length_app in IH; simpl in IH. replace (zlength pre + 1) with (Z.of_nat (length pre + 1)) by lia.
    rewrite app_assoc in IH. exact IH.
Qed.

(** [PL011_puts] sends a string that fits its length up to its terminator. *)
Lemma puts_terminal str t tm len :
  Forall (fun c => c <> 0) str -> zlength str <= len ->
  PL011_puts (str ++ 0 :: t) len tm = Ok (Terminal (screen tm ++ str) (typed tm)).
Proof.
  intros Hnz Hlen. unfold PL011_puts. pose proof (puts_loop str t [] str tm len (S (Z.to_nat len)) eq_refl Hnz Hlen) as E.
  rewrite app_nil_r in E. destruct tm. apply E. lia.
Qed.
