(* ===== verification/Devices.v ===== *)
(** * The registers of the board

    The structs of PL011.h, SP804.h and GIC.h, the instances PL011.c, SP804.c
    and GIC.c place in the memory map, and accesses to their registers. What
    the hardware does with an access is an instance of a class; its documented
    behaviour, as far as the kernel relies on it, is a second one. *)
From S2P Require Import Prelude Uart.

(** ** Layout

    Registers are words, alone, in arrays or in a union of two names;
    [RSVD(x, y, z)] is an array of bytes. *)
Inductive member :=
| Word (name : string)
| Words (name : string) (n : Z)
| Union (names : list string)
| RSVD (y z : Z).

Definition align (n a : Z) : Z := (n + a - 1) / a * a.
Definition start_of (m : member) (at_ : Z) : Z := match m with RSVD _ _ => at_ | _ => align at_ 4 end.
Definition size_of (m : member) : Z :=
  match m with Word _ | Union _ => 4 | Words _ n => 4 * n | RSVD y z => z - y + 1 end.
Definition has_name (x : string) (m : member) : bool :=
  match m with
  | Word y | Words y _ => bool_decide (x = y)
  | Union ys => bool_decide (x ∈ ys)
  | RSVD _ _ => false
  end.

(** Members follow one another, each at the next multiple of its alignment. *)
Fixpoint offset_from (at_ : Z) (x : string) (s : list member) : option Z :=
  match s with
  | [] => None
  | m :: s => if has_name x m then Some (start_of m at_) else offset_from (start_of m at_ + size_of m) x s
  end.
Definition offset_of (s : list member) (x : string) : Z := default 0 (offset_from 0 x s).

Definition GICC_t : list member := [Word "CTLR"; Word "PMR"; Word "BPR"; Word "IAR"; Word "EOIR"; Word "RPR"; Word "HPPIR"].

Definition GICD_t : list member :=
  [Word "CTLR"; Word "TYPER"; RSVD 8 252; Words "ISENABLER" 3; RSVD 268 380; Words "ICENABLER" 3; RSVD 396 508;
   Words "ISPENDR" 3; RSVD 524 636; Words "ICPENDR" 3; RSVD 652 764; Words "ISACTIVER" 3; RSVD 780 1020;
   Words "IPRIORITYR" 24; RSVD 1120 2044; Words "ITARGETSR" 24; RSVD 2144 3068; Words "ICFGR" 6; RSVD 3096 3836;
   Word "SGIR"; RSVD 3844 4092].

Definition SP804_t : list member :=
  [Word "Timer1Load"; Word "Timer1Value"; Word "Timer1Ctrl"; Word "Timer1IntClr"; Word "Timer1RIS"; Word "Timer1MIS";
   Word "Timer1BGLoad"; RSVD 28 31; Word "Timer2Load"; Word "Timer2Value"; Word "Timer2Ctrl"; Word "Timer2IntClr";
   Word "Timer2RIS"; Word "Timer2MIS"; Word "Timer2BGLoad"; RSVD 60 3839; Word "TimerITCR"; Word "TimerITOP";
   RSVD 3848 4063; Words "PeriphID" 4; Words "PCellID" 4].

Definition PL011_t : list member :=
  [Word "DR"; Union ["RSR"; "ECR"]; RSVD 8 23; Word "FR"; RSVD 28 31; Word "LPR"; Word "IBRD"; Word "FBRD"; Word "LCR";
   Word "CR"; Word "IFLS"; Word "IMSC"; Word "RIS"; Word "MIS"; Word "ICR"; Word "DMACR"; RSVD 76 4063;
   Words "PeriphID" 4; Words "PCellID" 4].

(** ** Instances, and the registers the kernel uses *)
Definition UART0 : Z := 0x10009000.
Definition UART1 : Z := 0x1000A000.
Definition UART2 : Z := 0x1000B000.
Definition UART3 : Z := 0x1000C000.
Definition TIMER0 : Z := 0x10011000.
Definition TIMER1 : Z := 0x10012000.
Definition TIMER2 : Z := 0x10018000.
Definition TIMER3 : Z := 0x10019000.
Definition GICC0 : Z := 0x1E000000.
Definition GICD0 : Z := 0x1E001000.
Definition GICC1 : Z := 0x1E010000.
Definition GICD1 : Z := 0x1E011000.
Definition GICC2 : Z := 0x1E020000.
Definition GICD2 : Z := 0x1E021000.
Definition GICC3 : Z := 0x1E030000.
Definition GICD3 : Z := 0x1E031000.

Definition GIC_SOURCE_TIMER0 : Z := 36.
Definition GIC_SOURCE_TIMER1 : Z := 37.
Definition GIC_SOURCE_TIMER2 : Z := 73.
Definition GIC_SOURCE_TIMER3 : Z := 74.
Definition GIC_SOURCE_UART0 : Z := 44.
Definition GIC_SOURCE_UART1 : Z := 45.
Definition GIC_SOURCE_UART2 : Z := 46.
Definition GIC_SOURCE_UART3 : Z := 47.

Definition Timer1Load (d : Z) : Z := d + offset_of SP804_t "Timer1Load".
Definition Timer1Ctrl (d : Z) : Z := d + offset_of SP804_t "Timer1Ctrl".
Definition Timer1IntClr (d : Z) : Z := d + offset_of SP804_t "Timer1IntClr".
Definition IMSC (d : Z) : Z := d + offset_of PL011_t "IMSC".
Definition CR (d : Z) : Z := d + offset_of PL011_t "CR".
Definition ICR (d : Z) : Z := d + offset_of PL011_t "ICR".
Definition PMR (d : Z) : Z := d + offset_of GICC_t "PMR".
Definition IAR (d : Z) : Z := d + offset_of GICC_t "IAR".
Definition EOIR (d : Z) : Z := d + offset_of GICC_t "EOIR".
Definition GICC_CTLR (d : Z) : Z := d + offset_of GICC_t "CTLR".
Definition GICD_CTLR (d : Z) : Z := d + offset_of GICD_t "CTLR".
Definition ISENABLER (d n : Z) : Z := d + offset_of GICD_t "ISENABLER" + 4 * n.

#[global] Arguments Timer1Load _ : simpl never.
#[global] Arguments Timer1Ctrl _ : simpl never.
#[global] Arguments Timer1IntClr _ : simpl never.
#[global] Arguments IMSC _ : simpl never.
#[global] Arguments CR _ : simpl never.
#[global] Arguments ICR _ : simpl never.
#[global] Arguments PMR _ : simpl never.
#[global] Arguments IAR _ : simpl never.
#[global] Arguments EOIR _ : simpl never.
#[global] Arguments GICC_CTLR _ : simpl never.
#[global] Arguments GICD_CTLR _ : simpl never.
#[global] Arguments ISENABLER _ _ : simpl never.

(** ** Accesses

    The devices of the board: the console's data and flag registers, and every
    other register by its address. *)
Class Board (U : Type) := {
  board_uart :: PL011 U;
  reg_read : Z -> U -> Z * U;
  reg_write : Z -> Z -> U -> U
}.

(** [reg |= v]. *)
Definition reg_or `{Board U} (a v : Z) (u : U) : U :=
  let '(old, u) := reg_read a u in reg_write a (Z.lor old v) u.

(** ** The layout is the documented one

    The offset that the comment of each member states. *)
Definition documented (s : list member) (l : list (string * Z)) : bool :=
  forallb (fun '(x, o) => bool_decide (offset_from 0 x s = Some o)) l.

Lemma GICC_layout : documented GICC_t [("CTLR", 0); ("PMR", 4); ("BPR", 8); ("IAR", 0xC); ("EOIR", 0x10); ("RPR", 0x14); ("HPPIR", 0x18)] = true.
Proof. by vm_compute. Qed.
Lemma GICD_layout : documented GICD_t [("CTLR", 0); ("TYPER", 4); ("ISENABLER", 0x100); ("ICENABLER", 0x180); ("ISPENDR", 0x200);
  ("ICPENDR", 0x280); ("ISACTIVER", 0x300); ("IPRIORITYR", 0x400); ("ITARGETSR", 0x800); ("ICFGR", 0xC00); ("SGIR", 0xF00)] = true.
Proof. by vm_compute. Qed.
Lemma SP804_layout : documented SP804_t [("Timer1Load", 0); ("Timer1Value", 4); ("Timer1Ctrl", 8); ("Timer1IntClr", 0xC); ("Timer1RIS", 0x10);
  ("Timer1MIS", 0x14); ("Timer1BGLoad", 0x18); ("Timer2Load", 0x20); ("Timer2Value", 0x24); ("Timer2Ctrl", 0x28); ("Timer2IntClr", 0x2C);
  ("Timer2RIS", 0x30); ("Timer2MIS", 0x34); ("Timer2BGLoad", 0x38); ("TimerITCR", 0xF00); ("TimerITOP", 0xF04); ("PeriphID", 0xFE0); ("PCellID", 0xFF0)] = true.
Proof. by vm_compute. Qed.
Lemma PL011_layout : documented PL011_t [("DR", 0); ("RSR", 4); ("ECR", 4); ("FR", 0x18); ("LPR", 0x20); ("IBRD", 0x24); ("FBRD", 0x28); ("LCR", 0x2C);
  ("CR", 0x30); ("IFLS", 0x34); ("IMSC", 0x38); ("RIS", 0x3C); ("MIS", 0x40); ("ICR", 0x44); ("DMACR", 0x48); ("PeriphID", 0xFE0); ("PCellID", 0xFF0)] = true.
Proof. by vm_compute. Qed.

(** ** What the kernel relies on

    [settings] are the registers that keep what is written to them; writing the
    enable register adds to it. The interrupt controller hands out a source
    whose line is high and which is not being served, until its end is
    signalled; [spurious] stands for none. Each device lowers its line when its
    interrupt is cleared, and the UART when its character has been read. *)
Definition spurious : Z := 1023.
Definition settings : list Z :=
  [Timer1Load TIMER0; Timer1Ctrl TIMER0; IMSC UART0; CR UART0; CR UART1; PMR GICC0; ISENABLER GICD0 1; GICC_CTLR GICC0; GICD_CTLR GICD0].

Class BoardLaws (U : Type) `{Board U} := {
  setting : Z -> U -> Z;
  asserted : U -> gset Z;
  active : U -> gset Z;
  read_setting a u : a ∈ settings -> reg_read a u = (setting a u, u);
  write_setting a v u : a ∈ settings ->
    forall b, setting b (reg_write a v u) =
      if decide (b = a) then (if decide (a = ISENABLER GICD0 1) then Z.lor (setting a u) v else v) else setting b u;
  not_spurious u : spurious ∉ active u;
  acknowledge u id u' : reg_read (IAR GICC0) u = (id, u') ->
    asserted u' = asserted u /\
    (id = spurious /\ active u' = active u \/ id <> spurious /\ id ∈ asserted u ∖ active u /\ active u' = {[id]} ∪ active u);
  end_of_interrupt id u :
    asserted (reg_write (EOIR GICC0) id u) = asserted u /\ active (reg_write (EOIR GICC0) id u) = active u ∖ {[id]};
  timer_clear u :
    asserted (reg_write (Timer1IntClr TIMER0) 0x01 u) = asserted u ∖ {[GIC_SOURCE_TIMER0]} /\
    active (reg_write (Timer1IntClr TIMER0) 0x01 u) = active u;
  uart_clear u :
    asserted (reg_write (ICR UART0) 0x10 u) = asserted u ∖ {[GIC_SOURCE_UART0]} /\ active (reg_write (ICR UART0) 0x10 u) = active u;
  receive u :
    asserted (DR_read u).2 ∖ {[GIC_SOURCE_UART0]} = asserted u ∖ {[GIC_SOURCE_UART0]} /\ active (DR_read u).2 = active u
}.

(** ** A board in memory *)
Record board := DemoBoard { line : terminal; registers : gmap Z Z; lines : gset Z; served : gset Z }.

Definition with_line (t : terminal) (b : board) : board := DemoBoard t (registers b) (lines b) (served b).
Definition with_registers (m : gmap Z Z) (b : board) : board := DemoBoard (line b) m (lines b) (served b).
Definition with_lines (s : gset Z) (b : board) : board := DemoBoard (line b) (registers b) s (served b).
Definition with_served (s : gset Z) (b : board) : board := DemoBoard (line b) (registers b) (lines b) s.

(** The lines of real sources have numbers below 1020. *)
Definition waiting (b : board) : list Z := filter (fun id => id < 1020) (elements (lines b ∖ served b)).

#[export] Instance board_terminal : PL011 board := {|
  DR_write c b := with_line (DR_write c (line b)) b;
  DR_read b := let '(c, t) := DR_read (line b) in (c, with_line t b);
  FR_rx_empty b := FR_rx_empty (line b)
|}.

#[export] Instance demo_board : Board board := {|
  board_uart := board_terminal;
  reg_read a b :=
    if decide (a = IAR GICC0) then
      match waiting b with
      | [] => (spurious, b)
      | id :: _ => (id, with_served ({[id]} ∪ served b) b)
      end
    else (default 0 (registers b !! a), b);
  reg_write a v b :=
    if decide (a = EOIR GICC0) then with_served (served b ∖ {[v]}) b
    else if decide (a = Timer1IntClr TIMER0) then with_lines (lines b ∖ {[GIC_SOURCE_TIMER0]}) b
    else if decide (a = ICR UART0) then with_lines (lines b ∖ {[GIC_SOURCE_UART0]}) b
    else if decide (a = ISENABLER GICD0 1) then with_registers (<[a := Z.lor (default 0 (registers b !! a)) v]> (registers b)) b
    else with_registers (<[a := v]> (registers b)) b
|}.

Lemma settings_apart a : a ∈ settings -> a <> IAR GICC0 /\ a <> EOIR GICC0 /\ a <> Timer1IntClr TIMER0 /\ a <> ICR UART0.
Proof. revert a. apply Forall_forall. repeat constructor; by vm_compute. Qed.

#[export] Program Instance demo_board_laws : BoardLaws board := {|
  setting a b := default 0 (registers b !! a);
  asserted := lines;
  active b := served b ∖ {[spurious]}
|}.
Next Obligation. intros a u (Ha & _)%settings_apart. cbn. by rewrite decide_False. Qed.
Next Obligation.
  intros a v u (_ & H1 & H2 & H3)%settings_apart b. cbn. rewrite !decide_False by done.
  destruct (decide (a = _)), (decide (b = a)) as [->|Hb]; cbn; by rewrite ?lookup_insert_eq, ?lookup_insert_ne by done.
Qed.
Next Obligation. set_solver. Qed.
Next Obligation.
  intros u id u'. cbn. destruct (waiting u) as [|x l] eqn:E; intros [= <- <-]; [by split; [|left]|]. split; [done|right].
  assert (Hx : x ∈ waiting u) by (rewrite E; set_solver). unfold waiting in Hx. rewrite list_elem_of_filter, elem_of_elements in Hx.
  assert (x <> spurious) by (unfold spurious; lia). cbn. set_solver.
Qed.
Next Obligation. intros id u. split; [done|]. cbn. set_solver. Qed.
Next Obligation. intros u. by split. Qed.
Next Obligation. intros u. by split. Qed.
Next Obligation. intros u. by split. Qed.

Definition quiet : board := DemoBoard (Terminal [] []) ∅ ∅ ∅.
Definition ticking : board := with_lines {[GIC_SOURCE_TIMER0]} quiet.
