(* ===== verification/Disk.v ===== *)
(** * The disk

    [disk.c], which drives the disk over a UART, and [disk.py], the program at
    the other end of the line; the interface the file system uses; and the
    proof that the two ends together implement it. *)
From S2P Require Import Prelude Uart.

Definition RETRY : nat := 3.

(** ** The driver ([disk.c]) *)
Section Driver.
Context `{PL011 U}.

Definition addr_puth (x : Z) (d : U) : U :=
  let d := PL011_puth (Z.land (Z.shiftr x 0) 255) d in
  let d := PL011_puth (Z.land (Z.shiftr x 8) 255) d in
  let d := PL011_puth (Z.land (Z.shiftr x 16) 255) d in
  PL011_puth (Z.land (Z.shiftr x 24) 255) d.

Definition data_puth (x : list Z) (n : Z) (d : U) : outcome U :=
  for_loop (Z.to_nat n) 0 (fun i d => c ← buf_get x i; Ok (PL011_puth c d)) d.

Definition data_geth (x : list Z) (n : Z) (d : U) : outcome (list Z * U) :=
  for_loop (Z.to_nat n) 0 (fun i '(x, d) =>
    '(c, d) ← PL011_geth d;
    x ← buf_set x i c;
    Ok (x, d)) (x, d).

(** Little-endian word at [i]. *)
Definition word_at (x : list Z) (i : Z) : outcome Z :=
  a ← buf_get x i; b ← buf_get x (i + 1); c ← buf_get x (i + 2); d ← buf_get x (i + 3);
  Ok (Z.lor (Z.lor (Z.lor (Z.shiftl a 0) (Z.shiftl b 8)) (Z.shiftl c 16)) (Z.shiftl d 24)).

(** The query of [disk_get_block_num] and [disk_get_block_len], which pick their
    word of the answer at [pick]. *)
Fixpoint query (retry : nat) (pick : Z) (d : U) : outcome (Z * U) :=
  match retry with
  | O => Ok (u32 (-1), d)
  | S retry =>
      let d := PL011_puth 0 d in
      let d := PL011_putc 10 d in
      '(r, d) ← PL011_geth d;
      if r =? 0 then
        '(_, d) ← PL011_getc d;
        '(x, d) ← data_geth (replicate 8 0) 8 d;
        '(_, d) ← PL011_getc d;
        v ← word_at x pick;
        Ok (v, d)
      else
        '(_, d) ← PL011_getc d;
        query retry pick d
  end.

Definition disk_get_block_num (d : U) : outcome (Z * U) := query RETRY 0 d.
Definition disk_get_block_len (d : U) : outcome (Z * U) := query RETRY 4 d.

Fixpoint wr_attempt (retry : nat) (a : Z) (x : list Z) (n : Z) (d : U) : outcome U :=
  match retry with
  | O => Ok d
  | S retry =>
      let d := PL011_puth 1 d in
      let d := PL011_putc 32 d in
      let d := addr_puth a d in
      let d := PL011_putc 32 d in
      d ← data_puth x n d;
      let d := PL011_putc 10 d in
      '(r, d) ← PL011_geth d;
      if r =? 0 then
        '(_, d) ← PL011_getc d;
        Ok d
      else
        '(_, d) ← PL011_getc d;
        wr_attempt retry a x n d
  end.

Definition uart_disk_wr (a : Z) (x : list Z) (n : Z) (d : U) : outcome U := wr_attempt RETRY a x n d.

Fixpoint rd_attempt (retry : nat) (a : Z) (x : list Z) (n : Z) (d : U) : outcome (list Z * U) :=
  match retry with
  | O => Ok (x, d)
  | S retry =>
      let d := PL011_puth 2 d in
      let d := PL011_putc 32 d in
      let d := addr_puth a d in
      let d := PL011_putc 10 d in
      '(r, d) ← PL011_geth d;
      if r =? 0 then
        '(_, d) ← PL011_getc d;
        '(x, d) ← data_geth x n d;
        '(_, d) ← PL011_getc d;
        Ok (x, d)
      else
        '(_, d) ← PL011_getc d;
        rd_attempt retry a x n d
  end.

Definition uart_disk_rd (a : Z) (x : list Z) (n : Z) (d : U) : outcome (list Z * U) := rd_attempt RETRY a x n d.
End Driver.

(** ** The server ([disk.py]) *)
Record disk_py := DiskPy { block_num : Z; block_len : Z; image : list Z }.

Definition REQ_CONF : list Z := bytes_of "00".
Definition REQ_WR : list Z := bytes_of "01".
Definition REQ_RD : list Z := bytes_of "02".
Definition ACK_OKAY : list Z := bytes_of "00".
Definition ACK_FAIL : list Z := bytes_of "01".

(** [str.strip] and [str.split(' ')]. *)
Definition is_space (c : Z) : bool := (c =? 32) || ((9 <=? c) && (c <=? 13)).
Fixpoint lstrip (l : list Z) : list Z :=
  match l with c :: l' => if is_space c then lstrip l' else l | [] => [] end.
Definition strip (l : list Z) : list Z := reverse (lstrip (reverse (lstrip l))).
Fixpoint split (l : list Z) : list (list Z) :=
  match l with
  | [] => [[]]
  | c :: l => if c =? 32 then [] :: split l
              else match split l with w :: ws => (c :: w) :: ws | [] => [[c]] end
  end.

(** [binascii]: two digits per byte, lower case; an error is an exception. *)
Definition lower (x : Z) : Z := if x <? 10 then 48 + x else 87 + x.
Definition hexlify (l : list Z) : list Z := x ← l; [lower (x / 16); lower (x mod 16)].
Fixpoint unhexlify (l : list Z) : option (list Z) :=
  match l with
  | [] => Some []
  | a :: b :: l =>
      if (0 <=? xtoi a) && (0 <=? xtoi b) then cons (xtoi a * 16 + xtoi b) <$> unhexlify l else None
  | _ => None
  end.

(** [struct]: ['<l'] is a signed little-endian word. *)
Definition pack (v : Z) : list Z := [v mod 256; v / 2 ^ 8 mod 256; v / 2 ^ 16 mod 256; v / 2 ^ 24 mod 256].
Definition unpack (l : list Z) : option Z :=
  match l with
  | [a; b; c; d] => Some (i32 (a + b * 2 ^ 8 + c * 2 ^ 16 + d * 2 ^ 24))
  | _ => None
  end.

Definition conf (d : disk_py) : list (list Z) := [ACK_OKAY; pack (block_num d) ++ pack (block_len d)].

(** A write at an offset, which extends the file when it goes past its end. *)
Definition write_at (off : Z) (data img : list Z) : list Z :=
  splice (img ++ replicate (Z.to_nat off - length img) 0) off data.

Definition wr (req : list (list Z)) (d : disk_py) : option (list (list Z) * disk_py) :=
  a ← req !! 1%nat; a ← unhexlify a; address ← unpack a;
  x ← req !! 2%nat; data ← unhexlify x;
  if address >=? block_num d then Some ([ACK_FAIL], d)
  else if address * block_len d <? 0 then None
  else Some ([ACK_OKAY], DiskPy (block_num d) (block_len d) (write_at (address * block_len d) data (image d))).

Definition rd (req : list (list Z)) (d : disk_py) : option (list (list Z)) :=
  a ← req !! 1%nat; a ← unhexlify a; address ← unpack a;
  if address >=? block_num d then Some [ACK_FAIL]
  else if address * block_len d <? 0 then None
  else Some [ACK_OKAY; slice (image d) (address * block_len d) (block_len d)].

(** One turn of the loop: the line sent back; [None] when the program dies of
    an exception. *)
Definition serve (line : list Z) (d : disk_py) : option (list Z * disk_py) :=
  let req := split (strip line) in
  cmd ← req !! 0%nat;
  '(ack, d) ← (if decide (cmd = REQ_CONF) then Some (conf d, d)
               else if decide (cmd = REQ_WR) then wr req d
               else if decide (cmd = REQ_RD) then (fun ack => (ack, d)) <$> rd req d
               else Some ([ACK_FAIL], d));
  match ack with
  | [] => None
  | [a] => Some (a ++ [10], d)
  | a :: b :: _ => Some (a ++ 32 :: hexlify b ++ [10], d)
  end.

(** ** The line between them *)
Record link := Link {
  request : list Z;          (** sent since the last end of line *)
  reply : list Z;            (** not yet read by the driver *)
  server : option disk_py    (** [None]: dead *)
}.

Definition link_write (c : Z) (l : link) : link :=
  if c =? 10 then
    match d ← server l; serve (request l) d with
    | Some (r, d) => Link [] (reply l ++ r) (Some d)
    | None => Link [] (reply l) None
    end
  else Link (request l ++ [c]) (reply l) (server l).

#[export] Instance link_uart : PL011 link := {|
  DR_write := link_write;
  DR_read l := (default 0 (head (reply l)), Link (request l) (tail (reply l)) (server l));
  FR_rx_empty l := match reply l with [] => true | _ => false end
|}.

(** ** The interface of a block device *)
Class BlockDevice (D : Type) := {
  disk_rd : Z -> list Z -> Z -> D -> outcome (list Z * D);
  disk_wr : Z -> list Z -> Z -> D -> outcome D
}.

(** What the file system relies on: sectors of [sector_size] bytes, read and
    written whole. *)
Definition sector_size : Z := 512.

Class BlockDeviceLaws (D : Type) `{BlockDevice D} := {
  ready : D -> Prop;
  sectors : D -> Z;
  sector : D -> Z -> list Z;
  sector_length : forall d a, ready d -> 0 <= a < sectors d -> zlength (sector d a) = sector_size;
  sector_bytes : forall d a, ready d -> 0 <= a < sectors d -> is_bytes (sector d a);
  disk_rd_law : forall d a x, ready d -> 0 <= a < sectors d -> zlength x = sector_size ->
    disk_rd a x sector_size d = Ok (sector d a, d);
  disk_wr_law : forall d a x, ready d -> 0 <= a < sectors d -> zlength x = sector_size -> is_bytes x ->
    exists d', disk_wr a x sector_size d = Ok d' /\ ready d' /\ sectors d' = sectors d /\
      forall b, 0 <= b < sectors d -> sector d' b = if decide (b = a) then x else sector d b
}.

(** ** Lines sent *)
Definition hexs (l : list Z) : list Z := x ← l; hex x.
Definition sends {U} `{PL011 U} (cs : list Z) (u : U) : U := foldl (fun u c => DR_write c u) u cs.

(** What a hexadecimal digit is not. *)
Definition plain (c : Z) : Prop := c <> 10 /\ c <> 32 /\ is_space c = false.

Lemma itox_plain x : 0 <= x < 16 -> plain (itox x).
Proof. revert x. apply digit_ind. unfold plain. by repeat constructor. Qed.

Lemma hex_plain x : is_byte x -> Forall plain (hex x).
Proof. intros Hx. destruct (nibbles x Hx) as (_ & _ & H1 & H2). by repeat constructor; apply itox_plain. Qed.

Lemma hexs_plain l : is_bytes l -> Forall plain (hexs l).
Proof. induction 1 as [|x l Hx _ IH]; [constructor|]. apply Forall_app. split; [by apply hex_plain|done]. Qed.

Lemma hexs_cons x l : hexs (x :: l) = hex x ++ hexs l.
Proof. done. Qed.

Lemma hexs_app l k : hexs (l ++ k) = hexs l ++ hexs k.
Proof. unfold hexs. by rewrite bind_app. Qed.

Lemma unhexlify_hexs l : is_bytes l -> unhexlify (hexs l) = Some l.
Proof.
  induction 1 as [|x l Hx _ IH]; [done|]. destruct (nibbles x Hx) as (_ & _ & H1 & H2).
  change (unhexlify (hexs (x :: l))) with
    (if (0 <=? xtoi (itox (x / 16))) && (0 <=? xtoi (itox (x mod 16)))
     then cons (xtoi (itox (x / 16)) * 16 + xtoi (itox (x mod 16))) <$> unhexlify (hexs l) else None).
  rewrite !xtoi_itox, IH by done. destruct (Z.leb_spec 0 (x / 16)), (Z.leb_spec 0 (x mod 16)); try lia.
  simpl. do 2 f_equal. pose proof (Z.div_mod x 16). lia.
Qed.

Lemma pack_bytes a : is_bytes (pack a).
Proof. unfold pack. repeat constructor; apply Z.mod_pos_bound; lia. Qed.

Lemma unpack_pack a : 0 <= a < 2 ^ 31 -> unpack (pack a) = Some a.
Proof. intros Ha. unfold unpack, pack. rewrite le32_sum by lia. by rewrite i32_small by lia. Qed.

(** ** What the driver sends *)
Section Sends.
Context `{PL011 U}.

Lemma sends_app cs ds (u : U) : sends (cs ++ ds) u = sends ds (sends cs u).
Proof. apply foldl_app. Qed.

Lemma putc_sends c (u : U) : PL011_putc c u = sends [c] u.
Proof. done. Qed.

Lemma puth_sends x (u : U) : is_byte x -> PL011_puth x u = sends (hex x) u.
Proof. intros Hx. destruct (nibbles x Hx) as (E1 & E2 & _). unfold PL011_puth, PL011_putc. by rewrite E1, E2. Qed.

Lemma addr_sends a (u : U) : 0 <= a < 2 ^ 32 -> addr_puth a u = sends (hexs (pack a)) u.
Proof.
  intros Ha. unfold addr_puth. change 255 with (Z.ones 8). rewrite !Z.land_ones, !Z.shiftr_div_pow2 by lia.
  rewrite Z.pow_0_r, Z.div_1_r.
  change (pack a) with [a mod 2 ^ 8; a / 2 ^ 8 mod 2 ^ 8; a / 2 ^ 16 mod 2 ^ 8; a / 2 ^ 24 mod 2 ^ 8].
  rewrite !hexs_cons, !sends_app. change (sends (hexs []) ?v) with v.
  by rewrite !puth_sends by (apply Z.mod_pos_bound; lia).
Qed.

Lemma data_sends x n (u : U) : is_bytes x -> n = zlength x -> data_puth x n u = Ok (sends (hexs x) u).
Proof.
  intros Hx ->. unfold data_puth. rewrite Nat2Z.id.
  destruct (for_loop_inv (fun i v => v = sends (hexs (take (Z.to_nat i) x)) u) (length x) 0
    (fun i d => c ← buf_get x i; Ok (PL011_puth c d)) u) as (v & E & Hv); [done| |].
  - intros i v Hi ->. destruct (buf_get_Ok x i) as (c & Hc & ->); [lia|]. ok_bind. eexists. split; [done|].
    assert (is_byte c) by (eapply Forall_lookup_1; done). rewrite puth_sends by done.
    replace (Z.to_nat (i + 1)) with (S (Z.to_nat i)) by lia. rewrite (take_S_r _ _ c) by done.
    by rewrite hexs_app, sends_app.
  - rewrite E, Hv. by rewrite Z.add_0_l, Nat2Z.id, firstn_all.
Qed.
End Sends.

(** ** What the driver receives *)
Lemma sends_plain cs l : Forall (fun c => c <> 10) cs -> sends cs l = Link (request l ++ cs) (reply l) (server l).
Proof.
  intros Hcs. revert l. induction Hcs as [|c cs Hc _ IH]; intros l.
  - destruct l; simpl. by rewrite app_nil_r.
  - change (sends (c :: cs) l) with (sends cs (link_write c l)). rewrite IH. unfold link_write.
    destruct (Z.eqb_spec c 10); [done|]. simpl. by rewrite <- app_assoc.
Qed.

Lemma getc_link q c r s : PL011_getc (Link q (c :: r) s) = Ok (c, Link q r s).
Proof. done. Qed.

Lemma xtoi_lower x : 0 <= x < 16 -> xtoi (lower x) = x.
Proof. revert x. apply digit_ind. by repeat constructor. Qed.

Lemma geth_link q x r s : is_byte x ->
  PL011_geth (Link q (lower (x / 16) :: lower (x mod 16) :: r) s) = Ok (x, Link q r s).
Proof.
  intros Hx. destruct (nibbles x Hx) as (_ & _ & H1 & H2). unfold PL011_geth.
  rewrite getc_link. ok_bind. rewrite getc_link. ok_bind. rewrite !xtoi_lower, assemble_byte by done.
  do 2 f_equal. pose proof (Z.div_mod x 16). lia.
Qed.

Lemma data_geth_link q x data r s :
  is_bytes data -> length x = length data ->
  data_geth x (zlength data) (Link q (hexlify data ++ r) s) = Ok (data, Link q r s).
Proof.
  intros Hd Hlen. unfold data_geth. rewrite Nat2Z.id.
  destruct (for_loop_inv (fun i st => st = (splice x 0 (take (Z.to_nat i) data), Link q (hexlify (drop (Z.to_nat i) data) ++ r) s))
    (length data) 0 (fun i '(x, d) => '(c, d) ← PL011_geth d; x ← buf_set x i c; Ok (x, d))
    (x, Link q (hexlify data ++ r) s)) as (st & E & Hst).
  - by rewrite take_0, drop_0, splice_nil.
  - intros i st Hi ->. destruct (lookup_lt_is_Some_2 data (Z.to_nat i)) as [c Hc]; [lia|].
    assert (is_byte c) by (eapply Forall_lookup_1; done).
    rewrite (drop_S _ c) by done. change (hexlify (c :: ?l)) with (lower (c / 16) :: lower (c mod 16) :: hexlify l).
    cbn [app]. rewrite geth_link by done. ok_bind.
    assert (Ht : zlength (take (Z.to_nat i) data) = i) by (rewrite length_take; lia).
    rewrite buf_set_Ok by (rewrite splice_length; lia). ok_bind. eexists. split; [done|].
    replace (Z.to_nat (i + 1)) with (S (Z.to_nat i)) by lia. rewrite (take_S_r _ _ c) by done. f_equal.
    rewrite <- splice_snoc by lia. by rewrite Ht.
  - rewrite E, Hst. rewrite Z.add_0_l, Nat2Z.id, firstn_all, drop_all. simpl. do 3 f_equal.
    unfold splice. rewrite drop_ge by (simpl; lia). by rewrite app_nil_r.
Qed.

(** ** How the server reads it *)
Lemma lstrip_plain c l : is_space c = false -> lstrip (c :: l) = c :: l.
Proof. intros Hc. simpl. by rewrite Hc. Qed.

Lemma strip_line c l d : is_space c = false -> is_space d = false -> strip (c :: l ++ [d]) = c :: l ++ [d].
Proof.
  intros Hc Hd. unfold strip. rewrite lstrip_plain, app_comm_cons, reverse_snoc by done.
  rewrite lstrip_plain, reverse_cons, reverse_involutive by done. done.
Qed.

Lemma split_word w : Forall plain w -> split w = [w].
Proof.
  induction 1 as [|c w (_ & Hc & _) _ IH]; [done|]. simpl. destruct (Z.eqb_spec c 32); [done|]. by rewrite IH.
Qed.

Lemma split_cons w l : Forall plain w -> split (w ++ 32 :: l) = w :: split l.
Proof.
  induction 1 as [|c w (_ & Hc & _) _ IH]; [done|]. simpl. destruct (Z.eqb_spec c 32); [done|]. by rewrite IH.
Qed.

(** A request whose ends are not spaces. *)
Lemma split_strip w m l : Forall plain w -> Forall plain l -> w <> [] -> l <> [] ->
  split (strip (w ++ 32 :: m ++ l)) = w :: split (m ++ l).
Proof.
  intros Hw Hl Hw0 Hl0. destruct w as [|c w]; [done|]. destruct (exists_last Hl0) as (l' & d & ->).
  assert ((c :: w) ++ 32 :: m ++ l' ++ [d] = c :: (w ++ 32 :: m ++ l') ++ [d]) as E by (by rewrite <- !app_assoc; simpl; rewrite <- app_assoc).
  rewrite E, strip_line, <- E; [by apply split_cons| |].
  - inversion_clear Hw as [|? ? H ?]. apply H.
  - apply Forall_app in Hl as [_ Hl]. inversion_clear Hl as [|? ? H ?]. apply H.
Qed.

Record server_ok (d : disk_py) : Prop := {
  ok_num : 0 <= block_num d < 2 ^ 31;
  ok_len : block_len d = sector_size;
  ok_image : zlength (image d) = block_num d * sector_size;
  ok_bytes : is_bytes (image d)
}.

Definition rd_line (a : Z) : list Z := hex 2 ++ 32 :: hexs (pack a).
Definition wr_line (a : Z) (x : list Z) : list Z := hex 1 ++ 32 :: (hexs (pack a) ++ [32]) ++ hexs x.

Lemma hexs_nonempty x l : hexs (x :: l) <> [].
Proof. done. Qed.

Lemma rd_line_words a : split (strip (rd_line a)) = [hex 2; hexs (pack a)].
Proof.
  pose proof (hexs_plain _ (pack_bytes a)) as Hp. unfold rd_line.
  change (hex 2 ++ 32 :: hexs (pack a)) with (hex 2 ++ 32 :: [] ++ hexs (pack a)).
  rewrite split_strip by (done || by apply hex_plain). cbn [app]. by rewrite split_word.
Qed.

Lemma wr_line_words a x : is_bytes x -> x <> [] -> split (strip (wr_line a x)) = [hex 1; hexs (pack a); hexs x].
Proof.
  intros Hx Hx0. pose proof (hexs_plain _ (pack_bytes a)) as Hp. pose proof (hexs_plain _ Hx) as Hxp. unfold wr_line.
  rewrite (split_strip (hex 1)) by (done || (by apply hex_plain) || (destruct x; [done|apply hexs_nonempty])).
  rewrite <- app_assoc. cbn [app]. by rewrite split_cons, split_word.
Qed.

Lemma serve_rd a d :
  server_ok d -> 0 <= a < 2 ^ 31 ->
  serve (rd_line a) d = Some (if decide (a < block_num d)
                              then 48 :: 48 :: 32 :: hexlify (slice (image d) (a * sector_size) sector_size) ++ [10]
                              else [48; 49; 10], d).
Proof.
  intros Hd Ha. unfold serve. rewrite rd_line_words. cbn [lookup list_lookup mbind option_bind].
  change (hex 2) with REQ_RD. rewrite decide_False, decide_False, decide_True by done. unfold rd.
  cbn [lookup list_lookup mbind option_bind]. rewrite unhexlify_hexs by apply pack_bytes. cbn [mbind option_bind].
  rewrite unpack_pack by done. cbn [mbind option_bind]. rewrite (ok_len d Hd). unfold sector_size.
  destruct (Z.geb_spec a (block_num d)); case_decide; try lia; [done|].
  by destruct (Z.ltb_spec (a * 512) 0); [lia|].
Qed.

Lemma serve_wr a x d :
  server_ok d -> 0 <= a < 2 ^ 31 -> is_bytes x -> zlength x = sector_size ->
  serve (wr_line a x) d =
    Some (if decide (a < block_num d)
          then ([48; 48; 10], DiskPy (block_num d) (block_len d) (splice (image d) (a * sector_size) x))
          else ([48; 49; 10], d)).
Proof.
  intros Hd Ha Hx Hl. unfold serve. rewrite wr_line_words by (try done; by intros ->).
  cbn [lookup list_lookup mbind option_bind].
  change (hex 1) with REQ_WR. rewrite decide_False, decide_True by done. unfold wr.
  cbn [lookup list_lookup mbind option_bind]. rewrite !unhexlify_hexs by (done || apply pack_bytes). cbn [mbind option_bind].
  rewrite unpack_pack by done. cbn [mbind option_bind]. rewrite (ok_len d Hd). pose proof (ok_image d Hd). unfold sector_size in *.
  destruct (Z.geb_spec a (block_num d)); case_decide; try lia; [done|].
  destruct (Z.ltb_spec (a * 512) 0); [lia|]. unfold write_at.
  replace (Z.to_nat (a * 512) - length (image d))%nat with 0%nat by lia. simpl replicate. by rewrite app_nil_r.
Qed.

(** ** The two ends together *)
Definition idle (d : disk_py) : link := Link [] [] (Some d).

Lemma send_line cs d r d' :
  Forall (fun c => c <> 10) cs -> serve cs d = Some (r, d') ->
  PL011_putc 10 (sends cs (idle d)) = Link [] r (Some d').
Proof. intros Hcs E. rewrite sends_plain by done. unfold PL011_putc, idle; simpl. unfold link_write; simpl. by rewrite E. Qed.

Lemma plain_line cs : Forall plain cs -> Forall (fun c => c <> 10) cs.
Proof. intros H. eapply Forall_impl; [exact H|]. by intros c []. Qed.

Lemma rd_line_ends a : Forall (fun c => c <> 10) (rd_line a).
Proof.
  unfold rd_line. apply Forall_app. split; [apply plain_line; by apply hex_plain|]. constructor; [done|].
  apply plain_line, hexs_plain, pack_bytes.
Qed.

Lemma wr_line_ends a x : is_bytes x -> Forall (fun c => c <> 10) (wr_line a x).
Proof.
  intros Hx. unfold wr_line. rewrite !Forall_app. split; [apply plain_line; by apply hex_plain|]. constructor; [done|].
  rewrite !Forall_app. split; [split; [apply plain_line, hexs_plain, pack_bytes|by repeat constructor]|].
  by apply plain_line, hexs_plain.
Qed.

(** One attempt at a read. *)
Lemma rd_attempt_eq retry a x n d :
  server_ok d -> 0 <= a < 2 ^ 31 ->
  rd_attempt (S retry) a x n (idle d) =
    ('(r, l) ← PL011_geth (Link [] (if decide (a < block_num d)
                              then 48 :: 48 :: 32 :: hexlify (slice (image d) (a * sector_size) sector_size) ++ [10]
                              else [48; 49; 10]) (Some d));
     if r =? 0 then
       '(_, l) ← PL011_getc l; '(x, l) ← data_geth x n l; '(_, l) ← PL011_getc l; Ok (x, l)
     else '(_, l) ← PL011_getc l; rd_attempt retry a x n l).
Proof.
  intros Hd Ha. cbn [rd_attempt]. rewrite addr_sends, puth_sends by (done || lia).
  rewrite !(putc_sends 32), <- !sends_app.
  by erewrite send_line by (apply rd_line_ends || by apply serve_rd).
Qed.

(** One attempt at a write. *)
Lemma wr_attempt_eq retry a x d :
  server_ok d -> 0 <= a < 2 ^ 31 -> is_bytes x -> zlength x = sector_size ->
  wr_attempt (S retry) a x sector_size (idle d) =
    ('(r, l) ← PL011_geth (if decide (a < block_num d)
        then Link [] [48; 48; 10] (Some (DiskPy (block_num d) (block_len d) (splice (image d) (a * sector_size) x)))
        else Link [] [48; 49; 10] (Some d));
     if r =? 0 then '(_, l) ← PL011_getc l; Ok l
     else '(_, l) ← PL011_getc l; wr_attempt retry a x sector_size l).
Proof.
  intros Hd Ha Hx Hl. cbn [wr_attempt]. rewrite addr_sends, puth_sends, data_sends by (done || lia). ok_bind.
  rewrite !(putc_sends 32), <- !sends_app.
  match goal with |- context [PL011_putc 10 (sends ?cs _)] => replace cs with (wr_line a x)
    by (unfold wr_line; rewrite <- !app_assoc; done) end.
  pose proof (serve_wr a x d Hd Ha Hx Hl) as E. case_decide;
    by rewrite (send_line _ d _ _ (wr_line_ends a x Hx) E).
Qed.

Lemma geth_ack r s : PL011_geth (Link [] (48 :: 48 :: r) s) = Ok (0, Link [] r s).
Proof. by apply (geth_link [] 0). Qed.

Lemma geth_nak r s : PL011_geth (Link [] (48 :: 49 :: r) s) = Ok (1, Link [] r s).
Proof. by apply (geth_link [] 1). Qed.

Definition disk_sector (d : disk_py) (a : Z) : list Z := slice (image d) (a * sector_size) sector_size.

Lemma disk_sector_ok d a : server_ok d -> 0 <= a < block_num d ->
  zlength (disk_sector d a) = sector_size /\ is_bytes (disk_sector d a).
Proof.
  intros Hd Ha. pose proof (ok_image d Hd). unfold disk_sector, sector_size in *. split.
  - rewrite slice_length by lia. lia.
  - apply Forall_take, Forall_drop, Hd.
Qed.

Lemma uart_rd_spec d a x :
  server_ok d -> 0 <= a < block_num d -> zlength x = sector_size ->
  uart_disk_rd a x sector_size (idle d) = Ok (disk_sector d a, idle d).
Proof.
  intros Hd Ha Hx. pose proof (ok_num d Hd). destruct (disk_sector_ok d a Hd Ha) as [Hl Hb].
  unfold uart_disk_rd, RETRY. rewrite rd_attempt_eq, decide_True by (done || lia). fold (disk_sector d a).
  rewrite geth_ack. ok_bind. rewrite getc_link. ok_bind. rewrite <- Hl at 1.
  rewrite data_geth_link by (done || lia). ok_bind. rewrite getc_link. by ok_bind.
Qed.

Definition disk_update (d : disk_py) (a : Z) (x : list Z) : disk_py :=
  DiskPy (block_num d) (block_len d) (splice (image d) (a * sector_size) x).

Lemma uart_wr_spec d a x :
  server_ok d -> 0 <= a < block_num d -> is_bytes x -> zlength x = sector_size ->
  uart_disk_wr a x sector_size (idle d) = Ok (idle (disk_update d a x)).
Proof.
  intros Hd Ha Hx Hl. pose proof (ok_num d Hd). unfold uart_disk_wr, RETRY.
  rewrite wr_attempt_eq, decide_True by (done || lia). rewrite geth_ack. ok_bind. rewrite getc_link. by ok_bind.
Qed.

Lemma disk_update_ok d a x :
  server_ok d -> 0 <= a < block_num d -> is_bytes x -> zlength x = sector_size ->
  server_ok (disk_update d a x) /\
  forall b, 0 <= b < block_num d -> disk_sector (disk_update d a x) b = if decide (b = a) then x else disk_sector d b.
Proof.
  intros Hd Ha Hx Hl. pose proof (ok_image d Hd). unfold sector_size in *. split.
  - constructor; simpl; try apply Hd; unfold sector_size.
    + rewrite splice_length by lia. apply Hd.
    + unfold is_bytes, splice. rewrite !Forall_app. split; [apply Forall_take, Hd|]. split; [done|apply Forall_drop, Hd].
  - intros b Hb. unfold disk_sector, disk_update, sector_size; cbn [image]. case_decide as E.
    + subst b. pose proof (slice_splice (image d) (a * 512) x) as E. rewrite Hl in E. apply E; lia.
    + apply slice_splice_other; lia.
Qed.

#[export] Instance link_disk : BlockDevice link := {|
  disk_rd := uart_disk_rd;
  disk_wr := uart_disk_wr
|}.

(** The driver, the line and the server are a block device. *)
#[export, refine] Instance link_disk_laws : BlockDeviceLaws link := {|
  ready l := exists d, l = idle d /\ server_ok d;
  sectors l := match server l with Some d => block_num d | None => 0 end;
  sector l a := match server l with Some d => disk_sector d a | None => [] end
|}.
Proof.
  - intros l a (d & -> & Hd) Ha. by apply disk_sector_ok.
  - intros l a (d & -> & Hd) Ha. by apply disk_sector_ok.
  - intros l a x (d & -> & Hd) Ha Hx. by apply uart_rd_spec.
  - intros l a x (d & -> & Hd) Ha Hx Hb. destruct (disk_update_ok d a x Hd Ha Hb Hx) as [Hok Hs].
    exists (idle (disk_update d a x)). split; [by apply uart_wr_spec|]. split; [by eexists|]. by split.
Defined.

(** C16 (refinement): the driver and the server, talking hexadecimal over the
    line, are an array of sectors: a write to a sector replaces it, and it
    alone, and a read of any sector after it gives what was written last; the
    line is left idle, nothing unread on it. *)
Theorem disk_is_an_array d a x b y :
  server_ok d -> 0 <= a < block_num d -> is_bytes x -> zlength x = sector_size ->
  0 <= b < block_num d -> zlength y = sector_size ->
  (l ← uart_disk_wr a x sector_size (idle d); uart_disk_rd b y sector_size l) =
    Ok (if decide (b = a) then x else disk_sector d b, idle (disk_update d a x)).
Proof.
  intros Hd Ha Hx Hl Hb Hy. destruct (disk_update_ok d a x Hd Ha Hx Hl) as [Hok Hs].
  rewrite uart_wr_spec by done. ok_bind. rewrite uart_rd_spec by done. by rewrite Hs.
Qed.

Lemma uart_wr_silent d a x :
  server_ok d -> block_num d <= a < 2 ^ 31 -> is_bytes x -> zlength x = sector_size ->
  uart_disk_wr a x sector_size (idle d) = Ok (idle d).
Proof.
  intros Hd Ha Hx Hl. pose proof (ok_num d Hd). unfold uart_disk_wr, RETRY.
  do 3 (rewrite wr_attempt_eq, decide_False by (done || lia); rewrite geth_nak; ok_bind; cbn [Z.eqb];
    rewrite getc_link; ok_bind; fold (idle d)). done.
Qed.

Lemma uart_rd_silent d a x n :
  server_ok d -> block_num d <= a < 2 ^ 31 -> uart_disk_rd a x n (idle d) = Ok (x, idle d).
Proof.
  intros Hd Ha. pose proof (ok_num d Hd). unfold uart_disk_rd, RETRY.
  do 3 (rewrite rd_attempt_eq, decide_False by (done || lia); rewrite geth_nak; ok_bind; cbn [Z.eqb];
    rewrite getc_link; ok_bind; fold (idle d)). done.
Qed.

(** An address past the end of the disk is refused by the server;
    the driver tries three times and then returns as if all was well, with the
    caller's buffer, or the disk, as it was. *)
Lemma out_of_range_is_silent d a x y :
  server_ok d -> block_num d <= a < 2 ^ 31 -> is_bytes x -> zlength x = sector_size ->
  uart_disk_wr a x sector_size (idle d) = Ok (idle d) /\ uart_disk_rd a y sector_size (idle d) = Ok (y, idle d).
Proof. intros Hd Ha Hx Hl. split; [by apply uart_wr_silent|by apply uart_rd_silent]. Qed.

(** ** Queries *)
Lemma word_at_pack l k v : 0 <= v < 2 ^ 32 -> word_at (l ++ pack v ++ k) (zlength l) = Ok v.
Proof.
  intros Hv. unfold word_at.
  assert (forall j c, (j < 4)%nat -> pack v !! j = Some c -> buf_get (l ++ pack v ++ k) (zlength l + Z.of_nat j) = Ok c) as Hget.
  { intros j c Hj Hc. apply buf_get_lookup; [lia|]. rewrite lookup_app_r by lia.
    replace (_ - _)%nat with j by lia. by rewrite lookup_app_l by done. }
  pose proof (Hget 0%nat _ ltac:(lia) eq_refl) as E0. rewrite Z.add_0_r in E0. rewrite E0.
  pose proof (Hget 1%nat _ ltac:(lia) eq_refl) as E1. pose proof (Hget 2%nat _ ltac:(lia) eq_refl) as E2.
  pose proof (Hget 3%nat _ ltac:(lia) eq_refl) as E3. change (Z.of_nat 1) with 1 in E1. change (Z.of_nat 2) with 2 in E2. change (Z.of_nat 3) with 3 in E3.
  rewrite E1, E2, E3. ok_bind.
  f_equal. rewrite Z.shiftl_0_r. pose proof (le32_sum v Hv) as Hsum. revert Hsum.
  assert (Hb : forall z, 0 <= z mod 256 < 256) by (intros; apply Z.mod_pos_bound; lia).
  generalize (Hb v), (Hb (v / 2 ^ 8)), (Hb (v / 2 ^ 16)).
  generalize (v mod 256), (v / 2 ^ 8 mod 256), (v / 2 ^ 16 mod 256), (v / 2 ^ 24 mod 256). intros a b c d Ha H1 H2 <-.
  rewrite (lor_shift a b 8) by lia. rewrite (lor_shift _ c 16) by lia. by rewrite (lor_shift _ d 24) by lia.
Qed.

(** The two queries return the geometry the server was
    started with. *)
Lemma geometry_spec d :
  server_ok d -> disk_get_block_num (idle d) = Ok (block_num d, idle d) /\
                 disk_get_block_len (idle d) = Ok (block_len d, idle d).
Proof.
  intros Hd. pose proof (ok_num d Hd). pose proof (ok_len d Hd) as Hlen. unfold sector_size in Hlen.
  unfold disk_get_block_num, disk_get_block_len, RETRY. cbn [query].
  rewrite puth_sends by done. rewrite (send_line (hex 0) d (48 :: 48 :: 32 :: hexlify (pack (block_num d) ++ pack (block_len d)) ++ [10]) d)
    by (by repeat constructor).
  assert (Hb : is_bytes (pack (block_num d) ++ pack (block_len d))) by (apply Forall_app; split; apply pack_bytes).
  rewrite geth_ack. ok_bind. rewrite getc_link. ok_bind.
  change 8 with (zlength (pack (block_num d) ++ pack (block_len d))). rewrite data_geth_link by done. ok_bind.
  rewrite getc_link. ok_bind. split.
  - assert (word_at (pack (block_num d) ++ pack (block_len d)) 0 = Ok (block_num d)) as -> by (apply (word_at_pack []); lia).
    done.
  - pose proof (word_at_pack (pack (block_num d)) [] (block_len d) ltac:(lia)) as E. rewrite app_nil_r in E.
    change (zlength (pack (block_num d))) with 4 in E. rewrite E. done.
Qed.

(** ** A disk in memory: another implementation of the interface *)
Record ram_disk := RamDisk { blocks : list (list Z) }.

#[export] Instance ram_disk_device : BlockDevice ram_disk := {|
  disk_rd a x n d := match blocks d !! Z.to_nat a with Some b => Ok (b, d) | None => Ok (x, d) end;
  disk_wr a x n d := Ok (RamDisk (<[Z.to_nat a := x]> (blocks d)))
|}.

#[export, refine] Instance ram_disk_laws : BlockDeviceLaws ram_disk := {|
  ready d := Forall (fun b => zlength b = sector_size /\ is_bytes b) (blocks d);
  sectors d := zlength (blocks d);
  sector d a := default [] (blocks d !! Z.to_nat a)
|}.
Proof.
  - intros d a Hd Ha. destruct (lookup_lt_is_Some_2 (blocks d) (Z.to_nat a)) as [b Hb]; [lia|]. rewrite Hb.
    by apply (Forall_lookup_1 _ _ _ _ Hd Hb).
  - intros d a Hd Ha. destruct (lookup_lt_is_Some_2 (blocks d) (Z.to_nat a)) as [b Hb]; [lia|]. rewrite Hb.
    by apply (Forall_lookup_1 _ _ _ _ Hd Hb).
  - intros d a x Hd Ha Hx. destruct (lookup_lt_is_Some_2 (blocks d) (Z.to_nat a)) as [b Hb]; [lia|]. simpl. by rewrite Hb.
  - intros d a x Hd Ha Hx Hb. eexists. split; [done|]. cbn [blocks]. split; [by apply Forall_insert|].
    split; [by rewrite length_insert|]. intros b Hbr. case_decide as E.
    + subst. by rewrite list_lookup_insert_eq by lia.
    + by rewrite list_lookup_insert_ne by lia.
Defined.

(** ** The theorems at work: a server with a disk of two sectors *)
Definition demo_disk : disk_py := DiskPy 2 512 (replicate 1024 7).

Lemma demo_disk_ok : server_ok demo_disk.
Proof.
  constructor; [done|done|done|]. apply Forall_replicate. done.
Qed.

Lemma demo_sector_bytes v : is_byte v -> is_bytes (replicate 512 v).
Proof. intros Hv. by apply Forall_replicate. Qed.

Lemma disk_is_an_array_witness :
  (l ← uart_disk_wr 1 (replicate 512 65) 512 (idle demo_disk); uart_disk_rd 1 (replicate 512 0) 512 l) =
    Ok (replicate 512 65, idle (disk_update demo_disk 1 (replicate 512 65))).
Proof.
  apply (disk_is_an_array demo_disk 1 (replicate 512 65) 1 (replicate 512 0)); try done.
  - apply demo_disk_ok.
  - by apply demo_sector_bytes.
Defined.

Lemma out_of_range_is_silent_witness :
  uart_disk_wr 2 (replicate 512 65) 512 (idle demo_disk) = Ok (idle demo_disk).
Proof.
  apply (out_of_range_is_silent demo_disk 2 (replicate 512 65) []); try done.
  - apply demo_disk_ok.
  - by apply demo_sector_bytes.
Defined.

