(* ===== verification/Fat16.v ===== *)
(** * The FAT16 volume

    The lower half of [file.c]: the boot sector and the regions it describes,
    the allocation table, clusters, and reading and writing the bytes of a
    file along its chain of clusters. A disk is any [BlockDevice]; a buffer
    fresh from [stdmem_allocate] holds zeros. *)
From S2P Require Import Prelude Mem Disk.

(** ** Data ([file.h], [stdfile.h]) *)
Record fat16_t := Fat16 {
  bytes_per_sector : Z;
  sectors_per_cluster : Z;
  num_reserved_sectors : Z;
  num_file_allocation_tables : Z;
  num_root_directory_entries : Z;
  total_num_sectors : Z;
  media_descriptor : Z;
  num_sectors_per_file_allocation_table : Z;
  volume_serial_number : Z;
  volume_label : list Z;
  file_system_identifier : list Z
}.

Record fat16_regions_t := Regions {
  fat_region_start : Z;
  root_directory_region_start : Z;
  data_region_start : Z;
  reserved_region_size : Z;
  fat_region_size : Z;
  root_directory_region_size : Z;
  data_region_size : Z
}.

Record fat16_dir_entry_t := DirEntry {
  filename : list Z;       (** [char filename[9]] *)
  extension : list Z;      (** [char extension[4]] *)
  attributes : Z;
  first_cluster : Z;
  file_size_bytes : Z
}.

Definition calculate_regions (fs : fat16_t) : fat16_regions_t :=
  let fat_start := num_reserved_sectors fs in
  let fat_size := num_file_allocation_tables fs * num_sectors_per_file_allocation_table fs in
  let root_size := (num_root_directory_entries fs * 32) / bytes_per_sector fs in
  let root_start := u32 (fat_start + fat_size) in
  let data_start := u32 (root_start + root_size) in
  Regions fat_start root_start data_start (num_reserved_sectors fs) fat_size root_size
    (u32 (total_num_sectors fs - u32 (num_reserved_sectors fs + fat_size + root_size))).

Section Volume.
Context `{BlockDevice D}.

(** A buffer fresh from the allocator. *)
Definition fresh (n : Z) : list Z := replicate (Z.to_nat n) 0.

(** [disk_rd] and [disk_wr] on a part of a buffer, from [off] on. *)
Definition rd_into (a : Z) (buf : list Z) (off n : Z) (d : D) : outcome (list Z * D) :=
  if decide (0 <= off /\ off + n <= zlength buf) then
    '(x, d) ← disk_rd a (slice buf off n) n d;
    Ok (splice buf off x, d)
  else Err OutOfBounds.
Definition wr_from (a : Z) (buf : list Z) (off n : Z) (d : D) : outcome D :=
  if decide (0 <= off /\ off + n <= zlength buf) then disk_wr a (slice buf off n) n d
  else Err OutOfBounds.

Definition inspect_file_system (d : D) : outcome (fat16_t * D) :=
  '(boot_sector, d) ← rd_into 0 (fresh 512) 0 512 d;
  let b i := buf_get boot_sector i in
  b11 ← b 11; b12 ← b 12; b13 ← b 13; b14 ← b 14; b15 ← b 15; b16 ← b 16; b17 ← b 17; b18 ← b 18;
  b19 ← b 19; b20 ← b 20; b21 ← b 21; b22 ← b 22; b23 ← b 23;
  b39 ← b 39; b40 ← b 40; b41 ← b 41; b42 ← b 42;
  Ok (Fat16 (u16 (b11 + b12 * 256)) b13 (u16 (b14 + b15 * 256)) b16 (u16 (b17 + b18 * 256)) (u16 (b19 + b20 * 256))
        b21 (u16 (b22 + b23 * 256)) (u32 (b39 + 256 * (b40 + 256 * (b41 + 256 * b42))))
        (slice boot_sector 43 11) (slice boot_sector 54 8), d).

(** ** The allocation table *)
Definition get_successor_cluster (fs : fat16_t) (cluster_number : Z) (d : D) : outcome (Z * D) :=
  let regions := calculate_regions fs in
  let in_fat_sector := (cluster_number * 2) / bytes_per_sector fs in
  let in_sector := u32 (fat_region_start regions + in_fat_sector) in
  '(fat_sector, d) ← rd_into in_sector (fresh (bytes_per_sector fs)) 0 (bytes_per_sector fs) d;
  let entries_per_sector := bytes_per_sector fs / 2 in
  let entry_in_sector := u16 (cluster_number - u32 (entries_per_sector * in_fat_sector)) in
  lo ← buf_get fat_sector (entry_in_sector * 2);
  hi ← buf_get fat_sector (entry_in_sector * 2 + 1);
  Ok (u16 (lo + hi * 256), d).

Definition set_successor_cluster (fs : fat16_t) (cluster_number successor_cluster_number : Z) (d : D) : outcome D :=
  let regions := calculate_regions fs in
  let in_fat_sector := (cluster_number * 2) / bytes_per_sector fs in
  let in_sector := u32 (fat_region_start regions + in_fat_sector) in
  '(fat_sector, d) ← rd_into in_sector (fresh (bytes_per_sector fs)) 0 (bytes_per_sector fs) d;
  let index_in_sector := u16 (cluster_number * 2 - u32 (in_fat_sector * bytes_per_sector fs)) in
  fat_sector ← buf_set fat_sector index_in_sector (Z.land successor_cluster_number 255);
  fat_sector ← buf_set fat_sector (index_in_sector + 1) (Z.land (Z.shiftr successor_cluster_number 8) 255);
  wr_from in_sector fat_sector 0 (bytes_per_sector fs) d.

(** The inner loop of [find_first_free_cluster] over one sector of the table. *)
Definition free_in_sector (fs : fat16_t) (fat_sector : list Z) (i : Z) : outcome (option Z) :=
  let entries_per_sector := bytes_per_sector fs / 2 in
  for_find (Z.to_nat entries_per_sector) 0 (fun j =>
    lo ← buf_get fat_sector (j * 2);
    hi ← buf_get fat_sector (j * 2 + 1);
    Ok (if (lo =? 0) && (hi =? 0) then Some (u16 (entries_per_sector * i + j)) else None)).

(** From sector [i] of the table on, [n] sectors. *)
Fixpoint free_from (fs : fat16_t) (n : nat) (i : Z) (fat_sector : list Z) (d : D) : outcome (Z * D) :=
  match n with
  | O => Ok (0, d)
  | S n =>
      '(fat_sector, d) ← rd_into (u32 (fat_region_start (calculate_regions fs) + i)) fat_sector 0 (bytes_per_sector fs) d;
      r ← free_in_sector fs fat_sector i;
      match r with
      | Some c => Ok (c, d)
      | None => free_from fs n (i + 1) fat_sector d
      end
  end.

Definition find_first_free_cluster (fs : fat16_t) (d : D) : outcome (Z * D) :=
  free_from fs (Z.to_nat (num_sectors_per_file_allocation_table fs)) 0 (fresh (bytes_per_sector fs)) d.

(** ** Clusters *)
Definition first_sector (fs : fat16_t) (cluster_number : Z) : Z :=
  u32 (data_region_start (calculate_regions fs) + u32 ((cluster_number - 2) * sectors_per_cluster fs)).

Definition load_cluster_at (fs : fat16_t) (cluster_number : Z) (buf : list Z) (off : Z) (d : D) : outcome (list Z * D) :=
  for_loop (Z.to_nat (sectors_per_cluster fs)) 0 (fun i '(buf, d) =>
    rd_into (u32 (first_sector fs cluster_number + i)) buf (off + i * bytes_per_sector fs) (bytes_per_sector fs) d) (buf, d).

Definition load_cluster (fs : fat16_t) (cluster_number : Z) (buf : list Z) (d : D) : outcome (list Z * D) :=
  load_cluster_at fs cluster_number buf 0 d.

Definition write_cluster (fs : fat16_t) (cluster_number : Z) (buf : list Z) (d : D) : outcome D :=
  for_loop (Z.to_nat (sectors_per_cluster fs)) 0 (fun i d =>
    wr_from (u32 (first_sector fs cluster_number + i)) buf (i * bytes_per_sector fs) (bytes_per_sector fs) d) d.

(** [0x0001 < n && n < 0xfff0]. *)
Definition in_use (n : Z) : bool := (1 <? n) && (n <? 65520).

(** ** Files *)
Definition bytes_per_cluster (fs : fat16_t) : Z := bytes_per_sector fs * sectors_per_cluster fs.

(** [load_file], whose buffer has the size the directory entry says. *)
Definition load_file (fuel : nat) (fs : fat16_t) (entry : fat16_dir_entry_t) (d : D) : outcome (list Z * Z * D) :=
  while_loop fuel (fun '(file_data, file_clusters_written, next_cluster, d) =>
    if in_use next_cluster then
      '(file_data, d) ← load_cluster_at fs next_cluster file_data (file_clusters_written * sectors_per_cluster fs * bytes_per_sector fs) d;
      '(next_cluster, d) ← get_successor_cluster fs next_cluster d;
      Ok (inl (file_data, file_clusters_written + 1, next_cluster, d))
    else Ok (inr (file_data, file_clusters_written * sectors_per_cluster fs * bytes_per_sector fs, d)))
    (fresh (file_size_bytes entry), 0, first_cluster entry, d).

(** The walk to the cluster an offset is in. *)
Definition walk_turn (fs : fat16_t) (data_starts_in_cluster : Z) (st : Z * Z * Z * D)
  : outcome ((Z * Z * Z * D) + (Z * Z * Z * D)) :=
  let '(previous, current, index, d) := st in
  if in_use current && (index <? data_starts_in_cluster) then
    '(next, d) ← get_successor_cluster fs current d;
    Ok (inl (current, next, index + 1, d))
  else Ok (inr (previous, current, index, d)).

Definition walk (fuel : nat) (fs : fat16_t) (data_starts_in_cluster first : Z) (d : D) : outcome (Z * Z * Z * D) :=
  while_loop fuel (walk_turn fs data_starts_in_cluster) (0, first, 0, d).

(** A turn of the loop of [read_from_file] after its first cluster. *)
Definition read_turn (fs : fat16_t) (num_bytes : Z) (st : list Z * list Z * Z * Z * D)
  : outcome ((list Z * list Z * Z * Z * D) + (list Z * Z * D)) :=
  let '(buf, data, current, num_bytes_read, d) := st in
  if in_use current && (num_bytes_read <? num_bytes) then
    '(data, d) ← load_cluster fs current data d;
    let n := if u32 (num_bytes - num_bytes_read) >? bytes_per_cluster fs then bytes_per_cluster fs
             else u32 (num_bytes - num_bytes_read) in
    buf ← stdmem_copy buf num_bytes_read data 0 n;
    '(next, d) ← get_successor_cluster fs current d;
    Ok (inl (buf, data, next, u32 (num_bytes_read + n), d))
  else Ok (inr (buf, num_bytes_read, d)).

Definition read_from_file (fuel : nat) (fs : fat16_t) (entry : fat16_dir_entry_t) (offset_bytes : Z)
    (buf : list Z) (num_bytes : Z) (d : D) : outcome (list Z * Z * D) :=
  let data_starts_in_cluster := u16 (offset_bytes / bytes_per_cluster fs) in
  let data_offset_in_cluster := u16 (offset_bytes - data_starts_in_cluster * bytes_per_cluster fs) in
  let data := fresh (sectors_per_cluster fs * bytes_per_sector fs) in
  '(_, current, _, d) ← walk fuel fs data_starts_in_cluster (first_cluster entry) d;
  '(data, d) ← load_cluster fs current data d;
  let room := u32 (bytes_per_cluster fs - data_offset_in_cluster) in
  let n := if room >? num_bytes then num_bytes else room in
  buf ← stdmem_copy buf 0 data data_offset_in_cluster n;
  '(next, d) ← get_successor_cluster fs current d;
  while_loop fuel (read_turn fs num_bytes) (buf, data, next, n, d).

(** The two loops of [write_to_file] after its first cluster: over the clusters
    the file has, then over new ones. *)
Definition overwrite_turn (fs : fat16_t) (buf : list Z) (num_bytes : Z) (st : list Z * Z * Z * Z * D)
  : outcome ((list Z * Z * Z * Z * D) + (list Z * Z * Z * D)) :=
  let '(data, previous, current, num_bytes_written, d) := st in
  if in_use current && (num_bytes_written <? num_bytes) then
    '(data, d) ← load_cluster fs current data d;
    let n := if u32 (num_bytes - num_bytes_written) >? bytes_per_cluster fs then bytes_per_cluster fs
             else u32 (num_bytes - num_bytes_written) in
    data ← stdmem_copy data 0 buf num_bytes_written n;
    d ← write_cluster fs current data d;
    '(next, d) ← get_successor_cluster fs current d;
    Ok (inl (data, current, next, u32 (num_bytes_written + n), d))
  else Ok (inr (data, previous, num_bytes_written, d)).

Definition extend_turn (fs : fat16_t) (buf : list Z) (num_bytes : Z) (st : list Z * Z * Z * D)
  : outcome ((list Z * Z * Z * D) + (Z * D)) :=
  let '(data, previous, num_bytes_written, d) := st in
  if num_bytes_written <? num_bytes then
    '(next_free, d) ← find_first_free_cluster fs d;
    if next_free <? 2 then Ok (inr (num_bytes_written, d))
    else
      d ← set_successor_cluster fs previous next_free d;
      d ← set_successor_cluster fs next_free 65535 d;
      '(data, d) ← load_cluster fs next_free data d;
      let n := if u32 (num_bytes - num_bytes_written) >? bytes_per_cluster fs then bytes_per_cluster fs
               else u32 (num_bytes - num_bytes_written) in
      data ← stdmem_copy data 0 buf num_bytes_written n;
      d ← write_cluster fs next_free data d;
      Ok (inl (data, next_free, u32 (num_bytes_written + n), d))
  else Ok (inr (num_bytes_written, d)).

Definition write_to_file (fuel : nat) (fs : fat16_t) (entry : fat16_dir_entry_t) (offset_bytes : Z)
    (buf : list Z) (num_bytes : Z) (d : D) : outcome (Z * D) :=
  let data_starts_in_cluster := u16 (offset_bytes / bytes_per_cluster fs) in
  let data_offset_in_cluster := u16 (offset_bytes - data_starts_in_cluster * bytes_per_cluster fs) in
  let data := fresh (sectors_per_cluster fs * bytes_per_sector fs) in
  '(_, current, _, d) ← walk fuel fs data_starts_in_cluster (first_cluster entry) d;
  '(data, d) ← load_cluster fs current data d;
  let room := u32 (bytes_per_cluster fs - data_offset_in_cluster) in
  let n := if room >? num_bytes then num_bytes else room in
  data ← stdmem_copy data data_offset_in_cluster buf 0 n;
  d ← write_cluster fs current data d;
  '(next, d) ← get_successor_cluster fs current d;
  '(data, previous, num_bytes_written, d) ← while_loop fuel (overwrite_turn fs buf num_bytes) (data, current, next, n, d);
  while_loop fuel (extend_turn fs buf num_bytes) (data, previous, num_bytes_written, d).

Definition num_clusters_in_chain (fuel : nat) (fs : fat16_t) (first : Z) (d : D) : outcome (Z * D) :=
  if in_use first then
    '(next, d) ← get_successor_cluster fs first d;
    while_loop fuel (fun '(count, next, d) =>
      if in_use next then
        '(next', d) ← get_successor_cluster fs next d;
        Ok (inl (u16 (count + 1), next', d))
      else Ok (inr (count, d))) (1, next, d)
  else Ok (0, d).
End Volume.
