(* ===== verification/Volume.v ===== *)
(** * What a FAT16 volume holds

    The view of a disk as an allocation table and an array of clusters, the
    proof that the operations of [Fat16] work on that view, and chains. *)
From S2P Require Import Prelude Mem Disk Fat16.

Section View.
Context `{BlockDeviceLaws D} (fs : fat16_t) (N : Z).

(** The geometries the development covers: 512-byte sectors, and a table and a
    data region that the disk of [N] sectors holds. *)
Record layout : Prop := {
  lay_bps : bytes_per_sector fs = sector_size;
  lay_spc : 1 <= sectors_per_cluster fs <= 128;
  lay_reserved : 0 <= num_reserved_sectors fs < 2 ^ 16;
  lay_fats : 1 <= num_file_allocation_tables fs < 256;
  lay_spf : 1 <= num_sectors_per_file_allocation_table fs <= 256;
  lay_root : 0 <= num_root_directory_entries fs < 2 ^ 16;
  lay_disk : N < 2 ^ 31
}.

Definition table_start : Z := num_reserved_sectors fs.
Definition root_start : Z :=
  num_reserved_sectors fs + num_file_allocation_tables fs * num_sectors_per_file_allocation_table fs.
Definition data_start : Z := root_start + num_root_directory_entries fs * 32 / sector_size.

(** A disk of [N] sectors, idle. *)
Definition vol (d : D) : Prop := ready d /\ sectors d = N /\ data_start <= N.

(** Entry [n] of the table exists; cluster [n] is on the disk. *)
Definition in_table (n : Z) : Prop := 0 <= n < 256 * num_sectors_per_file_allocation_table fs.
Definition on_disk (n : Z) : Prop := 2 <= n /\ data_start + (n - 1) * sectors_per_cluster fs <= N.
Definition valid (n : Z) : Prop := in_table n /\ on_disk n.

Definition table_sector (n : Z) : Z := table_start + n * 2 / sector_size.
Definition fat (d : D) (n : Z) : Z :=
  let b := sector d (table_sector n) in
  default 0 (b !! Z.to_nat (n mod 256 * 2)) + default 0 (b !! Z.to_nat (n mod 256 * 2 + 1)) * 256.

Definition cluster_start (n : Z) : Z := data_start + (n - 2) * sectors_per_cluster fs.
Definition cluster (d : D) (n : Z) : list Z :=
  mjoin (sector d <$> seqZ (cluster_start n) (sectors_per_cluster fs)).

Definition cluster_size : Z := sector_size * sectors_per_cluster fs.

Context (Hlay : layout).

Lemma regions_eq :
  fat_region_start (calculate_regions fs) = table_start /\
  root_directory_region_start (calculate_regions fs) = root_start /\
  data_region_start (calculate_regions fs) = data_start.
Proof.
  destruct Hlay as [Hb _ Hr Hf Hs He _]. unfold calculate_regions; simpl. rewrite Hb.
  unfold data_start, root_start, table_start, sector_size.
  assert (0 <= num_root_directory_entries fs * 32 / 512 < 2 ^ 13) by (split; [apply Z.div_pos|apply Z.div_lt_upper_bound]; lia).
  assert (0 <= num_file_allocation_tables fs * num_sectors_per_file_allocation_table fs < 2 ^ 16) by nia.
  split; [done|]. split; nowrap; done.
Qed.

Lemma root_start_bounds : table_start + num_sectors_per_file_allocation_table fs <= root_start <= data_start.
Proof.
  destruct Hlay as [_ _ Hr Hf Hs He _]. unfold data_start, root_start, table_start, sector_size.
  pose proof (Z.div_pos (num_root_directory_entries fs * 32) 512). nia.
Qed.

(** Every sector an operation touches is on the disk. *)
Lemma table_sector_bounds d n : vol d -> in_table n -> 0 <= table_sector n < sectors d /\ table_sector n < root_start.
Proof.
  intros (_ & -> & Hd) Hn. pose proof root_start_bounds. destruct Hlay as [_ _ Hr _ Hs _ _].
  unfold in_table, table_sector, table_start, sector_size in *.
  assert (0 <= n * 2 / 512 < num_sectors_per_file_allocation_table fs) by (split; [apply Z.div_pos|apply Z.div_lt_upper_bound]; lia).
  lia.
Qed.

Lemma cluster_sector_bounds d n i :
  vol d -> on_disk n -> 0 <= i < sectors_per_cluster fs -> data_start <= cluster_start n + i < sectors d /\ 0 <= data_start.
Proof.
  intros (_ & -> & Hd) [Hn1 Hn2] Hi. pose proof root_start_bounds. destruct Hlay as [_ Hc Hr _ Hs _ _].
  unfold cluster_start, table_start in *.
  assert (0 <= (n - 2) * sectors_per_cluster fs) by nia.
  assert ((n - 1) * sectors_per_cluster fs = (n - 2) * sectors_per_cluster fs + sectors_per_cluster fs) by nia. lia.
Qed.

(** ** Sectors in and out of buffers *)
Lemma rd_into_spec d a buf off :
  vol d -> 0 <= a < sectors d -> 0 <= off -> off + sector_size <= zlength buf ->
  rd_into a buf off sector_size d = Ok (splice buf off (sector d a), d).
Proof.
  intros (Hr & _) Ha Ho Hb. unfold rd_into. rewrite decide_True by lia.
  rewrite disk_rd_law; [done|done|done|]. rewrite slice_length; unfold sector_size in *; lia.
Qed.

Lemma slice_bytes b off n : is_bytes b -> is_bytes (slice b off n).
Proof. intros Hb. by apply Forall_take, Forall_drop. Qed.

Lemma splice_bytes b off s : is_bytes b -> is_bytes s -> is_bytes (splice b off s).
Proof. intros Hb Hs. unfold splice, is_bytes. rewrite !Forall_app. split_and!; [by apply Forall_take|done|by apply Forall_drop]. Qed.

Lemma wr_from_spec d a buf off :
  vol d -> 0 <= a < sectors d -> 0 <= off -> off + sector_size <= zlength buf -> is_bytes buf ->
  exists d', wr_from a buf off sector_size d = Ok d' /\ vol d' /\
    forall b, 0 <= b < N -> sector d' b = if decide (b = a) then slice buf off sector_size else sector d b.
Proof.
  intros (Hr & Hn & Hd) Ha Ho Hb Hby. unfold wr_from. rewrite decide_True by lia.
  destruct (disk_wr_law d a (slice buf off sector_size)) as (d' & E & Hr' & Hs' & Hsec); [done|done| |by apply slice_bytes|].
  { rewrite slice_length; unfold sector_size in *; lia. }
  exists d'. split; [done|]. split; [split; [done|split; [congruence|done]]|]. intros b Hbn. apply Hsec. lia.
Qed.

(** ** The table *)
Lemma table_split n : 0 <= n -> n * 2 / sector_size = n / 256 /\ n = n / 256 * 256 + n mod 256 /\ 0 <= n mod 256 < 256.
Proof.
  intros Hn. unfold sector_size. change 512 with (256 * 2). rewrite Z.div_mul_cancel_r by lia.
  pose proof (Z.div_mod n 256). pose proof (Z.mod_pos_bound n 256). lia.
Qed.

Lemma fresh_sector b : zlength b = sector_size -> splice (fresh sector_size) 0 b = b.
Proof.
  intros Hb. unfold splice, fresh. rewrite drop_ge by (rewrite length_replicate; unfold sector_size in *; lia). apply app_nil_r.
Qed.

Lemma disk_small d : vol d -> sectors d < 2 ^ 31.
Proof. intros (_ & -> & _). apply Hlay. Qed.

(** The read both operations on the table start with. *)
Lemma table_read d n :
  vol d -> in_table n ->
  rd_into (u32 (fat_region_start (calculate_regions fs) + n * 2 / bytes_per_sector fs)) (fresh (bytes_per_sector fs)) 0
    (bytes_per_sector fs) d = Ok (sector d (table_sector n), d).
Proof.
  intros Hv Hn. destruct (table_sector_bounds d n Hv Hn) as [Ht _]. destruct regions_eq as (-> & _ & _).
  pose proof (disk_small d Hv). rewrite (lay_bps Hlay). fold (table_sector n). rewrite u32_small by lia.
  rewrite rd_into_spec; [|done|done|lia|unfold fresh; rewrite length_replicate; lia].
  rewrite fresh_sector; [done|]. apply sector_length; [apply Hv|done].
Qed.

Lemma index_small n : in_table n -> n < 2 ^ 16 -> 0 <= n / 256 < 2 ^ 16.
Proof. unfold in_table. intros. split; [apply Z.div_pos|apply Z.div_lt_upper_bound]; lia. Qed.

Lemma get_successor_spec d n :
  vol d -> in_table n -> n < 2 ^ 16 -> get_successor_cluster fs n d = Ok (fat d n, d) /\ 0 <= fat d n < 2 ^ 16.
Proof.
  intros Hv Hn Hn16. destruct (table_sector_bounds d n Hv Hn) as [Ht _].
  destruct (table_split n ltac:(unfold in_table in Hn; lia)) as (Es & En & Hm). pose proof (index_small n Hn Hn16).
  pose proof (sector_length d _ (proj1 Hv) Ht) as Hl. pose proof (sector_bytes d _ (proj1 Hv) Ht) as Hby.
  unfold get_successor_cluster. rewrite table_read by done. ok_bind. rewrite (lay_bps Hlay).
  change (sector_size / 2) with 256. rewrite Es.
  rewrite u32_small, u16_small by lia. replace (n - 256 * (n / 256)) with (n mod 256) by lia. unfold sector_size in *.
  destruct (buf_get_Ok (sector d (table_sector n)) (n mod 256 * 2)) as (lo & Hlo & ->); [lia|]. ok_bind.
  destruct (buf_get_Ok (sector d (table_sector n)) (n mod 256 * 2 + 1)) as (hi & Hhi & ->); [lia|]. ok_bind.
  pose proof (Forall_lookup_1 _ _ _ _ Hby Hlo) as B1. pose proof (Forall_lookup_1 _ _ _ _ Hby Hhi) as B2.
  unfold is_byte in B1, B2. unfold fat. rewrite Hlo, Hhi; simpl. rewrite u16_small by lia. split; [done|lia].
Qed.

(** A table sector with entry [n] replaced. *)
Definition put_entry (n v : Z) (b : list Z) : list Z :=
  <[Z.to_nat (n mod 256 * 2 + 1) := v / 256]> (<[Z.to_nat (n mod 256 * 2) := v mod 256]> b).

Lemma put_entry_bytes n v b : 0 <= v < 2 ^ 16 -> is_bytes b -> is_bytes (put_entry n v b).
Proof.
  intros Hv Hb. unfold put_entry, is_bytes. apply Forall_insert; [apply Forall_insert; [done|]|]; unfold is_byte.
  - apply Z.mod_pos_bound; lia.
  - split; [apply Z.div_pos|apply Z.div_lt_upper_bound]; lia.
Qed.

Lemma put_entry_lookup n m v b :
  zlength b = sector_size -> 0 <= n -> 0 <= m ->
  default 0 (put_entry n v b !! Z.to_nat (m mod 256 * 2)) + default 0 (put_entry n v b !! Z.to_nat (m mod 256 * 2 + 1)) * 256 =
    if decide (m mod 256 = n mod 256) then v
    else default 0 (b !! Z.to_nat (m mod 256 * 2)) + default 0 (b !! Z.to_nat (m mod 256 * 2 + 1)) * 256.
Proof.
  intros Hb Hn Hm. destruct (table_split n Hn) as (_ & _ & Hn'), (table_split m Hm) as (_ & _ & Hm').
  unfold put_entry, sector_size in *. case_decide as E.
  - rewrite E. rewrite list_lookup_insert_ne, list_lookup_insert_eq, list_lookup_insert_eq by (rewrite ?length_insert; lia).
    simpl. pose proof (Z.div_mod v 256). lia.
  - by rewrite !list_lookup_insert_ne by lia.
Qed.

(** Everything but some sectors is as it was. *)
Definition untouched (P : Z -> Prop) (d d' : D) : Prop :=
  vol d' /\ forall a, 0 <= a < N -> ~ P a -> sector d' a = sector d a.

Lemma set_successor_spec d n v :
  vol d -> in_table n -> n < 2 ^ 16 -> 0 <= v < 2 ^ 16 ->
  exists d', set_successor_cluster fs n v d = Ok d' /\ untouched (fun a => a = table_sector n) d d' /\
    (forall m, in_table m -> fat d' m = if decide (m = n) then v else fat d m).
Proof.
  intros Hv Hn Hn16 Hval. destruct (table_sector_bounds d n Hv Hn) as [Ht _].
  destruct (table_split n ltac:(unfold in_table in Hn; lia)) as (Es & En & Hm). pose proof (index_small n Hn Hn16).
  assert (Et : table_sector n = table_start + n / 256) by (unfold table_sector; by rewrite Es).
  pose proof (sector_length d _ (proj1 Hv) Ht) as Hl. pose proof (sector_bytes d _ (proj1 Hv) Ht) as Hby.
  unfold set_successor_cluster. rewrite table_read by done. ok_bind. rewrite (lay_bps Hlay), Es, high_byte, low_byte by done.
  unfold sector_size in *. rewrite (u32_small (n / 256 * 512)), u16_small by lia. replace (n * 2 - n / 256 * 512) with (n mod 256 * 2) by lia.
  rewrite buf_set_Ok by lia. ok_bind. rewrite buf_set_Ok by (rewrite length_insert; lia). ok_bind. fold (put_entry n v (sector d (table_sector n))).
  assert (Hpl : zlength (put_entry n v (sector d (table_sector n))) = 512) by (unfold put_entry; by rewrite !length_insert).
  destruct (wr_from_spec d (table_sector n) (put_entry n v (sector d (table_sector n))) 0) as (d' & E & Hv' & Hs');
    [done|done|lia|unfold sector_size; lia|by apply put_entry_bytes|].
  destruct regions_eq as (-> & _ & _). pose proof (disk_small d Hv).
  rewrite <- Et, (u32_small (table_sector n)) by lia.
  exists d'. split; [exact E|]. rewrite slice_0 in Hs' by (unfold sector_size; lia). split.
  - split; [done|]. intros a Ha Hne. rewrite Hs' by done. by rewrite decide_False.
  - intros m Hin. destruct (table_sector_bounds d m Hv Hin) as [Htm _].
    destruct (table_split m ltac:(unfold in_table in Hin; lia)) as (Esm & Em & Hmm).
    assert (Etm : table_sector m = table_start + m / 256) by (unfold table_sector; by rewrite Esm).
    unfold fat. rewrite Hs' by (destruct Hv as (_ & <- & _); done). case_decide as Ea.
    + rewrite put_entry_lookup by (done || (unfold in_table in *; lia)). rewrite Ea.
      destruct (decide (m = n)) as [->|]; [by rewrite decide_True|]. by rewrite decide_False by lia.
    + rewrite decide_False; [done|]. by intros ->.
Qed.

(** ** Clusters *)
Lemma first_sector_eq d n : vol d -> on_disk n -> first_sector fs n = cluster_start n.
Proof.
  intros Hv Hn. destruct regions_eq as (_ & _ & E). pose proof (disk_small d Hv).
  destruct (cluster_sector_bounds d n 0 Hv Hn) as [Hb Hd]; [pose proof (lay_spc Hlay); lia|].
  unfold first_sector. rewrite E. unfold cluster_start in *. rewrite Z.add_0_r in Hb.
  assert (0 <= (n - 2) * sectors_per_cluster fs) by (destruct Hn; pose proof (lay_spc Hlay); nia).
  by nowrap.
Qed.

(** [k] sectors from [a] on. *)
Definition run_of (f : Z -> list Z) (a k : Z) : list Z := mjoin (f <$> seqZ a k).

Lemma run_of_snoc f a k : 0 <= k -> run_of f a (k + 1) = run_of f a k ++ f (a + k).
Proof. intros Hk. unfold run_of. rewrite seqZ_app, fmap_app, join_app by lia. simpl. by rewrite app_nil_r. Qed.

Lemma run_of_length f a k :
  0 <= k -> (forall i, 0 <= i < k -> zlength (f (a + i)) = sector_size) -> zlength (run_of f a k) = k * sector_size.
Proof.
  intros Hk. pattern k. apply natlike_ind; [by intros _| |done]. clear k Hk. intros k Hk IH Hf.
  replace (Z.succ k) with (k + 1) by lia. rewrite run_of_snoc, length_app by done.
  rewrite Nat2Z.inj_add, IH by (intros; apply Hf; lia). rewrite Hf by lia. lia.
Qed.

Lemma cluster_run d n : cluster d n = run_of (sector d) (cluster_start n) (sectors_per_cluster fs).
Proof. done. Qed.

Lemma cluster_sector_length d n i :
  vol d -> on_disk n -> 0 <= i < sectors_per_cluster fs -> zlength (sector d (cluster_start n + i)) = sector_size.
Proof.
  intros Hv Hn Hi. destruct (cluster_sector_bounds d n i Hv Hn Hi). apply sector_length; [apply Hv|lia].
Qed.

Lemma cluster_length d n : vol d -> on_disk n -> zlength (cluster d n) = cluster_size.
Proof.
  intros Hv Hn. pose proof (lay_spc Hlay). rewrite cluster_run, run_of_length; [unfold cluster_size; lia|lia|].
  intros i Hi. by apply cluster_sector_length.
Qed.

Lemma cluster_bytes d n : vol d -> on_disk n -> is_bytes (cluster d n).
Proof.
  intros Hv Hn. unfold cluster, is_bytes. apply Forall_join. apply Forall_fmap, Forall_forall. intros a Ha.
  apply elem_of_seqZ in Ha. destruct (cluster_sector_bounds d n (a - cluster_start n) Hv Hn) as [Hb _]; [lia|].
  replace (cluster_start n + (a - cluster_start n)) with a in Hb by lia. apply sector_bytes; [apply Hv|]. pose proof root_start_bounds.
  pose proof (lay_spf Hlay). pose proof (lay_reserved Hlay). unfold table_start in *. lia.
Qed.

Lemma load_cluster_at_spec d n buf off :
  vol d -> on_disk n -> 0 <= off -> off + cluster_size <= zlength buf ->
  load_cluster_at fs n buf off d = Ok (splice buf off (cluster d n), d).
Proof.
  intros Hv Hn Ho Hb. pose proof (lay_spc Hlay). unfold load_cluster_at. rewrite (lay_bps Hlay), (first_sector_eq d) by done.
  destruct (for_loop_inv (fun i st => st = (splice buf off (run_of (sector d) (cluster_start n) i), d))
    (Z.to_nat (sectors_per_cluster fs)) 0
    (fun i '(buf, d) => rd_into (u32 (cluster_start n + i)) buf (off + i * sector_size) sector_size d) (buf, d))
    as (st & E & Hst).
  - by rewrite splice_nil.
  - intros i st Hi ->. destruct (cluster_sector_bounds d n i Hv Hn) as [Hs _]; [lia|]. pose proof (disk_small d Hv).
    pose proof root_start_bounds. pose proof (lay_spf Hlay). pose proof (lay_reserved Hlay). unfold table_start in *.
    assert (Hl : zlength (run_of (sector d) (cluster_start n) i) = i * sector_size).
    { apply run_of_length; [lia|]. intros j Hj. apply cluster_sector_length; [done|done|lia]. }
    assert (Hfit : off + (i + 1) * sector_size <= zlength buf) by (unfold cluster_size, sector_size in *; nia).
    rewrite u32_small by lia. eexists. split.
    { apply rd_into_spec; [done|lia|unfold sector_size; lia|]. rewrite splice_length; unfold sector_size in *; lia. }
    rewrite run_of_snoc, <- Hl, splice_splice; [done|lia| |lia]. rewrite Hl, cluster_sector_length; [lia|done|done|lia].
  - rewrite E, Hst, cluster_run. do 4 f_equal. lia.
Qed.

Lemma load_cluster_spec d n buf :
  vol d -> on_disk n -> zlength buf = cluster_size -> load_cluster fs n buf d = Ok (cluster d n, d).
Proof.
  intros Hv Hn Hb. unfold load_cluster. rewrite load_cluster_at_spec by (done || lia). do 2 f_equal.
  pose proof (cluster_length d n Hv Hn). unfold splice. rewrite drop_ge by lia. by rewrite app_nil_r.
Qed.

Lemma run_of_slices buf a k :
  0 <= k -> run_of (fun b => slice buf ((b - a) * sector_size) sector_size) a k = slice buf 0 (k * sector_size).
Proof.
  intros Hk. pattern k. apply natlike_ind; [|clear k Hk; intros k Hk IH|done].
  - done.
  - replace (Z.succ k) with (k + 1) by lia. rewrite run_of_snoc, IH by done. rewrite Z.mul_add_distr_r, Z.mul_1_l.
    rewrite slice_split by (unfold sector_size; lia). do 2 f_equal. lia.
Qed.

Lemma run_of_ext f g a k : (forall i, 0 <= i < k -> f (a + i) = g (a + i)) -> run_of f a k = run_of g a k.
Proof.
  intros Hfg. unfold run_of. f_equal. apply list_fmap_ext. intros i x Hx.
  apply lookup_seqZ in Hx as [-> Hi]. apply Hfg. lia.
Qed.

Lemma write_cluster_spec d n buf :
  vol d -> on_disk n -> zlength buf = cluster_size -> is_bytes buf ->
  exists d', write_cluster fs n buf d = Ok d' /\
    untouched (fun a => cluster_start n <= a < cluster_start n + sectors_per_cluster fs) d d' /\ cluster d' n = buf.
Proof.
  intros Hv Hn Hb Hby. pose proof (lay_spc Hlay). unfold write_cluster. rewrite (lay_bps Hlay), (first_sector_eq d) by done.
  pose proof root_start_bounds. pose proof (lay_spf Hlay). pose proof (lay_reserved Hlay). unfold table_start in *.
  destruct (for_loop_inv (fun i d' => vol d' /\ forall a, 0 <= a < N -> sector d' a =
      if decide (cluster_start n <= a < cluster_start n + i) then slice buf ((a - cluster_start n) * sector_size) sector_size
      else sector d a) (Z.to_nat (sectors_per_cluster fs)) 0
    (fun i d => wr_from (u32 (cluster_start n + i)) buf (i * sector_size) sector_size d) d) as (d' & E & Hv' & Hs').
  - split; [done|]. intros a Ha. by rewrite decide_False by lia.
  - intros i d1 Hi [Hv1 Hs1]. destruct (cluster_sector_bounds d1 n i Hv1 Hn) as [Hs _]; [lia|]. pose proof (disk_small d1 Hv1).
    rewrite u32_small by lia.
    destruct (wr_from_spec d1 (cluster_start n + i) buf (i * sector_size)) as (d2 & -> & Hv2 & Hs2);
      [done|lia|unfold sector_size; lia|unfold cluster_size, sector_size in *; nia|done|].
    exists d2. split; [done|]. split; [done|]. intros a Ha. rewrite Hs2 by done. case_decide as Ea.
    + subst a. rewrite decide_True by lia. do 2 f_equal. lia.
    + rewrite Hs1 by done. destruct (decide (cluster_start n <= a < cluster_start n + i));
        [by rewrite decide_True by lia|by rewrite decide_False by lia].
  - exists d'. split; [done|]. rewrite Z.add_0_l, Z2Nat.id in Hs' by lia. split.
    + split; [done|]. intros a Ha Hne. rewrite Hs' by done. by rewrite decide_False.
    + rewrite cluster_run. rewrite (run_of_ext _ (fun b => slice buf ((b - cluster_start n) * sector_size) sector_size)).
      * rewrite run_of_slices by lia. apply slice_0. unfold cluster_size in Hb. lia.
      * intros i Hi. destruct (cluster_sector_bounds d' n i Hv' Hn Hi) as [Hs _]. destruct Hv' as (_ & HN & _).
        rewrite Hs' by lia. by rewrite decide_True by lia.
Qed.

(** ** Frames *)

(** [d'] is [d] but for the table entries in [F] and the clusters in [C]. *)
Record same_but (F C : list Z) (d d' : D) : Prop := {
  sb_vol : vol d';
  sb_fat : forall m, in_table m -> m ∉ F -> fat d' m = fat d m;
  sb_cluster : forall m, on_disk m -> m ∉ C -> cluster d' m = cluster d m;
  sb_rest : forall a, 0 <= a < data_start ->
    a < table_start \/ table_start + num_sectors_per_file_allocation_table fs <= a -> sector d' a = sector d a
}.

Lemma same_but_refl d : vol d -> same_but [] [] d d.
Proof. by constructor. Qed.

Lemma same_but_trans F C F' C' d d' d'' :
  same_but F C d d' -> same_but F' C' d' d'' -> same_but (F ++ F') (C ++ C') d d''.
Proof.
  intros [Hv1 Hf1 Hc1 Hr1] [Hv2 Hf2 Hc2 Hr2]. constructor; [done|..].
  - intros m Hm Hin. rewrite Hf2, Hf1; set_solver.
  - intros m Hm Hin. rewrite Hc2, Hc1; set_solver.
  - intros a Ha Hor. by rewrite Hr2, Hr1.
Qed.

Lemma same_but_weaken F C F' C' d d' : F ⊆ F' -> C ⊆ C' -> same_but F C d d' -> same_but F' C' d d'.
Proof. intros HF HC [Hv Hf Hc Hr]. constructor; [done|..|done]; intros m Hm Hin; [apply Hf|apply Hc]; set_solver. Qed.

Lemma untouched_cluster P d d' m :
  vol d -> untouched P d d' -> on_disk m ->
  (forall i, 0 <= i < sectors_per_cluster fs -> ~ P (cluster_start m + i)) -> cluster d' m = cluster d m.
Proof.
  intros Hv [Hv' Hs] Hm HP. rewrite !cluster_run. apply run_of_ext. intros i Hi.
  destruct (cluster_sector_bounds d m i Hv Hm Hi). apply Hs; [destruct Hv as (_ & <- & _); lia|by apply HP].
Qed.

Lemma untouched_fat P d d' m :
  vol d -> untouched P d d' -> in_table m -> ~ P (table_sector m) -> fat d' m = fat d m.
Proof.
  intros Hv [Hv' Hs] Hm HP. unfold fat. destruct (table_sector_bounds d m Hv Hm) as [Ht _].
  rewrite Hs; [done|destruct Hv as (_ & <- & _); done|done].
Qed.

(** The table is below the data region. *)
Lemma table_sector_lt n : in_table n -> table_start <= table_sector n < table_start + num_sectors_per_file_allocation_table fs.
Proof.
  unfold in_table, table_sector, sector_size. intros Hn.
  assert (0 <= n * 2 / 512 < num_sectors_per_file_allocation_table fs) by (split; [apply Z.div_pos|apply Z.div_lt_upper_bound]; lia).
  lia.
Qed.

Lemma set_successor_same d n v :
  vol d -> in_table n -> n < 2 ^ 16 -> 0 <= v < 2 ^ 16 ->
  exists d', set_successor_cluster fs n v d = Ok d' /\ same_but [n] [] d d' /\ fat d' n = v.
Proof.
  intros Hv Hn Hn16 Hval. destruct (set_successor_spec d n v Hv Hn Hn16 Hval) as (d' & E & Hu & Hf).
  exists d'. split; [done|]. pose proof (table_sector_lt n Hn). pose proof root_start_bounds.
  split; [|by rewrite Hf, decide_True]. constructor; [apply Hu|..].
  - intros m Hm Hin. rewrite Hf, decide_False; [done|set_solver|done].
  - intros m Hm _. eapply untouched_cluster; [done|exact Hu|done|]. intros i Hi Heq.
    destruct (cluster_sector_bounds d m i Hv Hm Hi). lia.
  - intros a Ha Hor. destruct Hu as [_ Hs]. destruct Hv as (_ & _ & HN). apply Hs; lia.
Qed.

(** Different clusters share no sector. *)
Lemma cluster_disjoint n m i :
  n <> m -> 0 <= i < sectors_per_cluster fs ->
  ~ (cluster_start n <= cluster_start m + i < cluster_start n + sectors_per_cluster fs).
Proof.
  intros Hnm Hi. pose proof (lay_spc Hlay). unfold cluster_start.
  set (k := sectors_per_cluster fs) in *.
  assert ((m - 2) * k <= (n - 2) * k - k \/ (n - 2) * k + k <= (m - 2) * k) by (destruct (decide (m < n)); nia). lia.
Qed.

Lemma write_cluster_same d n buf :
  vol d -> on_disk n -> zlength buf = cluster_size -> is_bytes buf ->
  exists d', write_cluster fs n buf d = Ok d' /\ same_but [] [n] d d' /\ cluster d' n = buf.
Proof.
  intros Hv Hn Hb Hby. destruct (write_cluster_spec d n buf Hv Hn Hb Hby) as (d' & E & Hu & Hc).
  exists d'. split; [done|]. split; [|done].
  assert (Hlow : data_start <= cluster_start n).
  { pose proof (lay_spc Hlay). destruct (cluster_sector_bounds d n 0 Hv Hn) as [Hb0 _]; lia. }
  constructor; [apply Hu|..].
  - intros m Hm _. eapply untouched_fat; [done|exact Hu|done|]. pose proof (table_sector_lt m Hm). pose proof root_start_bounds. cbv beta. lia.
  - intros m Hm Hin. eapply untouched_cluster; [done|exact Hu|done|]. intros i Hi. apply cluster_disjoint; [set_solver|done].
  - intros a Ha _. destruct Hu as [_ Hs]. destruct Hv as (_ & _ & HN). apply Hs; lia.
Qed.

(** ** Chains *)

(** From cluster [n] the table leads through exactly [ns] to an end mark. *)
Inductive chain (d : D) : Z -> list Z -> Prop :=
| chain_end n : 65520 <= n < 2 ^ 16 -> chain d n []
| chain_link n ns : in_use n = true -> valid n -> chain d (fat d n) ns -> chain d n (n :: ns).

(** The bytes of the clusters of a chain. *)
Definition chain_bytes (d : D) (ns : list Z) : list Z := mjoin (cluster d <$> ns).

Lemma in_use_range n : in_use n = true <-> 2 <= n < 65520.
Proof. unfold in_use. lia. Qed.

Lemma chain_det d n ns ms : chain d n ns -> chain d n ms -> ns = ms.
Proof.
  intros Hns. revert ms. induction Hns as [n Hn|n ns Hu Hv Hc IH]; intros ms Hms; inversion Hms as [? Hn'|? ms' Hu' Hv' Hc']; subst.
  - done.
  - apply in_use_range in Hu'. lia.
  - apply in_use_range in Hu. lia.
  - f_equal. by apply IH.
Qed.

Lemma chain_suffix d n ns m : chain d n ns -> m ∈ ns -> exists ms, chain d m (m :: ms) /\ (length (m :: ms) <= length ns)%nat.
Proof.
  induction 1 as [|n ns Hu Hv Hc IH]; [set_solver|]. intros [->|Hin]%elem_of_cons.
  - exists ns. split; [by constructor|done].
  - destruct (IH Hin) as (ms & Hms & Hl). exists ms. split; [done|simpl in *; lia].
Qed.

(** A chain that ends does not come back to a cluster. *)
Lemma chain_nodup d n ns : chain d n ns -> NoDup ns.
Proof.
  induction 1 as [|n ns Hu Hv Hc IH]; constructor; [|done]. intros Hin.
  destruct (chain_suffix d _ _ n Hc Hin) as (ms & Hms & Hl).
  pose proof (chain_det d n _ _ Hms (chain_link d n ns Hu Hv Hc)) as E. injection E as ->. simpl in Hl. lia.
Qed.

Lemma chain_valid d n ns m : chain d n ns -> m ∈ ns -> valid m /\ in_use m = true.
Proof. induction 1; [set_solver|]. intros [->|]%elem_of_cons; auto. Qed.

(** A chain is not longer than the table: 65536 turns are enough for any loop
    along it. *)
Lemma chain_length d n ns : chain d n ns -> (length ns < Z.to_nat 65536)%nat.
Proof.
  intros Hc. assert (Hsub : ns ⊆+ seqZ 2 65518).
  { apply NoDup_submseteq; [by eapply chain_nodup|]. intros m Hm. apply elem_of_seqZ.
    destruct (chain_valid d n ns m Hc Hm) as [_ Hu%in_use_range]. lia. }
  apply submseteq_length in Hsub. rewrite length_seqZ in Hsub. lia.
Qed.

(** What a change elsewhere leaves. *)
Lemma chain_same F C d d' n ns : same_but F C d d' -> chain d n ns -> (forall m, m ∈ ns -> m ∉ F) -> chain d' n ns.
Proof.
  intros Hs. induction 1 as [n Hn|n ns Hu Hv Hc IH]; intros HF; [by constructor|].
  apply chain_link; [done|done|]. rewrite (sb_fat _ _ _ _ Hs); [|apply Hv|apply HF; set_solver].
  apply IH. intros m Hm. apply HF. set_solver.
Qed.

Lemma chain_bytes_same F C d d' ns :
  same_but F C d d' -> (forall m, m ∈ ns -> on_disk m /\ m ∉ C) -> chain_bytes d' ns = chain_bytes d ns.
Proof.
  intros Hs Hm. unfold chain_bytes. f_equal. apply list_fmap_ext. intros i m Hi. apply list_elem_of_lookup_2 in Hi.
  destruct (Hm m Hi). by apply (sb_cluster _ _ _ _ Hs).
Qed.

(** The table and the clusters stay, whatever else changes. *)
Definition same_data (d d' : D) : Prop :=
  (forall m, in_table m -> fat d' m = fat d m) /\ (forall m, on_disk m -> cluster d' m = cluster d m).

Lemma chain_data d d' n ns : same_data d d' -> chain d n ns -> chain d' n ns.
Proof.
  intros [Hf _]. induction 1 as [n Hn|n ns Hu Hv Hc IH]; [by constructor|].
  apply chain_link; [done|done|]. by rewrite Hf by apply Hv.
Qed.

Lemma chain_bytes_data d d' n ns : same_data d d' -> chain d n ns -> chain_bytes d' ns = chain_bytes d ns.
Proof.
  intros [_ Hcl] Hc. unfold chain_bytes. f_equal. apply list_fmap_ext. intros i m Hi%list_elem_of_lookup_2.
  apply Hcl. by apply (chain_valid d n ns m Hc).
Qed.

Lemma chain_bytes_length d ns :
  vol d -> (forall m, m ∈ ns -> on_disk m) -> zlength (chain_bytes d ns) = cluster_size * zlength ns.
Proof.
  intros Hv. induction ns as [|n ns IH]; intros Hm; [by rewrite Z.mul_0_r|].
  unfold chain_bytes in *. csimpl. rewrite length_app, Nat2Z.inj_add, IH, cluster_length; [lia|done|..]; set_solver.
Qed.
End View.
