(* ===== verification/Files.v ===== *)
(** * The bytes of a file

    [read_from_file] and [write_to_file] against the bytes of the file's chain
    of clusters: a read is a slice, a write is a splice, with new clusters
    linked to the chain when it is too short, and nothing else on the disk
    changes. *)
From S2P Require Import Prelude Mem Disk Fat16 Volume.

Section Files.
Context `{BlockDeviceLaws D} (fs : fat16_t) (N : Z).
Abbreviation layout := (layout fs N).
Abbreviation vol := (vol fs N).
Abbreviation in_table := (in_table fs).
Abbreviation on_disk := (on_disk fs N).
Abbreviation valid := (valid fs N).
Abbreviation fat := (fat fs).
Abbreviation cluster := (cluster fs).
Abbreviation chain := (chain fs N).
Abbreviation chain_bytes := (chain_bytes fs).
Abbreviation same_but := (same_but fs N).
Abbreviation csize := (cluster_size fs).
Context (Hlay : layout).

Lemma csize_pos : 0 < csize <= 2 ^ 16.
Proof. pose proof (lay_spc _ _ Hlay). unfold cluster_size, sector_size. lia. Qed.

Lemma bytes_per_cluster_eq : bytes_per_cluster fs = csize.
Proof. unfold bytes_per_cluster, cluster_size. by rewrite (lay_bps _ _ Hlay). Qed.

Lemma get_successor_valid d n : vol d -> valid n -> n < 2 ^ 16 -> get_successor_cluster fs n d = Ok (fat d n, d).
Proof. intros Hv [Hn _] Hn16. by apply (get_successor_spec fs N Hlay d n). Qed.

Lemma in_use_small n : in_use n = true -> n < 2 ^ 16.
Proof. intros Hu%in_use_range. lia. Qed.

(** ** The first free cluster *)
Lemma fat_entry d i j lo hi :
  0 <= j < 256 -> 0 <= i -> sector d (table_start fs + i) !! Z.to_nat (j * 2) = Some lo ->
  sector d (table_start fs + i) !! Z.to_nat (j * 2 + 1) = Some hi -> fat d (256 * i + j) = lo + hi * 256.
Proof.
  intros Hj Hi Hlo Hhi. unfold fat, table_sector. destruct (table_split (256 * i + j)) as (Es & _ & _); [lia|].
  rewrite Es. assert ((256 * i + j) / 256 = i) as -> by (symmetry; apply (Z.div_unique _ 256 i j); lia).
  assert ((256 * i + j) mod 256 = j) as -> by (symmetry; apply (Z.mod_unique _ 256 i j); lia). by rewrite Hlo, Hhi.
Qed.

Lemma free_in_sector_spec d i b :
  b = sector d (table_start fs + i) -> zlength b = sector_size -> is_bytes b ->
  0 <= i < num_sectors_per_file_allocation_table fs ->
  (exists j, 0 <= j < 256 /\ free_in_sector fs b i = Ok (Some (256 * i + j)) /\ fat d (256 * i + j) = 0 /\
     forall k, 0 <= k < j -> fat d (256 * i + k) <> 0) \/
  (free_in_sector fs b i = Ok None /\ forall k, 0 <= k < 256 -> fat d (256 * i + k) <> 0).
Proof.
  intros Hb Hl Hby Hi. unfold sector_size in Hl. pose proof (lay_spf _ _ Hlay).
  assert (Hentry : forall j, 0 <= j < 256 -> exists lo hi, buf_get b (j * 2) = Ok lo /\ buf_get b (j * 2 + 1) = Ok hi /\
    0 <= lo < 256 /\ 0 <= hi < 256 /\ fat d (256 * i + j) = lo + hi * 256).
  { intros j Hj. destruct (buf_get_Ok b (j * 2)) as (lo & Hlo & E1); [lia|]. destruct (buf_get_Ok b (j * 2 + 1)) as (hi & Hhi & E2); [lia|].
    exists lo, hi. rewrite E1, E2. do 2 (split; [done|]). pose proof (Forall_lookup_1 _ _ _ _ Hby Hlo). pose proof (Forall_lookup_1 _ _ _ _ Hby Hhi).
    do 2 (split; [done|]). subst b. apply fat_entry; [done|lia|done|done]. }
  unfold free_in_sector. rewrite (lay_bps _ _ Hlay). change (sector_size / 2) with 256.
  match goal with |- context [for_find _ 0 ?body] =>
    destruct (for_find_total (Z.to_nat 256) 0 body (fun j => if fat d (256 * i + j) =? 0 then Some (256 * i + j) else None))
      as [(j & r & Hj & Hr & Hbefore & E)|[Hnone E]] end.
  - intros j Hj. destruct (Hentry j ltac:(lia)) as (lo & hi & -> & -> & Hlo & Hhi & ->). ok_bind.
    rewrite u16_small by lia. f_equal. destruct (Z.eqb_spec lo 0), (Z.eqb_spec hi 0), (Z.eqb_spec (lo + hi * 256) 0); (done || lia).
  - left. destruct (Z.eqb_spec (fat d (256 * i + j)) 0) as [E0|]; [|done]. injection Hr as <-. exists j.
    split; [lia|]. split; [done|]. split; [done|]. intros k Hk E'. specialize (Hbefore k ltac:(lia)). by rewrite E' in Hbefore.
  - right. split; [done|]. intros k Hk E'. specialize (Hnone k ltac:(lia)). by rewrite E' in Hnone.
Qed.

Lemma free_from_spec d n i buf :
  vol d -> 0 <= i -> i + Z.of_nat n = num_sectors_per_file_allocation_table fs -> zlength buf = sector_size ->
  (forall m, 0 <= m < 256 * i -> fat d m <> 0) ->
  exists r, free_from fs n i buf d = Ok (r, d) /\
    ((in_table r /\ fat d r = 0 /\ forall m, 0 <= m < r -> fat d m <> 0) \/ (r = 0 /\ forall m, in_table m -> fat d m <> 0)).
Proof.
  intros Hv. revert i buf. induction n as [|n IH]; intros i buf Hi Hn Hb Hpre; cbn [free_from].
  - exists 0. split; [done|]. right. split; [done|]. intros m Hm. apply Hpre. unfold Volume.in_table in Hm. lia.
  - pose proof (root_start_bounds fs N Hlay). destruct (regions_eq fs N Hlay) as (-> & _ & _). pose proof (disk_small fs N Hlay d Hv).
    pose proof (lay_reserved _ _ Hlay). assert (Ha : 0 <= table_start fs + i < sectors d).
    { destruct Hv as (_ & -> & Hd). unfold table_start in *. lia. }
    rewrite (lay_bps _ _ Hlay), u32_small by lia. rewrite (rd_into_spec fs N) by (done || lia). ok_bind.
    assert (Hl : zlength (sector d (table_start fs + i)) = sector_size) by (apply sector_length; [apply Hv|done]).
    assert (Hsp : splice buf 0 (sector d (table_start fs + i)) = sector d (table_start fs + i)).
    { unfold splice. rewrite drop_ge by lia. by rewrite app_nil_r. }
    rewrite Hsp. destruct (free_in_sector_spec d i _ eq_refl Hl) as [(j & Hj & -> & H0' & Hk)|[-> Hk]];
      [apply sector_bytes; [apply Hv|done]|lia|..]; ok_bind.
    + eexists. split; [done|]. left. split; [unfold Volume.in_table; lia|]. split; [done|]. intros m Hm.
      destruct (decide (m < 256 * i)); [apply Hpre; lia|]. replace m with (256 * i + (m - 256 * i)) by lia. apply Hk. lia.
    + apply IH; [lia|lia|done|]. intros m Hm. destruct (decide (m < 256 * i)); [apply Hpre; lia|].
      replace m with (256 * i + (m - 256 * i)) by lia. apply Hk. lia.
Qed.

Lemma first_free_spec d :
  vol d -> exists r, find_first_free_cluster fs d = Ok (r, d) /\
    ((in_table r /\ fat d r = 0 /\ forall m, 0 <= m < r -> fat d m <> 0) \/ (r = 0 /\ forall m, in_table m -> fat d m <> 0)).
Proof.
  intros Hv. pose proof (lay_spf _ _ Hlay). apply free_from_spec; [done|lia|lia| |lia].
  rewrite (lay_bps _ _ Hlay). unfold fresh, sector_size. rewrite length_replicate. lia.
Qed.

(** ** The walk along the chain *)
Lemma walk_turn_eq k prev cur i (d : D) :
  walk_turn fs k (prev, cur, i, d) =
    if in_use cur && (i <? k) then '(next, d) ← get_successor_cluster fs cur d; Ok (inl (cur, next, i + 1, d))
    else Ok (inr (prev, cur, i, d)).
Proof. done. Qed.

Lemma walk_loop d ms : forall cur prev i k c fuel,
  vol d -> chain d cur ms -> i <= k -> ms !! Z.to_nat (k - i) = Some c -> (Z.to_nat (k - i) < fuel)%nat ->
  exists prev', while_loop fuel (walk_turn fs k) (prev, cur, i, d) = Ok (prev', c, k, d) /\
    exists post, ms = take (Z.to_nat (k - i)) ms ++ c :: post /\ chain d c (c :: post).
Proof.
  induction ms as [|m ms IH]; intros cur prev i k c fuel Hv Hc Hik Hk Hf; [done|].
  inversion Hc as [|? ? Hu Hval Hc']; subst. destruct fuel as [|fuel]; [lia|]. rewrite while_loop_S, walk_turn_eq, Hu. destruct (Z.ltb_spec i k); simpl.
  - rewrite get_successor_valid by (done || by apply in_use_small). ok_bind.
    replace (Z.to_nat (k - i)) with (S (Z.to_nat (k - (i + 1)))) in * by lia. simpl in Hk.
    destruct (IH (fat d m) m (i + 1) k c fuel Hv Hc' ltac:(lia) Hk ltac:(lia)) as (prev' & E & post & Hms & Hpost).
    exists prev'. split; [exact E|]. exists post. simpl. split; [by rewrite <- Hms|done].
  - assert (i = k) as -> by lia. rewrite Z.sub_diag in *. simpl in Hk. injection Hk as <-.
    exists prev. split; [done|]. exists ms. split; [done|done].
Qed.

(** An offset in the chain: the clusters before it, the one it is in, those
    after it, and where in that one it is. *)
Lemma walk_spec d first ns off fuel :
  vol d -> chain d first ns -> 0 <= off < csize * zlength ns -> (length ns < fuel)%nat ->
  exists prev pre c post,
    walk fuel fs (off / csize) first d = Ok (prev, c, off / csize, d) /\ ns = pre ++ c :: post /\
    csize * zlength pre + off mod csize = off /\ 0 <= off mod csize < csize /\ chain d c (c :: post).
Proof.
  intros Hv Hc Hoff Hf. pose proof csize_pos. pose proof (Z.div_mod off csize). pose proof (Z.mod_pos_bound off csize).
  assert (Hk : 0 <= off / csize < zlength ns) by (split; [apply Z.div_pos; lia|apply Z.div_lt_upper_bound; lia]).
  destruct (lookup_lt_is_Some_2 ns (Z.to_nat (off / csize))) as [c Hcl]; [lia|].
  destruct (walk_loop d ns first 0 0 (off / csize) c fuel Hv Hc) as (prev & E & post & Hns & Hpost);
    [lia|by rewrite Z.sub_0_r|lia|].
  rewrite Z.sub_0_r in Hns. exists prev, (take (Z.to_nat (off / csize)) ns), c, post. split; [exact E|]. split; [done|].
  split; [rewrite length_take; nia|]. split; [lia|done].
Qed.

(** ** Reading *)
Lemma chain_head d c ns : chain d c (c :: ns) -> in_use c = true /\ valid c /\ chain d (fat d c) ns.
Proof. intros Hc. by inversion Hc. Qed.

Lemma chain_inv d cur m ms : chain d cur (m :: ms) -> cur = m /\ chain d m (m :: ms).
Proof. intros Hc. inversion Hc; subst. by split. Qed.

Lemma chain_bytes_cons d n ns : chain_bytes d (n :: ns) = cluster d n ++ chain_bytes d ns.
Proof. done. Qed.

Lemma chain_bytes_app d ns ms : chain_bytes d (ns ++ ms) = chain_bytes d ns ++ chain_bytes d ms.
Proof. unfold Volume.chain_bytes. by rewrite fmap_app, join_app. Qed.

Lemma chain_size d first ns : vol d -> chain d first ns -> zlength (chain_bytes d ns) = csize * zlength ns.
Proof.
  intros Hv Hc. apply (chain_bytes_length fs N Hlay); [done|]. intros m Hm.
  destruct (chain_valid fs N Hlay d first ns m Hc Hm) as [[_ Hd] _]. done.
Qed.

Lemma chain_end_unused d n : chain d n [] -> in_use n = false.
Proof. intros Hc. inversion Hc; subst. unfold in_use. lia. Qed.

Lemma read_turn_eq num buf data cur w (d : D) :
  read_turn fs num (buf, data, cur, w, d) =
    if in_use cur && (w <? num) then
      '(data, d) ← load_cluster fs cur data d;
      let n := if u32 (num - w) >? bytes_per_cluster fs then bytes_per_cluster fs else u32 (num - w) in
      buf ← stdmem_copy buf w data 0 n;
      '(next, d) ← get_successor_cluster fs cur d;
      Ok (inl (buf, data, next, u32 (w + n), d))
    else Ok (inr (buf, w, d)).
Proof. done. Qed.

(** The amount a turn moves. *)
Lemma amount_eq num w : 0 <= w <= num -> num < 2 ^ 32 ->
  (if u32 (num - w) >? bytes_per_cluster fs then bytes_per_cluster fs else u32 (num - w)) = Z.min csize (num - w).
Proof. intros. rewrite u32_small, bytes_per_cluster_eq by lia. destruct (Z.gtb_spec (num - w) csize); lia. Qed.

Lemma read_loop d num ms : forall cur buf data w fuel,
  vol d -> chain d cur ms -> zlength data = csize -> 0 <= w <= num -> num <= zlength buf -> num < 2 ^ 32 ->
  (length ms < fuel)%nat ->
  while_loop fuel (read_turn fs num) (buf, data, cur, w, d) =
    Ok (splice buf w (slice (chain_bytes d ms) 0 (num - w)), Z.min num (w + csize * zlength ms), d).
Proof.
  induction ms as [|m ms IH]; intros cur buf data w fuel Hv Hc Hd Hw Hn Hn32 Hf; (destruct fuel as [|fuel]; [simpl in Hf; lia|]);
    rewrite while_loop_S, read_turn_eq.
  - rewrite (chain_end_unused d cur Hc). simpl. change (chain_bytes d []) with (@nil Z). unfold slice. rewrite drop_nil, take_nil, splice_nil. do 3 f_equal. lia.
  - destruct (chain_inv d cur m ms Hc) as [-> Hc']. destruct (chain_head d m ms Hc') as (Hu & Hval & Hnext).
    pose proof csize_pos. pose proof (cluster_length fs N Hlay d m Hv (proj2 Hval)) as Hl.
    rewrite Hu. simpl. destruct (Z.ltb_spec w num).
    + rewrite (load_cluster_spec fs N Hlay) by (done || apply Hval). ok_bind. rewrite amount_eq by lia. cbv zeta.
      rewrite stdmem_copy_spec by lia. ok_bind. rewrite get_successor_valid by (done || by apply in_use_small). ok_bind.
      rewrite u32_small by lia. set (n := Z.min csize (num - w)) in *.
      assert (Hsl : zlength (slice (cluster d m) 0 n) = n) by (rewrite slice_length; lia).
      rewrite IH; [|done|done|done|lia|rewrite splice_length; lia|lia|simpl in Hf; lia].
      rewrite <- Hsl at 2. rewrite splice_splice; [|lia|].
      2: { rewrite Hsl. unfold slice. rewrite length_take. lia. }
      do 3 f_equal; [|simpl; lia]. f_equal. rewrite chain_bytes_cons.
      replace (num - w) with (n + (num - (w + n))) by lia. rewrite slice_split by lia.
      destruct (decide (n = csize)) as [En|En].
      * rewrite slice_app_l by lia. f_equal. rewrite slice_app_r by lia. f_equal. lia.
      * replace (num - (w + n)) with 0 by lia. rewrite slice_app_l by lia. done.
    + assert (w = num) as -> by lia. rewrite Z.sub_diag. change (slice ?b 0 0) with (@nil Z). rewrite splice_nil.
      rewrite Z.min_l by nia. done.
Qed.

Lemma fresh_cluster : zlength (fresh (sectors_per_cluster fs * bytes_per_sector fs)) = csize.
Proof.
  rewrite (lay_bps _ _ Hlay). unfold fresh, cluster_size, sector_size. rewrite length_replicate. pose proof (lay_spc _ _ Hlay). lia.
Qed.

(** [read_from_file] gives the bytes of the chain from the offset on, as many
    as asked for or as there are. *)
Lemma read_spec d entry ns off buf num fuel :
  vol d -> chain d (first_cluster entry) ns -> 0 <= off < csize * zlength ns -> 0 <= num < 2 ^ 32 ->
  num <= zlength buf -> (length ns < fuel)%nat ->
  read_from_file fuel fs entry off buf num d =
    Ok (splice buf 0 (slice (chain_bytes d ns) off num), Z.min num (csize * zlength ns - off), d).
Proof.
  intros Hv Hc Hoff Hnum Hbuf Hf. pose proof csize_pos.
  destruct (walk_spec d _ ns off fuel Hv Hc Hoff Hf) as (prev & pre & c & post & Ew & Hns & Hpre & Ho & Hpost).
  pose proof (chain_length fs N Hlay d _ ns Hc) as Hlen. destruct (chain_head d c post Hpost) as (Hu & Hval & Hnext).
  assert (Hk : 0 <= off / csize < 2 ^ 16) by (split; [apply Z.div_pos; lia|apply Z.div_lt_upper_bound; nia]).
  pose proof (Z.div_mod off csize ltac:(lia)) as Hdiv. pose proof (cluster_length fs N Hlay d c Hv (proj2 Hval)) as Hl.
  unfold read_from_file. rewrite bytes_per_cluster_eq, (u16_small (off / csize)) by lia. rewrite Ew. ok_bind.
  replace (off - off / csize * csize) with (off mod csize) by lia. cbv zeta.
  set (o := off mod csize) in *. rewrite (u16_small o), (u32_small (csize - o)) by lia.
  assert (Hfresh : zlength (fresh (sectors_per_cluster fs * bytes_per_sector fs)) = csize) by (by apply fresh_cluster).
  rewrite (load_cluster_spec fs N Hlay) by (done || apply Hval). ok_bind.
  set (n := if csize - o >? num then num else csize - o).
  assert (En : n = Z.min num (csize - o)) by (unfold n; destruct (Z.gtb_spec (csize - o) num); lia).
  rewrite stdmem_copy_spec by lia. ok_bind. rewrite get_successor_valid by (done || by apply in_use_small). ok_bind.
  assert (Hsl : zlength (slice (cluster d c) o n) = n) by (rewrite slice_length; lia).
  rewrite (read_loop d num post); [|done|done|done|lia|rewrite splice_length; lia|lia|rewrite Hns, length_app in Hf; simpl in Hf; lia].
  pose proof (splice_splice buf 0 (slice (cluster d c) o n) (slice (chain_bytes d post) 0 (num - n)) ltac:(lia)) as Hsp.
  rewrite Hsl, Z.add_0_l in Hsp. rewrite Hsp by (unfold slice; rewrite length_take; lia).
  do 3 f_equal; [|rewrite Hns, length_app; simpl; nia]. f_equal.
  rewrite Hns, chain_bytes_app, chain_bytes_cons.
  assert (Hpb : zlength (chain_bytes d pre) = csize * zlength pre).
  { apply (chain_bytes_length fs N Hlay); [done|]. intros m Hm. destruct (chain_valid fs N Hlay d _ ns m Hc) as [[_ Hd] _]; [|done].
    rewrite Hns. set_solver. }
  rewrite slice_app_r by lia. replace (off - zlength (chain_bytes d pre)) with o by lia.
  replace num with (n + (num - n)) at 2 by lia. rewrite slice_split by lia.
  destruct (decide (n = num)).
  - replace (num - n) with 0 by lia. rewrite slice_app_l by lia. done.
  - rewrite slice_app_l by lia. f_equal. rewrite slice_app_r by lia. f_equal. lia.
Qed.

(** ** Writing over the clusters a file has *)
Lemma overwrite_turn_eq buf num data prev cur w (d : D) :
  overwrite_turn fs buf num (data, prev, cur, w, d) =
    if in_use cur && (w <? num) then
      '(data, d) ← load_cluster fs cur data d;
      let n := if u32 (num - w) >? bytes_per_cluster fs then bytes_per_cluster fs else u32 (num - w) in
      data ← stdmem_copy data 0 buf w n;
      d ← write_cluster fs cur data d;
      '(next, d) ← get_successor_cluster fs cur d;
      Ok (inl (data, cur, next, u32 (w + n), d))
    else Ok (inr (data, prev, w, d)).
Proof. done. Qed.

(** A part of a cluster is written over: the common step of the three loops. *)
Lemma patch_cluster d c o n buf w data :
  vol d -> valid c -> zlength data = csize -> 0 <= o -> 0 <= w -> 0 <= n -> o + n <= csize -> w + n <= zlength buf ->
  is_bytes buf ->
  exists d', ('(data, d) ← load_cluster fs c data d; data ← stdmem_copy data o buf w n; write_cluster fs c data d) = Ok d' /\
    load_cluster fs c data d = Ok (cluster d c, d) /\
    stdmem_copy (cluster d c) o buf w n = Ok (splice (cluster d c) o (slice buf w n)) /\
    zlength (splice (cluster d c) o (slice buf w n)) = csize /\
    write_cluster fs c (splice (cluster d c) o (slice buf w n)) d = Ok d' /\
    same_but [] [c] d d' /\ cluster d' c = splice (cluster d c) o (slice buf w n).
Proof.
  intros Hv Hval Hd Ho Hw Hn Hon Hwn Hby. pose proof (cluster_length fs N Hlay d c Hv (proj2 Hval)) as Hl.
  pose proof (load_cluster_spec fs N Hlay d c data Hv (proj2 Hval) Hd) as E1.
  assert (E2 : stdmem_copy (cluster d c) o buf w n = Ok (splice (cluster d c) o (slice buf w n))) by (apply stdmem_copy_spec; lia).
  assert (Hsl : zlength (slice buf w n) = n) by (rewrite slice_length; lia).
  assert (Hlen : zlength (splice (cluster d c) o (slice buf w n)) = csize) by (rewrite splice_length; lia).
  destruct (write_cluster_same fs N Hlay d c (splice (cluster d c) o (slice buf w n)) Hv (proj2 Hval) Hlen) as (d' & E3 & Hs & Hc).
  { apply splice_bytes; [by apply (cluster_bytes fs N Hlay), Hval|by apply slice_bytes]. }
  exists d'. rewrite E1. ok_bind. rewrite E2. ok_bind. done.
Qed.

Lemma overwrite_loop buf num ms : forall cur prev data w d fuel,
  vol d -> chain d cur ms -> zlength data = csize -> 0 <= w <= num -> num <= zlength buf -> num < 2 ^ 32 -> is_bytes buf ->
  (length ms < fuel)%nat ->
  exists data' prev' d', while_loop fuel (overwrite_turn fs buf num) (data, prev, cur, w, d) =
      Ok (data', prev', Z.min num (w + csize * zlength ms), d') /\
    zlength data' = csize /\ same_but [] ms d d' /\
    chain_bytes d' ms = splice (chain_bytes d ms) 0 (slice buf w (Z.min (num - w) (csize * zlength ms))) /\
    (w + csize * zlength ms < num -> Some prev' = last (prev :: ms)).
Proof.
  induction ms as [|m ms IH]; intros cur prev data w d fuel Hv Hc Hd Hw Hn Hn32 Hby Hf; (destruct fuel as [|fuel]; [simpl in Hf; lia|]);
    rewrite while_loop_S, overwrite_turn_eq.
  - rewrite (chain_end_unused d cur Hc). exists data, prev, d. simpl. rewrite Z.mul_0_r, Z.add_0_r, !Z.min_r by lia.
    split; [done|]. split; [done|]. split; [by apply same_but_refl|]. change (slice buf w 0) with (@nil Z). by rewrite splice_nil.
  - destruct (chain_inv d cur m ms Hc) as [-> Hc']. destruct (chain_head d m ms Hc') as (Hu & Hval & Hnext).
    pose proof csize_pos. rewrite Hu. simpl. destruct (Z.ltb_spec w num).
    2: { exists data, prev, d. assert (w = num) as -> by lia. rewrite Z.min_l by nia. split; [done|]. split; [done|].
         split; [eapply (same_but_weaken fs N Hlay); [..|by apply same_but_refl]; set_solver|].
         rewrite Z.sub_diag, Z.min_l by nia. change (slice buf num 0) with (@nil Z). rewrite splice_nil. split; [done|nia]. }
    set (n := Z.min csize (num - w)) in *.
    destruct (patch_cluster d m 0 n buf w data Hv Hval Hd) as (d1 & _ & E1 & E2 & Hlen & E3 & Hs1 & Hc1); [lia..|done|].
    rewrite E1. ok_bind. rewrite amount_eq by lia. cbv zeta. fold n. rewrite E2. ok_bind. rewrite E3. ok_bind.
    pose proof (chain_nodup fs N Hlay d m (m :: ms) Hc') as [Hm Hnd]%NoDup_cons.
    assert (Hfat : fat d1 m = fat d m) by (apply (sb_fat _ _ _ _ _ _ Hs1); [apply Hval|set_solver]).
    assert (Hv1 : vol d1) by apply Hs1.
    rewrite get_successor_valid, Hfat by (done || by apply in_use_small). ok_bind. rewrite u32_small by lia.
    assert (Hc1' : chain d1 (fat d m) ms) by (eapply (chain_same fs N Hlay); [exact Hs1|done|set_solver]).
    destruct (IH (fat d m) m _ (w + n) d1 fuel Hv1 Hc1' Hlen ltac:(lia) Hn Hn32 Hby ltac:(simpl in Hf; lia))
      as (data' & prev' & d' & E & Hd' & Hs' & Hb' & Hp').
    exists data', prev', d'. rewrite E. split; [do 3 f_equal; simpl; lia|]. split; [done|].
    split; [exact (same_but_trans fs N Hlay _ _ _ _ _ _ _ Hs1 Hs')|]. split; [|intros Hlt; simpl in *; apply Hp'; lia].
    assert (Hin : forall x, x ∈ ms -> Volume.on_disk fs N x /\ x ∉ [m]).
    { intros x Hx. destruct (chain_valid fs N Hlay d m (m :: ms) x Hc') as [[_ Hd1] _]; [set_solver|]. set_solver. }
    rewrite (chain_bytes_same fs N _ _ _ _ _ Hs1 Hin) in Hb'. rewrite !chain_bytes_cons, Hb'.
    rewrite (sb_cluster _ _ _ _ _ _ Hs' m (proj2 Hval) Hm), Hc1.
    assert (Hsl : zlength (slice buf w n) = n) by (rewrite slice_length; lia).
    rewrite <- splice_app_0.
    + f_equal. rewrite <- slice_split by lia. f_equal. simpl. nia.
    + rewrite Hsl, (cluster_length fs N Hlay d m Hv (proj2 Hval)). destruct (decide (n = csize)); [by left|right].
      split; [lia|]. replace (num - (w + n)) with 0 by lia. rewrite Z.min_l by nia. done.
Qed.

(** ** New clusters *)

(** Every entry of the table that is free is the number of a cluster. *)
Definition table_sane (d : D) : Prop := forall m, in_table m -> fat d m = 0 -> valid m /\ in_use m = true.

Lemma chain_not_free d n ns m : chain d n ns -> m ∈ ns -> fat d m <> 0.
Proof.
  intros Hc Hm. destruct (chain_suffix fs N Hlay d n ns m Hc Hm) as (ms & Hms & _).
  destruct (chain_head d m ms Hms) as (_ & _ & Hnext). inversion Hnext as [? Hr|? ? Hu]; [lia|].
  apply in_use_range in Hu. lia.
Qed.

(** Linking a free cluster to the end of a chain. *)
Lemma chain_extend d d' first ns prev c F C :
  chain d first ns -> last ns = Some prev -> c ∉ ns -> valid c -> in_use c = true -> same_but F C d d' ->
  (forall m, m ∈ F -> m = prev \/ m = c) -> fat d' prev = c -> fat d' c = 65535 -> chain d' first (ns ++ [c]).
Proof.
  intros Hc Hlast Hcn Hval Hu Hs HF Hp Hend. revert Hlast Hcn.
  pose proof (chain_nodup fs N Hlay d first ns Hc) as Hnd. revert Hnd.
  induction Hc as [|n ns Hun Hvn Hc IH]; [done|]. intros [Hn Hnd]%NoDup_cons Hlast Hcn. simpl.
  apply chain_link; [done|done|]. destruct ns as [|n2 ns].
  - injection Hlast as ->. rewrite Hp. apply chain_link; [done|done|]. rewrite Hend. by constructor.
  - rewrite (sb_fat _ _ _ _ _ _ Hs n (proj1 Hvn)).
    + apply IH; [done|exact Hlast|set_solver].
    + intros [->| ->]%HF; [|set_solver]. apply Hn. by apply last_Some_elem_of.
Qed.

Lemma extend_turn_eq buf num data prev w (d : D) :
  extend_turn fs buf num (data, prev, w, d) =
    if w <? num then
      '(next_free, d) ← find_first_free_cluster fs d;
      if next_free <? 2 then Ok (inr (w, d))
      else
        d ← set_successor_cluster fs prev next_free d;
        d ← set_successor_cluster fs next_free 65535 d;
        '(data, d) ← load_cluster fs next_free data d;
        let n := if u32 (num - w) >? bytes_per_cluster fs then bytes_per_cluster fs else u32 (num - w) in
        data ← stdmem_copy data 0 buf w n;
        d ← write_cluster fs next_free data d;
        Ok (inl (data, next_free, u32 (w + n), d))
    else Ok (inr (w, d)).
Proof. done. Qed.

(** A turn that finds a free cluster. *)
Lemma extend_step buf num first ns data prev w d c :
  vol d -> table_sane d -> chain d first ns -> last ns = Some prev -> zlength data = csize ->
  0 <= w < num -> num <= zlength buf -> num < 2 ^ 32 -> is_bytes buf ->
  find_first_free_cluster fs d = Ok (c, d) -> in_table c -> fat d c = 0 ->
  let n := Z.min csize (num - w) in
  exists data' d', extend_turn fs buf num (data, prev, w, d) = Ok (inl (data', c, w + n, d')) /\
    zlength data' = csize /\ table_sane d' /\ chain d' first (ns ++ [c]) /\ (c ∉ ns) /\
    same_but [prev; c] [c] d d' /\ cluster d' c = splice (cluster d c) 0 (slice buf w n).
Proof.
  intros Hv Hsane Hc Hlast Hd Hw Hn Hn32 Hby Efree Hct Hc0 n. pose proof csize_pos.
  destruct (Hsane c Hct Hc0) as [Hval Hu]. pose proof (in_use_small c Hu) as Hc16. pose proof (proj1 (in_use_range c) Hu).
  assert (Hprev : prev ∈ ns) by by apply last_Some_elem_of.
  destruct (chain_valid fs N Hlay d first ns prev Hc Hprev) as [Hvalp Hup].
  assert (Hcn : c ∉ ns) by (intros Hin; by apply (chain_not_free d first ns c Hc Hin)).
  rewrite extend_turn_eq. destruct (Z.ltb_spec w num); [|lia]. rewrite Efree. ok_bind. destruct (Z.ltb_spec c 2); [lia|].
  destruct (set_successor_same fs N Hlay d prev c Hv (proj1 Hvalp) (in_use_small _ Hup)) as (d1 & -> & Hs1 & Hf1); [lia|]. ok_bind.
  destruct (set_successor_same fs N Hlay d1 c 65535 (sb_vol _ _ _ _ _ _ Hs1) Hct Hc16) as (d2 & -> & Hs2 & Hf2); [lia|]. ok_bind.
  destruct (patch_cluster d2 c 0 n buf w data (sb_vol _ _ _ _ _ _ Hs2) Hval Hd) as (d3 & _ & E1 & E2 & Hlen & E3 & Hs3 & Hc3); [lia..|done|].
  rewrite E1. ok_bind. rewrite amount_eq by lia. cbv zeta. fold n. rewrite E2. ok_bind. rewrite E3. ok_bind.
  rewrite u32_small by lia. pose proof (same_but_trans fs N Hlay _ _ _ _ _ _ _ Hs1 Hs2) as Hs12.
  pose proof (same_but_trans fs N Hlay _ _ _ _ _ _ _ Hs12 Hs3) as Hs. simpl in Hs, Hs12.
  assert (Hfp : fat d3 prev = c).
  { rewrite (sb_fat _ _ _ _ _ _ Hs3 prev (proj1 Hvalp)), (sb_fat _ _ _ _ _ _ Hs2 prev (proj1 Hvalp)); [done| |].
    - rewrite list_elem_of_singleton. by intros ->.
    - apply not_elem_of_nil. }
  assert (Hfc : fat d3 c = 65535) by (rewrite (sb_fat _ _ _ _ _ _ Hs3 c Hct); [done|set_solver]).
  eexists _, d3. split; [done|]. split; [done|]. split; [|split; [|split; [done|split; [done|]]]].
  - intros m Hm Hm0. destruct (decide (m = prev)) as [->|]; [lia|]. destruct (decide (m = c)) as [->|]; [lia|].
    apply Hsane; [done|]. rewrite <- (sb_fat _ _ _ _ _ _ Hs m Hm); [done|set_solver].
  - eapply chain_extend; [exact Hc|done|done|done|done|exact Hs|set_solver|done|done].
  - by rewrite Hc3, (sb_cluster _ _ _ _ _ _ Hs12 c (proj2 Hval)) by set_solver.
Qed.

Lemma extend_loop buf num first : forall fuel ns data prev w d,
  vol d -> table_sane d -> chain d first ns -> last ns = Some prev -> zlength data = csize ->
  0 <= w <= num -> num <= zlength buf -> num < 2 ^ 32 -> is_bytes buf -> (Z.to_nat 65536 <= fuel + length ns)%nat ->
  exists r d' new, while_loop fuel (extend_turn fs buf num) (data, prev, w, d) = Ok (r, d') /\
    w <= r <= num /\ table_sane d' /\ chain d' first (ns ++ new) /\ same_but (prev :: new) new d d' /\
    (forall m, m ∈ new -> fat d m = 0) /\ chain_bytes d' new = splice (chain_bytes d new) 0 (slice buf w (r - w)) /\
    r - w <= csize * zlength new /\
    (w = num -> new = []) /\ (r < num -> forall m, in_table m -> fat d' m <> 0).
Proof.
  induction fuel as [|fuel IH]; intros ns data prev w d Hv Hsane Hc Hlast Hd Hw Hn Hn32 Hby Hf.
  { pose proof (chain_length fs N Hlay d first ns Hc). lia. }
  rewrite while_loop_S. pose proof csize_pos.
  assert (Hstop : w = num \/ (forall m, in_table m -> fat d m <> 0) -> exists r d' new,
    Ok (w, d) = Ok (r, d') /\ w <= r <= num /\ table_sane d' /\ chain d' first (ns ++ new) /\ same_but (prev :: new) new d d' /\
    (forall m, m ∈ new -> fat d m = 0) /\ chain_bytes d' new = splice (chain_bytes d new) 0 (slice buf w (r - w)) /\
    r - w <= csize * zlength new /\ (w = num -> new = []) /\ (r < num -> forall m, in_table m -> fat d' m <> 0)).
  { intros Hor. exists w, d, []. rewrite app_nil_r, Z.sub_diag. change (slice buf w 0) with (@nil Z). rewrite splice_nil.
    do 4 (split; [done || lia|]). split; [eapply (same_but_weaken fs N Hlay); [..|by apply same_but_refl]; set_solver|].
    split; [set_solver|]. split; [done|]. split; [simpl; lia|]. split; [done|]. intros Hlt. destruct Hor; [lia|done]. }
  destruct (decide (w = num)) as [Ew|Ew].
  { rewrite extend_turn_eq. destruct (Z.ltb_spec w num); [lia|]. apply Hstop. by left. }
  destruct (first_free_spec d Hv) as (c & Efree & [(Hct & Hc0 & _)|[-> Hnone]]).
  2: { rewrite extend_turn_eq, Efree. destruct (Z.ltb_spec w num); [|lia]. apply Hstop. by right. }
  destruct (extend_step buf num first ns data prev w d c) as (data1 & d1 & -> & Hd1 & Hsane1 & Hc1 & Hcn & Hs1 & Hcb); [done..|lia|done|done|done|done|done|done|].
  set (n := Z.min csize (num - w)) in *. ok_bind.
  destruct (IH (ns ++ [c]) data1 c (w + n) d1) as (r & d' & new & E & Hr & Hsane' & Hc' & Hs' & Hnew & Hb & Hlen & Hw' & Hfull);
    [apply Hs1|done|done|by rewrite last_snoc|done|lia|done|done|done|rewrite length_app; simpl; lia|].
  destruct (Hsane c Hct Hc0) as [Hval Hu].
  assert (Hcnew : c ∉ new).
  { pose proof (chain_nodup fs N Hlay _ _ _ Hc') as Hnd. rewrite <- app_assoc in Hnd. apply NoDup_app in Hnd as (_ & _ & Hnd).
    by apply NoDup_cons in Hnd as [Hnd _]. }
  assert (Hpn : prev ∉ new).
  { pose proof (chain_nodup fs N Hlay _ _ _ Hc') as Hnd. rewrite <- app_assoc in Hnd. apply NoDup_app in Hnd as (_ & Hnd & _).
    intros Hin. apply (Hnd prev); [by apply last_Some_elem_of|]. apply elem_of_app. by right. }
  exists r, d', (c :: new). split; [done|]. split; [lia|]. split; [done|]. rewrite <- app_assoc in Hc'. split; [done|].
  split; [eapply (same_but_weaken fs N Hlay); [..|exact (same_but_trans fs N Hlay _ _ _ _ _ _ _ Hs1 Hs')]; set_solver|].
  assert (Hin : forall x, x ∈ new -> Volume.valid fs N x).
  { intros x Hx. apply (chain_valid fs N Hlay d' first (ns ++ c :: new) x Hc'). set_solver. }
  split; [|split; [|split; [simpl; lia|split; [lia|done]]]].
  - intros m [->|Hm]%elem_of_cons; [done|]. rewrite <- (sb_fat _ _ _ _ _ _ Hs1 m (proj1 (Hin m Hm))); [by apply Hnew|set_solver].
  - rewrite !chain_bytes_cons, Hb, (sb_cluster _ _ _ _ _ _ Hs' c (proj2 Hval) Hcnew), Hcb.
    rewrite (chain_bytes_same fs N _ _ _ _ new Hs1) by (intros x Hx; split; [apply Hin, Hx|set_solver]).
    assert (Hsl : zlength (slice buf w n) = n) by (rewrite slice_length; lia).
    rewrite <- splice_app_0.
    + f_equal. rewrite <- slice_split by lia. f_equal. lia.
    + rewrite Hsl, (cluster_length fs N Hlay d c Hv (proj2 Hval)). destruct (decide (n = csize)); [by left|right].
      split; [lia|]. replace (r - (w + n)) with 0 by lia. done.
Qed.

(** ** Writing *)

(** All of [write_to_file] before it needs new clusters. *)
Lemma write_in_place d entry ns off buf num fuel :
  vol d -> chain d (first_cluster entry) ns -> 0 <= off < csize * zlength ns -> 0 <= num < 2 ^ 32 ->
  num <= zlength buf -> is_bytes buf -> (length ns < fuel)%nat ->
  let w := Z.min num (csize * zlength ns - off) in
  exists data prev d1,
    write_to_file fuel fs entry off buf num d = while_loop fuel (extend_turn fs buf num) (data, prev, w, d1) /\
    zlength data = csize /\ same_but [] ns d d1 /\ (w < num -> last ns = Some prev) /\
    chain_bytes d1 ns = splice (chain_bytes d ns) off (slice buf 0 w).
Proof.
  intros Hv Hc Hoff Hnum Hbuf Hby Hf w. pose proof csize_pos.
  destruct (walk_spec d _ ns off fuel Hv Hc Hoff Hf) as (prev0 & pre & c & post & Ew & Hns & Hpre & Ho & Hpost).
  pose proof (chain_length fs N Hlay d _ ns Hc) as Hlen. destruct (chain_head d c post Hpost) as (Hu & Hval & Hnext).
  assert (Hk : 0 <= off / csize < 2 ^ 16) by (split; [apply Z.div_pos; lia|apply Z.div_lt_upper_bound; nia]).
  pose proof (Z.div_mod off csize ltac:(lia)) as Hdiv. pose proof (cluster_length fs N Hlay d c Hv (proj2 Hval)) as Hl.
  unfold write_to_file. rewrite bytes_per_cluster_eq, (u16_small (off / csize)) by lia. rewrite Ew. ok_bind.
  replace (off - off / csize * csize) with (off mod csize) by lia. cbv zeta.
  set (o := off mod csize) in *. rewrite (u16_small o), (u32_small (csize - o)) by lia.
  set (n := if csize - o >? num then num else csize - o).
  assert (En : n = Z.min num (csize - o)) by (unfold n; destruct (Z.gtb_spec (csize - o) num); lia).
  destruct (patch_cluster d c o n buf 0 _ Hv Hval fresh_cluster) as (d1 & _ & E1 & E2 & Hdl & E3 & Hs1 & Hc1); [lia..|done|].
  rewrite E1. ok_bind. rewrite E2. ok_bind. rewrite E3. ok_bind.
  pose proof (chain_nodup fs N Hlay d c _ Hpost) as [Hcp Hnd]%NoDup_cons.
  assert (Hfat : fat d1 c = fat d c) by (apply (sb_fat _ _ _ _ _ _ Hs1); [apply Hval|apply not_elem_of_nil]).
  rewrite get_successor_valid, Hfat by (apply Hs1 || done || by apply in_use_small). ok_bind.
  assert (Hc1' : chain d1 (fat d c) post) by (eapply (chain_same fs N Hlay); [exact Hs1|done|set_solver]).
  assert (Hpl : (length post < fuel)%nat) by (rewrite Hns, length_app in Hf; simpl in Hf; lia).
  destruct (overwrite_loop buf num post (fat d c) c _ n d1 fuel (sb_vol _ _ _ _ _ _ Hs1) Hc1' Hdl ltac:(lia) Hbuf ltac:(lia) Hby Hpl)
    as (data' & prev' & d2 & -> & Hd' & Hs2 & Hb2 & Hp2). ok_bind.
  assert (Hnl : zlength ns = zlength pre + 1 + zlength post) by (rewrite Hns, length_app; simpl; lia).
  assert (Hw : Z.min num (n + csize * zlength post) = w) by (unfold w; nia). rewrite Hw.
  exists data', prev', d2. split; [done|]. split; [done|]. split; [|split].
  - eapply (same_but_weaken fs N Hlay); [..|exact (same_but_trans fs N Hlay _ _ _ _ _ _ _ Hs1 Hs2)]; set_solver.
  - intros Hlt. rewrite Hns, last_app_cons, Hp2; [done|]. unfold w in Hlt. nia.
  - pose proof (chain_nodup fs N Hlay d _ ns Hc) as Hndn. rewrite Hns in Hndn. apply NoDup_app in Hndn as (_ & Hpre' & _).
    rewrite Hns, !chain_bytes_app, !chain_bytes_cons, Hb2.
    assert (Hin : forall x, x ∈ ns -> Volume.on_disk fs N x) by (intros x Hx; by apply (chain_valid fs N Hlay d _ ns x Hc)).
    rewrite (chain_bytes_same fs N _ _ _ _ post Hs1) by (intros x Hx; split; [apply Hin; rewrite Hns; set_solver|set_solver]).
    pose proof (same_but_trans fs N Hlay _ _ _ _ _ _ _ Hs1 Hs2) as Hs.
    rewrite (chain_bytes_same fs N _ _ _ _ pre Hs) by (intros x Hx; split; [apply Hin; rewrite Hns; set_solver|set_solver]).
    rewrite (sb_cluster _ _ _ _ _ _ Hs2 c (proj2 Hval) Hcp), Hc1.
    assert (Hpb : zlength (chain_bytes d pre) = csize * zlength pre).
    { apply (chain_bytes_length fs N Hlay); [done|]. intros m Hm. apply Hin. rewrite Hns. set_solver. }
    rewrite splice_app_r by lia. f_equal. rewrite Hpb. replace (off - csize * zlength pre) with o by lia.
    assert (Hsl : zlength (slice buf 0 n) = n) by (rewrite slice_length; lia).
    replace (slice buf 0 w) with (slice buf 0 (n + (w - n))) by (f_equal; lia). rewrite slice_split by lia. simpl.
    replace (Z.min (num - n) (csize * zlength post)) with (w - n) by (unfold w; nia).
    destruct (decide (o + n = csize)).
    + rewrite splice_app_both by lia. done.
    + replace (w - n) with 0 by (unfold w; nia). change (slice buf n 0) with (@nil Z).
      rewrite splice_nil, app_nil_r, splice_app_l by lia. done.
Qed.

(** What [write_to_file] does, from any offset inside the file. *)
Lemma write_spec d entry ns off buf num fuel :
  vol d -> table_sane d -> chain d (first_cluster entry) ns -> 0 <= off < csize * zlength ns -> 0 <= num < 2 ^ 32 ->
  num <= zlength buf -> is_bytes buf -> (Z.to_nat 65536 <= fuel)%nat ->
  exists r d' new, write_to_file fuel fs entry off buf num d = Ok (r, d') /\ 0 <= r <= num /\
    table_sane d' /\ chain d' (first_cluster entry) (ns ++ new) /\ same_but (ns ++ new) (ns ++ new) d d' /\
    (forall m, m ∈ new -> fat d m = 0) /\ off + r <= csize * zlength (ns ++ new) /\
    chain_bytes d' (ns ++ new) = splice (chain_bytes d (ns ++ new)) off (slice buf 0 r) /\
    (off + num <= csize * zlength ns -> new = [] /\ r = num) /\ (r < num -> forall m, in_table m -> fat d' m <> 0).
Proof.
  intros Hv Hsane Hc Hoff Hnum Hbuf Hby Hf. pose proof csize_pos. pose proof (chain_length fs N Hlay d _ ns Hc) as Hlen.
  destruct (write_in_place d entry ns off buf num fuel Hv Hc Hoff Hnum Hbuf Hby) as (data & prev & d1 & -> & Hd & Hs1 & Hlast & Hb1); [lia|].
  set (w := Z.min num (csize * zlength ns - off)) in *. pose proof (chain_size d _ ns Hv Hc) as Hsize.
  assert (Hc1 : chain d1 (first_cluster entry) ns) by (eapply (chain_same fs N Hlay); [exact Hs1|done|intros; apply not_elem_of_nil]).
  assert (Hsane1 : table_sane d1).
  { intros m Hm. rewrite (sb_fat _ _ _ _ _ _ Hs1 m Hm) by apply not_elem_of_nil. by apply Hsane. }
  destruct (decide (w < num)) as [Hlt|Hge].
  - destruct (extend_loop buf num (first_cluster entry) fuel ns data prev w d1 (sb_vol _ _ _ _ _ _ Hs1) Hsane1 Hc1 (Hlast Hlt) Hd)
      as (r & d' & new & -> & Hr & Hsane' & Hc' & Hs' & Hnew & Hb & Hrl & _ & Hfull); [lia|done|lia|done|lia|].
    assert (Hprev : prev ∈ ns) by (apply last_Some_elem_of; by apply Hlast).
    pose proof (chain_nodup fs N Hlay _ _ _ Hc') as Hnd. apply NoDup_app in Hnd as (_ & Hdis & _).
    assert (Hin : forall x, x ∈ ns ++ new -> Volume.valid fs N x) by (intros x Hx; by apply (chain_valid fs N Hlay d' _ _ x Hc')).
    exists r, d', new. split; [done|]. split; [lia|]. split; [done|]. split; [done|].
    split; [eapply (same_but_weaken fs N Hlay); [..|exact (same_but_trans fs N Hlay _ _ _ _ _ _ _ Hs1 Hs')]; set_solver|].
    split; [|split; [rewrite length_app; unfold w in *; nia|split; [|split; [unfold w in *; lia|done]]]].
    + intros m Hm. rewrite <- (sb_fat _ _ _ _ _ _ Hs1 m); [by apply Hnew|apply Hin; set_solver|apply not_elem_of_nil].
    + rewrite !chain_bytes_app, Hb.
      rewrite (chain_bytes_same fs N _ _ _ _ ns Hs') by (intros x Hx; split; [apply Hin; set_solver|by apply Hdis]).
      rewrite (chain_bytes_same fs N _ _ _ _ new Hs1) by (intros x Hx; split; [apply Hin; set_solver|intros ?; by apply (Hdis x)]).
      rewrite Hb1. replace (slice buf 0 r) with (slice buf 0 (w + (r - w))) by (f_equal; lia). rewrite slice_split by lia.
      assert (zlength (slice buf 0 w) = w) by (rewrite slice_length; lia).
      rewrite splice_app_both by (unfold w in *; lia). done.
  - assert (Hwn : w = num) by lia. destruct fuel as [|fuel]; [lia|]. rewrite while_loop_S, extend_turn_eq, Hwn.
    destruct (Z.ltb_spec num num); [lia|]. exists num, d1, []. rewrite app_nil_r. split; [done|]. split; [lia|]. split; [done|]. split; [done|].
    split; [eapply (same_but_weaken fs N Hlay); [..|exact Hs1]; set_solver|]. split; [set_solver|]. split; [lia|].
    split; [by rewrite <- Hwn|]. split; [done|lia].
Qed.

(** A read from an offset inside a file gives the bytes of its
    chain of clusters from there on, as many as asked for or as there are, and
    changes nothing on the disk. Fuel of 65536 is always enough. *)
Lemma read_from_file_spec d entry ns off buf num :
  vol d -> chain d (first_cluster entry) ns -> 0 <= off < csize * zlength ns -> 0 <= num < 2 ^ 32 -> num <= zlength buf ->
  read_from_file (Z.to_nat 65536) fs entry off buf num d =
    Ok (splice buf 0 (slice (chain_bytes d ns) off num), Z.min num (csize * zlength ns - off), d).
Proof. intros Hv Hc Ho Hn Hb. apply read_spec; try done. by apply (chain_length fs N Hlay d (first_cluster entry)). Qed.

(** C1 (functional): a write at an offset inside a file splices the data into
    the bytes of its chain. When the chain is too short it is extended with
    clusters that were free, each written once linked; it stops short only when
    no cluster is left. The table stays sane, and outside the file's own entries
    and clusters nothing on the disk changes. Fuel of 65536 is always enough. *)
Theorem write_to_file_spec d entry ns off buf num :
  vol d -> table_sane d -> chain d (first_cluster entry) ns -> 0 <= off < csize * zlength ns -> 0 <= num < 2 ^ 32 ->
  num <= zlength buf -> is_bytes buf ->
  exists r d' new, write_to_file (Z.to_nat 65536) fs entry off buf num d = Ok (r, d') /\ 0 <= r <= num /\
    table_sane d' /\ chain d' (first_cluster entry) (ns ++ new) /\ same_but (ns ++ new) (ns ++ new) d d' /\
    (forall m, m ∈ new -> fat d m = 0) /\
    chain_bytes d' (ns ++ new) = splice (chain_bytes d (ns ++ new)) off (slice buf 0 r) /\
    (off + num <= csize * zlength ns -> new = [] /\ r = num) /\ (r < num -> forall m, in_table m -> fat d' m <> 0).
Proof.
  intros Hv Hsane Hc Ho Hn Hb Hby.
  destruct (write_spec d entry ns off buf num _ Hv Hsane Hc Ho Hn Hb Hby (le_n _)) as (r & d' & new & E & Hr & Hs' & Hc' & Hsame & Hnew & _ & Hrest).
  exists r, d', new. done.
Qed.

(** C2 (roundtrip): what a write that starts inside the chain of a file, at an
    offset of at least 0 and below the size of its clusters, reports as written
    is what a read at the same place then gives. A write that starts exactly at
    the end of the chain is lost ([append_at_boundary_is_lost]). *)
Theorem read_after_write d entry ns off buf num buf' :
  vol d -> table_sane d -> chain d (first_cluster entry) ns -> 0 <= off < csize * zlength ns -> 0 <= num < 2 ^ 32 ->
  num <= zlength buf -> is_bytes buf -> zlength buf' = num ->
  exists r d', write_to_file (Z.to_nat 65536) fs entry off buf num d = Ok (r, d') /\
    (off + num <= csize * zlength ns -> r = num) /\
    read_from_file (Z.to_nat 65536) fs entry off buf' r d' = Ok (splice buf' 0 (slice buf 0 r), r, d').
Proof.
  intros Hv Hsane Hc Ho Hn Hb Hby Hb'.
  destruct (write_spec d entry ns off buf num _ Hv Hsane Hc Ho Hn Hb Hby (le_n _))
    as (r & d' & new & E & Hr & _ & Hc' & Hsame & _ & Hfit & Hbytes & Hin & _).
  exists r, d'. split; [done|]. split; [intros H1; by apply Hin|].
  assert (Hv' : vol d') by apply Hsame. pose proof csize_pos.
  rewrite (read_spec d' entry (ns ++ new) off buf' r); [|done|done|rewrite length_app; nia|lia|lia|by apply (chain_length fs N Hlay d' (first_cluster entry))].
  do 3 f_equal; [|lia]. f_equal. rewrite Hbytes. pose proof (chain_size d' _ _ Hv' Hc') as Hsz.
  assert (Hsz0 : zlength (chain_bytes d (ns ++ new)) = csize * zlength (ns ++ new)).
  { apply (chain_bytes_length fs N Hlay); [done|]. intros m Hm. by apply (chain_valid fs N Hlay d' _ _ m Hc'). }
  assert (Hsl : zlength (slice buf 0 r) = r) by (rewrite slice_length; lia).
  rewrite <- Hsl at 2. rewrite slice_splice by lia. done.
Qed.

(** Writing a file leaves every other file alone: its chain and
    its bytes are the same after the write, however many clusters the write
    took. *)
Lemma write_leaves_other_files d entry ns off buf num first ms :
  vol d -> table_sane d -> chain d (first_cluster entry) ns -> 0 <= off < csize * zlength ns -> 0 <= num < 2 ^ 32 ->
  num <= zlength buf -> is_bytes buf -> chain d first ms -> (forall m, m ∈ ms -> m ∉ ns) ->
  exists r d', write_to_file (Z.to_nat 65536) fs entry off buf num d = Ok (r, d') /\
    chain d' first ms /\ chain_bytes d' ms = chain_bytes d ms.
Proof.
  intros Hv Hsane Hc Ho Hn Hb Hby Hms Hdis.
  destruct (write_spec d entry ns off buf num _ Hv Hsane Hc Ho Hn Hb Hby (le_n _))
    as (r & d' & new & E & _ & _ & _ & Hsame & Hnew & _). exists r, d'. split; [done|].
  assert (Hout : forall m, m ∈ ms -> m ∉ ns ++ new).
  { intros m Hm [Hin|Hin]%elem_of_app; [by apply (Hdis m)|]. by apply (chain_not_free d first ms m Hms), Hnew. }
  split; [by eapply (chain_same fs N Hlay)|]. eapply (chain_bytes_same fs N); [exact Hsame|].
  intros m Hm. split; [by apply (chain_valid fs N Hlay d first ms m Hms)|by apply Hout].
Qed.
End Files.

(** ** At the end of the chain *)
Section Boundary.
Context (fs : fat16_t) (dk : disk_py).
Context (Hok : server_ok dk) (Hlay : layout fs (block_num dk)).
Context (Hsmall : block_num dk <= data_start fs + 65518 * sectors_per_cluster fs).
Abbreviation l := (idle dk).

Lemma walk_end ms : forall cur prev i k fuel,
  vol fs (block_num dk) l -> chain fs (block_num dk) l cur ms -> k = i + zlength ms -> (length ms < fuel)%nat ->
  exists prev' e, while_loop fuel (walk_turn fs k) (prev, cur, i, l) = Ok (prev', e, k, l) /\ 65520 <= e < 2 ^ 16.
Proof.
  induction ms as [|m ms IH]; intros cur prev i k fuel Hv Hc Hk Hf; (destruct fuel as [|fuel]; [simpl in Hf; lia|]); rewrite while_loop_S, walk_turn_eq.
  - exists prev, cur. assert (Ek : k = i) by (simpl in Hk; lia). rewrite Ek. inversion Hc; subst. split; [|done].
    assert (in_use cur = false) as -> by (unfold in_use; lia). done.
  - destruct (chain_inv fs (block_num dk) l cur m ms Hc) as [-> Hc'].
    destruct (chain_head fs (block_num dk) l m ms Hc') as (Hu & Hval & Hnext).
    rewrite Hu. simpl. destruct (Z.ltb_spec i k); [|simpl in Hk; lia].
    rewrite (get_successor_valid fs (block_num dk)) by (done || by apply in_use_small). ok_bind.
    apply IH; [done|done|simpl in Hk; lia|simpl in Hf; lia].
Qed.

(** Neither a read nor a write of the cluster an end mark would be reaches the disk. *)
Lemma end_sector e i :
  65520 <= e < 2 ^ 16 -> 0 <= i < sectors_per_cluster fs ->
  block_num dk <= u32 (first_sector fs e + i) < 2 ^ 31.
Proof.
  intros He Hi. destruct (regions_eq fs _ Hlay) as (_ & _ & E). pose proof (lay_spc _ _ Hlay). pose proof (ok_num dk Hok).
  assert (Hds : 0 <= data_start fs < 2 ^ 18).
  { destruct Hlay as [_ _ Hr Hf Hs Hn _]. unfold data_start, root_start, sector_size.
    assert (0 <= num_root_directory_entries fs * 32 / 512 < 2 ^ 13) by (split; [apply Z.div_pos|apply Z.div_lt_upper_bound]; lia). nia. }
  unfold first_sector. rewrite E. assert (65518 * sectors_per_cluster fs <= (e - 2) * sectors_per_cluster fs <= 65536 * 128) by nia.
  nowrap. lia.
Qed.

Lemma load_end e buf :
  65520 <= e < 2 ^ 16 -> zlength buf = cluster_size fs -> load_cluster fs e buf l = Ok (buf, l).
Proof.
  intros He Hb. pose proof (lay_spc _ _ Hlay). unfold load_cluster, load_cluster_at. rewrite (lay_bps _ _ Hlay).
  destruct (for_loop_inv (fun _ st => st = (buf, l)) (Z.to_nat (sectors_per_cluster fs)) 0
    (fun i '(buf, d) => rd_into (u32 (first_sector fs e + i)) buf (0 + i * sector_size) sector_size d) (buf, l)) as (st & E & ->); [done| |done].
  intros i st Hi ->. eexists. split; [|done]. unfold cluster_size, sector_size in *. unfold rd_into. rewrite decide_True by nia.
  change (disk_rd ?a ?x ?n (idle dk)) with (uart_disk_rd a x n (idle dk)).
  rewrite uart_rd_silent by (done || (apply end_sector; lia)). ok_bind. by rewrite splice_slice by nia.
Qed.

Lemma write_end e buf :
  65520 <= e < 2 ^ 16 -> zlength buf = cluster_size fs -> is_bytes buf -> write_cluster fs e buf l = Ok l.
Proof.
  intros He Hb Hby. pose proof (lay_spc _ _ Hlay). unfold write_cluster. rewrite (lay_bps _ _ Hlay).
  destruct (for_loop_inv (fun _ d => d = l) (Z.to_nat (sectors_per_cluster fs)) 0
    (fun i d => wr_from (u32 (first_sector fs e + i)) buf (i * sector_size) sector_size d) l) as (d & E & ->); [done| |done].
  intros i d Hi ->. eexists. split; [|done]. unfold cluster_size, sector_size in *. unfold wr_from. rewrite decide_True by nia.
  change (disk_wr ?a ?x ?n (idle dk)) with (uart_disk_wr a x n (idle dk)).
  apply uart_wr_silent; [done|apply end_sector; lia|by apply slice_bytes|]. rewrite slice_length; unfold sector_size; nia.
Qed.

Lemma successor_end e : 65520 <= e < 2 ^ 16 -> exists v, get_successor_cluster fs e l = Ok (v, l).
Proof.
  intros He. destruct (regions_eq fs _ Hlay) as (Ef & _ & _). pose proof (ok_num dk Hok). pose proof (lay_reserved _ _ Hlay).
  unfold get_successor_cluster. rewrite Ef, (lay_bps _ _ Hlay). destruct (table_split e) as (Es & En & Hm); [lia|].
  assert (0 <= e / 256 < 256) by (split; [apply Z.div_pos|apply Z.div_lt_upper_bound]; lia). rewrite Es.
  unfold table_start in *. rewrite (u32_small (num_reserved_sectors fs + e / 256)) by lia.
  assert (exists b, rd_into (num_reserved_sectors fs + e / 256) (fresh sector_size) 0 sector_size l = Ok (b, l) /\ zlength b = sector_size) as (b & -> & Hb).
  { unfold rd_into. rewrite decide_True by (unfold fresh, sector_size; rewrite length_replicate; lia).
    change (disk_rd ?a ?x ?n (idle dk)) with (uart_disk_rd a x n (idle dk)).
    assert (Hf : zlength (slice (fresh sector_size) 0 sector_size) = sector_size) by done.
    destruct (decide (num_reserved_sectors fs + e / 256 < block_num dk)) as [Hlt|Hge].
    - rewrite uart_rd_spec by (done || lia). ok_bind. eexists. split; [done|].
      destruct (disk_sector_ok dk (num_reserved_sectors fs + e / 256) Hok) as [Hl _]; [lia|]. rewrite splice_length; [done|lia|rewrite Hl; done].
    - rewrite uart_rd_silent by (done || lia). ok_bind. eexists. split; [done|]. by rewrite splice_length. }
  ok_bind. change (sector_size / 2) with 256. rewrite (u32_small (256 * (e / 256))), u16_small by lia.
  replace (e - 256 * (e / 256)) with (e mod 256) by lia. unfold sector_size in Hb.
  destruct (buf_get_Ok b (e mod 256 * 2)) as (lo & _ & ->); [lia|]. ok_bind.
  destruct (buf_get_Ok b (e mod 256 * 2 + 1)) as (hi & _ & ->); [lia|]. ok_bind. by eexists.
Qed.

(** C40 (error): a write of at most one cluster that starts exactly at the end
    of the last cluster, as an append to a file whose size is a multiple of the
    cluster size does, goes to the cluster the end mark would be. On the real
    disk it is dropped without a trace: the call reports all its bytes as
    written and the disk is as it was. *)
Theorem append_at_boundary_is_lost entry ns buf num :
  vol fs (block_num dk) l -> chain fs (block_num dk) l (first_cluster entry) ns -> zlength ns < 2 ^ 15 ->
  0 <= num <= cluster_size fs -> num <= zlength buf -> is_bytes buf ->
  write_to_file (Z.to_nat 65536) fs entry (cluster_size fs * zlength ns) buf num l = Ok (num, l).
Proof.
  intros Hv Hc Hns Hnum Hbuf Hby. pose proof (csize_pos fs _ Hlay) as Hcs. unfold write_to_file.
  rewrite (bytes_per_cluster_eq fs _ Hlay), Z.mul_comm, Z.div_mul by lia. rewrite (u16_small (zlength ns)) by lia. cbv zeta.
  rewrite Z.sub_diag, (u16_small 0), Z.sub_0_r by lia. unfold walk.
  destruct (walk_end ns (first_cluster entry) 0 0 (zlength ns) (Z.to_nat 65536) Hv Hc) as (prev & e & -> & He);
    [lia|by apply (chain_length fs _ Hlay l (first_cluster entry))|]. ok_bind.
  pose proof (fresh_cluster fs _ Hlay) as Hf. set (data := fresh (sectors_per_cluster fs * bytes_per_sector fs)) in *.
  rewrite load_end by done. ok_bind. rewrite (u32_small (cluster_size fs)) by lia.
  assert ((if cluster_size fs >? num then num else cluster_size fs) = num) as -> by (destruct (Z.gtb_spec (cluster_size fs) num); lia).
  rewrite stdmem_copy_spec by lia. ok_bind.
  assert (Hsl : zlength (slice buf 0 num) = num) by (rewrite slice_length; lia).
  rewrite write_end; [|done|rewrite splice_length; lia|].
  2: { apply splice_bytes; [|by apply slice_bytes]. apply Forall_replicate. done. }
  ok_bind. destruct (successor_end e He) as (v & ->). ok_bind.
  assert (Z.to_nat 65536 = S (Z.to_nat 65535)) as -> by lia. rewrite while_loop_S, overwrite_turn_eq.
  rewrite Z.ltb_irrefl, andb_false_r. ok_bind. rewrite while_loop_S, extend_turn_eq, Z.ltb_irrefl. done.
Qed.
End Boundary.

(** ** The theorems at work: a volume of eight sectors, with one file in
    clusters 2 and 3, another in cluster 5, and clusters 4 and 6 free *)
Definition demo_fs : fat16_t := Fat16 512 1 1 1 16 8 248 1 0 [] [].
Definition demo_entries : list Z := [65528; 65535; 3; 65535; 0; 65535; 0] ++ replicate 249 65535.
Definition demo_blocks : list (list Z) :=
  [replicate 512 0; x ← demo_entries; [x mod 256; x / 256]; replicate 512 0;
   replicate 512 2; replicate 512 3; replicate 512 4; replicate 512 5; replicate 512 6].
Definition demo_vol : ram_disk := RamDisk demo_blocks.
Definition demo_link : disk_py := DiskPy 8 512 (mjoin demo_blocks).
Definition demo_file : fat16_dir_entry_t := DirEntry (bytes_of "FILE") [] 0 2 1024.

Lemma demo_layout : layout demo_fs 8.
Proof. constructor; simpl; unfold sector_size; lia. Qed.

Lemma demo_blocks_ok : Forall (fun b => zlength b = sector_size /\ is_bytes b) demo_blocks.
Proof. apply (bool_decide_unpack _). by vm_compute. Qed.

Lemma demo_vol_ok : vol demo_fs 8 demo_vol.
Proof. split; [exact demo_blocks_ok|split; [done|]]. vm_compute. discriminate. Qed.

Lemma demo_link_ok : server_ok demo_link.
Proof. constructor; [done|done|done|]. apply (bool_decide_unpack _). by vm_compute. Qed.

Lemma demo_link_vol : vol demo_fs 8 (idle demo_link).
Proof. split; [exists demo_link; split; [done|exact demo_link_ok]|split; [done|]]. vm_compute. discriminate. Qed.

Lemma demo_valid n : 2 <= n <= 6 -> valid demo_fs 8 n.
Proof.
  intros Hn. split; [unfold in_table; simpl; lia|]. split; [lia|]. change (data_start demo_fs) with 3. simpl. lia.
Qed.

(** A chain, from the values of the table. *)
Lemma chain_by_value {D} `{BlockDeviceLaws D} (d : D) n m ns :
  fat demo_fs d n = m -> 2 <= n <= 6 -> chain demo_fs 8 d m ns -> chain demo_fs 8 d n (n :: ns).
Proof. intros <- Hn Hc. apply chain_link; [unfold in_use; lia|by apply demo_valid|done]. Qed.

Lemma demo_chain : chain demo_fs 8 demo_vol 2 [2; 3].
Proof. apply (chain_by_value _ 2 3); [by vm_compute|lia|]. apply (chain_by_value _ 3 65535); [by vm_compute|lia|by constructor]. Qed.

Lemma demo_chain_other : chain demo_fs 8 demo_vol 5 [5].
Proof. apply (chain_by_value _ 5 65535); [by vm_compute|lia|by constructor]. Qed.

Lemma demo_link_chain : chain demo_fs 8 (idle demo_link) 2 [2; 3].
Proof. apply (chain_by_value _ 2 3); [by vm_compute|lia|]. apply (chain_by_value _ 3 65535); [by vm_compute|lia|by constructor]. Qed.

(** Sanity of a table, checked entry by entry. *)
Lemma sane_by_check d : Forall (fun m => fat demo_fs d m = 0 -> 2 <= m <= 6) (seqZ 0 256) -> table_sane demo_fs 8 d.
Proof.
  intros Hall m Hm H0. unfold in_table in Hm. simpl in Hm.
  assert (Hm' : 2 <= m <= 6) by (apply (proj1 (Forall_forall _ _) Hall m); [apply elem_of_seqZ; lia|done]).
  split; [by apply demo_valid|unfold in_use; lia].
Qed.

Lemma demo_sane : table_sane demo_fs 8 demo_vol.
Proof. apply sane_by_check, (bool_decide_unpack _). by vm_compute. Qed.

Definition demo_data : list Z := replicate 700 65.

Lemma demo_data_bytes : is_bytes demo_data.
Proof. by apply Forall_replicate. Qed.

Lemma read_from_file_spec_witness :
  read_from_file (Z.to_nat 65536) demo_fs demo_file 510 [0; 0; 0; 0] 4 demo_vol = Ok ([2; 2; 3; 3], 4, demo_vol).
Proof.
  rewrite (read_from_file_spec demo_fs 8 demo_layout demo_vol demo_file [2; 3] 510 [0; 0; 0; 0] 4 demo_vol_ok demo_chain);
    [|vm_compute; split; [discriminate|reflexivity]|lia|simpl; lia].
  by vm_compute.
Defined.

Lemma write_to_file_spec_witness :
  exists r d' new, write_to_file (Z.to_nat 65536) demo_fs demo_file 510 demo_data 700 demo_vol = Ok (r, d') /\
    chain demo_fs 8 d' 2 ([2; 3] ++ new).
Proof.
  destruct (write_to_file_spec demo_fs 8 demo_layout demo_vol demo_file [2; 3] 510 demo_data 700 demo_vol_ok demo_sane demo_chain)
    as (r & d' & new & E & _ & _ & Hc & _); [vm_compute; split; [discriminate|reflexivity]|lia|done|exact demo_data_bytes|].
  exists r, d', new. split; [exact E|exact Hc].
Defined.

Lemma read_after_write_witness :
  exists r d', write_to_file (Z.to_nat 65536) demo_fs demo_file 510 [65; 66] 2 demo_vol = Ok (r, d') /\
    read_from_file (Z.to_nat 65536) demo_fs demo_file 510 [0; 0] r d' = Ok (splice [0; 0] 0 (slice [65; 66] 0 r), r, d').
Proof.
  destruct (read_after_write demo_fs 8 demo_layout demo_vol demo_file [2; 3] 510 [65; 66] 2 [0; 0] demo_vol_ok demo_sane demo_chain)
    as (r & d' & E & _ & E'); [vm_compute; split; [discriminate|reflexivity]|lia|simpl; lia|by repeat constructor|done|].
  exists r, d'. split; [exact E|exact E'].
Defined.

Lemma write_leaves_other_files_witness :
  exists r d', write_to_file (Z.to_nat 65536) demo_fs demo_file 510 demo_data 700 demo_vol = Ok (r, d') /\
    chain_bytes demo_fs d' [5] = replicate 512 5.
Proof.
  destruct (write_leaves_other_files demo_fs 8 demo_layout demo_vol demo_file [2; 3] 510 demo_data 700 5 [5] demo_vol_ok demo_sane demo_chain)
    as (r & d' & E & _ & Hb); [vm_compute; split; [discriminate|reflexivity]|lia|done|exact demo_data_bytes|exact demo_chain_other|set_solver by lia|].
  exists r, d'. split; [exact E|]. rewrite Hb. by vm_compute.
Defined.

Lemma append_at_boundary_is_lost_witness :
  write_to_file (Z.to_nat 65536) demo_fs demo_file 1024 [65; 66] 2 (idle demo_link) = Ok (2, idle demo_link).
Proof.
  apply (append_at_boundary_is_lost demo_fs demo_link demo_link_ok demo_layout ltac:(vm_compute; discriminate) demo_file [2; 3]);
    [exact demo_link_vol|exact demo_link_chain|done|vm_compute; split; discriminate|simpl; lia|by repeat constructor].
Defined.
