(* ===== verification/Chains.v ===== *)
(** * When the loops along a chain of clusters end

    [num_clusters_in_chain] of file.c, and with it every loop that follows the
    links of the table until an end mark, ends exactly when the links do not
    come back to a cluster; 65536 turns tell. [load_file] on a chain that ends. *)
From S2P Require Import Prelude Mem Disk Fat16 Volume Files.

(** ** Orbits of a function on a bounded range *)
Section Orbit.
Context (f : Z -> Z) (c : Z).

Definition orbit (k : nat) : Z := Nat.iter k f c.

Lemma orbit_S k : orbit (S k) = f (orbit k).
Proof. done. Qed.

(** Two equal points make the orbit periodic from there on. *)
Lemma orbit_shift i j k : orbit i = orbit j -> orbit (k + i) = orbit (k + j).
Proof. intros E. induction k as [|k IH]; [done|]. cbn [Nat.add]. by rewrite !orbit_S, IH. Qed.

(** What holds up to the second of two equal points holds for good. *)
Lemma orbit_forever (P : Z -> Prop) i j :
  (i < j)%nat -> orbit i = orbit j -> (forall k, (k < j)%nat -> P (orbit k)) -> forall k, P (orbit k).
Proof.
  intros Hij E HP k. induction k as [k IH] using lt_wf_ind. destruct (decide (k < j)%nat) as [|Hk]; [by apply HP|].
  replace k with (k - j + j)%nat by lia. rewrite <- (orbit_shift i j _ E). apply IH. lia.
Qed.

(** An orbit that stays in a range longer than the range comes back. *)
Lemma orbit_returns a n :
  (forall k, (k <= n)%nat -> a <= orbit k < a + Z.of_nat n) -> exists i j, (i < j <= n)%nat /\ orbit i = orbit j.
Proof.
  intros Hin. destruct (decide (NoDup (orbit <$> seq 0 (S n)))) as [Hnd|Hdup].
  - exfalso. assert (Hsub : orbit <$> seq 0 (S n) ⊆+ seqZ a (Z.of_nat n)).
    { apply NoDup_submseteq; [done|]. intros x (k & -> & Hk%elem_of_seq)%list_elem_of_fmap. apply elem_of_seqZ.
      pose proof (Hin k ltac:(lia)). lia. }
    apply submseteq_length in Hsub. rewrite length_fmap, length_seq, length_seqZ in Hsub. lia.
  - destruct (decide (Exists (fun i => Exists (fun j => (i < j)%nat /\ orbit i = orbit j) (seq 0 (S n))) (seq 0 (S n)))) as [Hex|Hno].
    { apply Exists_exists in Hex as (i & _ & (j & Hj%elem_of_seq & Hij & E)%Exists_exists). exists i, j. split; [lia|done]. }
    exfalso. apply Hdup, NoDup_alt. intros i j x Hi Hj. rewrite list_lookup_fmap in Hi, Hj.
    apply fmap_Some in Hi as (? & Hi & ->). apply fmap_Some in Hj as (? & Hj & E).
    apply lookup_seq in Hi as [-> Hi]. apply lookup_seq in Hj as [-> Hj]. cbn [Nat.add] in *.
    destruct (decide (i = j)) as [|Hne]; [done|]. exfalso. apply Hno, Exists_exists.
    destruct (decide (i < j)%nat); [exists i; split; [by apply elem_of_seq; lia|]; apply Exists_exists; exists j|exists j; split; [by apply elem_of_seq; lia|]; apply Exists_exists; exists i].
    all: split; [apply elem_of_seq; lia|split; [lia|congruence]].
Qed.

(** The first place, if there is one before [n], where a test fails. *)
Lemma orbit_first (p : Z -> bool) n :
  (exists k, (k < n)%nat /\ p (orbit k) = false /\ forall j, (j < k)%nat -> p (orbit j) = true) \/
  (forall k, (k < n)%nat -> p (orbit k) = true).
Proof.
  induction n as [|n [(k & Hk & Hf & Ht)|IH]]; [right; lia|left; exists k; split; [lia|done]|].
  destruct (p (orbit n)) eqn:E; [right|left; exists n; split; [lia|done]].
  intros k Hk. destruct (decide (k = n)) as [->|]; [done|]. apply IH. lia.
Qed.
End Orbit.

(** ** The count *)
Section Count.
Context `{BlockDeviceLaws D} (fs : fat16_t) (N : Z).
Context (Hlay : layout fs N).

(** The links of the table stay inside the table. *)
Definition closed_table (d : D) : Prop :=
  forall n, in_table fs n -> in_use (fat fs d n) = true -> in_table fs (fat fs d n).

Definition count_turn (fs : fat16_t) : Z * Z * D -> outcome (Z * Z * D + Z * D) := fun '(count, next, d) =>
  if in_use next then
    '(next', d) ← get_successor_cluster fs next d;
    Ok (inl (u16 (count + 1), next', d))
  else Ok (inr (count, d)).

(** The places of the walk are entries of the table as long as they are in use. *)
Lemma orbit_in_table d c k :
  closed_table d -> in_table fs c -> (forall j, (j <= k)%nat -> in_use (orbit (fat fs d) c j) = true) ->
  in_table fs (orbit (fat fs d) c k).
Proof.
  intros Hcl Hc Hu. destruct k as [|k]; [done|]. induction k as [|k IH].
  - rewrite orbit_S. apply Hcl; [done|]. by apply (Hu 1%nat).
  - rewrite orbit_S. apply Hcl; [apply IH; intros j Hj; apply Hu; lia|]. by apply (Hu (S (S k))).
Qed.

Lemma count_step d c k n :
  vol fs N d -> closed_table d -> in_table fs c -> (forall j, (j <= k)%nat -> in_use (orbit (fat fs d) c j) = true) ->
  count_turn fs (n, orbit (fat fs d) c k, d) = Ok (inl (u16 (n + 1), orbit (fat fs d) c (S k), d)).
Proof.
  intros Hv Hcl Hc Hu. unfold count_turn. rewrite (Hu k) by lia. pose proof (Hu k ltac:(lia)) as Hk%in_use_range.
  destruct (get_successor_spec fs N Hlay d (orbit (fat fs d) c k) Hv) as [-> _]; [by apply orbit_in_table|lia|]. done.
Qed.

(** From the [k]-th place of a walk that is first free at the [n]-th. *)
Lemma count_to_end d c n k fuel :
  vol fs N d -> closed_table d -> in_table fs c -> in_use (orbit (fat fs d) c n) = false ->
  (forall j, (j < n)%nat -> in_use (orbit (fat fs d) c j) = true) -> (k <= n < Z.to_nat 65536)%nat -> (n - k < fuel)%nat ->
  while_loop fuel (count_turn fs) (Z.of_nat k, orbit (fat fs d) c k, d) = Ok (Z.of_nat n, d).
Proof.
  intros Hv Hcl Hc Hend Hu. revert k; induction fuel as [|fuel IH]; intros k Hk Hf; [lia|]. rewrite while_loop_S.
  destruct (decide (k = n)) as [->|Hne]; [unfold count_turn; by rewrite Hend|].
  rewrite count_step; [|done|done|done|intros j Hj; apply Hu; lia]. ok_bind. rewrite u16_small by lia.
  replace (Z.of_nat k + 1) with (Z.of_nat (S k)) by lia. apply IH; lia.
Qed.

(** A walk that never ends. *)
Lemma count_forever d c k n fuel :
  vol fs N d -> closed_table d -> in_table fs c -> (forall j, in_use (orbit (fat fs d) c j) = true) ->
  while_loop fuel (count_turn fs) (n, orbit (fat fs d) c k, d) = Err OutOfFuel.
Proof.
  intros Hv Hcl Hc Hu. revert k n; induction fuel as [|fuel IH]; intros k n; [done|]. rewrite while_loop_S, count_step by done. apply IH.
Qed.

Lemma num_clusters_unfold d c fuel :
  vol fs N d -> in_table fs c -> in_use c = true ->
  num_clusters_in_chain fuel fs c d = while_loop fuel (count_turn fs) (1, orbit (fat fs d) c 1, d).
Proof.
  intros Hv Hc Hu. pose proof Hu as Hr%in_use_range. unfold num_clusters_in_chain. rewrite Hu.
  destruct (get_successor_spec fs N Hlay d c Hv Hc) as [-> _]; [lia|]. done.
Qed.

(** C24 (termination): on any table whose links stay inside it, damaged or not,
    [num_clusters_in_chain] ends if and only if the links from the first
    cluster do not come back to a place where they were: either they leave the
    clusters after fewer than 65536 steps, and then 65536 turns give their
    number and the disk is as before, or two steps lead to the same cluster
    and no number of turns is enough. *)
Theorem num_clusters_terminates d c :
  vol fs N d -> closed_table d -> in_table fs c -> in_use c = true ->
  (exists n, (n < Z.to_nat 65536)%nat /\ in_use (orbit (fat fs d) c n) = false /\
    (forall j, (j < n)%nat -> in_use (orbit (fat fs d) c j) = true) /\
    forall fuel, (Z.to_nat 65536 <= fuel)%nat -> num_clusters_in_chain fuel fs c d = Ok (Z.of_nat n, d)) \/
  (exists i j, (i < j < Z.to_nat 65536)%nat /\ orbit (fat fs d) c i = orbit (fat fs d) c j /\
    forall fuel, num_clusters_in_chain fuel fs c d = Err OutOfFuel).
Proof.
  intros Hv Hcl Hc Hu. destruct (orbit_first (fat fs d) c in_use (Z.to_nat 65519)) as [(n & Hn & Hend & Hbefore)|Hall].
  - left. exists n. split; [lia|]. split; [done|]. split; [done|]. intros fuel Hf. rewrite num_clusters_unfold by done.
    destruct n as [|n]; [cbn in Hend; congruence|]. apply (count_to_end d c (S n) 1); (done || lia).
  - right. destruct (orbit_returns (fat fs d) c 2 (Z.to_nat 65518)) as (i & j & Hij & E).
    { intros k Hk. pose proof (Hall k ltac:(lia)) as Hr%in_use_range. lia. }
    exists i, j. split; [lia|]. split; [done|]. intros fuel. rewrite num_clusters_unfold by done.
    apply (count_forever d c 1); [done|done|done|].
    apply (orbit_forever (fat fs d) c (fun n => in_use n = true) i j); [lia|done|]. intros k Hk. apply Hall. lia.
Qed.
End Count.

(** ** Loading a whole file *)
Section Load.
Context `{BlockDeviceLaws D} (fs : fat16_t) (N : Z).
Context (Hlay : layout fs N).

(** A cluster that the buffer has no room for: some of its sectors may still
    fit, the first that does not is read past the end. *)
Lemma load_cluster_at_over d n buf off :
  vol fs N d -> on_disk fs N n -> 0 <= off <= zlength buf -> zlength buf < off + cluster_size fs ->
  load_cluster_at fs n buf off d = Err OutOfBounds.
Proof.
  intros Hv Hn Ho Hb. pose proof (lay_spc _ _ Hlay). unfold load_cluster_at. rewrite (lay_bps _ _ Hlay), (first_sector_eq fs N Hlay d) by done.
  set (k := (zlength buf - off) / sector_size).
  assert (Hk : k * sector_size <= zlength buf - off < (k + 1) * sector_size /\ 0 <= k).
  { unfold k, sector_size. pose proof (Z.div_mod (zlength buf - off) 512). pose proof (Z.mod_pos_bound (zlength buf - off) 512).
    pose proof (Z.div_pos (zlength buf - off) 512). lia. }
  assert (Hkn : k < sectors_per_cluster fs) by (unfold cluster_size, sector_size in *; nia).
  apply (for_loop_fault (fun i st => exists b, st = (b, d) /\ zlength b = zlength buf) _ _ k).
  - by exists buf.
  - lia.
  - intros i st Hi (b & -> & Hl). destruct (cluster_sector_bounds fs N Hlay d n i Hv Hn) as [Hs _]; [lia|]. pose proof (disk_small fs N Hlay d Hv).
    pose proof (root_start_bounds fs N Hlay). pose proof (lay_spf _ _ Hlay). pose proof (lay_reserved _ _ Hlay). unfold table_start in *.
    rewrite u32_small by lia. assert (off + (i + 1) * sector_size <= zlength buf) by (unfold sector_size in *; nia).
    eexists. split; [apply (rd_into_spec fs N); [done|lia|unfold sector_size; lia|unfold sector_size in *; lia]|].
    eexists. split; [done|]. rewrite splice_length; [done|unfold sector_size; lia|].
    rewrite sector_length; [unfold sector_size in *; lia|apply Hv|lia].
  - intros st (b & -> & Hl). unfold rd_into. by rewrite decide_False by (unfold sector_size in *; lia).
Qed.
Definition load_turn (fs : fat16_t) : list Z * Z * Z * D -> outcome (list Z * Z * Z * D + list Z * Z * D) :=
  fun '(file_data, file_clusters_written, next_cluster, d) =>
    if in_use next_cluster then
      '(file_data, d) ← load_cluster_at fs next_cluster file_data (file_clusters_written * sectors_per_cluster fs * bytes_per_sector fs) d;
      '(next_cluster, d) ← get_successor_cluster fs next_cluster d;
      Ok (inl (file_data, file_clusters_written + 1, next_cluster, d))
    else Ok (inr (file_data, file_clusters_written * sectors_per_cluster fs * bytes_per_sector fs, d)).

Lemma load_turn_in_use data k n d :
  in_use n = true ->
  load_turn fs (data, k, n, d) =
    '(data, d) ← load_cluster_at fs n data (k * sectors_per_cluster fs * bytes_per_sector fs) d;
    '(n, d) ← get_successor_cluster fs n d;
    Ok (inl (data, k + 1, n, d)).
Proof. intros Hu. unfold load_turn. by rewrite Hu. Qed.

Lemma chain_bytes_snoc d ns n : chain_bytes fs d (ns ++ [n]) = chain_bytes fs d ns ++ cluster fs d n.
Proof. unfold chain_bytes. rewrite fmap_app, join_app. cbn. by rewrite app_nil_r. Qed.

Lemma load_loop_spec d size before ns next fuel :
  vol fs N d -> chain fs N d next ns -> (forall m, m ∈ before -> on_disk fs N m) -> (length ns < fuel)%nat ->
  0 <= size -> cluster_size fs * zlength before <= size ->
  while_loop fuel (load_turn fs) (splice (fresh size) 0 (chain_bytes fs d before), zlength before, next, d) =
    if decide (cluster_size fs * zlength (before ++ ns) <= size)
    then Ok (splice (fresh size) 0 (chain_bytes fs d (before ++ ns)), cluster_size fs * zlength (before ++ ns), d) else Err OutOfBounds.
Proof.
  intros Hv Hc. revert before fuel. induction Hc as [next He|n ns Hu [Hn Hd] Hc IH]; intros before fuel Hb Hf Hs0 Hs; (destruct fuel as [|fuel]; [simpl in Hf; lia|]).
  - rewrite while_loop_S, app_nil_r, decide_True by done. unfold load_turn. assert (in_use next = false) as -> by (unfold in_use; lia).
    ok_bind. rewrite (lay_bps _ _ Hlay). do 3 f_equal. unfold cluster_size. lia.
  - rewrite while_loop_S, load_turn_in_use by done.
    pose proof (chain_bytes_length fs N Hlay d before Hv Hb) as Hbl. pose proof (cluster_length fs N Hlay d n Hv Hd) as Hcl.
    assert (Hfl : zlength (fresh size) = size) by (unfold fresh; rewrite length_replicate; lia).
    assert (Hoff : zlength before * sectors_per_cluster fs * bytes_per_sector fs = zlength (chain_bytes fs d before)).
    { rewrite Hbl, (lay_bps _ _ Hlay). unfold cluster_size. lia. }
    assert (Hsl : zlength (splice (fresh size) 0 (chain_bytes fs d before)) = size) by (rewrite splice_length; lia).
    rewrite Hoff. destruct (decide (cluster_size fs * zlength before + cluster_size fs <= size)) as [Hfit|Hover].
    + rewrite (load_cluster_at_spec fs N Hlay) by (done || lia). ok_bind. apply in_use_range in Hu as Hr.
      destruct (get_successor_spec fs N Hlay d n Hv Hn) as [-> _]; [lia|]. ok_bind.
      assert (Hroom : 0 + zlength (chain_bytes fs d before) + zlength (cluster fs d n) <= zlength (fresh size)) by (rewrite Hbl, Hcl, Hfl; lia).
      pose proof (splice_splice (fresh size) 0 (chain_bytes fs d before) (cluster fs d n) ltac:(lia) Hroom) as E.
      rewrite Z.add_0_l in E. rewrite E, <- chain_bytes_snoc.
      replace (zlength before + 1) with (zlength (before ++ [n])) by (rewrite length_app; simpl; lia).
      rewrite IH; [by rewrite <- app_assoc| |simpl in Hf; lia|done|rewrite length_app; cbn [length]; lia].
      intros m [Hm| ->%list_elem_of_singleton]%elem_of_app; [by apply Hb|done].
    + rewrite load_cluster_at_over by (done || lia). rewrite decide_False; [done|].
      rewrite length_app, Nat2Z.inj_add. cbn [length]. rewrite Nat2Z.inj_succ.
      assert (0 <= cluster_size fs * zlength ns) by (pose proof (lay_spc _ _ Hlay); unfold cluster_size, sector_size; nia). lia.
Qed.

Lemma load_file_loop fuel entry d :
  load_file fuel fs entry d = while_loop fuel (load_turn fs) (fresh (file_size_bytes entry), 0, first_cluster entry, d).
Proof. done. Qed.

(** [load_file] stays inside its buffer, which has the size the
    directory entry gives, if and only if the clusters of the file are not
    longer than that, so never when the file ends inside its last cluster.
    Then the buffer begins with the bytes of the chain, and the number of bytes
    returned is that of its clusters. *)
Lemma load_file_spec d entry ns :
  vol fs N d -> chain fs N d (first_cluster entry) ns -> 0 <= file_size_bytes entry ->
  load_file (Z.to_nat 65536) fs entry d =
    if decide (cluster_size fs * zlength ns <= file_size_bytes entry)
    then Ok (splice (fresh (file_size_bytes entry)) 0 (chain_bytes fs d ns), cluster_size fs * zlength ns, d)
    else Err OutOfBounds.
Proof.
  intros Hv Hc Hs. pose proof (load_loop_spec d (file_size_bytes entry) [] ns (first_cluster entry) (Z.to_nat 65536) Hv Hc) as E.
  change (chain_bytes fs d []) with (@nil Z) in E. rewrite splice_nil in E. rewrite load_file_loop.
  apply E; [intros m Hm; by apply not_elem_of_nil in Hm|by eapply chain_length|done|]. cbn [length]. lia.
Qed.
End Load.

(** ** At work: the chain of a file ends; one that leads back to itself does not *)
Definition loop_blocks : list (list Z) :=
  [replicate 512 0; x ← [65528; 65535; 3; 2] ++ replicate 252 65535; [x mod 256; x / 256]; replicate 512 0;
   replicate 512 2; replicate 512 3; replicate 512 4; replicate 512 5; replicate 512 6].

Lemma closed_by_value blocks :
  forallb (fun m => negb (in_use (fat demo_fs (RamDisk blocks) m)) || (fat demo_fs (RamDisk blocks) m <? 256)) (seqZ 0 256) = true ->
  closed_table demo_fs (RamDisk blocks).
Proof.
  intros Hall n Hn Hu. rewrite forallb_forall in Hall. unfold in_table in *. simpl in Hn |- *.
  specialize (Hall n). rewrite <- list_elem_of_In, elem_of_seqZ in Hall. specialize (Hall ltac:(lia)).
  rewrite Hu in Hall. apply Z.ltb_lt in Hall. apply in_use_range in Hu. lia.
Qed.

Lemma loop_vol_ok : vol demo_fs 8 (RamDisk loop_blocks).
Proof.
  assert (Hb : Forall (fun b => zlength b = sector_size /\ is_bytes b) loop_blocks) by (apply (bool_decide_unpack _); by vm_compute).
  split; [exact Hb|split; [done|]]. vm_compute. discriminate.
Qed.

Lemma num_clusters_terminates_witness :
  (exists n, in_use (orbit (fat demo_fs demo_vol) 2 n) = false /\ num_clusters_in_chain (Z.to_nat 65536) demo_fs 2 demo_vol = Ok (Z.of_nat n, demo_vol)) /\
  (forall fuel, num_clusters_in_chain fuel demo_fs 2 (RamDisk loop_blocks) = Err OutOfFuel).
Proof.
  split.
  - destruct (num_clusters_terminates demo_fs 8 demo_layout demo_vol 2 demo_vol_ok) as [(n & _ & Hn & _ & E)|(i & j & _ & _ & E)].
    + by apply closed_by_value; vm_compute.
    + unfold in_table; simpl; lia.
    + done.
    + exists n. split; [exact Hn|]. by apply E.
    + exfalso. specialize (E 4%nat). vm_compute in E. discriminate.
  - destruct (num_clusters_terminates demo_fs 8 demo_layout (RamDisk loop_blocks) 2 loop_vol_ok) as [(n & _ & Hn & _)|(i & j & _ & _ & E)].
    + by apply closed_by_value; vm_compute.
    + unfold in_table; simpl; lia.
    + done.
    + exfalso. assert (Hall : in_use (orbit (fat demo_fs (RamDisk loop_blocks)) 2 n) = true); [|congruence].
      apply (orbit_forever _ _ (fun m => in_use m = true) 0 2); [lia|by vm_compute|]. intros [|[|k]] Hk; [by vm_compute|by vm_compute|lia].
    + exact E.
Defined.

Lemma load_file_spec_witness :
  load_file (Z.to_nat 65536) demo_fs demo_file demo_vol = Ok (replicate 512 2 ++ replicate 512 3, 1024, demo_vol) /\
  load_file (Z.to_nat 65536) demo_fs (DirEntry (bytes_of "FILE") [] 0 2 1000) demo_vol = Err OutOfBounds.
Proof.
  split.
  - rewrite (load_file_spec demo_fs 8 demo_layout demo_vol demo_file [2; 3] demo_vol_ok demo_chain); [by vm_compute|done].
  - rewrite (load_file_spec demo_fs 8 demo_layout demo_vol (DirEntry (bytes_of "FILE") [] 0 2 1000) [2; 3] demo_vol_ok demo_chain); [by vm_compute|done].
Defined.
