(* ===== verification/Directory.v ===== *)
(** * Directories

    The part of [file.c] that reads and writes directory entries: slots of 32
    bytes in the sectors of the root directory and in the clusters of the
    others. *)
From S2P Require Import Prelude Disk Fat16.

(** ** Attributes ([stdfile.c]) *)
Record fat16_file_attr_t := FileAttr {
  is_read_only : bool;
  is_hidden_file : bool;
  is_system_file : bool;
  is_volume_label : bool;
  is_subdirectory : bool;
  is_archive : bool
}.

Definition unpack_file_attributes (attributes_byte : Z) : fat16_file_attr_t :=
  let bit m := negb (Z.land attributes_byte m =? 0) in
  FileAttr (bit 1) (bit 2) (bit 4) (bit 8) (bit 16) (bit 32).

(** [result] is not initialised: [garbage] is what the stack holds. *)
Definition pack_file_attributes (garbage : Z) (attributes : fat16_file_attr_t) : Z :=
  let put (b : bool) m r := if b then Z.lor r m else r in
  put (is_archive attributes) 32 (put (is_subdirectory attributes) 16 (put (is_volume_label attributes) 8
    (put (is_system_file attributes) 4 (put (is_hidden_file attributes) 2 (put (is_read_only attributes) 1 garbage))))).

(** ** Slots in a buffer *)

(** The loop of the two [find_first_free_space_in_*]. *)
Definition first_free_space (num_entries : Z) (buf : list Z) : outcome Z :=
  r ← for_find (Z.to_nat num_entries) 0 (fun i =>
        c ← buf_get buf (i * 32);
        Ok (if (c =? 0) || (c =? 229) then Some (i * 32) else None));
  Ok (default (-1) r).

Definition find_first_free_space_in_directory_cluster (fs : fat16_t) (cluster : list Z) : outcome Z :=
  first_free_space (bytes_per_cluster fs / 32) cluster.
Definition find_first_free_space_in_root_directory_sector (fs : fat16_t) (sector : list Z) : outcome Z :=
  first_free_space (bytes_per_sector fs / 32) sector.

(** The comparison of the name in the slot at [off], which stops at a space
    that meets the end of the name. *)
Fixpoint name_matches (n : nat) (j : Z) (buf : list Z) (off : Z) (filename : list Z) (matches : bool) : outcome bool :=
  match n with
  | O => Ok matches
  | S n =>
      c ← buf_get buf (off + j);
      f ← buf_get filename j;
      if (c =? 32) && (f =? 0) then Ok matches
      else name_matches n (j + 1) buf off filename (matches && (c =? f))
  end.

Definition extension_matches (buf : list Z) (off : Z) (extension : list Z) (matches : bool) : outcome bool :=
  for_loop 3 0 (fun j matches =>
    c ← buf_get buf (off + 8 + j);
    e ← buf_get extension j;
    Ok (matches && (c =? e))) matches.

(** The loop of the two [find_file_in_*]. *)
Definition find_slot (num_entries : Z) (buf filename extension : list Z) : outcome Z :=
  r ← for_find (Z.to_nat num_entries) 0 (fun i =>
        matches ← name_matches 8 0 buf (i * 32) filename true;
        matches ← extension_matches buf (i * 32) extension matches;
        Ok (if matches : bool then Some (i * 32) else None));
  Ok (default (-1) r).

Definition find_file_in_directory_cluster (fs : fat16_t) (cluster filename extension : list Z) : outcome Z :=
  find_slot (bytes_per_cluster fs / 32) cluster filename extension.
Definition find_file_in_root_directory_sector (fs : fat16_t) (sector filename extension : list Z) : outcome Z :=
  find_slot (bytes_per_sector fs / 32) sector filename extension.

(** The assignments that fill the slot at [off]; [first] is its first byte. *)
Definition store_entry (buf : list Z) (off first : Z) (entry : fat16_dir_entry_t) : outcome (list Z) :=
  buf ← buf_set buf off first;
  buf ← for_loop 7 1 (fun i buf => c ← buf_get (filename entry) i; buf_set buf (off + i) c) buf;
  buf ← for_loop 3 0 (fun i buf => c ← buf_get (extension entry) i; buf_set buf (off + 8 + i) c) buf;
  buf ← buf_set buf (off + 11) (attributes entry);
  buf ← buf_set buf (off + 26) (Z.land (first_cluster entry) 255);
  buf ← buf_set buf (off + 27) (Z.land (Z.shiftr (first_cluster entry) 8) 255);
  buf ← buf_set buf (off + 28) (Z.land (file_size_bytes entry) 255);
  buf ← buf_set buf (off + 29) (Z.land (Z.shiftr (file_size_bytes entry) 8) 255);
  buf ← buf_set buf (off + 30) (Z.land (Z.shiftr (file_size_bytes entry) 16) 255);
  buf_set buf (off + 31) (Z.land (Z.shiftr (file_size_bytes entry) 24) 255).

(** [filename[0] == 0xe5 ? 0x05 : filename[0]]. *)
Definition stored_first (entry : fat16_dir_entry_t) : outcome Z :=
  c ← buf_get (filename entry) 0; Ok (if c =? 229 then 5 else c).

(** [c == 0x20 ? '\0' : c]. *)
Definition unspace (c : Z) : Z := if c =? 32 then 0 else c.

(** The entry read from the slot at [off]. [filename[9]] and [extension[4]] are
    outside their arrays: they are the bytes after them in the structure, which
    the assignments that follow overwrite; [filename[8]] and [extension[3]] keep
    what the allocator returned. *)
Definition load_entry (sector : list Z) (off : Z) : outcome fat16_dir_entry_t :=
  name ← for_loop 8 0 (fun k l => c ← buf_get sector (off + k); Ok (l ++ [unspace c])) [];
  c0 ← buf_get sector off;
  let name := if c0 =? 5 then <[0%nat := 229]> name else name in
  ext ← for_loop 3 0 (fun k l => c ← buf_get sector (off + 8 + k); Ok (l ++ [unspace c])) [];
  attr ← buf_get sector (off + 11);
  c1 ← buf_get sector (off + 26); c2 ← buf_get sector (off + 27);
  s1 ← buf_get sector (off + 28); s2 ← buf_get sector (off + 29);
  s3 ← buf_get sector (off + 30); s4 ← buf_get sector (off + 31);
  Ok (DirEntry (name ++ [0]) (ext ++ [0]) attr (u16 (c1 + c2 * 256)) (u32 (s1 + 256 * (s2 + 256 * (s3 + 256 * s4))))).

(** The loop of [add_sector_dir_entries_to_list], from slot [j] on. *)
Fixpoint list_slots (n : nat) (j : Z) (sector : list Z) (entry_list : list fat16_dir_entry_t)
  : outcome (bool * list fat16_dir_entry_t) :=
  match n with
  | O => Ok (false, entry_list)
  | S n =>
      c ← buf_get sector (32 * j);
      if c =? 0 then Ok (true, entry_list)
      else if c =? 229 then list_slots n (j + 1) sector entry_list
      else
        entry ← load_entry sector (32 * j);
        list_slots n (j + 1) sector (entry_list ++ [entry])
  end.

Definition add_sector_dir_entries_to_list (fs : fat16_t) (sector : list Z) (entry_list : list fat16_dir_entry_t)
  : outcome (bool * list fat16_dir_entry_t) :=
  let entries_per_sector := i16 (bytes_per_sector fs / 32) in
  list_slots (Z.to_nat entries_per_sector) 0 sector entry_list.

Section Directories.
Context `{BlockDevice D}.

(** ** The root directory *)

(** The search of the two root operations, sector after sector. *)
Definition root_turn (fs : fat16_t) (search : list Z -> outcome Z) (st : Z * list Z * Z * D)
  : outcome ((Z * list Z * Z * D) + (option (Z * list Z * Z) * D)) :=
  let '(sector_num, sector, index, d) := st in
  let regions := calculate_regions fs in
  if index =? -1 then
    let sector_num := u16 (sector_num + 1) in
    if sector_num >? u32 (root_directory_region_start regions + root_directory_region_size regions) then Ok (inr (None, d))
    else
      '(sector, d) ← rd_into sector_num sector 0 (bytes_per_sector fs) d;
      index ← search sector;
      Ok (inl (sector_num, sector, index, d))
  else Ok (inr (Some (sector_num, sector, index), d)).

Definition root_search (fuel : nat) (fs : fat16_t) (search : list Z -> outcome Z) (d : D)
  : outcome (option (Z * list Z * Z) * D) :=
  let sector_num := u16 (root_directory_region_start (calculate_regions fs)) in
  '(sector, d) ← rd_into sector_num (fresh (bytes_per_sector fs)) 0 (bytes_per_sector fs) d;
  index ← search sector;
  while_loop fuel (root_turn fs search) (sector_num, sector, index, d).

Definition add_root_directory_entry (fuel : nat) (fs : fat16_t) (entry : fat16_dir_entry_t) (d : D) : outcome (Z * D) :=
  '(found, d) ← root_search fuel fs (find_first_free_space_in_root_directory_sector fs) d;
  match found with
  | None => Ok (-1, d)
  | Some (sector_num, sector, first_space) =>
      first ← stored_first entry;
      sector ← store_entry sector first_space first entry;
      d ← wr_from sector_num sector 0 (bytes_per_sector fs) d;
      Ok (0, d)
  end.

Definition update_root_directory_entry (fuel : nat) (fs : fat16_t) (updated_entry : fat16_dir_entry_t)
    (old_filename old_extension : list Z) (d : D) : outcome (Z * D) :=
  '(found, d) ← root_search fuel fs (fun sector => find_file_in_root_directory_sector fs sector old_filename old_extension) d;
  match found with
  | None => Ok (-1, d)
  | Some (sector_num, sector, file_index) =>
      first ← buf_get (filename updated_entry) 0;
      sector ← store_entry sector file_index first updated_entry;
      d ← wr_from sector_num sector 0 (bytes_per_sector fs) d;
      Ok (0, d)
  end.

(** [get_root_dir], which starts at sector 1 after the tables whatever the
    number of reserved sectors; from sector [i] on, [n] of them. *)
Fixpoint root_list (n : nat) (i : Z) (fs : fat16_t) (sector : list Z) (result : list fat16_dir_entry_t) (d : D)
  : outcome (list fat16_dir_entry_t * D) :=
  match n with
  | O => Ok (result, d)
  | S n =>
      '(sector, d) ← rd_into (u32 (1 + num_sectors_per_file_allocation_table fs * num_file_allocation_tables fs + i)) sector 0
                       (bytes_per_sector fs) d;
      '(entries_have_terminated, result) ← add_sector_dir_entries_to_list fs sector result;
      if entries_have_terminated : bool then Ok (result, d) else root_list n (i + 1) fs sector result d
  end.

Definition get_root_dir (fs : fat16_t) (d : D) : outcome (list fat16_dir_entry_t * D) :=
  let entries_per_sector := i16 (bytes_per_sector fs / 32) in
  let num_sectors := i16 (num_root_directory_entries fs / entries_per_sector) in
  root_list (Z.to_nat num_sectors) 0 fs (fresh (bytes_per_sector fs)) [] d.

(** ** Other directories *)
Definition past_end (n : Z) : bool := (n <? 2) || (n >? 4079).

(** The loop of [add_directory_entry]. *)
Definition add_turn (fs : fat16_t) (st : Z * Z * list Z * Z * D)
  : outcome ((Z * Z * list Z * Z * D) + (option (Z * list Z * Z) * D)) :=
  let '(previous, current, cluster, first_space, d) := st in
  if first_space =? -1 then
    let previous := current in
    '(current, d) ← get_successor_cluster fs current d;
    if past_end current then
      '(current, d) ← find_first_free_cluster fs d;
      if current <? 2 then Ok (inr (None, d))
      else
        d ← set_successor_cluster fs previous current d;
        Ok (inr (Some (current, cluster, 0), d))
    else
      '(cluster, d) ← load_cluster fs current cluster d;
      first_space ← find_first_free_space_in_directory_cluster fs cluster;
      Ok (inl (previous, current, cluster, first_space, d))
  else Ok (inr (Some (current, cluster, first_space), d)).

Definition add_directory_entry (fuel : nat) (fs : fat16_t) (dir_cluster : Z) (entry : fat16_dir_entry_t) (d : D)
  : outcome (Z * D) :=
  '(cluster, d) ← load_cluster fs dir_cluster (fresh (bytes_per_sector fs * sectors_per_cluster fs)) d;
  first_space ← find_first_free_space_in_directory_cluster fs cluster;
  '(found, d) ← while_loop fuel (add_turn fs) (0, dir_cluster, cluster, first_space, d);
  match found with
  | None => Ok (-1, d)
  | Some (current, cluster, first_space) =>
      first ← stored_first entry;
      cluster ← store_entry cluster first_space first entry;
      d ← write_cluster fs current cluster d;
      Ok (0, d)
  end.

(** The loop of [update_directory_entry]. *)
Definition update_turn (fs : fat16_t) (old_filename old_extension : list Z) (st : Z * list Z * Z * D)
  : outcome ((Z * list Z * Z * D) + (option (Z * list Z * Z) * D)) :=
  let '(current, cluster, file_index, d) := st in
  if file_index =? -1 then
    '(current, d) ← get_successor_cluster fs current d;
    if past_end current then Ok (inr (None, d))
    else
      '(cluster, d) ← load_cluster fs current cluster d;
      file_index ← find_file_in_directory_cluster fs cluster old_filename old_extension;
      Ok (inl (current, cluster, file_index, d))
  else Ok (inr (Some (current, cluster, file_index), d)).

Definition update_directory_entry (fuel : nat) (fs : fat16_t) (dir_cluster : Z) (updated_entry : fat16_dir_entry_t)
    (old_filename old_extension : list Z) (d : D) : outcome (Z * D) :=
  '(cluster, d) ← load_cluster fs dir_cluster (fresh (bytes_per_sector fs * sectors_per_cluster fs)) d;
  file_index ← find_file_in_directory_cluster fs cluster old_filename old_extension;
  '(found, d) ← while_loop fuel (update_turn fs old_filename old_extension) (dir_cluster, cluster, file_index, d);
  match found with
  | None => Ok (-1, d)
  | Some (current, cluster, file_index) =>
      first ← buf_get (filename updated_entry) 0;
      cluster ← store_entry cluster file_index first updated_entry;
      d ← write_cluster fs current cluster d;
      Ok (0, d)
  end.

(** The sectors of a cluster, from sector [i] on. *)
Fixpoint cluster_list (n : nat) (i : Z) (fs : fat16_t) (cluster : list Z) (result : list fat16_dir_entry_t)
  : outcome (bool * list fat16_dir_entry_t) :=
  match n with
  | O => Ok (false, result)
  | S n =>
      '(entries_have_terminated, result) ←
        add_sector_dir_entries_to_list fs (drop (Z.to_nat (i * bytes_per_sector fs)) cluster) result;
      if entries_have_terminated : bool then Ok (true, result) else cluster_list n (i + 1) fs cluster result
  end.

Definition dir_turn (fs : fat16_t) (st : Z * bool * list Z * list fat16_dir_entry_t * D)
  : outcome ((Z * bool * list Z * list fat16_dir_entry_t * D) + (list fat16_dir_entry_t * D)) :=
  let '(next, terminated, cluster, result, d) := st in
  if in_use next && negb terminated then
    '(cluster, d) ← load_cluster fs next cluster d;
    '(terminated, result) ← cluster_list (Z.to_nat (sectors_per_cluster fs)) 0 fs cluster result;
    '(next, d) ← get_successor_cluster fs next d;
    Ok (inl (next, terminated, cluster, result, d))
  else Ok (inr (result, d)).

(** [get_dir]: [None] for [NULL], an entry that is not a directory. The code
    before its loop is the first turn of the loop. *)
Definition get_dir (fuel : nat) (fs : fat16_t) (entry : fat16_dir_entry_t) (d : D)
  : outcome (option (list fat16_dir_entry_t) * D) :=
  if negb (is_subdirectory (unpack_file_attributes (attributes entry))) then Ok (None, d)
  else
    '(result, d) ← while_loop fuel (dir_turn fs)
      (first_cluster entry, false, fresh (bytes_per_sector fs * sectors_per_cluster fs), [], d);
    Ok (Some result, d).
End Directories.
