(* ===== verification/Slots.v ===== *)
(** * Slots and listings

    The 32-byte encoding of directory entries, and what listing, adding and
    updating do to the slots of a directory. *)
From S2P Require Import Prelude Disk Fat16 Volume Directory.

(** ** One slot *)
Definition byte (b : list Z) (i : Z) : Z := default 0 (b !! Z.to_nat i).

Lemma buf_get_byte b i : 0 <= i < zlength b -> buf_get b i = Ok (byte b i).
Proof. intros Hi. destruct (buf_get_Ok b i Hi) as (v & Hv & ->). unfold byte. by rewrite Hv. Qed.

Lemma byte_slice b off n i : 0 <= off -> 0 <= i < n -> byte (slice b off n) i = byte b (off + i).
Proof. intros. unfold byte, slice. rewrite lookup_take_lt, lookup_drop by lia. do 2 f_equal. lia. Qed.

(** The first twelve and the last six bytes of an entry; those between stay. *)
Definition entry_head (first : Z) (e : fat16_dir_entry_t) : list Z :=
  first :: slice (filename e) 1 7 ++ slice (extension e) 0 3 ++ [attributes e].
Definition entry_tail (e : fat16_dir_entry_t) : list Z :=
  [first_cluster e mod 256; first_cluster e / 2 ^ 8 mod 256; file_size_bytes e mod 256; file_size_bytes e / 2 ^ 8 mod 256;
   file_size_bytes e / 2 ^ 16 mod 256; file_size_bytes e / 2 ^ 24 mod 256].

(** The lengths of the arrays. *)
Definition entry_ok (e : fat16_dir_entry_t) : Prop := 8 <= zlength (filename e) /\ 3 <= zlength (extension e).

Lemma entry_head_length first e : entry_ok e -> zlength (entry_head first e) = 12.
Proof.
  intros [Hf He]. unfold entry_head. cbn [length]. rewrite !length_app. cbn [length].
  pose proof (slice_length (filename e) 1 7). pose proof (slice_length (extension e) 0 3). lia.
Qed.

(** A loop that copies [n] bytes of [src] from [i] on. *)
Lemma copy_loop n i src base b :
  0 <= i -> 0 <= base + i -> i + Z.of_nat n <= zlength src -> base + i + Z.of_nat n <= zlength b ->
  for_loop n i (fun i b => c ← buf_get src i; buf_set b (base + i) c) b = Ok (splice b (base + i) (slice src i (Z.of_nat n))).
Proof.
  intros Hi Hb Hs Hl.
  destruct (for_loop_inv (fun j b' => b' = splice b (base + i) (slice src i (j - i))) n i
    (fun i b => c ← buf_get src i; buf_set b (base + i) c) b) as (b' & E & Hb').
  - rewrite Z.sub_diag. change (slice src i 0) with (@nil Z). by rewrite splice_nil.
  - intros j b' Hj ->. assert (Hsl : zlength (slice src i (j - i)) = j - i) by (rewrite slice_length; lia).
    destruct (buf_get_Ok src j) as (v & Hv & ->); [lia|]. ok_bind. eexists. split; [apply buf_set_Ok; rewrite splice_length; lia|].
    replace (base + j) with (base + i + zlength (slice src i (j - i))) by lia. rewrite splice_snoc by lia. f_equal.
    replace (j + 1 - i) with (j - i + 1) by lia. rewrite slice_split by lia. f_equal.
    symmetry. apply slice_one. by replace (i + (j - i)) with j by lia.
  - rewrite E, Hb'. do 2 f_equal. f_equal. lia.
Qed.

Lemma buf_set_next b off s v :
  0 <= off -> off + zlength s < zlength b -> buf_set (splice b off s) (off + zlength s) v = Ok (splice b off (s ++ [v])).
Proof. intros. rewrite buf_set_Ok by (rewrite splice_length; lia). by rewrite splice_snoc. Qed.

Lemma store_entry_spec buf off first e :
  entry_ok e -> 0 <= off -> off + 32 <= zlength buf ->
  store_entry buf off first e = Ok (splice (splice buf off (entry_head first e)) (off + 26) (entry_tail e)).
Proof.
  intros Hok Ho Hb. pose proof (entry_head_length first e Hok) as Hhl. destruct Hok as [Hf He].
  assert (Hs1 : zlength (slice (filename e) 1 7) = 7) by (rewrite slice_length; lia).
  assert (Hs2 : zlength (slice (extension e) 0 3) = 3) by (rewrite slice_length; lia).
  unfold store_entry. rewrite buf_set_splice by lia. ok_bind.
  assert (Hone : zlength [first] = 1) by done.
  rewrite (copy_loop 7 1) by (rewrite ?splice_length; lia). ok_bind. change (Z.of_nat 7) with 7.
  rewrite <- Hone at 1. rewrite (splice_splice buf off [first]) by lia.
  set (h1 := [first] ++ slice (filename e) 1 7).
  assert (Hl1 : zlength h1 = 8) by (unfold h1; rewrite length_app; lia).
  rewrite (copy_loop 3 0) by (rewrite ?splice_length; lia). ok_bind. rewrite Z.add_0_r. change (Z.of_nat 3) with 3.
  replace (off + 8) with (off + zlength h1) by lia. rewrite splice_splice by lia.
  set (h2 := h1 ++ slice (extension e) 0 3).
  assert (Hl2 : zlength h2 = 11) by (unfold h2; rewrite length_app; lia).
  replace (off + 11) with (off + zlength h2) by lia. rewrite buf_set_next by lia. ok_bind.
  assert (h2 ++ [attributes e] = entry_head first e) as -> by (unfold h2, h1, entry_head; by rewrite <- !app_assoc).
  set (b := splice buf off (entry_head first e)). assert (Hlb : zlength b = zlength buf) by (unfold b; rewrite splice_length; lia).
  rewrite !byte_at, !low_byte by lia. rewrite buf_set_splice by lia. ok_bind.
  replace (off + 27) with (off + 26 + 1) by lia. replace (off + 28) with (off + 26 + 2) by lia. replace (off + 29) with (off + 26 + 3) by lia.
  replace (off + 30) with (off + 26 + 4) by lia. replace (off + 31) with (off + 26 + 5) by lia.
  do 4 (match goal with |- context [buf_set (splice b (off + 26) ?s) (off + 26 + ?k) ?v] =>
    change (off + 26 + k) with (off + 26 + zlength s); rewrite (buf_set_next b (off + 26) s v) by (simpl; lia); ok_bind; cbn [app] end).
  match goal with |- context [buf_set (splice b (off + 26) ?s) (off + 26 + ?k) ?v] =>
    change (off + 26 + k) with (off + 26 + zlength s); rewrite (buf_set_next b (off + 26) s v) by (simpl; lia) end. done.
Qed.

(** The entry in the slot at [off]. *)
Definition decode (b : list Z) (off : Z) : fat16_dir_entry_t :=
  let name := unspace <$> slice b off 8 in
  DirEntry ((if byte b off =? 5 then <[0%nat := 229]> name else name) ++ [0]) ((unspace <$> slice b (off + 8) 3) ++ [0])
    (byte b (off + 11)) (byte b (off + 26) + byte b (off + 27) * 256)
    (byte b (off + 28) + 256 * (byte b (off + 29) + 256 * (byte b (off + 30) + 256 * byte b (off + 31)))).

Lemma gather_loop (f : Z -> Z) n base b acc i :
  0 <= base + i -> base + i + Z.of_nat n <= zlength b ->
  for_loop n i (fun k l => c ← buf_get b (base + k); Ok (l ++ [f c])) acc = Ok (acc ++ (f <$> slice b (base + i) (Z.of_nat n))).
Proof.
  revert i acc. induction n as [|n IH]; intros i acc Hi Hn.
  - simpl. change (slice b (base + i) 0) with (@nil Z). by rewrite app_nil_r.
  - cbn [for_loop]. destruct (buf_get_Ok b (base + i)) as (v & Hv & ->); [lia|]. ok_bind. rewrite IH by lia.
    replace (Z.of_nat (S n)) with (1 + Z.of_nat n) by lia. rewrite slice_split by lia. rewrite (slice_one b (base + i) v Hv).
    rewrite fmap_app, <- app_assoc. simpl. by rewrite Z.add_assoc.
Qed.

Lemma byte_bytes b i : is_bytes b -> 0 <= byte b i < 256.
Proof.
  intros Hb. unfold byte. destruct (b !! Z.to_nat i) as [v|] eqn:E; simpl; [|lia]. by apply (Forall_lookup_1 _ _ _ _ Hb E).
Qed.

Lemma load_entry_spec b off :
  is_bytes b -> 0 <= off -> off + 32 <= zlength b -> load_entry b off = Ok (decode b off).
Proof.
  intros Hb Ho Hl. unfold load_entry. rewrite (gather_loop unspace 8 off b [] 0) by lia. ok_bind.
  rewrite (buf_get_byte b off) by lia. ok_bind.
  rewrite (gather_loop unspace 3 (off + 8) b [] 0) by lia. ok_bind. rewrite !buf_get_byte by lia. ok_bind. rewrite !Z.add_0_r.
  pose proof (byte_bytes b (off + 26) Hb). pose proof (byte_bytes b (off + 27) Hb). pose proof (byte_bytes b (off + 28) Hb).
  pose proof (byte_bytes b (off + 29) Hb). pose proof (byte_bytes b (off + 30) Hb). pose proof (byte_bytes b (off + 31) Hb).
  by rewrite u16_small, u32_small by lia.
Qed.

(** ** A slot that was stored *)
Definition stored (buf : list Z) (off first : Z) (e : fat16_dir_entry_t) : list Z :=
  splice (splice buf off (entry_head first e)) (off + 26) (entry_tail e).

Lemma stored_length buf off first e :
  entry_ok e -> 0 <= off -> off + 32 <= zlength buf -> zlength (stored buf off first e) = zlength buf.
Proof.
  intros He Ho Hb. pose proof (entry_head_length first e He). unfold stored.
  assert (zlength (splice buf off (entry_head first e)) = zlength buf) by (rewrite splice_length; lia).
  assert (zlength (entry_tail e) = 6) by done. rewrite splice_length; lia.
Qed.

Lemma stored_other buf off first e off' :
  entry_ok e -> 0 <= off -> off + 32 <= zlength buf -> 0 <= off' -> off' + 32 <= off \/ off + 32 <= off' ->
  slice (stored buf off first e) off' 32 = slice buf off' 32.
Proof.
  intros He Ho Hb Ho' Hd. pose proof (entry_head_length first e He). unfold stored.
  assert (zlength (splice buf off (entry_head first e)) = zlength buf) by (rewrite splice_length; lia).
  assert (zlength (entry_tail e) = 6) by done.
  rewrite slice_splice_other by lia. by rewrite slice_splice_other by lia.
Qed.

Lemma stored_head buf off first e k n :
  entry_ok e -> 0 <= off -> off + 32 <= zlength buf -> 0 <= k -> 0 <= n -> k + n <= 12 ->
  slice (stored buf off first e) (off + k) n = slice (entry_head first e) k n.
Proof.
  intros He Ho Hb Hk Hn Hkn. pose proof (entry_head_length first e He). unfold stored.
  assert (zlength (splice buf off (entry_head first e)) = zlength buf) by (rewrite splice_length; lia).
  assert (zlength (entry_tail e) = 6) by done.
  rewrite slice_splice_other by lia. by rewrite slice_splice_in by lia.
Qed.

Lemma stored_byte_head buf off first e k :
  entry_ok e -> 0 <= off -> off + 32 <= zlength buf -> 0 <= k < 12 -> byte (stored buf off first e) (off + k) = byte (entry_head first e) k.
Proof.
  intros He Ho Hb Hk. pose proof (stored_head buf off first e k 1 He Ho Hb ltac:(lia) ltac:(lia) ltac:(lia)) as E.
  apply (f_equal (fun l => byte l 0)) in E. rewrite !byte_slice in E by lia. by rewrite !Z.add_0_r in E.
Qed.

Lemma stored_byte_tail buf off first e k :
  entry_ok e -> 0 <= off -> off + 32 <= zlength buf -> 0 <= k < 6 -> byte (stored buf off first e) (off + 26 + k) = byte (entry_tail e) k.
Proof.
  intros He Ho Hb Hk. pose proof (entry_head_length first e He). unfold stored.
  assert (Hl : zlength (splice buf off (entry_head first e)) = zlength buf) by (rewrite splice_length; lia).
  assert (zlength (entry_tail e) = 6) by done.
  pose proof (slice_splice_in (splice buf off (entry_head first e)) (off + 26) (entry_tail e) k 1 ltac:(lia) ltac:(lia) ltac:(lia) ltac:(lia) ltac:(lia)) as E.
  apply (f_equal (fun l => byte l 0)) in E. rewrite !byte_slice in E by lia. by rewrite !Z.add_0_r in E.
Qed.

Lemma stored_bytes buf off first e :
  is_bytes buf -> is_byte first -> is_bytes (filename e) -> is_bytes (extension e) -> is_byte (attributes e) ->
  is_bytes (stored buf off first e).
Proof.
  intros Hb Hf Hn He Ha. unfold stored. apply splice_bytes; [apply splice_bytes; [done|]|].
  - unfold entry_head, is_bytes. constructor; [done|]. rewrite !Forall_app.
    split; [by apply slice_bytes|]. split; [by apply slice_bytes|constructor; [done|constructor]].
  - unfold entry_tail, is_bytes. repeat constructor; apply Z.mod_pos_bound; lia.
Qed.

(** What a stored entry reads back as: spaces become the end of the name. *)
Definition read_back (e : fat16_dir_entry_t) : fat16_dir_entry_t :=
  DirEntry ((unspace <$> slice (filename e) 0 8) ++ [0]) ((unspace <$> slice (extension e) 0 3) ++ [0])
    (attributes e) (first_cluster e) (file_size_bytes e).

(** The fields fit their bytes on the disk, and the name does not start with
    the byte that stands for [0xe5]. *)
Record storable (e : fat16_dir_entry_t) : Prop := {
  st_ok : entry_ok e;
  st_name : is_bytes (filename e);
  st_ext : is_bytes (extension e);
  st_attr : is_byte (attributes e);
  st_cluster : 0 <= first_cluster e < 2 ^ 16;
  st_size : 0 <= file_size_bytes e < 2 ^ 32;
  st_first : byte (filename e) 0 <> 5
}.

Definition first_byte (e : fat16_dir_entry_t) : Z := if byte (filename e) 0 =? 229 then 5 else byte (filename e) 0.

Lemma stored_first_spec e : entry_ok e -> stored_first e = Ok (first_byte e).
Proof. intros [Hf _]. unfold stored_first. by rewrite buf_get_byte by lia. Qed.

Lemma first_seven e : entry_ok e -> slice (filename e) 0 8 = byte (filename e) 0 :: slice (filename e) 1 7.
Proof.
  intros [Hf _]. destruct (buf_get_Ok (filename e) 0) as (v & Hv & _); [lia|].
  pose proof (slice_split (filename e) 0 1 7 ltac:(lia) ltac:(lia) ltac:(lia)) as E. change (1 + 7) with 8 in E; change (0 + 1) with 1 in E. rewrite E.
  rewrite (slice_one _ _ v Hv). unfold byte. by rewrite Hv.
Qed.

Lemma head_parts first e :
  entry_ok e -> slice (entry_head first e) 0 8 = first :: slice (filename e) 1 7 /\
    slice (entry_head first e) 8 3 = slice (extension e) 0 3 /\ byte (entry_head first e) 11 = attributes e /\
    byte (entry_head first e) 0 = first.
Proof.
  intros [Hf He]. assert (Hs1 : zlength (first :: slice (filename e) 1 7) = 8).
  { pose proof (slice_length (filename e) 1 7). simpl. lia. }
  assert (Hs2 : zlength (slice (extension e) 0 3) = 3) by (rewrite slice_length; lia).
  unfold entry_head. rewrite app_comm_cons. set (h := first :: slice (filename e) 1 7) in *. split; [|split; [|split; [|done]]].
  - rewrite slice_app_l by lia. by apply slice_0; lia.
  - rewrite slice_app_r, slice_app_l by lia. rewrite Hs1. by apply slice_0; lia.
  - unfold byte. rewrite lookup_app_r, lookup_app_r by lia. by replace (_ - _ - _)%nat with 0%nat by lia.
Qed.

Lemma decode_stored buf off e :
  storable e -> 0 <= off -> off + 32 <= zlength buf -> decode (stored buf off (first_byte e) e) off = read_back e.
Proof.
  intros [Hok _ _ _ Hc Hs Hf5] Ho Hb. destruct (head_parts (first_byte e) e Hok) as (H8 & H3 & H11 & H0).
  unfold decode, read_back.
  pose proof (stored_head buf off (first_byte e) e 0 8 Hok Ho Hb ltac:(lia) ltac:(lia) ltac:(lia)) as E8. rewrite Z.add_0_r in E8.
  rewrite E8, H8. rewrite (stored_head buf off (first_byte e) e 8 3) by (done || lia). rewrite H3.
  pose proof (stored_byte_head buf off (first_byte e) e 0 Hok Ho Hb ltac:(lia)) as E0. rewrite Z.add_0_r in E0. rewrite E0, H0.
  rewrite (stored_byte_head buf off (first_byte e) e 11) by (done || lia). rewrite H11.
  pose proof (stored_byte_tail buf off (first_byte e) e) as Ht.
  pose proof (Ht 0 Hok Ho Hb ltac:(lia)) as T0. pose proof (Ht 1 Hok Ho Hb ltac:(lia)) as T1. pose proof (Ht 2 Hok Ho Hb ltac:(lia)) as T2.
  pose proof (Ht 3 Hok Ho Hb ltac:(lia)) as T3. pose proof (Ht 4 Hok Ho Hb ltac:(lia)) as T4. pose proof (Ht 5 Hok Ho Hb ltac:(lia)) as T5.
  replace (off + 26 + 0) with (off + 26) in T0 by lia. replace (off + 26 + 1) with (off + 27) in T1 by lia.
  replace (off + 26 + 2) with (off + 28) in T2 by lia. replace (off + 26 + 3) with (off + 29) in T3 by lia.
  replace (off + 26 + 4) with (off + 30) in T4 by lia. replace (off + 26 + 5) with (off + 31) in T5 by lia.
  rewrite T0, T1, T2, T3, T4, T5. unfold byte; simpl. rewrite first_seven by done. f_equal.
  - f_equal. unfold first_byte. destruct (Z.eqb_spec (byte (filename e) 0) 229) as [->|]; [done|].
    by destruct (Z.eqb_spec (byte (filename e) 0) 5).
  - pose proof (le16_sum (first_cluster e) ltac:(lia)). rewrite (Z.mod_small (first_cluster e / _)); [lia|].
    split; [apply Z.div_pos|apply Z.div_lt_upper_bound]; lia.
  - pose proof (le32_sum (file_size_bytes e) ltac:(lia)). lia.
Qed.

(** ** A buffer as a list of slots *)
Definition slot (b : list Z) (j : Z) : list Z := slice b (32 * j) 32.
Definition slots (b : list Z) : list (list Z) := slot b <$> seqZ 0 (zlength b / 32).

Definition slot_free (s : list Z) : bool := (byte s 0 =? 0) || (byte s 0 =? 229).

(** What a listing makes of slots: it ends at a zero and skips what is deleted. *)
Fixpoint listed (ss : list (list Z)) : bool * list fat16_dir_entry_t :=
  match ss with
  | [] => (false, [])
  | s :: ss =>
      if byte s 0 =? 0 then (true, [])
      else if byte s 0 =? 229 then listed ss
      else let '(t, es) := listed ss in (t, decode s 0 :: es)
  end.
Definition entries_of (ss : list (list Z)) : list fat16_dir_entry_t := (listed ss).2.

Lemma listed_app ss ss' :
  listed (ss ++ ss') = let '(t, es) := listed ss in
                       if t : bool then (true, es) else let '(t', es') := listed ss' in (t', es ++ es').
Proof.
  induction ss as [|s ss IH]; simpl.
  - by destruct (listed ss').
  - destruct (byte s 0 =? 0); [done|]. destruct (byte s 0 =? 229); [done|]. rewrite IH. destruct (listed ss) as [[] es]; [done|].
    by destruct (listed ss').
Qed.

(** No slot of [ss] is free, so none ends a listing. *)
Definition all_taken (ss : list (list Z)) : Prop := Forall (fun s => slot_free s = false) ss.

Lemma taken_bytes s : slot_free s = false -> byte s 0 <> 0 /\ byte s 0 <> 229.
Proof. unfold slot_free. intros [?%Z.eqb_neq ?%Z.eqb_neq]%orb_false_iff. done. Qed.

(** No slot of [ss] ends a listing. *)
Definition no_end (ss : list (list Z)) : Prop := Forall (fun s => byte s 0 <> 0) ss.

Lemma taken_no_end ss : all_taken ss -> no_end ss.
Proof. intros Hs. eapply Forall_impl; [exact Hs|]. by intros s [? _]%taken_bytes. Qed.

Lemma entries_app ss ss' : no_end ss -> entries_of (ss ++ ss') = entries_of ss ++ entries_of ss'.
Proof.
  unfold entries_of. intros Hs. induction Hs as [|s ss Hne _ IH]; [done|]. simpl.
  destruct (Z.eqb_spec (byte s 0) 0); [done|]. destruct (Z.eqb_spec (byte s 0) 229); [done|].
  destruct (listed (ss ++ ss')), (listed ss). simpl in *. by rewrite IH.
Qed.

Lemma entries_cons s ss : byte s 0 <> 0 -> byte s 0 <> 229 -> entries_of (s :: ss) = decode s 0 :: entries_of ss.
Proof.
  intros H0 H1. unfold entries_of. cbn [listed]. destruct (Z.eqb_spec (byte s 0) 0); [done|].
  destruct (Z.eqb_spec (byte s 0) 229); [done|]. by destruct (listed ss).
Qed.

Lemma decode_slot b j : 0 <= j -> decode (slot b j) 0 = decode b (32 * j).
Proof.
  intros Hj. unfold decode, slot. rewrite !byte_slice by lia. rewrite !slice_slice by lia. by rewrite !Z.add_0_r.
Qed.

Lemma slots_length b : zlength (slots b) = zlength b / 32.
Proof. unfold slots. rewrite length_fmap, length_seqZ. assert (0 <= zlength b / 32) by (apply Z.div_pos; lia). lia. Qed.

Lemma slots_lookup b m i : zlength b = 32 * m -> (Z.of_nat i < m) -> slots b !! i = Some (slot b (Z.of_nat i)).
Proof.
  intros Hb Hi. unfold slots. rewrite list_lookup_fmap. rewrite Hb, (Z.mul_comm 32), Z.div_mul by lia.
  rewrite lookup_seqZ_lt by done. done.
Qed.

Lemma slots_decomp b m p s q : zlength b = 32 * m -> slots b = p ++ s :: q -> zlength p < m /\ slot b (zlength p) = s.
Proof.
  intros Hb E. assert (Hm : zlength p < m).
  { pose proof (slots_length b) as Hl. rewrite E, length_app, Hb, (Z.mul_comm 32), Z.div_mul in Hl by lia. simpl in Hl. lia. }
  split; [done|]. pose proof (slots_lookup b m (length p) Hb Hm) as Hp. rewrite E, list_lookup_middle in Hp by done. by injection Hp.
Qed.

Lemma slots_app b b' m : zlength b = 32 * m -> slots (b ++ b') = slots b ++ slots b'.
Proof.
  intros Hb. unfold slots. rewrite length_app, Nat2Z.inj_add, Hb. rewrite (Z.mul_comm 32), (Z.div_mul m) by lia.
  rewrite Z.add_comm, Z.div_add, Z.add_comm by lia. rewrite seqZ_app, fmap_app by (try apply Z.div_pos; lia). f_equal.
  - apply list_fmap_ext. intros i x [-> Hi]%lookup_seqZ. unfold slot. by rewrite slice_app_l by lia.
  - rewrite Z.add_0_l. apply list_eq. intros i. rewrite !list_lookup_fmap.
    destruct (decide (Z.of_nat i < zlength b' / 32)) as [Hi|Hi].
    + rewrite !lookup_seqZ_lt by done. simpl. f_equal. unfold slot. rewrite slice_app_r by lia. f_equal. lia.
    + by rewrite !lookup_seqZ_ge by lia.
Qed.

(** ** The loops over slots *)
Lemma list_slots_from n j b acc :
  is_bytes b -> 0 <= j -> 32 * (j + Z.of_nat n) <= zlength b ->
  list_slots n j b acc = Ok (let '(t, es) := listed (slot b <$> seqZ j (Z.of_nat n)) in (t, acc ++ es)).
Proof.
  intros Hb. revert j acc. induction n as [|n IH]; intros j acc Hj Hl.
  - simpl. by rewrite app_nil_r.
  - rewrite (seqZ_cons j) by lia. replace (Z.pred (Z.of_nat (S n))) with (Z.of_nat n) by lia.
    cbn [list_slots fmap list_fmap listed]. rewrite buf_get_byte by lia. ok_bind.
    assert (byte (slot b j) 0 = byte b (32 * j)) as -> by (unfold slot; rewrite byte_slice by lia; by rewrite Z.add_0_r).
    destruct (Z.eqb_spec (byte b (32 * j)) 0); [by rewrite app_nil_r|]. destruct (Z.eqb_spec (byte b (32 * j)) 229).
    + rewrite IH by lia. by rewrite <- Z.add_1_r.
    + rewrite load_entry_spec by (done || lia). ok_bind. rewrite IH, decode_slot by lia. rewrite <- Z.add_1_r.
      unfold fmap. destruct (listed _) as [t es]. by rewrite <- app_assoc.
Qed.

Lemma add_sector_spec fs b acc :
  bytes_per_sector fs = sector_size -> is_bytes b -> zlength b = sector_size ->
  add_sector_dir_entries_to_list fs b acc = Ok (let '(t, es) := listed (slots b) in (t, acc ++ es)).
Proof.
  intros Hbps Hb Hl. unfold add_sector_dir_entries_to_list, slots. rewrite Hl, Hbps. unfold sector_size in *.
  change (i16 (512 / 32)) with 16. change (512 / 32) with 16.
  rewrite list_slots_from; [|done|lia|lia]. done.
Qed.

(** [search] gives the place of the first of [n] slots that [test] accepts. *)
Definition searches (n : Z) (search : list Z -> outcome Z) (test : list Z -> bool) : Prop :=
  forall b, is_bytes b -> zlength b = 32 * n ->
    (forall p s q, slots b = p ++ s :: q -> Forall (fun s => test s = false) p -> test s = true -> search b = Ok (32 * zlength p)) /\
    (Forall (fun s => test s = false) (slots b) -> search b = Ok (-1)).

(** A loop that applies a test to each slot is such a search. *)
Lemma for_find_searches n (test : list Z -> bool) (body : list Z -> Z -> outcome (option Z)) :
  0 <= n ->
  (forall b j, is_bytes b -> zlength b = 32 * n -> 0 <= j < n -> body b j = Ok (if test (slot b j) then Some (j * 32) else None)) ->
  searches n (fun b => r ← for_find (Z.to_nat n) 0 (body b); Ok (default (-1) r)) test.
Proof.
  intros Hn Hbody b Hb Hl. split.
  - intros p s q E Hp Hs. destruct (slots_decomp b n p s q Hl E) as [Hlt Hsl].
    rewrite (for_find_hit _ 0 (zlength p) _ (zlength p * 32)); [ok_bind; simpl; f_equal; lia|lia| |].
    + intros j Hj. rewrite Hbody by (done || lia). pose proof (slots_lookup b n (Z.to_nat j) Hl ltac:(lia)) as Hlk.
      rewrite E, lookup_app_l in Hlk by lia. rewrite Z2Nat.id in Hlk by lia. by rewrite (Forall_lookup_1 _ _ _ _ Hp Hlk).
    + rewrite Hbody by (done || lia). by rewrite Hsl, Hs.
  - intros Hall. rewrite for_find_miss; [done|]. intros j Hj. rewrite Hbody by (done || lia).
    pose proof (slots_lookup b n (Z.to_nat j) Hl ltac:(lia)) as Hlk. rewrite Z2Nat.id in Hlk by lia.
    by rewrite (Forall_lookup_1 _ _ _ _ Hall Hlk).
Qed.

Lemma free_searches n : 0 <= n -> searches n (first_free_space n) slot_free.
Proof.
  intros Hn. apply for_find_searches; [done|]. intros b j Hb Hl Hj. rewrite buf_get_byte by lia. ok_bind.
  unfold slot_free, slot. rewrite byte_slice by lia. by rewrite Z.add_0_r, (Z.mul_comm 32).
Qed.

(** The names compared as the code compares them. *)
Fixpoint name_test (n : nat) (j : Z) (s filename : list Z) : bool :=
  match n with
  | O => true
  | S n =>
      if (byte s j =? 32) && (byte filename j =? 0) then true
      else (byte s j =? byte filename j) && name_test n (j + 1) s filename
  end.
Definition ext_test (s extension : list Z) : bool :=
  (byte s 8 =? byte extension 0) && ((byte s 9 =? byte extension 1) && (byte s 10 =? byte extension 2)).
Definition slot_matches (filename extension s : list Z) : bool := name_test 8 0 s filename && ext_test s extension.

Lemma byte_slot b j k : 0 <= j -> 0 <= k < 32 -> byte (slot b j) k = byte b (j * 32 + k).
Proof. intros. unfold slot. rewrite byte_slice by lia. f_equal. lia. Qed.

Lemma name_matches_spec n i b j fn m :
  0 <= j -> 0 <= i -> i + Z.of_nat n <= 8 -> 32 * (j + 1) <= zlength b -> 8 <= zlength fn ->
  name_matches n i b (j * 32) fn m = Ok (m && name_test n i (slot b j) fn).
Proof.
  intros Hj. revert i m. induction n as [|n IH]; intros i m Hi Hn Hb Hf; simpl; [by rewrite andb_true_r|].
  rewrite !buf_get_byte by lia. ok_bind. rewrite byte_slot by lia. destruct (_ && (byte fn i =? 0)); [by rewrite andb_true_r|].
  rewrite IH by lia. by rewrite andb_assoc.
Qed.

Lemma extension_matches_spec b j ex m :
  0 <= j -> 32 * (j + 1) <= zlength b -> 3 <= zlength ex -> extension_matches b (j * 32) ex m = Ok (m && ext_test (slot b j) ex).
Proof.
  intros Hj Hb He. unfold extension_matches, ext_test. rewrite !byte_slot by lia. cbn [for_loop]. rewrite !buf_get_byte by lia. ok_bind.
  rewrite <- !andb_assoc.
  by replace (j * 32 + 8 + 0) with (j * 32 + 8) by lia; replace (j * 32 + 8 + (0 + 1)) with (j * 32 + 9) by lia;
    replace (j * 32 + 8 + (0 + 1 + 1)) with (j * 32 + 10) by lia.
Qed.

Lemma find_searches n fn ex :
  0 <= n -> 8 <= zlength fn -> 3 <= zlength ex -> searches n (fun b => find_slot n b fn ex) (slot_matches fn ex).
Proof.
  intros Hn Hf He. apply (for_find_searches n _ (fun b i => matches ← name_matches 8 0 b (i * 32) fn true;
    matches ← extension_matches b (i * 32) ex matches; Ok (if matches : bool then Some (i * 32) else None))); [done|].
  intros b j Hb Hl Hj. rewrite name_matches_spec by lia. ok_bind. rewrite extension_matches_spec by lia. done.
Qed.

(** The names an entry is listed with find its slot again, when its extension
    has three characters. *)
Lemma name_test_listed n j s fn :
  0 <= j -> (forall k, j <= k < j + Z.of_nat n -> byte fn k = unspace (byte s k)) -> name_test n j s fn = true.
Proof.
  revert j. induction n as [|n IH]; intros j Hj Hk; simpl; [done|]. rewrite Hk by lia. unfold unspace at 1 2.
  destruct (Z.eqb_spec (byte s j) 32) as [E|E]; simpl.
  - done.
  - rewrite Z.eqb_refl. apply IH; [lia|]. intros k Hkk. apply Hk. lia.
Qed.

Lemma byte_app_l l l' i : 0 <= i < zlength l -> byte (l ++ l') i = byte l i.
Proof. intros Hi. unfold byte. by rewrite lookup_app_l by lia. Qed.

Lemma byte_unspace l i : 0 <= i < zlength l -> byte (unspace <$> l) i = unspace (byte l i).
Proof.
  intros Hi. unfold byte. rewrite list_lookup_fmap. destruct (lookup_lt_is_Some_2 l (Z.to_nat i)) as [v ->]; [lia|done].
Qed.

Lemma listed_matches s :
  zlength s = 32 -> byte s 0 <> 5 -> byte s 8 <> 32 -> byte s 9 <> 32 -> byte s 10 <> 32 ->
  slot_matches (filename (decode s 0)) (extension (decode s 0)) s = true.
Proof.
  intros Hs H5 H8 H9 H10. unfold slot_matches, decode. cbn [filename extension]. destruct (Z.eqb_spec (byte s 0) 5); [done|].
  pose proof (slice_length s 0 8) as L8. pose proof (slice_length s 8 3) as L3. change (0 + 8) with 8.
  apply andb_true_iff. split.
  - apply name_test_listed; [lia|]. intros k Hk. rewrite byte_app_l, byte_unspace, byte_slice by (rewrite ?length_fmap; lia). done.
  - unfold ext_test. rewrite !byte_app_l, !byte_unspace, !byte_slice by (rewrite ?length_fmap; lia).
    change (8 + 0) with 8; change (8 + 1) with 9; change (8 + 2) with 10. unfold unspace.
    destruct (Z.eqb_spec (byte s 8) 32); [done|]. destruct (Z.eqb_spec (byte s 9) 32); [done|].
    destruct (Z.eqb_spec (byte s 10) 32); [done|]. by rewrite !Z.eqb_refl.
Qed.

(** ** A buffer with one slot stored *)
Definition slot_with (first : Z) (e : fat16_dir_entry_t) (s : list Z) : list Z := stored s 0 first e.

Lemma stored_slot b off first e :
  entry_ok e -> 0 <= off -> off + 32 <= zlength b -> slice (stored b off first e) off 32 = slot_with first e (slice b off 32).
Proof.
  intros He Ho Hb. pose proof (entry_head_length first e He). unfold slot_with, stored.
  assert (zlength (splice b off (entry_head first e)) = zlength b) by (rewrite splice_length; lia).
  assert (zlength (entry_tail e) = 6) by done.
  rewrite (slice_splice_shift _ off 32 26) by lia. pose proof (slice_splice_shift b off 32 0 (entry_head first e)) as E.
  rewrite Z.add_0_r in E. by rewrite E by lia.
Qed.

Lemma slots_stored b m p s q first e :
  entry_ok e -> zlength b = 32 * m -> slots b = p ++ s :: q -> slots (stored b (32 * zlength p) first e) = p ++ slot_with first e s :: q.
Proof.
  intros He Hb E. destruct (slots_decomp b m p s q Hb E) as [Hm Hs].
  assert (Hl : zlength (stored b (32 * zlength p) first e) = 32 * m) by (rewrite stored_length; lia || done).
  apply list_eq. intros i. destruct (decide (Z.of_nat i < m)) as [Hi|Hi].
  - rewrite (slots_lookup _ m) by done. unfold slot. destruct (decide (i = length p)) as [->|Hne].
    + rewrite list_lookup_middle by done. rewrite stored_slot by (done || lia). unfold slot in Hs. by rewrite Hs.
    + rewrite stored_other by (done || lia). pose proof (slots_lookup b m i Hb Hi) as Hlk. rewrite E in Hlk.
      unfold slot in Hlk. rewrite <- Hlk. destruct (decide (i < length p)%nat).
      * by rewrite !lookup_app_l by lia.
      * rewrite !lookup_app_r by lia. by destruct (i - length p)%nat eqn:?; [lia|].
  - rewrite !lookup_ge_None_2; [done|..].
    + pose proof (slots_length b) as Hlb. rewrite E, Hb, (Z.mul_comm 32), Z.div_mul in Hlb by lia. rewrite length_app in *. simpl in *. lia.
    + pose proof (slots_length (stored b (32 * zlength p) first e)) as Hlb. rewrite Hl, (Z.mul_comm 32 m), Z.div_mul in Hlb by lia. lia.
Qed.

(** What the stored slot lists as. *)
Lemma slot_with_byte first e s : zlength s = 32 -> entry_ok e -> byte (slot_with first e s) 0 = first.
Proof.
  intros Hs He. unfold slot_with. pose proof (stored_byte_head s 0 first e 0 He ltac:(lia) ltac:(lia) ltac:(lia)) as E.
  rewrite Z.add_0_r in E. rewrite E. by apply head_parts.
Qed.

Lemma listed_slot_with e s ss :
  zlength s = 32 -> storable e -> byte (filename e) 0 <> 0 ->
  entries_of (slot_with (first_byte e) e s :: ss) = read_back e :: entries_of ss.
Proof.
  intros Hs He H0. unfold entries_of. cbn [listed]. rewrite slot_with_byte by (done || apply He). unfold first_byte at 1 2.
  destruct (Z.eqb_spec (byte (filename e) 0) 229) as [E|E].
  - simpl. unfold slot_with. rewrite decode_stored by (done || lia). by destruct (listed ss).
  - destruct (Z.eqb_spec (byte (filename e) 0) 0); [done|]. destruct (Z.eqb_spec (byte (filename e) 0) 229); [done|].
    unfold slot_with. rewrite decode_stored by (done || lia). by destruct (listed ss).
Qed.

(** A slot whose first byte becomes [0xe5] is no longer listed. *)
Lemma listed_deleted e s ss :
  zlength s = 32 -> entry_ok e -> entries_of (slot_with 229 e s :: ss) = entries_of ss.
Proof. intros Hs He. unfold entries_of. cbn [listed]. by rewrite slot_with_byte. Qed.

(** C29 (roundtrip): an entry stored in a slot of a directory reads back as
    itself, spaces in its names turned into terminators, an initial [0xe5]
    included; and every other slot reads as it did. *)
Theorem entry_roundtrip buf off e :
  storable e -> is_bytes buf -> 0 <= off -> off + 32 <= zlength buf ->
  exists first buf', stored_first e = Ok first /\ store_entry buf off first e = Ok buf' /\ load_entry buf' off = Ok (read_back e) /\
    forall off', 0 <= off' -> off' + 32 <= zlength buf -> off' + 32 <= off \/ off + 32 <= off' ->
      slice buf' off' 32 = slice buf off' 32.
Proof.
  intros He Hb Ho Hl. pose proof (st_ok e He) as Hok. exists (first_byte e), (stored buf off (first_byte e) e).
  split; [by apply stored_first_spec|]. split; [by apply store_entry_spec|]. split.
  - rewrite load_entry_spec, decode_stored; [done|done|done|done| |done|rewrite stored_length; done].
    apply stored_bytes; try apply He; [done|]. unfold first_byte.
    destruct (Z.eqb_spec (byte (filename e) 0) 229); [done|]. apply byte_bytes, He.
  - intros off' Ho' Hl' Hd. by apply stored_other.
Qed.

(** ** The theorem at work *)
Definition demo_entry : fat16_dir_entry_t :=
  DirEntry (bytes_of "REPORT  " ++ [0]) (bytes_of "TXT" ++ [0]) 32 5 1000.

Lemma demo_entry_storable : storable demo_entry.
Proof. constructor; try (apply (bool_decide_unpack _); by vm_compute); simpl; lia. Qed.

Lemma entry_roundtrip_witness :
  exists first buf', stored_first demo_entry = Ok first /\ store_entry (replicate 512 229) 64 first demo_entry = Ok buf' /\
    load_entry buf' 64 = Ok (read_back demo_entry) /\
    forall off', 0 <= off' -> off' + 32 <= 512 -> off' + 32 <= 64 \/ 64 + 32 <= off' ->
      slice buf' off' 32 = slice (replicate 512 229) off' 32.
Proof.
  apply (entry_roundtrip (replicate 512 229) 64 demo_entry demo_entry_storable); [|lia|simpl; lia].
  apply (bool_decide_unpack _). by vm_compute.
Defined.
