(* ===== verification/Root.v ===== *)
(** * The root directory

    What listing, adding and updating do to the root directory of a volume, at
    the level of its slots and of its listing. *)
From S2P Require Import Prelude Mem Disk Fat16 Volume Files Directory Slots.

Section Root.
Context `{BlockDeviceLaws D} (fs : fat16_t) (N : Z).
Abbreviation data_start := (data_start fs).
Abbreviation root_start := (root_start fs).
Abbreviation vol := (vol fs N).

(** Its sectors, and the slots in them. *)
Definition root_size : Z := num_root_directory_entries fs * 32 / sector_size.
Definition slots_in (d : D) (l : list Z) : list (list Z) := l ≫= (fun a => slots (sector d a)).
Definition root_slots (d : D) : list (list Z) := slots_in d (seqZ root_start root_size).

(** The geometries for which the code's computations of the root directory's
    place agree: one reserved sector, whole sectors of entries, and sector
    numbers that fit the 16-bit counter. *)
Record root_layout : Prop := {
  rl_lay : layout fs N;
  rl_reserved : num_reserved_sectors fs = 1;
  rl_whole : num_root_directory_entries fs mod 16 = 0;
  rl_small : data_start < 2 ^ 16 - 1
}.

Context (Hroot : root_layout).

Lemma root_size_eq : data_start = root_start + root_size /\ 0 <= root_size < 2 ^ 13 /\ 0 <= root_start.
Proof.
  destruct Hroot as [Hl _ _ _]. pose proof (root_start_bounds fs N Hl). destruct Hl. unfold data_start, root_size, table_start, sector_size in *.
  assert (0 <= num_root_directory_entries fs * 32 / 512 < 2 ^ 13) by (split; [apply Z.div_pos|apply Z.div_lt_upper_bound]; lia). lia.
Qed.

(** The sectors the searches look at: one more than the directory has. *)
Definition looked_at (d : D) (a : Z) : Prop := root_start <= a <= data_start /\ a < sectors d.

Lemma looked_at_sector d a :
  vol d -> looked_at d a ->
  is_bytes (sector d a) /\ zlength (sector d a) = 32 * 16 /\ forall buf, zlength buf = sector_size ->
    rd_into a buf 0 (bytes_per_sector fs) d = Ok (sector d a, d).
Proof.
  intros Hv [Ha Has]. pose proof root_size_eq. assert (Hb : 0 <= a < sectors d) by lia.
  pose proof (sector_length d a (proj1 Hv) Hb) as Hl. split; [apply sector_bytes; [apply Hv|done]|]. split; [done|].
  intros buf Hbuf. rewrite (lay_bps _ _ (rl_lay Hroot)). rewrite (rd_into_spec fs N) by (done || lia).
  unfold splice. rewrite drop_ge by lia. by rewrite app_nil_r.
Qed.

Lemma root_turn_exit search a b i d :
  i <> -1 -> root_turn fs search (a, b, i, d) = Ok (inr (Some (a, b, i), d)).
Proof. intros Hi. unfold root_turn. by destruct (Z.eqb_spec i (-1)). Qed.

Lemma root_turn_next search a b d :
  vol d -> looked_at d a -> zlength b = sector_size -> looked_at d (a + 1) ->
  root_turn fs search (a, b, -1, d) =
    index ← search (sector d (a + 1)); Ok (inl (a + 1, sector d (a + 1), index, d)).
Proof.
  intros Hv Ha Hb Ha'. pose proof root_size_eq. pose proof (rl_small Hroot). unfold looked_at in *.
  unfold root_turn. simpl (-1 =? -1). cbv beta iota. rewrite u16_small by lia.
  destruct (regions_eq fs N (rl_lay Hroot)) as (_ & -> & Hd).
  assert (root_directory_region_size (calculate_regions fs) = root_size) as ->.
  { unfold calculate_regions, root_size; simpl. by rewrite (lay_bps _ _ (rl_lay Hroot)). }
  rewrite u32_small by lia. destruct (Z.gtb_spec (a + 1) (root_start + root_size)); [lia|].
  destruct (looked_at_sector d (a + 1) Hv Ha') as (_ & _ & ->); [|done]. done.
Qed.

Lemma root_turn_stop search b d :
  root_turn fs search (data_start, b, -1, d) = Ok (inr (None, d)).
Proof.
  pose proof root_size_eq. pose proof (rl_small Hroot). unfold root_turn. simpl (-1 =? -1). cbv beta iota.
  destruct (regions_eq fs N (rl_lay Hroot)) as (_ & -> & Hd).
  assert (root_directory_region_size (calculate_regions fs) = root_size) as ->.
  { unfold calculate_regions, root_size; simpl. by rewrite (lay_bps _ _ (rl_lay Hroot)). }
  rewrite u32_small, u16_small by lia. by destruct (Z.gtb_spec (data_start + 1) (root_start + root_size)); [|lia].
Qed.

(** A search that finds nothing in the sectors [l1] and something in [a']. *)
Lemma root_loop_found search test d l1 : forall a a' l2 i fuel p s q,
  searches 16 search test -> vol d -> (forall b, b ∈ l1 ++ [a'] -> looked_at d b) ->
  seqZ a (zlength (l1 ++ a' :: l2)) = l1 ++ a' :: l2 ->
  Forall (fun s => test s = false) (slots_in d l1) -> slots (sector d a') = p ++ s :: q ->
  Forall (fun s => test s = false) p -> test s = true -> search (sector d a) = Ok i -> (length l1 < fuel)%nat ->
  while_loop fuel (root_turn fs search) (a, sector d a, i, d) = Ok (Some (a', sector d a', 32 * zlength p), d).
Proof.
  induction l1 as [|a1 l1 IH]; intros a a' l2 i fuel p s q Hs Hv Hl Hseq Hnone Hp Hpn Hst Hi Hfuel;
    (destruct fuel as [|fuel]; [simpl in Hfuel; lia|]); rewrite while_loop_S; simpl in Hseq; rewrite seqZ_cons in Hseq by lia.
  - injection Hseq as <- _. destruct (looked_at_sector d a Hv) as (Hb & Hlen & _); [apply Hl; set_solver|].
    rewrite (proj1 (Hs _ Hb Hlen) p s q Hp Hpn Hst) in Hi. injection Hi as <-. rewrite root_turn_exit by lia. done.
  - injection Hseq as <- Hseq. assert (Ha1 : looked_at d a) by (apply Hl; set_solver).
    destruct (looked_at_sector d a Hv Ha1) as (Hb & Hlen & _).
    unfold slots_in in Hnone. simpl in Hnone. apply Forall_app in Hnone as [Hn1 Hn2].
    rewrite (proj2 (Hs _ Hb Hlen) Hn1) in Hi. injection Hi as <-.
    rewrite <- Z.add_1_r in Hseq. replace (Z.pred _) with (zlength (l1 ++ a' :: l2)) in Hseq by lia.
    assert (Ha2 : looked_at d (a + 1)).
    { destruct l1 as [|a2 l1]; simpl in Hseq; rewrite seqZ_cons in Hseq by lia; injection Hseq as E _; apply Hl; set_solver. }
    rewrite root_turn_next by (done || lia). destruct (looked_at_sector d (a + 1) Hv Ha2) as (Hb2 & Hlen2 & _).
    assert (exists i, search (sector d (a + 1)) = Ok i) as [i Hi].
    { destruct l1 as [|a2 l1]; simpl in Hseq; rewrite seqZ_cons in Hseq by lia; injection Hseq as E _; rewrite E in *.
      - rewrite (proj1 (Hs _ Hb2 Hlen2) p s q Hp Hpn Hst). by eexists.
      - simpl in Hn2. apply Forall_app in Hn2 as [Hn3 _]. rewrite (proj2 (Hs _ Hb2 Hlen2) Hn3). by eexists. }
    rewrite Hi. ok_bind. apply (IH _ _ l2 _ _ p s q); try done; [|simpl in Hfuel; lia]. intros b Hbin. apply Hl. set_solver.
Qed.

(** A search that finds nothing up to [data_start]. *)
Lemma root_loop_missed search test d n : forall a i fuel,
  searches 16 search test -> vol d -> a + Z.of_nat n = data_start -> (forall b, a <= b <= data_start -> looked_at d b) ->
  Forall (fun s => test s = false) (slots_in d (seqZ a (Z.of_nat n + 1))) -> search (sector d a) = Ok i -> (n < fuel)%nat ->
  while_loop fuel (root_turn fs search) (a, sector d a, i, d) = Ok (None, d).
Proof.
  induction n as [|n IH]; intros a i fuel Hs Hv Ha Hl Hnone Hi Hfuel; (destruct fuel as [|fuel]; [lia|]); rewrite while_loop_S;
    assert (Hat : looked_at d a) by (apply Hl; lia); destruct (looked_at_sector d a Hv Hat) as (Hb & Hlen & _);
    rewrite seqZ_cons in Hnone by lia; unfold slots_in in Hnone; simpl in Hnone; apply Forall_app in Hnone as [Hn1 Hn2];
    rewrite (proj2 (Hs _ Hb Hlen) Hn1) in Hi; injection Hi as <-.
  - replace a with data_start by lia. by rewrite root_turn_stop.
  - assert (Hat1 : looked_at d (a + 1)) by (apply Hl; lia). destruct (looked_at_sector d (a + 1) Hv Hat1) as (Hb1 & Hlen1 & _).
    rewrite <- Z.add_1_r in Hn2. replace (Z.pred _) with (Z.of_nat n + 1) in Hn2 by lia.
    rewrite root_turn_next by (done || lia). pose proof Hn2 as Hn2'. rewrite seqZ_cons in Hn2' by lia. simpl in Hn2'.
    apply Forall_app in Hn2' as [Hn3 _]. rewrite (proj2 (Hs _ Hb1 Hlen1) Hn3). ok_bind.
    apply IH; [done|done|lia|intros; apply Hl; lia|done| |lia]. apply (proj2 (Hs _ Hb1 Hlen1) Hn3).
Qed.

(** ** Listing *)
Lemma root_list_spec d n : forall i buf acc,
  vol d -> 0 <= i -> i + Z.of_nat n <= root_size -> zlength buf = sector_size ->
  root_list n i fs buf acc d = Ok (acc ++ entries_of (slots_in d (seqZ (root_start + i) (Z.of_nat n))), d).
Proof.
  pose proof root_size_eq as (Hds & Hrs & Hr0). pose proof (rl_small Hroot). induction n as [|n IH]; intros i buf acc Hv Hi Hn Hb.
  - simpl. by rewrite app_nil_r.
  - cbn [root_list]. assert (Ea : u32 (1 + num_sectors_per_file_allocation_table fs * num_file_allocation_tables fs + i) = root_start + i).
    { rewrite u32_small; unfold root_start in *; rewrite (rl_reserved Hroot) in *; lia. }
    rewrite Ea. assert (Hl : looked_at d (root_start + i)). { destruct Hv as (_ & HN & HdN). unfold looked_at. lia. }
    destruct (looked_at_sector d _ Hv Hl) as (Hby & Hlen & ->); [|done]. ok_bind.
    rewrite add_sector_spec by (done || apply (rl_lay Hroot)). rewrite (seqZ_cons (root_start + i)) by lia.
    replace (Z.pred (Z.of_nat (S n))) with (Z.of_nat n) by lia. replace (Z.succ (root_start + i)) with (root_start + (i + 1)) by lia.
    unfold slots_in. cbn [mbind list_bind]. unfold entries_of. rewrite listed_app. destruct (listed (slots _)) as [[] es].
    + ok_bind. done.
    + ok_bind. rewrite IH by (done || lia). unfold entries_of, slots_in, mbind. destruct (listed _) as [t es']. simpl. by rewrite app_assoc.
Qed.

Lemma get_root_dir_eq d : vol d -> get_root_dir fs d = Ok (entries_of (root_slots d), d).
Proof.
  intros Hv. pose proof root_size_eq as (_ & Hrs & _). unfold get_root_dir. rewrite (lay_bps _ _ (rl_lay Hroot)).
  change (i16 (sector_size / 32)) with 16. pose proof (lay_root _ _ (rl_lay Hroot)).
  assert (E : i16 (num_root_directory_entries fs / 16) = root_size).
  { unfold root_size, sector_size. change 512 with (16 * 32). rewrite Z.div_mul_cancel_r by lia. unfold i16.
    assert (0 <= num_root_directory_entries fs / 16 < 2 ^ 12) by (split; [apply Z.div_pos|apply Z.div_lt_upper_bound]; lia).
    rewrite Z.mod_small; lia. }
  rewrite E, root_list_spec; [|done|lia|lia|done]. rewrite Z.add_0_r, Z2Nat.id by lia. done.
Qed.

(** ** Storing an entry in a slot of the directory *)
Definition field_bytes (e : fat16_dir_entry_t) : Prop :=
  entry_ok e /\ is_bytes (filename e) /\ is_bytes (extension e) /\ is_byte (attributes e).

Lemma storable_fields e : storable e -> field_bytes e.
Proof. by intros [? ? ? ?]. Qed.

(** Only the root directory changed. *)
Definition only_root (d d' : D) : Prop := untouched fs N (fun a => root_start <= a < data_start) d d'.

Lemma only_root_same d d' :
  vol d -> only_root d d' ->
  (forall m, in_table fs m -> fat fs d' m = fat fs d m) /\ (forall m, on_disk fs N m -> cluster fs d' m = cluster fs d m).
Proof.
  intros Hv Hu. pose proof root_size_eq. pose proof (rl_lay Hroot) as Hlay. split; intros m Hm.
  - eapply untouched_fat; [done|done|exact Hu|done|]. destruct (table_sector_bounds fs N Hlay d m Hv Hm). lia.
  - eapply untouched_cluster; [done|done|exact Hu|done|]. intros i Hi. destruct (cluster_sector_bounds fs N Hlay d m i Hv Hm Hi). lia.
Qed.

Lemma slots_in_same d d' l : (forall a, a ∈ l -> sector d' a = sector d a) -> slots_in d' l = slots_in d l.
Proof.
  intros Hl. unfold slots_in. induction l as [|a l IH]; [done|]. cbn. rewrite Hl by set_solver. f_equal. apply IH. set_solver.
Qed.

Lemma root_store d l1 a l2 p s q first e :
  vol d -> seqZ root_start root_size = l1 ++ a :: l2 -> slots (sector d a) = p ++ s :: q -> field_bytes e -> is_byte first ->
  exists b d', store_entry (sector d a) (32 * zlength p) first e = Ok b /\ wr_from a b 0 (bytes_per_sector fs) d = Ok d' /\
    only_root d d' /\ root_slots d' = slots_in d l1 ++ (p ++ slot_with first e s :: q) ++ slots_in d l2.
Proof.
  intros Hv Hseq Hp (Hok & Hfn & Hex & Hat) Hf. pose proof root_size_eq as (Hds & Hrs & Hr0).
  assert (Ha : root_start <= a < data_start). { rewrite Hds. apply elem_of_seqZ. rewrite Hseq. set_solver. }
  assert (Hl : looked_at d a). { destruct Hv as (_ & HN & HdN). unfold looked_at. lia. }
  destruct (looked_at_sector d a Hv Hl) as (Hby & Hlen & _). destruct (slots_decomp _ _ _ _ _ Hlen Hp) as [Hm _].
  exists (stored (sector d a) (32 * zlength p) first e). rewrite (lay_bps _ _ (rl_lay Hroot)).
  assert (Hst : is_bytes (stored (sector d a) (32 * zlength p) first e)) by by apply stored_bytes.
  assert (Hsl : zlength (stored (sector d a) (32 * zlength p) first e) = sector_size) by (rewrite stored_length by (done || lia); done).
  destruct (wr_from_spec fs N d a (stored (sector d a) (32 * zlength p) first e) 0 Hv) as (d' & E & Hv' & Hs');
    [unfold looked_at in Hl; lia|lia|lia|done|]. rewrite slice_0 in Hs' by lia.
  exists d'. split; [apply store_entry_spec; done || lia|]. split; [done|]. split.
  - split; [done|]. intros b Hb Hne. rewrite Hs' by done. by rewrite decide_False by (intros ->; lia).
  - pose proof (NoDup_seqZ root_start root_size) as Hnd. rewrite Hseq in Hnd. apply NoDup_app in Hnd as (_ & Hd & Hnd).
    apply NoDup_cons in Hnd as [Ha2 _]. assert (Hin : forall b, b ∈ l1 ++ a :: l2 -> 0 <= b < N).
    { intros b Hb. rewrite <- Hseq in Hb. apply elem_of_seqZ in Hb. destruct Hv as (_ & _ & ?). lia. }
    assert (Hsame : forall b, b ∈ l1 ++ a :: l2 -> b <> a -> sector d' b = sector d b).
    { intros b Hb Hne. rewrite Hs' by by apply Hin. by rewrite decide_False. }
    unfold root_slots. rewrite Hseq. unfold slots_in at 1. rewrite bind_app. cbn [mbind list_bind]. change (mbind (fun a => slots (sector d' a))) with (fun l => slots_in d' l). cbv beta. f_equal; [|f_equal].
    + apply slots_in_same. intros b Hb. apply Hsame; [set_solver|]. intros ->. apply (Hd a Hb). set_solver.
    + rewrite Hs' by (apply Hin; set_solver). rewrite decide_True by done. by apply (slots_stored _ 16).
    + apply slots_in_same. intros b Hb. apply Hsame; [set_solver|]. by intros ->.
Qed.

(** ** Searching *)
Lemma root_search_start fuel search d :
  vol d -> looked_at d root_start ->
  root_search fuel fs search d =
    index ← search (sector d root_start); while_loop fuel (root_turn fs search) (root_start, sector d root_start, index, d).
Proof.
  intros Hv Hl. pose proof root_size_eq. pose proof (rl_small Hroot). unfold root_search.
  destruct (regions_eq fs N (rl_lay Hroot)) as (_ & -> & _). rewrite u16_small by (unfold looked_at in Hl; lia).
  destruct (looked_at_sector d _ Hv Hl) as (_ & _ & ->); [done|].
  unfold fresh. rewrite (lay_bps _ _ (rl_lay Hroot)), length_replicate. done.
Qed.

Lemma search_total n search test b : searches n search test -> is_bytes b -> zlength b = 32 * n -> exists i, search b = Ok i.
Proof.
  intros Hs Hb Hl. destruct (Hs b Hb Hl) as [Hhit Hmiss].
  destruct (list_find (fun s => test s = true) (slots b)) as [[k s]|] eqn:E.
  - apply list_find_Some in E as (Hk & Ht & Hbefore). eexists. eapply (Hhit (take k (slots b)) s (drop (S k) (slots b))); [|..|done].
    + by rewrite take_drop_middle.
    + apply Forall_lookup_2. intros i x [Hx Hi]%lookup_take_Some. destruct (test x) eqn:Et; [|done]. by destruct (Hbefore i x Hx Hi).
  - apply list_find_None in E. eexists. apply Hmiss. eapply Forall_impl; [exact E|]. intros x Hx. simpl in Hx. by destruct (test x).
Qed.

Lemma root_search_found fuel search test d n l1 a l2 p s q :
  searches 16 search test -> vol d -> seqZ root_start n = l1 ++ a :: l2 -> (forall b, b ∈ l1 ++ [a] -> looked_at d b) ->
  Forall (fun s => test s = false) (slots_in d l1) -> slots (sector d a) = p ++ s :: q ->
  Forall (fun s => test s = false) p -> test s = true -> (length l1 < fuel)%nat ->
  root_search fuel fs search d = Ok (Some (a, sector d a, 32 * zlength p), d).
Proof.
  intros Hs Hv Hseq Hl Hn Hp Hpn Hst Hf. assert (Hlen : n = zlength (l1 ++ a :: l2)).
  { rewrite <- Hseq, length_seqZ. assert (0 < n); [|lia]. destruct (decide (0 < n)); [done|]. rewrite seqZ_nil in Hseq by lia. by destruct l1. }
  assert (Hl0 : looked_at d root_start).
  { rewrite seqZ_cons in Hseq by (rewrite Hlen, length_app; simpl; lia). destruct l1; injection Hseq as -> _; apply Hl; set_solver. }
  rewrite root_search_start by done. destruct (looked_at_sector d _ Hv Hl0) as (Hb & Hlen0 & _).
  destruct (search_total 16 search test _ Hs Hb Hlen0) as [i Hi]. rewrite Hi. ok_bind.
  eapply root_loop_found; try done. by rewrite <- Hlen.
Qed.

Lemma root_search_missed fuel search test d :
  searches 16 search test -> vol d -> data_start < sectors d ->
  Forall (fun s => test s = false) (slots_in d (seqZ root_start (root_size + 1))) -> (Z.to_nat root_size < fuel)%nat ->
  root_search fuel fs search d = Ok (None, d).
Proof.
  intros Hs Hv Hd Hn Hf. pose proof root_size_eq. assert (Hl : forall b, root_start <= b <= data_start -> looked_at d b).
  { intros b Hb. unfold looked_at. lia. }
  assert (Hl0 : looked_at d root_start) by (apply Hl; lia).
  rewrite root_search_start by done. destruct (looked_at_sector d _ Hv Hl0) as (Hb & Hlen0 & _).
  destruct (search_total 16 search test _ Hs Hb Hlen0) as [i Hi]. rewrite Hi. ok_bind.
  apply (root_loop_missed search test d (Z.to_nat root_size)); try done; [lia|]. by rewrite Z2Nat.id by lia.
Qed.

(** The sector and the place in it of a slot of the directory. *)
Lemma root_locate fuel search test d pre s post :
  searches 16 search test -> vol d -> root_slots d = pre ++ s :: post -> Forall (fun s => test s = false) pre -> test s = true ->
  (Z.to_nat root_size <= fuel)%nat ->
  exists l1 a l2 p q, seqZ root_start root_size = l1 ++ a :: l2 /\ slots (sector d a) = p ++ s :: q /\
    pre = slots_in d l1 ++ p /\ post = q ++ slots_in d l2 /\ zlength s = 32 /\
    root_search fuel fs search d = Ok (Some (a, sector d a, 32 * zlength p), d).
Proof.
  intros Hs Hv E Hpre Hst Hf. pose proof root_size_eq. destruct (bind_split _ _ _ _ _ E) as (l1 & a & l2 & p & q & Hseq & Hp & -> & ->).
  apply Forall_app in Hpre as [Hn Hpn]. exists l1, a, l2, p, q.
  assert (Hin : forall b, b ∈ l1 ++ [a] -> looked_at d b).
  { intros b Hb. assert (Hb' : b ∈ seqZ root_start root_size) by (rewrite Hseq; set_solver). apply elem_of_seqZ in Hb'.
    destruct Hv as (_ & HN & HdN). unfold looked_at. lia. }
  destruct (looked_at_sector d a Hv) as (_ & Hlen & _); [apply Hin; set_solver|].
  destruct (slots_decomp _ _ _ _ _ Hlen Hp) as [Hm Hsl].
  split; [done|]. split; [done|]. split; [done|]. split; [done|].
  split; [rewrite <- Hsl; unfold slot; rewrite slice_length; lia|].
  eapply root_search_found; try done. pose proof (length_seqZ root_start root_size) as Hl. rewrite Hseq, length_app in Hl. simpl in Hl. lia.
Qed.

(** ** Adding, updating and deleting *)
Lemma free_search_eq : find_first_free_space_in_root_directory_sector fs = first_free_space 16.
Proof. unfold find_first_free_space_in_root_directory_sector. by rewrite (lay_bps _ _ (rl_lay Hroot)). Qed.

Lemma file_search_eq fn ex :
  (fun sector => find_file_in_root_directory_sector fs sector fn ex) = (fun b => find_slot 16 b fn ex).
Proof. unfold find_file_in_root_directory_sector. by rewrite (lay_bps _ _ (rl_lay Hroot)). Qed.

Lemma add_root d e pre s post fuel :
  vol d -> storable e -> byte (filename e) 0 <> 0 ->
  root_slots d = pre ++ s :: post -> all_taken pre -> slot_free s = true -> (Z.to_nat root_size <= fuel)%nat ->
  exists d', add_root_directory_entry fuel fs e d = Ok (0, d') /\ only_root d d' /\
    root_slots d' = pre ++ slot_with (first_byte e) e s :: post /\ zlength s = 32 /\
    entries_of (root_slots d') = entries_of pre ++ read_back e :: entries_of post.
Proof.
  intros Hv He Hnz E Hpre Hs Hf.
  destruct (root_locate fuel (first_free_space 16) slot_free d pre s post) as (l1 & a & l2 & p & q & Hseq & Hp & Epre & Epost & Hs32 & Es);
    try done; [by apply free_searches|].
  unfold add_root_directory_entry. rewrite free_search_eq, Es. ok_bind.
  rewrite stored_first_spec by apply He. ok_bind.
  assert (Hfb : is_byte (first_byte e)).
  { unfold first_byte. destruct (_ =? _); [done|]. apply byte_bytes, He. }
  destruct (root_store d l1 a l2 p s q (first_byte e) e Hv Hseq Hp (storable_fields e He) Hfb) as (b & d' & -> & E2 & Hu & Hsl).
  rewrite <- app_assoc, <- app_comm_cons, app_assoc, <- Epre, <- Epost in Hsl.
  ok_bind. rewrite E2. ok_bind. exists d'. rewrite Hsl. split; [done|]. split; [done|]. split; [done|]. split; [done|].
  by rewrite entries_app, listed_slot_with by (done || by apply taken_no_end).
Qed.

(** Adding an entry to the root directory, when it has a free
    slot, succeeds; the listing afterwards is the listing before with the new
    entry in the place of that slot; the allocation table and every cluster
    stay as they were. A search takes at most one turn for each sector. *)
Lemma add_root_directory_entry_spec d e pre s post fuel :
  vol d -> storable e -> byte (filename e) 0 <> 0 ->
  root_slots d = pre ++ s :: post -> all_taken pre -> slot_free s = true -> (Z.to_nat root_size <= fuel)%nat ->
  exists d', add_root_directory_entry fuel fs e d = Ok (0, d') /\ vol d' /\
    get_root_dir fs d' = Ok (entries_of pre ++ read_back e :: entries_of post, d') /\
    (forall m, in_table fs m -> fat fs d' m = fat fs d m) /\ (forall m, on_disk fs N m -> cluster fs d' m = cluster fs d m).
Proof.
  intros Hv He Hnz E Hpre Hs Hf. destruct (add_root d e pre s post fuel Hv He Hnz E Hpre Hs Hf) as (d' & -> & Hu & _ & _ & Hl).
  exists d'. split; [done|]. split; [apply Hu|]. split; [|by apply only_root_same]. by rewrite get_root_dir_eq, Hl by apply Hu.
Qed.

(** Updating an entry of the root directory rewrites the first
    slot whose names are the old ones, and leaves the others, the allocation
    table and the clusters as they were. *)
Lemma update_root_directory_entry_spec d e fn ex pre s post fuel :
  vol d -> field_bytes e -> 8 <= zlength fn -> 3 <= zlength ex ->
  root_slots d = pre ++ s :: post -> Forall (fun s => slot_matches fn ex s = false) pre -> slot_matches fn ex s = true ->
  (Z.to_nat root_size <= fuel)%nat ->
  exists d', update_root_directory_entry fuel fs e fn ex d = Ok (0, d') /\ vol d' /\
    root_slots d' = pre ++ slot_with (byte (filename e) 0) e s :: post /\
    (forall m, in_table fs m -> fat fs d' m = fat fs d m) /\ (forall m, on_disk fs N m -> cluster fs d' m = cluster fs d m).
Proof.
  intros Hv He Hfn Hex E Hpre Hs Hf.
  destruct (root_locate fuel (fun b => find_slot 16 b fn ex) (slot_matches fn ex) d pre s post)
    as (l1 & a & l2 & p & q & Hseq & Hp & Epre & Epost & Hs32 & Es); try done; [by apply find_searches|].
  unfold update_root_directory_entry. rewrite file_search_eq, Es. ok_bind.
  destruct He as (Hok & Hby & He). rewrite buf_get_byte by (destruct Hok; lia). ok_bind.
  destruct (root_store d l1 a l2 p s q (byte (filename e) 0) e Hv Hseq Hp) as (b & d' & -> & E2 & Hu & Hsl);
    [done|by apply byte_bytes|].
  ok_bind. rewrite E2. ok_bind. exists d'. split; [done|]. split; [apply Hu|]. split; [|by apply only_root_same].
  by rewrite Hsl, <- app_assoc, <- app_comm_cons, app_assoc, <- Epre, <- Epost.
Qed.
(** The entry a listing gives for slot [s], marked deleted. *)
Definition deleted (e : fat16_dir_entry_t) : fat16_dir_entry_t :=
  DirEntry (<[0%nat := 229]> (filename e)) (extension e) (attributes e) (first_cluster e) (file_size_bytes e).

Lemma decode_fields s : is_bytes s -> zlength s = 32 -> field_bytes (decode s 0).
Proof.
  intros Hb Hs. pose proof (slice_length s 0 8). pose proof (slice_length s 8 3).
  assert (Hu : forall l, is_bytes l -> is_bytes (unspace <$> l)).
  { intros l Hl. apply Forall_fmap. eapply Forall_impl; [exact Hl|]. intros c Hc. unfold compose, unspace, is_byte in *. by destruct (c =? 32). }
  assert (Hs1 : forall off n, is_bytes (slice s off n)) by (intros; by apply slice_bytes).
  unfold decode. change (0 + 8) with 8. split; [split|split; [|split]]; cbn [filename extension attributes].
  - rewrite length_app. destruct (_ =? 5); rewrite ?length_insert, length_fmap; simpl; lia.
  - rewrite length_app, length_fmap. simpl. lia.
  - apply Forall_app. split; [|by repeat constructor]. destruct (_ =? 5); [apply Forall_insert; [by apply Hu|done]|by apply Hu].
  - apply Forall_app. split; [by apply Hu|by repeat constructor].
  - by apply byte_bytes.
Qed.

Lemma root_slots_ok d s : vol d -> s ∈ root_slots d -> is_bytes s /\ zlength s = 32.
Proof.
  intros Hv Hs. unfold root_slots, slots_in in Hs. apply list_elem_of_bind in Hs as (a & Hs & Ha). apply elem_of_seqZ in Ha.
  pose proof root_size_eq. assert (looked_at d a) by (destruct Hv as (_ & HN & HdN); unfold looked_at; lia).
  destruct (looked_at_sector d a Hv) as (Hb & Hlen & _); [done|].
  unfold slots in Hs. apply list_elem_of_fmap in Hs as (j & -> & Hj%elem_of_seqZ). rewrite Hlen in Hj. change (32 * 16 / 32) with 16 in Hj.
  split; [by apply slice_bytes|]. unfold slot. rewrite slice_length; lia.
Qed.

(** A listed file whose extension has three characters, updated
    under its listed names with an initial [0xe5], as unlinking does, leaves the
    listing, and nothing else does. *)
Lemma delete_from_root_spec d pre s post fuel :
  vol d -> root_slots d = pre ++ s :: post -> no_end pre -> byte s 0 <> 0 -> byte s 0 <> 229 -> byte s 0 <> 5 ->
  byte s 8 <> 32 -> byte s 9 <> 32 -> byte s 10 <> 32 ->
  Forall (fun s' => slot_matches (filename (decode s 0)) (extension (decode s 0)) s' = false) pre ->
  (Z.to_nat root_size <= fuel)%nat ->
  get_root_dir fs d = Ok (entries_of pre ++ decode s 0 :: entries_of post, d) /\
  exists d', update_root_directory_entry fuel fs (deleted (decode s 0)) (filename (decode s 0)) (extension (decode s 0)) d = Ok (0, d') /\
    get_root_dir fs d' = Ok (entries_of pre ++ entries_of post, d').
Proof.
  intros Hv E Hpre Hz Hd H5 H8 H9 H10 Hm Hf. split.
  - rewrite get_root_dir_eq, E, entries_app, entries_cons by done. done.
  - destruct (root_slots_ok d s Hv) as [Hb Hl]; [rewrite E; set_solver|]. pose proof (decode_fields s Hb Hl) as (Hok & Hn & He & Ha).
    assert (Hdel : field_bytes (deleted (decode s 0))).
    { split; [split; [unfold deleted; cbn [filename]; rewrite length_insert|]; apply Hok|split; [by apply Forall_insert|done]]. }
    destruct (update_root_directory_entry_spec d (deleted (decode s 0)) (filename (decode s 0)) (extension (decode s 0)) pre s post fuel)
      as (d' & E' & Hv' & Hsl & _); try done; [apply Hok|apply Hok|by apply listed_matches|].
    exists d'. split; [done|]. rewrite get_root_dir_eq, Hsl by done.
    assert (byte (filename (deleted (decode s 0))) 0 = 229) as ->.
    { unfold deleted, byte. cbn [filename]. rewrite list_lookup_insert_eq; [done|]. destruct Hok. lia. }
    rewrite entries_app, listed_deleted by (done || apply Hdel). done.
Qed.

(** An extension of fewer than three characters, which listings
    end with a terminator and the disk pads with spaces, is never found again:
    the update fails and the disk stays as it was. *)
Lemma short_extensions_are_not_found d e fn ex fuel :
  vol d -> data_start < sectors d -> 8 <= zlength fn -> 3 <= zlength ex -> byte ex 2 = 0 ->
  Forall (fun s => byte s 10 <> 0) (slots_in d (seqZ root_start (root_size + 1))) -> (Z.to_nat root_size < fuel)%nat ->
  update_root_directory_entry fuel fs e fn ex d = Ok (-1, d).
Proof.
  intros Hv Hd Hfn Hex Hz Hall Hf. unfold update_root_directory_entry.
  rewrite file_search_eq, (root_search_missed fuel _ (slot_matches fn ex)); try done; [by apply find_searches|].
  eapply Forall_impl; [exact Hall|]. intros s Hs. unfold slot_matches, ext_test. rewrite Hz.
  destruct (Z.eqb_spec (byte s 10) 0); [done|]. by rewrite !andb_false_r.
Qed.

(** C37 (error): when the root directory is full the search goes on to the
    first sector of cluster 2, and the new entry overwrites part of the data
    there; the operation reports success, yet the entry is not listed. *)
Theorem full_root_overwrites_data d e p s q fuel :
  vol d -> data_start < N -> storable e -> all_taken (root_slots d) ->
  slots (sector d (cluster_start fs 2)) = p ++ s :: q -> all_taken p -> slot_free s = true -> (Z.to_nat root_size < fuel)%nat ->
  exists d', add_root_directory_entry fuel fs e d = Ok (0, d') /\
    (forall l, get_root_dir fs d = Ok (l, d) -> get_root_dir fs d' = Ok (l, d')) /\
    sector d' (cluster_start fs 2) = stored (sector d (cluster_start fs 2)) (32 * zlength p) (first_byte e) e.
Proof.
  assert (cluster_start fs 2 = data_start) as -> by (unfold cluster_start; lia).
  intros Hv HdN He Hall Hp Hpn Hs Hf. pose proof root_size_eq as (Hds & Hrs & Hr0).
  assert (Hl : forall b, b ∈ seqZ root_start root_size ++ [data_start] -> looked_at d b).
  { destruct Hv as (_ & HN & _). intros b [Hb%elem_of_seqZ|Hb%list_elem_of_singleton]%elem_of_app; unfold looked_at; lia. }
  assert (Hld : looked_at d data_start) by (apply Hl; set_solver). destruct (looked_at_sector d data_start Hv Hld) as (Hby & Hlen & _).
  destruct (slots_decomp _ _ _ _ _ Hlen Hp) as [Hm _].
  unfold add_root_directory_entry. rewrite free_search_eq.
  rewrite (root_search_found fuel _ slot_free d (root_size + 1) (seqZ root_start root_size) data_start [] p s q);
    [|by apply free_searches|done| |done|done|done|done|done|rewrite length_seqZ; lia].
  2:{ rewrite seqZ_app by lia. rewrite <- Hds. done. }
  ok_bind. rewrite stored_first_spec by apply He. ok_bind. rewrite store_entry_spec by (apply He || lia). ok_bind.
  fold (stored (sector d data_start) (32 * zlength p) (first_byte e) e).
  assert (Hb : is_bytes (stored (sector d data_start) (32 * zlength p) (first_byte e) e)).
  { apply stored_bytes; try apply He; [done|]. unfold first_byte. destruct (_ =? _); [done|]. apply byte_bytes, He. }
  assert (Hsl : zlength (stored (sector d data_start) (32 * zlength p) (first_byte e) e) = sector_size).
  { rewrite stored_length by (apply He || lia). done. }
  rewrite (lay_bps _ _ (rl_lay Hroot)).
  destruct (wr_from_spec fs N d data_start (stored (sector d data_start) (32 * zlength p) (first_byte e) e) 0 Hv) as (d' & -> & Hv' & Hs');
    [unfold looked_at in Hld; lia|lia|lia|done|]. ok_bind. rewrite slice_0 in Hs' by lia.
  exists d'. split; [done|]. split; [|by rewrite Hs', decide_True by lia].
  intros l. rewrite !get_root_dir_eq by done. intros [= <-]. do 3 f_equal. apply slots_in_same. intros a Ha%elem_of_seqZ.
  rewrite Hs' by lia. by rewrite decide_False by lia.
Qed.
End Root.

(** ** The theorems at work: a volume with one sector of root directory *)
Definition demo_slot (name ext : string) : list Z :=
  bytes_of name ++ bytes_of ext ++ [32] ++ replicate 14 0 ++ [2; 0; 0; 4; 0; 0].
Definition root_volume (root data : list Z) : ram_disk :=
  RamDisk [replicate 512 0; x ← demo_entries; [x mod 256; x / 256]; root; data; replicate 512 3; replicate 512 4; replicate 512 5; replicate 512 6].
Definition demo_root : list Z := demo_slot "README  " "TXT" ++ demo_slot "NOTES   " "TXT" ++ replicate 448 0.
Definition demo_dir : ram_disk := root_volume demo_root (replicate 512 2).
Definition full_dir : ram_disk := root_volume (mjoin (replicate 16 (demo_slot "README  " "TXT"))) (replicate 512 0).

Lemma demo_root_layout : root_layout demo_fs 8.
Proof. constructor; [exact demo_layout|done|done|]. change (data_start demo_fs) with 3. lia. Qed.

Lemma root_volume_ok root data :
  Forall (fun b => zlength b = sector_size /\ is_bytes b) [root; data] -> vol demo_fs 8 (root_volume root data).
Proof.
  intros Hb. inversion_clear Hb as [|? ? Hr Hd']. inversion_clear Hd' as [|? ? Hd _].
  pose proof demo_blocks_ok as Hall. unfold demo_blocks in Hall. repeat (apply Forall_cons in Hall as [? Hall]).
  split; [|split; [done|]]; [|vm_compute; discriminate]. change (ready (root_volume root data)) with (Forall (fun b => zlength b = sector_size /\ is_bytes b) (blocks (root_volume root data))).
  unfold root_volume. cbn [blocks]. repeat (apply Forall_cons_2; [assumption|]). apply Forall_nil_2.
Qed.

Lemma demo_dir_ok : vol demo_fs 8 demo_dir.
Proof. apply root_volume_ok. apply (bool_decide_unpack _). by vm_compute. Qed.
Lemma full_dir_ok : vol demo_fs 8 full_dir.
Proof. apply root_volume_ok. apply (bool_decide_unpack _). by vm_compute. Qed.

Lemma add_root_directory_entry_spec_witness :
  exists d', add_root_directory_entry 1 demo_fs demo_entry demo_dir = Ok (0, d') /\ vol demo_fs 8 d' /\
    get_root_dir demo_fs d' = Ok (entries_of [demo_slot "README  " "TXT"; demo_slot "NOTES   " "TXT"] ++ read_back demo_entry ::
      entries_of (replicate 13 (replicate 32 0)), d') /\
    (forall m, in_table demo_fs m -> fat demo_fs d' m = fat demo_fs demo_dir m) /\
    (forall m, on_disk demo_fs 8 m -> cluster demo_fs d' m = cluster demo_fs demo_dir m).
Proof.
  apply (add_root_directory_entry_spec demo_fs 8 demo_root_layout demo_dir demo_entry _ (replicate 32 0)); [exact demo_dir_ok|
    exact demo_entry_storable|by vm_compute|by vm_compute| |done|by vm_compute; lia].
  apply (bool_decide_unpack _). by vm_compute.
Defined.

Lemma delete_from_root_spec_witness :
  let s := demo_slot "NOTES   " "TXT" in
  get_root_dir demo_fs demo_dir =
    Ok (entries_of [demo_slot "README  " "TXT"] ++ decode s 0 :: entries_of (replicate 14 (replicate 32 0)), demo_dir) /\
  exists d', update_root_directory_entry 1 demo_fs (deleted (decode s 0)) (filename (decode s 0)) (extension (decode s 0)) demo_dir = Ok (0, d') /\
    get_root_dir demo_fs d' = Ok (entries_of [demo_slot "README  " "TXT"] ++ entries_of (replicate 14 (replicate 32 0)), d').
Proof.
  apply (delete_from_root_spec demo_fs 8 demo_root_layout demo_dir); [exact demo_dir_ok|apply (bool_decide_unpack _); by vm_compute|
    apply (bool_decide_unpack _); by vm_compute|by vm_compute..| |vm_compute; lia].
  by repeat constructor.
Defined.

(** A file that the disk names [README.C], with spaces after the [C]. *)
Lemma short_extensions_are_not_found_witness :
  update_root_directory_entry 2 demo_fs demo_entry (bytes_of "README" ++ [0; 0]) (bytes_of "C" ++ [0; 0])
    (root_volume (demo_slot "README  " "C  " ++ replicate 480 32) (replicate 512 32)) =
  Ok (-1, root_volume (demo_slot "README  " "C  " ++ replicate 480 32) (replicate 512 32)).
Proof.
  apply (short_extensions_are_not_found demo_fs 8 demo_root_layout); [|by vm_compute..| |vm_compute; lia].
  - apply root_volume_ok. apply (bool_decide_unpack _). by vm_compute.
  - apply (bool_decide_unpack _). by vm_compute.
Defined.

Lemma full_root_overwrites_data_witness :
  exists d', add_root_directory_entry 2 demo_fs demo_entry full_dir = Ok (0, d') /\
    (forall l, get_root_dir demo_fs full_dir = Ok (l, full_dir) -> get_root_dir demo_fs d' = Ok (l, d')) /\
    sector d' (cluster_start demo_fs 2) = stored (sector full_dir (cluster_start demo_fs 2)) (32 * 0) (first_byte demo_entry) demo_entry.
Proof.
  apply (full_root_overwrites_data demo_fs 8 demo_root_layout full_dir demo_entry [] (replicate 32 0) (replicate 15 (replicate 32 0)));
    [exact full_dir_ok|by vm_compute|exact demo_entry_storable| |apply (bool_decide_unpack _); by vm_compute|constructor|done|vm_compute; lia].
  apply (bool_decide_unpack _). by vm_compute.
Defined.
