(* ===== verification/Paths.v ===== *)
(** * Paths

    The part of [file.c] that takes paths apart and follows them through
    directories. A string that is only read is the list of bytes from its
    pointer to the end of its object, as in [Strings]. *)
From S2P Require Import Prelude Mem Strings Disk Fat16 Directory.

Definition SLASH : Z := 47.
Definition DOT : Z := 46.

(** ** Taking paths apart *)

(** [if (pathname[0] == '/') pathname = &pathname[1];] *)
Definition skip_slash (pathname : list Z) : outcome (list Z) :=
  c ← buf_get pathname 0; Ok (if c =? SLASH then drop 1 pathname else pathname).

(** The length of the part a path starts with, and the character that ends it. *)
Fixpoint part_length (s : list Z) (j : Z) : outcome (Z * Z) :=
  match s with
  | [] => Err OutOfBounds
  | c :: s => if (c =? SLASH) || (c =? 0) then Ok (j, c) else part_length s (j + 1)
  end.

(** A turn of the loop of [split_path] over the parts, from index [i] on. *)
Definition split_turn (pathname : list Z) (st : Z * list (list Z)) : outcome ((Z * list (list Z)) + list (list Z)) :=
  let '(i, parts) := st in
  '(j, c) ← part_length (drop (Z.to_nat i) pathname) 0;
  part ← stdmem_copy (replicate (Z.to_nat (j + 1)) 0) 0 pathname i j;
  part ← buf_set part j 0;
  let parts := parts ++ [part] in
  Ok (if c =? 0 then inr parts else inl (i + (j + 1), parts)).

(** The parts and [num_parts]. *)
Definition split_path (pathname : list Z) : outcome (list (list Z) * Z) :=
  pathname ← skip_slash pathname;
  c ← buf_get pathname 1;
  if c =? 0 then Ok ([], 0)
  else
    len ← stdstring_length pathname;
    num_parts ← for_loop (Z.to_nat len) 0 (fun i n => c ← buf_get pathname i; Ok (if c =? SLASH then n + 1 else n)) 1;
    parts ← while_loop (S (length pathname)) (split_turn pathname) (0, []);
    Ok (parts, num_parts).

Definition descend_path (pathname : list Z) : outcome (list Z) :=
  pathname ← skip_slash pathname;
  '(i, _) ← part_length pathname 0;
  Ok (drop (Z.to_nat i) pathname).

(** The loop of [to_directory] and [to_filename]: [last_slash_pos] and [i]. *)
Fixpoint last_slash (s : list Z) (i last_slash_pos : Z) : outcome (Z * Z) :=
  match s with
  | [] => Err OutOfBounds
  | c :: s => if c =? 0 then Ok (last_slash_pos, i) else last_slash s (i + 1) (if c =? SLASH then i else last_slash_pos)
  end.

Definition to_directory (pathname : list Z) : outcome (list Z) :=
  '(last_slash_pos, _) ← last_slash pathname 0 0;
  dir_path ← stdmem_copy (replicate (Z.to_nat (last_slash_pos + 1)) 0) 0 pathname 0 (last_slash_pos + 1);
  buf_set dir_path last_slash_pos 0.

Definition to_filename (pathname : list Z) : outcome (list Z) :=
  '(last_slash_pos, i) ← last_slash pathname 0 0;
  stdmem_copy (replicate (Z.to_nat (i - last_slash_pos)) 0) 0 pathname (last_slash_pos + 1) (i - last_slash_pos).

(** ** Names

    [split_filename] allocates 8 bytes for the name and 3 for the extension,
    which the allocator puts right after them, and writes terminators beyond
    both. A name is the memory from the one or the other pointer on: these 11
    bytes and the 2 that follow, which hold zeros before the function runs. *)
Fixpoint copy_name (n : nat) (i : Z) (filename region : list Z) : outcome (Z * list Z) :=
  match n with
  | O => c ← buf_get filename i; Ok (i, region)
  | S n =>
      c ← buf_get filename i;
      if negb (c =? DOT) && negb (c =? 0) then region ← buf_set region i c; copy_name n (i + 1) filename region
      else Ok (i, region)
  end.

Fixpoint copy_extension (n : nat) (j : Z) (filename : list Z) (i : Z) (region : list Z) : outcome (Z * list Z) :=
  match n with
  | O => c ← buf_get filename (i + j); Ok (j, region)
  | S n =>
      c ← buf_get filename (i + j);
      if negb (c =? 0) then region ← buf_set region (8 + j) c; copy_extension n (j + 1) filename i region
      else Ok (j, region)
  end.

Definition split_filename (filename : list Z) : outcome (list Z * list Z) :=
  '(i, region) ← copy_name 8 0 filename (replicate 13 0);
  region ← buf_set region (i + 1) 0;
  c ← buf_get filename i;
  if c =? 0 then
    region ← buf_set region 8 0;
    Ok (region, drop 8 region)
  else
    '(j, region) ← copy_extension 3 0 filename (i + 1) region;
    region ← buf_set region (8 + j + 1) 0;
    Ok (region, drop 8 region).

(** The test of [find_file]. *)
Definition names_equal (name extension : list Z) (entry : fat16_dir_entry_t) : outcome bool :=
  r ← stdstring_compare name (filename entry);
  if r =? 0 then
    r ← stdstring_compare extension (Fat16.extension entry);
    Ok (r =? 0)
  else Ok false.

(** The first entry that a test accepts. *)
Fixpoint first_entry (test : fat16_dir_entry_t -> outcome bool) (dir : list fat16_dir_entry_t) : outcome (option fat16_dir_entry_t) :=
  match dir with
  | [] => Ok None
  | entry :: dir => b ← test entry; if b : bool then Ok (Some entry) else first_entry test dir
  end.

(** ** Following paths *)
Section Lookup.
Context `{BlockDevice D} (turns : nat) (fs : fat16_t).

(** The loop over the subdirectories that match a part, each of which replaces
    the result of the ones before. *)
Fixpoint descend_into (test : fat16_dir_entry_t -> outcome bool)
    (search : list fat16_dir_entry_t -> D -> outcome (option fat16_dir_entry_t * D))
    (dir : list fat16_dir_entry_t) (result : option fat16_dir_entry_t) (d : D) : outcome (option fat16_dir_entry_t * D) :=
  match dir with
  | [] => Ok (result, d)
  | dir_entry :: dir =>
      if is_subdirectory (unpack_file_attributes (attributes dir_entry)) then
        b ← test dir_entry;
        if b : bool then
          '(next_dir, d) ← get_dir turns fs dir_entry d;
          match next_dir with
          | None => descend_into test search dir result d
          | Some next_dir =>
              '(result, d) ← search next_dir d;
              descend_into test search dir result d
          end
        else descend_into test search dir result d
      else descend_into test search dir result d
  end.

(** [depth] bounds the recursion, which goes down one part of the path at a time. *)
Fixpoint find_file (depth : nat) (pathname : list Z) (dir : list fat16_dir_entry_t) (d : D)
  : outcome (option fat16_dir_entry_t * D) :=
  match depth with
  | O => Err OutOfFuel
  | S depth =>
      '(parts, num_parts) ← split_path pathname;
      part ← (match parts with [] => Err NullPointer | part :: _ => Ok part end);
      '(name, extension) ← split_filename part;
      if num_parts >? 1 then
        pathname ← descend_path pathname;
        descend_into (names_equal name extension) (find_file depth pathname) dir None d
      else if num_parts =? 1 then
        file ← first_entry (names_equal name extension) dir;
        Ok (file, d)
      else Ok (None, d)
  end.

Fixpoint find_dir (depth : nat) (pathname : list Z) (dir : list fat16_dir_entry_t) (d : D)
  : outcome (option fat16_dir_entry_t * D) :=
  match depth with
  | O => Err OutOfFuel
  | S depth =>
      '(parts, num_parts) ← split_path pathname;
      if num_parts >? 1 then
        part ← (match parts with [] => Err NullPointer | part :: _ => Ok part end);
        pathname ← descend_path pathname;
        descend_into (fun entry => r ← stdstring_compare part (filename entry); Ok (r =? 0)) (find_dir depth pathname) dir None d
      else if num_parts =? 1 then
        part ← (match parts with [] => Err NullPointer | part :: _ => Ok part end);
        '(name, _) ← split_filename part;
        file ← first_entry (fun entry =>
          if is_subdirectory (unpack_file_attributes (attributes entry)) then
            r ← stdstring_compare name (filename entry); Ok (r =? 0)
          else Ok false) dir;
        Ok (file, d)
      else Ok (None, d)
  end.
End Lookup.
