(* ===== verification/FileSys.v ===== *)
(** * Open files and the file system calls

    The upper part of [file.c]: the table of open files and the [sys_*]
    functions. The path of an open file is the pointer the caller passed, so
    the functions take [mem], which gives the bytes readable from a pointer. *)
From S2P Require Import Prelude Mem Strings Stream Disk Fat16 Directory Paths.

Definition STDIN_FILEDESC : Z := 0.
Definition STDOUT_FILEDESC : Z := 1.
Definition O_CREAT : Z := 1.
Definition O_APPEND : Z := 2.
Definition SEEK_SET : Z := 1.
Definition SEEK_CUR : Z := 2.
Definition SEEK_END : Z := 3.

(** [tailq_open_file_t]. *)
Record open_file_t := OpenFile {
  fd : Z;
  directory_entry : fat16_dir_entry_t;
  path : Z;
  offset : Z;
  append : bool
}.

(** The globals of [file.c]; the disk is a state of its own. *)
Record files := Files {
  fs : fat16_t;
  next_fd : Z;
  open_files : list open_file_t;
  current_working_dir : list Z;
  stdin_buffer : list Z;
  stdout_buffer : list Z;
  stderr_buffer : list Z
}.

Definition with_open_files (l : list open_file_t) (f : files) : files :=
  Files (fs f) (next_fd f) l (current_working_dir f) (stdin_buffer f) (stdout_buffer f) (stderr_buffer f).
Definition with_next_fd (n : Z) (f : files) : files :=
  Files (fs f) n (open_files f) (current_working_dir f) (stdin_buffer f) (stdout_buffer f) (stderr_buffer f).
Definition with_cwd (dir : list Z) (f : files) : files :=
  Files (fs f) (next_fd f) (open_files f) dir (stdin_buffer f) (stdout_buffer f) (stderr_buffer f).
Definition with_stdin (s : list Z) (f : files) : files :=
  Files (fs f) (next_fd f) (open_files f) (current_working_dir f) s (stdout_buffer f) (stderr_buffer f).

Definition with_entry (e : fat16_dir_entry_t) (o : open_file_t) : open_file_t := OpenFile (fd o) e (path o) (offset o) (append o).
Definition with_offset (n : Z) (o : open_file_t) : open_file_t := OpenFile (fd o) (directory_entry o) (path o) n (append o).
Definition with_append (b : bool) (o : open_file_t) : open_file_t := OpenFile (fd o) (directory_entry o) (path o) (offset o) b.
Definition with_size (n : Z) (e : fat16_dir_entry_t) : fat16_dir_entry_t :=
  DirEntry (filename e) (extension e) (attributes e) (first_cluster e) n.
Definition with_filename (n : list Z) (e : fat16_dir_entry_t) : fat16_dir_entry_t :=
  DirEntry n (extension e) (attributes e) (first_cluster e) (file_size_bytes e).

(** A write through a pointer to an open file, which is its place in the table. *)
Definition update_open (i : nat) (g : open_file_t -> open_file_t) (f : files) : files :=
  with_open_files (alter g i (open_files f)) f.

(** ** The table *)
Fixpoint find_open_file (mem : Z -> list Z) (pathname : Z) (l : list open_file_t) : outcome (option nat) :=
  match l with
  | [] => Ok None
  | o :: l =>
      r ← stdstring_compare (mem (path o)) (mem pathname);
      if r =? 0 then Ok (Some O) else i ← find_open_file mem pathname l; Ok (option_map S i)
  end.

Fixpoint find_open_file_by_fd (n : Z) (l : list open_file_t) : option nat :=
  match l with
  | [] => None
  | o :: l => if fd o =? n then Some O else S <$> find_open_file_by_fd n l
  end.

Definition get_next_filedesc (f : files) : Z * files := (next_fd f, with_next_fd (i32 (next_fd f + 1)) f).

Section Calls.
Context `{BlockDevice D} (turns depth : nat) (mem : Z -> list Z).

(** [open_file]; [None] is [NULL]. *)
Definition open_file (pathname : Z) (f : files) (d : D) : outcome (option nat * files * D) :=
  '(root_dir, d) ← get_root_dir (fs f) d;
  c ← buf_get (mem pathname) 0;
  if negb (c =? SLASH) then Ok (None, f, d)
  else
    c ← buf_get (mem pathname) 1;
    if c =? 0 then
      let regions := calculate_regions (fs f) in
      let root := DirEntry (SLASH :: replicate 8 0) (replicate 4 0) 16 0
                    (u32 (root_directory_region_size regions * bytes_per_sector (fs f))) in
      let '(n, f) := get_next_filedesc f in
      Ok (Some (length (open_files f)), with_open_files (open_files f ++ [OpenFile n root pathname 0 false]) f, d)
    else
      '(file, d) ← find_file turns (fs f) depth (drop 1 (mem pathname)) root_dir d;
      match file with
      | None => Ok (None, f, d)
      | Some file =>
          let '(n, f) := get_next_filedesc f in
          Ok (Some (length (open_files f)), with_open_files (open_files f ++ [OpenFile n file pathname 0 false]) f, d)
      end.

(** [for (i = 0; i < n && name[i] != 0; i++) new[i] = name[i]; for (; i < n; i++) new[i] = 0x20;] *)
Fixpoint pad_name (n : nat) (i : Z) (name : list Z) : outcome (list Z) :=
  match n with
  | O => Ok []
  | S n =>
      c ← buf_get name i;
      if negb (c =? 0) then rest ← pad_name n (i + 1) name; Ok (c :: rest)
      else Ok (replicate (S n) 32)
  end.

Definition create_new_file (pathname attributes : Z) (f : files) (d : D) : outcome (Z * D) :=
  name ← to_filename (mem pathname);
  '(name, extension) ← split_filename name;
  filename ← pad_name 8 0 name;
  extension ← pad_name 3 0 extension;
  '(cluster, d) ← find_first_free_cluster (fs f) d;
  let new_file := DirEntry (filename ++ [0]) (extension ++ [0]) attributes cluster 0 in
  '(root_dir, d) ← get_root_dir (fs f) d;
  dir_path ← to_directory (mem pathname);
  c ← buf_get dir_path 0;
  '(result, d) ← (
    if c =? 0 then add_root_directory_entry turns (fs f) new_file d
    else
      '(dir, d) ← find_dir turns (fs f) depth dir_path root_dir d;
      match dir with
      | None => Ok (-1, d)
      | Some dir => add_directory_entry turns (fs f) (first_cluster dir) new_file d
      end);
  if negb (result =? 0) then Ok (-1, d)
  else
    d ← set_successor_cluster (fs f) cluster 65535 d;
    Ok (0, d).

Definition update_file_details (pathname : Z) (updated_entry : fat16_dir_entry_t) (old_filename old_extension : list Z)
    (f : files) (d : D) : outcome (Z * D) :=
  '(root_dir, d) ← get_root_dir (fs f) d;
  c ← buf_get (mem pathname) 0;
  if negb (c =? SLASH) then Ok (-1, d)
  else
    let stripped_pathname := drop 1 (mem pathname) in
    dir_path ← to_directory stripped_pathname;
    '(file, d) ← find_file turns (fs f) depth stripped_pathname root_dir d;
    match file with
    | None => Ok (-1, d)
    | Some _ =>
        c ← buf_get dir_path 0;
        if c =? 0 then update_root_directory_entry turns (fs f) updated_entry old_filename old_extension d
        else
          '(dir, d) ← find_dir turns (fs f) depth dir_path root_dir d;
          match dir with
          | None => Ok (-1, d)
          | Some dir => update_directory_entry turns (fs f) (first_cluster dir) updated_entry old_filename old_extension d
          end
    end.

(** ** The calls *)
Definition sys_open (pathname flags : Z) (f : files) (d : D) : outcome (Z * files * D) :=
  result ← find_open_file mem pathname (open_files f);
  '(result, f, d) ← (
    match result with
    | Some i => Ok (Some i, f, d)
    | None =>
        '(result, f, d) ← open_file pathname f d;
        match result with
        | Some i => Ok (Some i, f, d)
        | None =>
            if negb (Z.land flags O_CREAT =? 0) then
              '(r, d) ← create_new_file pathname 0 f d;
              if r =? -1 then Ok (None, f, d) else open_file pathname f d
            else Ok (None, f, d)
        end
    end);
  match result with
  | None => Ok (-1, f, d)
  | Some i =>
      let f := update_open i (with_append (negb (Z.land flags O_APPEND =? 0))) f in
      o ← deref_opt (open_files f !! i);
      Ok (fd o, f, d)
  end.

(** The characters for the console are added to [console]. *)
Definition sys_write (n : Z) (buf : list Z) (nbytes : Z) (console : list Z) (f : files) (d : D)
  : outcome (Z * list Z * files * D) :=
  if n =? STDOUT_FILEDESC then
    console ← for_loop (Z.to_nat nbytes) 0 (fun i console => c ← buf_get buf i; Ok (console ++ [c])) console;
    Ok (i32 nbytes, console, f, d)
  else
    match find_open_file_by_fd n (open_files f) with
    | None => Ok (-1, console, f, d)
    | Some i =>
        o ← deref_opt (open_files f !! i);
        if is_subdirectory (unpack_file_attributes (attributes (directory_entry o))) then Ok (-1, console, f, d)
        else
          let o := if append o then with_offset (i32 (file_size_bytes (directory_entry o))) o else o in
          '(num_bytes_written, d) ← write_to_file turns (fs f) (directory_entry o) (u32 (offset o)) buf nbytes d;
          let num_bytes_written := i32 num_bytes_written in
          if num_bytes_written <? 0 then Ok (-1, console, update_open i (fun _ => o) f, d)
          else
            '(o, d) ← (
              if u32 (i32 (offset o + num_bytes_written)) >? file_size_bytes (directory_entry o) then
                let o := with_entry (with_size (u32 (i32 (offset o + num_bytes_written))) (directory_entry o)) o in
                '(_, d) ← update_file_details (path o) (directory_entry o) (filename (directory_entry o))
                            (extension (directory_entry o)) (update_open i (fun _ => o) f) d;
                Ok (o, d)
              else Ok (o, d));
            Ok (num_bytes_written, console, update_open i (fun _ => with_offset (i32 (offset o + num_bytes_written)) o) f, d)
    end.

(** The loop of [sys_read] on standard input. *)
Definition read_stdin (buf : list Z) (nbytes : Z) (stream : list Z) : outcome (list Z * list Z) :=
  for_loop (Z.to_nat nbytes) 0 (fun i '(buf, stream) =>
    let '(c, stream) := stdstream_pop_char stream in
    buf ← buf_set buf i c;
    Ok (buf, stream)) (buf, stream).

Definition sys_read (n : Z) (buf : list Z) (nbytes : Z) (f : files) (d : D) : outcome (Z * list Z * files * D) :=
  if n =? STDIN_FILEDESC then
    '(buf, stream) ← read_stdin buf nbytes (stdin_buffer f);
    Ok (i32 nbytes, buf, with_stdin stream f, d)
  else
    match find_open_file_by_fd n (open_files f) with
    | None => Ok (-1, buf, f, d)
    | Some i =>
        o ← deref_opt (open_files f !! i);
        if first_cluster (directory_entry o) <? 2 then Ok (-1, buf, f, d)
        else
          '(buf, num_bytes_read, d) ← read_from_file turns (fs f) (directory_entry o) (u32 (offset o)) buf nbytes d;
          let num_bytes_read := i32 num_bytes_read in
          if num_bytes_read <? 0 then Ok (-1, buf, f, d)
          else Ok (num_bytes_read, buf, update_open i (with_offset (i32 (offset o + num_bytes_read))) f, d)
    end.

Definition sys_close (n : Z) (f : files) : Z * files :=
  match find_open_file_by_fd n (open_files f) with
  | None => (-1, f)
  | Some i => (0, with_open_files (delete i (open_files f)) f)
  end.

Definition sys_unlink (pathname : Z) (f : files) (d : D) : outcome (Z * D) :=
  open ← find_open_file mem pathname (open_files f);
  match open with
  | Some _ => Ok (-1, d)
  | None =>
      c ← buf_get (mem pathname) 0;
      if negb (c =? SLASH) then Ok (-1, d)
      else
        '(root_dir, d) ← get_root_dir (fs f) d;
        '(file, d) ← find_file turns (fs f) depth (drop 1 (mem pathname)) root_dir d;
        match file with
        | None => Ok (-1, d)
        | Some file =>
            old_filename ← stdmem_copy (replicate 9 0) 0 (filename file) 0 9;
            name ← buf_set (filename file) 0 229;
            '(_, d) ← update_file_details pathname (with_filename name file) old_filename (extension file) f d;
            Ok (0, d)
        end
  end.

Definition sys_lseek (n off whence : Z) (f : files) : Z * files :=
  match find_open_file_by_fd n (open_files f) with
  | None => (-1, f)
  | Some i =>
      if whence =? SEEK_SET then (0, update_open i (with_offset off) f)
      else if whence =? SEEK_CUR then (0, update_open i (fun o => with_offset (i32 (offset o + off)) o) f)
      else if whence =? SEEK_END then
        (0, update_open i (fun o => with_offset (i32 (u32 (file_size_bytes (directory_entry o) + off))) o) f)
      else (-1, f)
  end.

Definition sys_getdents (n max_num : Z) (f : files) (d : D) : outcome (option (list fat16_dir_entry_t) * D) :=
  match find_open_file_by_fd n (open_files f) with
  | None => Ok (None, d)
  | Some i =>
      o ← deref_opt (open_files f !! i);
      if first_cluster (directory_entry o) <? 2 then
        '(dir, d) ← get_root_dir (fs f) d; Ok (Some dir, d)
      else get_dir turns (fs f) (directory_entry o) d
  end.

Definition sys_chdir (p : Z) (f : files) (d : D) : outcome (Z * files * D) :=
  len ← stdstring_length (mem p);
  r ← stdstring_compare (cstr [SLASH] []) (mem p);
  if r =? 0 then
    dir ← buf_set (current_working_dir f) 0 SLASH;
    dir ← buf_set dir 1 0;
    Ok (0, with_cwd dir f, d)
  else
    c ← buf_get (mem p) 0;
    '(found, d) ← (
      if c =? SLASH then
        '(root_dir, d) ← get_root_dir (fs f) d;
        find_dir turns (fs f) depth (mem p) root_dir d
      else Ok (None, d));
    match found with
    | Some _ =>
        dir ← stdmem_copy (current_working_dir f) 0 (mem p) 0 (len + 1);
        Ok (0, with_cwd dir f, d)
    | None =>
        '(root_dir, d) ← get_root_dir (fs f) d;
        '(cwd, d) ← find_dir turns (fs f) depth (current_working_dir f) root_dir d;
        cwd ← deref_opt cwd;
        '(dir, d) ← get_dir turns (fs f) cwd d;
        dir ← deref_opt dir;
        '(found, d) ← find_dir turns (fs f) depth (mem p) dir d;
        match found with
        | Some _ =>
            start ← stdstring_length (current_working_dir f);
            dir ← (if start <? 100 then buf_set (current_working_dir f) start SLASH else Ok (current_working_dir f));
            dir ← stdmem_copy dir (start + 1) (mem p) 0 (100 - (start + 1));
            Ok (0, with_cwd dir f, d)
        | None => Ok (-1, f, d)
        end
    end.

Definition sys_getcwd (buf : list Z) (nbytes : Z) (f : files) : outcome (list Z) :=
  cwd_len ← stdstring_length (current_working_dir f);
  stdmem_copy buf 0 (current_working_dir f) 0 (if cwd_len >? nbytes then nbytes else cwd_len).

(** [None] leaves the caller's structure as it was. *)
Definition sys_stat (p : Z) (f : files) (d : D) : outcome (Z * option fat16_dir_entry_t * D) :=
  '(root_dir, d) ← get_root_dir (fs f) d;
  '(file, d) ← find_file turns (fs f) depth (mem p) root_dir d;
  match file with
  | Some file => Ok (0, Some file, d)
  | None => Ok (-1, None, d)
  end.

Definition sys_fstat (n : Z) (f : files) : Z * option fat16_dir_entry_t :=
  match find_open_file_by_fd n (open_files f) with
  | Some i => (0, directory_entry <$> open_files f !! i)
  | None => (-1, None)
  end.

Definition sys_mkdir (p : Z) (f : files) (d : D) : outcome (Z * D) :=
  '(root_dir, d) ← get_root_dir (fs f) d;
  c0 ← buf_get (mem p) 0;
  if negb (c0 =? SLASH) then Ok (-1, d)
  else
    c1 ← buf_get (mem p) 1;
    if c1 =? 0 then Ok (-1, d)
    else
      '(file, d) ← find_file turns (fs f) depth (drop 1 (mem p)) root_dir d;
      match file with
      | Some _ => Ok (-1, d)
      | None => create_new_file p 16 f d
      end.

(** The string literal of [file_initialise] is at the pointer [root_path]. *)
Definition file_initialise (root_path : Z) (f : files) (d : D) : outcome (files * D) :=
  '(volume, d) ← inspect_file_system d;
  let f := Files volume (next_fd f) [] (replicate 100 0) stdstream_initialise_buffer stdstream_initialise_buffer
             stdstream_initialise_buffer in
  '(_, f, d) ← sys_chdir root_path f d;
  Ok (f, d).
End Calls.
