(* ===== verification/Descriptors.v ===== *)
(** * File descriptors

    What the file system calls do to the table of open files: descriptors stay
    different, a closed one is not known until it is handed out again, and the
    position of a file is where [lseek], [read] and [write] leave it. *)
From S2P Require Import Prelude Mem Strings Stream Disk Fat16 Directory Paths FileSys.

Definition fds (f : files) : list Z := fd <$> open_files f.

Record fds_ok (f : files) : Prop := {
  fds_nodup : NoDup (fds f);
  fds_range : forall n, n ∈ fds f -> 3 <= n < next_fd f;
  fds_next : 3 <= next_fd f < 2 ^ 31
}.

(** ** Pointers into the table *)
Lemma find_fd_Some n l i : find_open_file_by_fd n l = Some i -> exists o, l !! i = Some o /\ fd o = n.
Proof.
  revert i. induction l as [|o l IH]; intros i; simpl; [done|]. destruct (Z.eqb_spec (fd o) n) as [E|].
  - intros [= <-]. by exists o.
  - intros (j & Hj & ->)%fmap_Some. by apply IH.
Qed.

Lemma find_fd_None n l : find_open_file_by_fd n l = None <-> n ∉ fd <$> l.
Proof.
  induction l as [|o l IH]; simpl; [set_solver|]. destruct (Z.eqb_spec (fd o) n) as [<-|]; [set_solver|].
  rewrite fmap_None, IH. set_solver.
Qed.

Lemma find_fd_lookup l i o : NoDup (fd <$> l) -> l !! i = Some o -> find_open_file_by_fd (fd o) l = Some i.
Proof.
  revert i. induction l as [|o' l IH]; intros i Hnd Hi; [done|]. apply NoDup_cons in Hnd as [Hn Hnd]. simpl.
  destruct i as [|i]; [injection Hi as ->; by rewrite Z.eqb_refl|]. simpl in Hi. destruct (Z.eqb_spec (fd o') (fd o)) as [E|].
  - destruct Hn. rewrite E. apply list_elem_of_fmap. exists o. split; [done|]. by eapply list_elem_of_lookup_2.
  - by rewrite (IH i).
Qed.

(** ** Changes of the table *)
Lemma alter_fds g i (l : list open_file_t) : (forall o, l !! i = Some o -> fd (g o) = fd o) -> fd <$> alter g i l = fd <$> l.
Proof.
  revert i. induction l as [|o l IH]; intros i Hg; [done|]. destruct i as [|i]; csimpl.
  - by rewrite Hg.
  - f_equal. apply IH. intros o' Ho. by apply Hg.
Qed.

(** [f'] has the descriptors of [f], and hands out the same one next. *)
Definition same_fds (f f' : files) : Prop := fds f' = fds f /\ next_fd f' = next_fd f.

Lemma same_fds_ok f f' : same_fds f f' -> fds_ok f -> fds_ok f'.
Proof. intros [E1 E2] [H1 H2 H3]. constructor; rewrite ?E1, ?E2; done. Qed.

Lemma update_open_same i g f : (forall o, open_files f !! i = Some o -> fd (g o) = fd o) -> same_fds f (update_open i g f).
Proof. intros Hg. split; [|done]. by apply alter_fds. Qed.

Lemma update_const_same i o' f o : open_files f !! i = Some o -> fd o' = fd o -> same_fds f (update_open i (fun _ => o') f).
Proof. intros Ho E. apply update_open_same. intros o1. rewrite Ho. by intros [= <-]. Qed.

Lemma add_fds_ok f o :
  fds_ok f -> next_fd f + 1 < 2 ^ 31 -> fd o = next_fd f ->
  fds_ok (with_open_files (open_files f ++ [o]) (with_next_fd (i32 (next_fd f + 1)) f)).
Proof.
  intros [Hnd Hr Hn] Hlt Ho. rewrite i32_small by lia. unfold fds in *. constructor; unfold fds; cbn; rewrite ?fmap_app.
  - apply NoDup_app. split; [done|]. split; [|apply NoDup_singleton]. cbn. intros n Hin ->%list_elem_of_singleton.
    apply Hr in Hin. lia.
  - cbn. intros n [Hin| ->%list_elem_of_singleton]%elem_of_app; [apply Hr in Hin|]; lia.
  - lia.
Qed.

(** Closing. *)
Lemma close_spec n f r f' :
  fds_ok f -> sys_close n f = (r, f') ->
  fds_ok f' /\ next_fd f' = next_fd f /\ (n ∉ fds f') /\ (r = 0 <-> n ∈ fds f) /\ forall m, m <> n -> (m ∈ fds f' <-> m ∈ fds f).
Proof.
  intros [Hnd Hr Hn]. unfold sys_close. destruct (find_open_file_by_fd n (open_files f)) as [i|] eqn:Ef; intros [= <- <-].
  - apply find_fd_Some in Ef as (o & Ho & Eo). unfold fds in *. cbn. rewrite list_fmap_delete.
    assert (Hi : (fd <$> open_files f) !! i = Some n) by (rewrite list_lookup_fmap, Ho; simpl; by rewrite Eo).
    pose proof (delete_Permutation _ _ _ Hi) as Hp. pose proof Hnd as Hnd'. rewrite Hp in Hnd'. apply NoDup_cons in Hnd' as [Hout Hnd'].
    assert (Hel : forall m, m ∈ (fd <$> open_files f) <-> m = n \/ m ∈ delete i (fd <$> open_files f)).
    { intros m. rewrite <- elem_of_cons. by rewrite <- Hp. }
    split; [constructor; unfold fds; cbn; rewrite ?list_fmap_delete; [done| |done]|].
    { intros m Hm. apply Hr, Hel. by right. }
    split; [done|]. split; [done|]. split; [split; [intros _; apply Hel; by left|done]|]. intros m Hm. rewrite Hel. naive_solver.
  - apply find_fd_None in Ef. split; [by constructor|]. split; [done|]. split; [done|]. split; [|done]. unfold fds. split; [done|]. intros Hin. done.
Qed.

(** ** The calls *)
Section Calls.
Context `{BlockDevice D} (turns depth : nat) (mem : Z -> list Z).

Lemma open_file_fds p f d r f' d' :
  open_file turns depth mem p f d = Ok (r, f', d') ->
  (r = None /\ f' = f) \/
  (exists o, r = Some (length (open_files f)) /\ fd o = next_fd f /\
     f' = with_open_files (open_files f ++ [o]) (with_next_fd (i32 (next_fd f + 1)) f)).
Proof.
  unfold open_file. intros (x & _ & E)%bind_Ok. destruct x as [root_dir d1]. apply bind_Ok in E as (c & _ & E).
  destruct (negb (c =? SLASH)); [injection E as <- <- <-; by left|]. apply bind_Ok in E as (c1 & _ & E).
  destruct (c1 =? 0).
  - injection E as <- <- <-. right. eexists. split; [done|]. split; [|done]. done.
  - apply bind_Ok in E as (x & _ & E). destruct x as [[file|] d2]; injection E as <- <- <-; [right|by left].
    eexists. split; [done|]. split; [|done]. done.
Qed.

Lemma sys_open_fds p flags f d r f' d' :
  fds_ok f -> next_fd f + 1 < 2 ^ 31 -> sys_open turns depth mem p flags f d = Ok (r, f', d') ->
  fds_ok f' /\ next_fd f <= next_fd f' <= next_fd f + 1 /\ (r = -1 \/ r ∈ fds f').
Proof.
  intros Hf Hn. unfold sys_open. intros (found & _ & E)%bind_Ok. apply bind_Ok in E as ([[result f1] d1] & E1 & E).
  assert (Hf1 : fds_ok f1 /\ next_fd f <= next_fd f1 <= next_fd f + 1).
  { destruct found as [i|]; [injection E1 as <- <- <-; split; [done|lia]|].
    apply bind_Ok in E1 as ([[result2 f2] d2] & E2 & E1).
    assert (H2 : forall d res g d'', open_file turns depth mem p f d = Ok (res, g, d'') -> fds_ok g /\ next_fd f <= next_fd g <= next_fd f + 1).
    { intros d0 res g d'' [[_ ->]|(o & _ & Ho & ->)]%open_file_fds; [split; [done|lia]|]. split; [by apply add_fds_ok|].
      cbn. destruct Hf as [_ _ Hr]. rewrite i32_small; lia. }
    pose proof (H2 _ _ _ _ E2). destruct result2 as [i|]; [by injection E1 as <- <- <-|].
    assert (f2 = f) as ->. { apply open_file_fds in E2 as [[_ ->]|(o & ? & _)]; done. }
    destruct (negb (Z.land flags O_CREAT =? 0)); [|by injection E1 as <- <- <-].
    apply bind_Ok in E1 as ([r3 d3] & _ & E1). destruct (r3 =? -1); [by injection E1 as <- <- <-|]. by apply H2 in E1. }
  destruct Hf1 as [Hf1 Hn1]. destruct result as [i|]; [|injection E as <- <- <-; by auto].
  apply bind_Ok in E as (o & Ho & E). injection E as <- <- <-.
  assert (Hs : same_fds f1 (update_open i (with_append (negb (Z.land flags O_APPEND =? 0))) f1)) by by apply update_open_same.
  split; [by eapply same_fds_ok|]. destruct Hs as [Es En]. rewrite En. split; [done|]. right.
  destruct (open_files (update_open _ _ _) !! i) as [o'|] eqn:Eo; [|done]. injection Ho as ->. apply list_elem_of_fmap.
  exists o. split; [done|]. by eapply list_elem_of_lookup_2.
Qed.

Lemma sys_write_fds n buf nbytes console f d r console' f' d' :
  sys_write turns depth mem n buf nbytes console f d = Ok (r, console', f', d') -> same_fds f f'.
Proof.
  unfold sys_write. destruct (n =? STDOUT_FILEDESC).
  { intros (c & _ & [= <- <- <- <-])%bind_Ok. done. }
  destruct (find_open_file_by_fd n (open_files f)) as [i|]; [|by intros [= <- <- <- <-]].
  intros (o & Ho & E)%bind_Ok. assert (Hi : open_files f !! i = Some o) by (destruct (open_files f !! i); [by injection Ho as ->|done]).
  destruct (is_subdirectory _); [by injection E as <- <- <- <-|].
  set (o1 := if append o then _ else o) in E. assert (E1 : fd o1 = fd o) by (unfold o1; by destruct (append o)).
  apply bind_Ok in E as ([w d1] & _ & E). destruct (i32 w <? 0).
  { injection E as <- <- <- <-. by eapply update_const_same. }
  apply bind_Ok in E as ([o2 d2] & E2 & E). injection E as <- <- <- <-. eapply update_const_same; [exact Hi|]. cbn.
  destruct (_ >? _); [|by injection E2 as <- <-]. apply bind_Ok in E2 as ([r2 d3] & _ & E2). by injection E2 as <- <-.
Qed.

Lemma sys_read_fds n buf nbytes f d r buf' f' d' :
  sys_read turns n buf nbytes f d = Ok (r, buf', f', d') -> same_fds f f'.
Proof.
  unfold sys_read. destruct (n =? STDIN_FILEDESC).
  { intros ([b st] & _ & [= <- <- <- <-])%bind_Ok. done. }
  destruct (find_open_file_by_fd n (open_files f)) as [i|]; [|by intros [= <- <- <- <-]].
  intros (o & Ho & E)%bind_Ok. destruct (_ <? 2); [by injection E as <- <- <- <-|].
  apply bind_Ok in E as ([[b w] d1] & _ & E). destruct (i32 w <? 0); injection E as <- <- <- <-; [done|]. by apply update_open_same.
Qed.

Lemma sys_chdir_fds p f d r f' d' : sys_chdir turns depth mem p f d = Ok (r, f', d') -> same_fds f f'.
Proof.
  unfold sys_chdir. intros (len & _ & E)%bind_Ok. apply bind_Ok in E as (c & _ & E). destruct (c =? 0).
  { apply bind_Ok in E as (b1 & _ & E). apply bind_Ok in E as (b2 & _ & E). by injection E as <- <- <-. }
  apply bind_Ok in E as (c1 & _ & E). apply bind_Ok in E as ([found d1] & _ & E). destruct found.
  { apply bind_Ok in E as (b1 & _ & E). by injection E as <- <- <-. }
  apply bind_Ok in E as ([root d2] & _ & E). apply bind_Ok in E as ([cwd d3] & _ & E). apply bind_Ok in E as (cwd' & _ & E).
  apply bind_Ok in E as ([dir d4] & _ & E). apply bind_Ok in E as (dir' & _ & E). apply bind_Ok in E as ([fo d5] & _ & E).
  destruct fo; [|by injection E as <- <- <-]. apply bind_Ok in E as (st & _ & E). apply bind_Ok in E as (b1 & _ & E).
  apply bind_Ok in E as (b2 & _ & E). by injection E as <- <- <-.
Qed.

Lemma sys_lseek_fds n off whence f r f' : sys_lseek n off whence f = (r, f') -> same_fds f f'.
Proof.
  unfold sys_lseek. destruct (find_open_file_by_fd n (open_files f)) as [i|]; [|by intros [= <- <-]].
  destruct (whence =? SEEK_SET); [|destruct (whence =? SEEK_CUR); [|destruct (whence =? SEEK_END)]];
    intros [= <- <-]; try done; by apply update_open_same.
Qed.
End Calls.
