(* ===== verification/FileCalls.v ===== *)
(** * The file system calls on a volume

    Reading and writing through descriptors, opening, creating: what the calls
    of [FileSys] do on a volume as [Volume] and [Root] see it. *)
From S2P Require Import Prelude Mem Strings Stream Disk Fat16 Volume Files Directory Slots Root Paths FileSys Descriptors.

(** ** Positions *)
Lemma lseek_set n off f i o :
  open_files f !! i = Some o -> find_open_file_by_fd n (open_files f) = Some i ->
  sys_lseek n off SEEK_SET f = (0, update_open i (with_offset off) f) /\
  open_files (update_open i (with_offset off) f) !! i = Some (with_offset off o) /\
  find_open_file_by_fd n (open_files (update_open i (with_offset off) f)) = Some i.
Proof.
  intros Hi Hn. unfold sys_lseek. rewrite Hn. split; [done|]. split; [cbn; by rewrite list_lookup_alter_eq, Hi|].
  cbn. rewrite <- Hn. clear. revert i. induction (open_files f) as [|o l IH]; intros i; [done|]. destruct i as [|i]; [done|].
  cbn. by rewrite <- (IH i).
Qed.

Lemma update_open_const i g o f : open_files f !! i = Some o -> update_open i (fun _ => g o) f = update_open i g f.
Proof.
  intros Ho. unfold update_open. f_equal. revert i Ho. induction (open_files f) as [|o' l IH]; intros i Ho; [done|].
  destruct i as [|i]; cbn in *; [by injection Ho as ->|]. f_equal. by apply IH.
Qed.

(** A position overrides the one before. *)
Lemma update_offsets i a b f : update_open i (with_offset b) (update_open i (with_offset a) f) = update_open i (with_offset b) f.
Proof. unfold update_open, with_open_files; cbn. f_equal. revert i. induction (open_files f) as [|o l IH]; intros [|i]; cbn; [done..|]. by f_equal. Qed.

(** A write over the whole of a buffer. *)
Lemma splice_all b s : length s = length b -> splice b 0 s = s.
Proof. intros E. unfold splice. rewrite drop_ge by lia. by rewrite app_nil_r. Qed.

Section Access.
Context `{BlockDeviceLaws D} (v : fat16_t) (N : Z) (Hlay : layout v N).
Context (depth : nat) (mem : Z -> list Z).
Abbreviation turns := (Z.to_nat 65536).

(** A descriptor of a file, not of a directory, whose chain holds its bytes. *)
Record file_at (n : Z) (f : files) (d : D) (i : nat) (o : open_file_t) (ns : list Z) : Prop := {
  fa_volume : fs f = v;
  fa_number : 3 <= n;
  fa_find : find_open_file_by_fd n (open_files f) = Some i;
  fa_open : open_files f !! i = Some o;
  fa_regular : is_subdirectory (unpack_file_attributes (attributes (directory_entry o))) = false;
  fa_chain : chain v N d (first_cluster (directory_entry o)) ns;
  fa_size : 0 <= file_size_bytes (directory_entry o) <= cluster_size v * zlength ns;
  fa_int : file_size_bytes (directory_entry o) < 2 ^ 31
}.

Lemma chain_nonempty d c ns : chain v N d c ns -> ns <> [] -> 2 <= c.
Proof. intros Hc. destruct Hc as [|c ns Hu]; [done|]. apply in_use_range in Hu. lia. Qed.

Lemma write_at_spec n f d i o ns buf num console :
  file_at n f d i o ns -> vol v N d -> table_sane v N d -> append o = false -> 0 <= offset o -> 0 < num ->
  offset o + num <= file_size_bytes (directory_entry o) -> num <= zlength buf -> is_bytes buf ->
  exists d', sys_write turns depth mem n buf num console f d =
      Ok (num, console, update_open i (with_offset (offset o + num)) f, d') /\
    vol v N d' /\ chain v N d' (first_cluster (directory_entry o)) ns /\
    chain_bytes v d' ns = splice (chain_bytes v d ns) (offset o) (slice buf 0 num).
Proof.
  intros [Hfs Hn Hfind Ho Hreg Hc Hsize Hint] Hv Hsane Ha Hoff Hnum Hfit Hb Hby.
  destruct (write_spec v N Hlay d (directory_entry o) ns (offset o) buf num turns) as
    (r & d' & new & E & Hr & _ & Hc' & Hsame & _ & _ & Hbytes & Hin & _); try done; try lia.
  destruct Hin as [-> ->]; [lia|]. rewrite app_nil_r in *. exists d'. split; [|split; [apply Hsame|done]].
  unfold sys_write. destruct (Z.eqb_spec n STDOUT_FILEDESC); [unfold STDOUT_FILEDESC in *; lia|]. rewrite Hfind, Ho. cbn [deref_opt]. ok_bind.
  rewrite Hreg, Ha, Hfs. rewrite u32_small by lia. rewrite E. ok_bind. rewrite (i32_small num) by lia.
  destruct (Z.ltb_spec num 0); [lia|]. rewrite i32_small, u32_small by lia. destruct (Z.gtb_spec (offset o + num) (file_size_bytes (directory_entry o))); [lia|]. ok_bind.
  rewrite i32_small by lia. by rewrite (update_open_const i (with_offset (offset o + num)) o).
Qed.

Lemma read_at_spec n f d i o ns buf num :
  file_at n f d i o ns -> vol v N d -> 0 <= offset o < cluster_size v * zlength ns -> 0 <= num ->
  offset o + num <= file_size_bytes (directory_entry o) -> num <= zlength buf ->
  sys_read turns n buf num f d =
    Ok (num, splice buf 0 (slice (chain_bytes v d ns) (offset o) num), update_open i (with_offset (offset o + num)) f, d).
Proof.
  intros [Hfs Hn Hfind Ho Hreg Hc Hsize Hint] Hv Hoff Hnum Hfit Hb.
  unfold sys_read. destruct (Z.eqb_spec n STDIN_FILEDESC); [unfold STDIN_FILEDESC in *; lia|]. rewrite Hfind, Ho. cbn [deref_opt]. ok_bind.
  assert (Hne : ns <> []) by (intros ->; simpl in *; lia). pose proof (chain_nonempty d _ ns Hc Hne).
  destruct (Z.ltb_spec (first_cluster (directory_entry o)) 2); [lia|]. rewrite Hfs, u32_small by lia.
  rewrite (read_spec v N Hlay d (directory_entry o) ns); [|done|done|lia|lia|lia|by apply (chain_length v N Hlay d (first_cluster (directory_entry o)))].
  ok_bind. rewrite Z.min_l, i32_small by lia. destruct (Z.ltb_spec num 0); [lia|]. by rewrite i32_small by lia.
Qed.

Lemma file_at_moved n f d i o ns g d' :
  file_at n f d i o ns -> chain v N d' (first_cluster (directory_entry o)) ns ->
  (forall o', fd (g o') = fd o') -> directory_entry (g o) = directory_entry o -> file_at n (update_open i g f) d' i (g o) ns.
Proof.
  intros [Hfs Hn Hfind Ho Hreg Hc Hsize Hint] Hc' Hg He. constructor; rewrite ?He; try done.
  - cbn. rewrite <- Hfind. clear -Hg. revert i. induction (open_files f) as [|o' l IH]; intros i; [done|].
    destruct i as [|i]; cbn; [by rewrite Hg|]. by rewrite <- (IH i).
  - cbn. by rewrite list_lookup_alter_eq, Ho.
Qed.

(** C15 (roundtrip): a process that seeks to a place in a file that is open and
    not in append mode, writes there inside the file, seeks back and reads gets
    what it wrote; both calls report every byte, the position ends after them,
    and no other descriptor is affected. *)
Theorem write_seek_read n f d i o ns off buf buf' num console :
  file_at n f d i o ns -> vol v N d -> table_sane v N d -> append o = false ->
  0 <= off -> 0 < num -> off + num <= file_size_bytes (directory_entry o) ->
  num <= zlength buf -> is_bytes buf -> zlength buf' = num ->
  exists f1 f2 f3 f4 d',
    sys_lseek n off SEEK_SET f = (0, f1) /\
    sys_write turns depth mem n buf num console f1 d = Ok (num, console, f2, d') /\
    sys_lseek n off SEEK_SET f2 = (0, f3) /\
    sys_read turns n buf' num f3 d' = Ok (num, slice buf 0 num, f4, d') /\
    open_files f4 !! i = Some (with_offset (off + num) o) /\
    (forall j, j <> i -> open_files f4 !! j = open_files f !! j).
Proof.
  intros Hf Hv Hsane Ha Hoff Hnum Hfit Hb Hby Hb'.
  destruct (lseek_set n off f i o) as (E1 & _); [apply Hf|apply Hf|].
  pose proof (file_at_moved n f d i o ns (with_offset off) d Hf (fa_chain _ _ _ _ _ _ Hf) (fun _ => eq_refl) eq_refl) as Hf1.
  set (f1 := update_open i (with_offset off) f) in *.
  destruct (write_at_spec n f1 d i (with_offset off o) ns buf num console Hf1 Hv Hsane) as (d' & E2 & Hv' & Hc' & Hbytes); try done.
  pose proof (file_at_moved n f1 d i _ ns (with_offset (off + num)) d' Hf1 Hc' (fun _ => eq_refl) eq_refl) as Hf2. cbn [offset with_offset] in E2.
  set (f2 := update_open i (with_offset (off + num)) f1) in *.
  destruct (lseek_set n off f2 i _ (fa_open _ _ _ _ _ _ Hf2) (fa_find _ _ _ _ _ _ Hf2)) as (E3 & _).
  pose proof (file_at_moved n f2 d' i _ ns (with_offset off) d' Hf2 Hc' (fun _ => eq_refl) eq_refl) as Hf3.
  pose proof (fa_size _ _ _ _ _ _ Hf) as Hsz.
  pose proof (read_at_spec n _ d' i _ ns buf' num Hf3 Hv' ltac:(cbn; lia) ltac:(lia) Hfit ltac:(lia)) as E4. cbn [offset with_offset] in E4.
  eexists f1, f2, _, _, d'. split; [done|]. split; [done|]. split; [exact E3|]. split.
  - rewrite E4, Hbytes. do 4 f_equal. assert (Hsl : zlength (slice buf 0 num) = num) by (rewrite slice_length; lia).
    pose proof (chain_size v N Hlay d _ _ Hv (fa_chain _ _ _ _ _ _ Hf)). pose proof (fa_size _ _ _ _ _ _ Hf). cbn [offset with_offset].
    rewrite <- Hsl at 2. rewrite slice_splice by lia. unfold splice. rewrite drop_ge by lia. by rewrite app_nil_r.
  - split.
    + pose proof (file_at_moved n _ d' i _ ns (with_offset (off + num)) d' Hf3 Hc' (fun _ => eq_refl) eq_refl) as Hf4. apply Hf4.
    + intros j Hj. cbn. by rewrite !list_lookup_alter_ne by done.
Qed.
End Access.

(** ** The theorem at work: descriptor 3 is the file of clusters 2 and 3 *)
Definition demo_open : files := Files demo_fs 4 [OpenFile 3 demo_file 4096 0 false] (replicate 100 0) [] [] [].

Lemma demo_file_at : file_at demo_fs 8 3 demo_open demo_vol 0 (OpenFile 3 demo_file 4096 0 false) [2; 3].
Proof. constructor; try done; try exact demo_chain; cbn; unfold cluster_size, sector_size; cbn; lia. Qed.

Lemma write_seek_read_witness :
  exists f1 f2 f3 f4 d',
    sys_lseek 3 300 SEEK_SET demo_open = (0, f1) /\
    sys_write (Z.to_nat 65536) 1 (fun _ => [0]) 3 demo_data 700 [] f1 demo_vol = Ok (700, [], f2, d') /\
    sys_lseek 3 300 SEEK_SET f2 = (0, f3) /\
    sys_read (Z.to_nat 65536) 3 (replicate 700 0) 700 f3 d' = Ok (700, slice demo_data 0 700, f4, d') /\
    open_files f4 !! 0%nat = Some (with_offset (300 + 700) (OpenFile 3 demo_file 4096 0 false)) /\
    (forall j, j <> 0%nat -> open_files f4 !! j = open_files demo_open !! j).
Proof.
  apply (write_seek_read demo_fs 8 demo_layout 1 (fun _ => [0]) 3 demo_open demo_vol 0 _ [2; 3] 300 demo_data (replicate 700 0) 700 []);
    [exact demo_file_at|exact demo_vol_ok|exact demo_sane|done|lia|lia|cbn; lia|by vm_compute|exact demo_data_bytes|done].
Defined.
