(* ===== verification/Names.v ===== *)
(** * Paths and names, as texts

    What the functions of [Paths] make of well-formed texts: the parts of a
    path, its directory and its file name, and names of eight and three. *)
From S2P Require Import Prelude Mem Strings Disk Fat16 Directory Slots Paths FileSys.

(** A part of a path: no terminator and no slash. *)
Definition part_ok (p : list Z) : Prop := Forall (fun c => c <> 0 /\ c <> SLASH) p.

Fixpoint join_path (p : list Z) (ps : list (list Z)) : list Z :=
  match ps with
  | [] => p
  | q :: ps => p ++ SLASH :: join_path q ps
  end.

Lemma part_nonul p : part_ok p -> nonul p.
Proof. intros Hp. eapply Forall_impl; [exact Hp|]. by intros c []. Qed.

Lemma join_nonul p ps : Forall part_ok (p :: ps) -> nonul (join_path p ps).
Proof.
  revert p. induction ps as [|q ps IH]; intros p [Hp Hps]%Forall_cons; cbn; [by apply part_nonul|].
  apply Forall_app. split; [by apply part_nonul|]. constructor; [done|]. by apply IH.
Qed.

Lemma part_length_spec p c s j :
  part_ok p -> c = SLASH \/ c = 0 -> part_length (p ++ c :: s) j = Ok (j + zlength p, c).
Proof.
  intros Hp Hc. revert j. induction Hp as [|d p [Hd1 Hd2] _ IH]; intros j; cbn.
  - rewrite Z.add_0_r. by destruct Hc as [->| ->].
  - destruct (Z.eqb_spec d SLASH); [done|]. destruct (Z.eqb_spec d 0); [done|]. cbn [orb]. rewrite IH. do 2 f_equal. lia.
Qed.

(** The first part of a joined path, with what ends it. *)
Lemma join_split p ps t :
  exists c s, cstr (join_path p ps) t = p ++ c :: s /\
    match ps with [] => c = 0 | q :: ps => c = SLASH /\ s = cstr (join_path q ps) t end.
Proof.
  destruct ps as [|q ps]; cbn; [by exists 0, t|]. exists SLASH, (cstr (join_path q ps) t). split; [|done].
  unfold cstr. by rewrite <- app_assoc.
Qed.

Lemma split_turn_spec p ps t pre parts :
  part_ok p ->
  split_turn (pre ++ cstr (join_path p ps) t) (zlength pre, parts) =
    Ok (match ps with [] => inr (parts ++ [p ++ [0]]) | _ => inl (zlength pre + (zlength p + 1), parts ++ [p ++ [0]]) end).
Proof.
  intros Hp. destruct (join_split p ps t) as (c & s & E & Hc). assert (Hc' : c = SLASH \/ c = 0) by (destruct ps; naive_solver).
  unfold split_turn. rewrite Nat2Z.id, drop_app_length, E, part_length_spec by done. ok_bind. rewrite Z.add_0_l.
  rewrite stdmem_copy_spec by (rewrite ?length_replicate, ?length_app; simpl; lia). ok_bind.
  assert (slice (pre ++ p ++ c :: s) (zlength pre) (zlength p) = p) as ->.
  { rewrite slice_app_r by lia. rewrite Z.sub_diag, slice_app_l by lia. by apply slice_0. }
  assert (splice (replicate (Z.to_nat (zlength p + 1)) 0) 0 p = p ++ [0]) as ->.
  { unfold splice. replace (Z.to_nat (zlength p + 1)) with (length p + 1)%nat by lia. rewrite replicate_add. simpl. f_equal.
    rewrite drop_app_length'; [done|by rewrite length_replicate]. }
  rewrite buf_set_Ok by (rewrite length_app; simpl; lia). ok_bind. rewrite Nat2Z.id, insert_app_r_alt by lia. rewrite Nat.sub_diag.
  cbn [insert list_insert]. destruct ps; [by subst c|]. destruct Hc as [-> _]. done.
Qed.

Lemma split_loop p ps t : forall pre path parts fuel,
  Forall part_ok (p :: ps) -> path = pre ++ cstr (join_path p ps) t -> (length ps < fuel)%nat ->
  while_loop fuel (split_turn path) (zlength pre, parts) = Ok (parts ++ ((fun q => q ++ [0]) <$> p :: ps)).
Proof.
  revert p. induction ps as [|q ps IH]; intros p pre path parts fuel Hok -> Hf; (destruct fuel as [|fuel]; [simpl in Hf; lia|]);
    rewrite while_loop_S; apply Forall_cons in Hok as [Hp Hps].
  - rewrite (split_turn_spec p [] t) by done. done.
  - rewrite (split_turn_spec p (q :: ps) t) by done. ok_bind.
    replace (zlength pre + (zlength p + 1)) with (zlength (pre ++ p ++ [SLASH])) by (rewrite !length_app; simpl; lia).
    rewrite (IH q (pre ++ p ++ [SLASH])); [by rewrite <- app_assoc|done| |simpl in Hf; lia].
    unfold cstr. cbn. by rewrite <- !app_assoc.
Qed.

(** The count of [split_path]. *)
Lemma count_slashes path k n :
  Z.of_nat k <= zlength path ->
  for_loop k 0 (fun i n => c ← buf_get path i; Ok (if c =? SLASH then n + 1 else n)) n =
    Ok (n + zlength (filter (fun c => c = SLASH) (take k path))).
Proof.
  intros Hk. destruct (for_loop_inv (fun i m => m = n + zlength (filter (fun c => c = SLASH) (take (Z.to_nat i) path))) k 0
    (fun i n => c ← buf_get path i; Ok (if c =? SLASH then n + 1 else n)) n) as (m & E & Hm).
  - simpl. lia.
  - intros i m Hi ->. destruct (buf_get_Ok path i) as (c & Hc & ->); [lia|]. ok_bind. eexists. split; [done|].
    replace (Z.to_nat (i + 1)) with (S (Z.to_nat i)) by lia. rewrite (take_S_r _ _ _ Hc), filter_app, length_app, filter_cons.
    destruct (Z.eqb_spec c SLASH); [rewrite decide_True by done|rewrite decide_False by done]; simpl; lia.
  - rewrite E, Hm. by rewrite Z.add_0_l, Nat2Z.id.
Qed.

Lemma join_slashes p ps : Forall part_ok (p :: ps) -> filter (fun c => c = SLASH) (join_path p ps) = replicate (length ps) SLASH.
Proof.
  assert (Hnone : forall p, part_ok p -> filter (fun c => c = SLASH) p = []).
  { intros q Hq. induction Hq as [|c q [_ Hc] _ IH]; [done|]. by rewrite filter_cons_False. }
  revert p. induction ps as [|q ps IH]; intros p [Hp Hps]%Forall_cons; cbn; [by apply Hnone|].
  rewrite filter_app, Hnone, filter_cons_True, IH by done. done.
Qed.

Lemma split_path_eq lead p ps t :
  Forall part_ok (p :: ps) -> p <> [] -> 2 <= zlength (join_path p ps) < 2 ^ 31 ->
  split_path ((if lead : bool then [SLASH] else []) ++ cstr (join_path p ps) t) = Ok ((fun q => q ++ [0]) <$> p :: ps, 1 + zlength ps).
Proof.
  intros Hok Hne Hl. set (s := cstr (join_path p ps) t).
  assert (Hs : skip_slash ((if lead then [SLASH] else []) ++ s) = Ok s).
  { destruct lead; [done|]. unfold skip_slash. destruct p as [|c p]; [done|]. apply Forall_cons in Hok as [[[_ Hc] _]%Forall_cons _].
    cbn [app]. rewrite (buf_get_lookup s 0 c); [|lia|unfold s; by destruct ps]. ok_bind. by destruct (Z.eqb_spec c SLASH). }
  pose proof (join_nonul p ps Hok) as Hn. unfold split_path. rewrite Hs. ok_bind.
  destruct (lookup_lt_is_Some_2 (join_path p ps) 1) as [c Hc]; [lia|].
  rewrite (buf_get_lookup s 1 c); [|lia|unfold s, cstr; by rewrite lookup_app_l by lia]. ok_bind.
  destruct (Z.eqb_spec c 0) as [->|_]; [by pose proof (Forall_lookup_1 _ _ _ _ Hn Hc)|].
  assert (stdstring_length s = Ok (zlength (join_path p ps))) as -> by (apply stdstring_length_spec; done || lia). ok_bind.
  rewrite Nat2Z.id.
  assert (Hls : length s = (length (join_path p ps) + S (length t))%nat) by (unfold s, cstr; by rewrite length_app).
  rewrite count_slashes by lia. ok_bind.
  assert (take (length (join_path p ps)) s = join_path p ps) as -> by apply take_app_length. rewrite join_slashes, length_replicate by done.
  pose proof (split_loop p ps t [] s [] (S (length s)) Hok eq_refl) as E. cbn [zlength length] in E. change (Z.of_nat 0) with 0 in E.
  rewrite E; [done|]. clear E. rewrite Hls. assert (length ps <= length (join_path p ps))%nat; [|lia].
  pose proof (f_equal length (join_slashes p ps Hok)) as Hj. rewrite length_replicate in Hj. rewrite <- Hj. apply length_filter.
Qed.

(** A path comes apart into exactly the parts it was joined
    from, each terminated, with or without a leading slash; it needs at least
    two characters. *)
Lemma split_path_spec lead p ps t :
  Forall part_ok (p :: ps) -> p <> [] -> 2 <= zlength (join_path p ps) < 2 ^ 31 ->
  split_path ((if lead : bool then [SLASH] else []) ++ cstr (join_path p ps) t) = Ok ((fun q => q ++ [0]) <$> p :: ps, 1 + zlength ps).
Proof. apply split_path_eq. Qed.

(** ** Directory and file name *)
Lemma last_slash_skip s rest i l : nonul s -> exists l', last_slash (s ++ rest) i l = last_slash rest (i + zlength s) l'.
Proof.
  intros Hs. revert i l. induction Hs as [|c s Hc _ IH]; intros i l; cbn.
  - exists l. by rewrite Z.add_0_r.
  - destruct (Z.eqb_spec c 0); [done|]. destruct (IH (i + 1) (if c =? SLASH then i else l)) as [l' ->]. exists l'. f_equal. lia.
Qed.

Lemma last_slash_part p t i l : part_ok p -> last_slash (cstr p t) i l = Ok (l, i + zlength p).
Proof.
  intros Hp. revert i l. induction Hp as [|c p [Hc Hs] _ IH]; intros i l; cbn.
  - by rewrite Z.add_0_r.
  - destruct (Z.eqb_spec c 0); [done|]. destruct (Z.eqb_spec c SLASH); [done|]. fold (cstr p t). rewrite IH. do 2 f_equal. lia.
Qed.

Lemma last_slash_spec dir name t :
  nonul dir -> part_ok name -> last_slash (cstr (dir ++ SLASH :: name) t) 0 0 = Ok (zlength dir, zlength dir + 1 + zlength name).
Proof.
  intros Hd Hn. unfold cstr. rewrite <- app_assoc. destruct (last_slash_skip dir ((SLASH :: name) ++ 0 :: t) 0 0 Hd) as [l' ->].
  cbn. fold (cstr name t). rewrite last_slash_part by done. done.
Qed.

(** A path of a directory and a file name comes apart again. *)
Lemma to_directory_spec dir name t :
  nonul dir -> part_ok name -> to_directory (cstr (dir ++ SLASH :: name) t) = Ok (dir ++ [0]).
Proof.
  intros Hd Hn. unfold to_directory. rewrite last_slash_spec by done. ok_bind.
  rewrite stdmem_copy_spec; [|lia|lia|lia|rewrite length_replicate; lia|unfold cstr; rewrite !length_app; simpl; lia]. ok_bind.
  unfold cstr. rewrite <- app_assoc, slice_split by lia. rewrite slice_app_l, (slice_0 dir) by lia. cbn [app].
  rewrite (slice_one _ _ SLASH) by (rewrite lookup_app_r by lia; by replace (_ - _)%nat with 0%nat by lia).
  unfold splice. rewrite drop_ge by (rewrite length_replicate, length_app; simpl; lia). simpl. rewrite app_nil_r.
  rewrite buf_set_Ok by (rewrite length_app; simpl; lia). rewrite Nat2Z.id, insert_app_r_alt by lia. by rewrite Nat.sub_diag.
Qed.

Lemma to_filename_spec dir name t :
  nonul dir -> part_ok name -> to_filename (cstr (dir ++ SLASH :: name) t) = Ok (name ++ [0]).
Proof.
  intros Hd Hn. unfold to_filename. rewrite last_slash_spec by done. ok_bind.
  replace (zlength dir + 1 + zlength name - zlength dir) with (zlength name + 1) by lia.
  rewrite stdmem_copy_spec; [|lia|lia|lia|rewrite length_replicate; lia|unfold cstr; rewrite !length_app; simpl; lia].
  unfold cstr. rewrite <- app_assoc, slice_app_r by lia. replace (zlength dir + 1 - zlength dir) with (0 + 1) by lia.
  assert (slice ((SLASH :: name) ++ 0 :: t) (0 + 1) (zlength name + 1) = name ++ [0]) as ->.
  { unfold slice. change (drop (Z.to_nat (0 + 1)) ((SLASH :: name) ++ 0 :: t)) with (name ++ 0 :: t). replace (Z.to_nat (zlength name + 1)) with (length name + 1)%nat by lia. by rewrite take_app_add'. }
  unfold splice. rewrite drop_ge by (rewrite length_replicate, length_app; simpl; lia). simpl. by rewrite app_nil_r.
Qed.

(** ** Names of eight and three *)
Lemma copy_name_spec n : forall k a c s r,
  Forall (fun c => c <> 0 /\ c <> DOT) n -> c = DOT \/ c = 0 -> (length n <= k)%nat -> zlength a + zlength n <= zlength r ->
  copy_name k (zlength a) (a ++ n ++ c :: s) r = Ok (zlength a + zlength n, splice r (zlength a) n).
Proof.
  induction n as [|x n IH]; intros k a c s r Hn Hc Hk Hr.
  - assert (buf_get (a ++ [] ++ c :: s) (zlength a) = Ok c) as Hg.
    { apply buf_get_lookup; [lia|]. rewrite Nat2Z.id. by apply list_lookup_middle. }
    rewrite Z.add_0_r, splice_nil. destruct k as [|k]; cbn [copy_name]; rewrite Hg; ok_bind; [done|].
    by destruct Hc as [->| ->].
  - apply Forall_cons in Hn as [[Hx0 Hxd] Hn]. destruct k as [|k]; [simpl in Hk; lia|]. cbn [copy_name].
    rewrite (buf_get_lookup _ _ x); [|lia|rewrite Nat2Z.id; by apply list_lookup_middle]. ok_bind.
    destruct (Z.eqb_spec x DOT); [done|]. destruct (Z.eqb_spec x 0); [done|]. cbn [negb andb]. simpl length in *.
    rewrite buf_set_splice by lia. ok_bind.
    pose proof (IH k (a ++ [x]) c s (splice r (zlength a) [x]) Hn Hc ltac:(lia)) as E.
    rewrite length_app, <- app_assoc in E. simpl length in E. rewrite Nat2Z.inj_add in E. change (Z.of_nat 1) with 1 in E. cbn [app] in E |- *.
    rewrite E by (rewrite splice_length; simpl; lia). do 2 f_equal; [lia|]. pose proof (splice_splice r (zlength a) [x] n) as Es. simpl length in Es.
    change (Z.of_nat 1) with 1 in Es. rewrite Es by lia. done.
Qed.

Lemma copy_extension_spec e : forall k a b i j c s r,
  nonul e -> c = 0 \/ k = length e -> (length e <= k)%nat -> i + j = zlength (a ++ b) -> 0 <= j -> 8 + j + zlength e <= zlength r ->
  copy_extension k j (a ++ b ++ e ++ c :: s) i r = Ok (j + zlength e, splice r (8 + j) e).
Proof.
  induction e as [|x e IH]; intros k a b i j c s r He Hc Hk Hij Hj Hr; rewrite app_assoc.
  - assert (buf_get ((a ++ b) ++ [] ++ c :: s) (i + j) = Ok c) as Hg.
    { apply buf_get_lookup; [lia|]. rewrite Hij, Nat2Z.id. by apply list_lookup_middle. }
    rewrite Z.add_0_r, splice_nil. destruct k as [|k]; cbn [copy_extension]; rewrite Hg; ok_bind; [done|].
    by destruct Hc as [->|].
  - apply Forall_cons in He as [Hx He]. destruct k as [|k]; [simpl in Hk; lia|]. cbn [copy_extension]. simpl length in *.
    rewrite (buf_get_lookup _ _ x); [|lia|rewrite Hij, Nat2Z.id; by apply list_lookup_middle]. ok_bind.
    destruct (Z.eqb_spec x 0); [done|]. cbn [negb]. rewrite buf_set_splice by lia. ok_bind.
    pose proof (IH k (a ++ b) [x] i (j + 1) c s (splice r (8 + j) [x]) He) as E. cbn [app] in E |- *.
    rewrite E; [|destruct Hc as [?|[=]]; [by left|by right]|lia|rewrite !length_app in *; simpl; lia|lia|rewrite splice_length; simpl; lia].
    do 2 f_equal; [lia|]. pose proof (splice_splice r (8 + j) [x] e) as Es. simpl length in Es. change (Z.of_nat 1) with 1 in Es.
    rewrite Z.add_assoc. by rewrite Es by lia.
Qed.

Lemma set_zeros l k i : zlength l <= i < zlength l + Z.of_nat k -> buf_set (l ++ replicate k 0) i 0 = Ok (l ++ replicate k 0).
Proof.
  intros Hi. rewrite buf_set_Ok by (rewrite length_app, length_replicate; lia). f_equal.
  rewrite insert_app_r_alt by lia. f_equal. apply list_eq. intros j. rewrite list_lookup_insert. case_decide as Hj; [|done].
  destruct Hj as [<- Hj]. rewrite length_replicate in Hj. by rewrite lookup_replicate_2.
Qed.

Lemma splice_zeros l k e : zlength e <= Z.of_nat k ->
  splice (l ++ replicate k 0) (zlength l) e = l ++ e ++ replicate (k - length e) 0.
Proof.
  intros He. unfold splice. rewrite Nat2Z.id, take_app_length. f_equal. f_equal.
  rewrite drop_app_ge by lia. rewrite drop_replicate. f_equal. lia.
Qed.

(** A name of one to seven characters and an extension of at most three are
    told apart at the dot, both terminated. *)
Definition name_ok (n : list Z) : Prop := Forall (fun c => c <> 0 /\ c <> DOT) n.

Lemma split_filename_spec n e t :
  name_ok n -> zlength n <= 7 -> nonul e -> zlength e <= 3 ->
  exists x y, split_filename (cstr (n ++ DOT :: e) t) = Ok (cstr n x, cstr e y).
Proof.
  intros Hn Hnl He Hel. unfold split_filename, cstr. rewrite <- app_assoc. cbn [app].
  pose proof (copy_name_spec n 8 [] DOT (e ++ 0 :: t) (replicate 13 0) Hn (or_introl eq_refl)) as E1.
  simpl length in E1. change (Z.of_nat 0) with 0 in E1. cbn [app] in E1. rewrite E1 by (rewrite ?length_replicate; lia). clear E1. ok_bind.
  rewrite Z.add_0_l. pose proof (splice_zeros [] 13 n ltac:(lia)) as Es. cbn [app length] in Es. change (Z.of_nat 0) with 0 in Es. rewrite Es. clear Es.
  rewrite set_zeros by lia. ok_bind. rewrite (buf_get_lookup _ _ DOT); [|lia|rewrite Nat2Z.id; by apply list_lookup_middle]. ok_bind.
  change (DOT =? 0) with false. cbv beta iota.
  replace (n ++ replicate (13 - length n) 0) with ((n ++ replicate (8 - length n) 0) ++ replicate 5 0)
    by (rewrite <- app_assoc, <- replicate_add; do 2 f_equal; lia).
  set (l := n ++ replicate (8 - length n) 0). assert (Hl : zlength l = 8) by (unfold l; rewrite length_app, length_replicate; lia).
  pose proof (copy_extension_spec e 3 n [DOT] (zlength n + 1) 0 0 t (l ++ replicate 5 0) He (or_introl eq_refl)) as E2. cbn [app] in E2.
  rewrite E2 by (rewrite ?length_app, ?length_replicate; simpl; lia). clear E2. ok_bind.
  change (8 + 0) with 8. pose proof (splice_zeros l 5 e ltac:(lia)) as Es. rewrite Hl in Es. rewrite Es, app_assoc. clear Es.
  rewrite set_zeros by (rewrite length_app; lia). ok_bind.
  exists (replicate (7 - length n) 0 ++ e ++ replicate (5 - length e) 0), (replicate (4 - length e) 0). do 2 f_equal.
  - unfold l. rewrite <- !app_assoc. f_equal. by replace (8 - length n)%nat with (S (7 - length n)) by lia.
  - rewrite <- app_assoc, drop_app_length' by lia. f_equal. by replace (5 - length e)%nat with (S (4 - length e)) by lia.
Qed.

Lemma split_filename_bare n t :
  name_ok n -> zlength n <= 7 -> exists x y, split_filename (cstr n t) = Ok (cstr n x, cstr [] y).
Proof.
  intros Hn Hnl. unfold split_filename, cstr. cbn [app].
  pose proof (copy_name_spec n 8 [] 0 t (replicate 13 0) Hn (or_intror eq_refl)) as E1.
  simpl length in E1. change (Z.of_nat 0) with 0 in E1. cbn [app] in E1. rewrite E1 by (rewrite ?length_replicate; lia). clear E1. ok_bind.
  rewrite Z.add_0_l. pose proof (splice_zeros [] 13 n ltac:(lia)) as Es. cbn [app length] in Es. change (Z.of_nat 0) with 0 in Es. rewrite Es. clear Es.
  rewrite set_zeros by lia. ok_bind. rewrite (buf_get_lookup _ _ 0); [|lia|rewrite Nat2Z.id; by apply list_lookup_middle]. ok_bind.
  change (0 =? 0) with true. cbv beta iota. rewrite set_zeros by lia. ok_bind.
  exists (replicate (12 - length n) 0), (replicate 4 0). do 2 f_equal.
  - f_equal. by replace (13 - length n)%nat with (S (12 - length n)) by lia.
  - rewrite drop_app_ge, drop_replicate by lia. by replace (13 - length n - (8 - length n))%nat with 5%nat by lia.
Qed.

(** Padding with spaces. *)
Lemma pad_name_spec n x : nonul n -> forall pre k, (length n <= k)%nat ->
  pad_name k (zlength pre) (pre ++ cstr n x) = Ok (n ++ replicate (k - length n) 32).
Proof.
  induction 1 as [|c n Hc _ IH]; intros pre k Hk.
  - destruct k as [|k]; cbn [pad_name]; [done|]. rewrite (buf_get_lookup _ _ 0); [done|lia|]. rewrite Nat2Z.id. by apply list_lookup_middle.
  - destruct k as [|k]; [simpl in Hk; lia|]. cbn [pad_name]. rewrite (buf_get_lookup _ _ c); [|lia|rewrite Nat2Z.id; by apply list_lookup_middle].
    ok_bind. destruct (Z.eqb_spec c 0); [done|]. cbn [negb]. pose proof (IH (pre ++ [c]) k ltac:(simpl in Hk; lia)) as E.
    rewrite length_app, <- app_assoc in E. simpl length in E. rewrite Nat2Z.inj_add in E. change (Z.of_nat 1) with 1 in E. cbn [app] in E.
    unfold cstr in *. cbn [app]. rewrite E. ok_bind. done.
Qed.

(** ** Comparing names with listed entries *)

(** The text a buffer holds: its bytes up to the first terminator. *)
Fixpoint text (l : list Z) : list Z :=
  match l with [] => [] | c :: l => if c =? 0 then [] else c :: text l end.

Lemma text_cstr n x : nonul n -> text (cstr n x) = n.
Proof. induction 1 as [|c n Hc _ IH]; cbn; [done|]. destruct (Z.eqb_spec c 0); [done|]. by rewrite <- IH at 2. Qed.

Lemma cstr_text l : 0 ∈ l -> exists x, l = cstr (text l) x /\ nonul (text l).
Proof.
  induction l as [|c l IH]; intros Hin; [set_solver|]. cbn. destruct (Z.eqb_spec c 0) as [->|Hc].
  - exists l. split; [done|constructor].
  - destruct IH as (x & E & Hn); [set_solver|]. exists x. split; [by rewrite E at 1|by constructor].
Qed.

Definition terminated (e : fat16_dir_entry_t) : Prop := 0 ∈ filename e /\ 0 ∈ extension e.

Definition called (n e : list Z) (entry : fat16_dir_entry_t) : bool :=
  bool_decide (text (filename entry) = n /\ text (extension entry) = e).

Lemma names_equal_spec n e x y entry :
  nonul n -> nonul e -> terminated entry -> names_equal (cstr n x) (cstr e y) entry = Ok (called n e entry).
Proof.
  intros Hn He [(x' & E1 & Hn')%cstr_text (y' & E2 & He')%cstr_text]. unfold names_equal.
  assert (stdstring_compare (cstr n x) (filename entry) = Ok (lex n (text (filename entry)))) as -> by (rewrite E1 at 1; by apply compare_lex).
  assert (stdstring_compare (cstr e y) (extension entry) = Ok (lex e (text (extension entry)))) as Hc by (rewrite E2 at 1; by apply compare_lex).
  ok_bind. unfold called. destruct (Z.eqb_spec (lex n (text (filename entry))) 0) as [E|E].
  - apply lex_eq in E as En. rewrite Hc. ok_bind. f_equal. destruct (Z.eqb_spec (lex e (text (extension entry))) 0) as [Ee|Ee].
    + apply lex_eq in Ee. symmetry. by apply bool_decide_eq_true.
    + symmetry. apply bool_decide_eq_false. intros [_ <-]. apply Ee. by apply lex_eq.
  - f_equal. symmetry. apply bool_decide_eq_false. intros [<- _]. apply E. by apply lex_eq.
Qed.

Lemma first_entry_spec test f dir :
  Forall (fun entry => test entry = Ok (f entry)) dir -> first_entry test dir = Ok (head (filter (fun entry => Is_true (f entry)) dir)).
Proof.
  induction 1 as [|entry dir E _ IH]; [done|]. cbn [first_entry]. rewrite E. ok_bind. rewrite filter_cons.
  destruct (f entry); cbn; [done|by rewrite IH].
Qed.

(** What listings hold is terminated. *)
Lemma entries_terminated ss : Forall terminated (entries_of ss).
Proof.
  unfold entries_of. induction ss as [|s ss IH]; cbn [listed]; [constructor|]. destruct (_ =? 0); [constructor|]. destruct (_ =? 229); [done|].
  destruct (listed ss) as [t es]. constructor; [|done]. unfold terminated, decode. cbn. split; apply elem_of_app; right; set_solver.
Qed.

(** The text of a padded name without spaces is the name. *)
Lemma unspace_nospace n : Forall (fun c => c <> 32) n -> unspace <$> n = n.
Proof. induction 1 as [|c n Hc _ IH]; [done|]. csimpl. rewrite IH. unfold unspace. by destruct (Z.eqb_spec c 32). Qed.

Lemma text_padded n k : nonul n -> Forall (fun c => c <> 32) n -> text ((unspace <$> n ++ replicate k 32) ++ [0]) = n.
Proof.
  intros Hn Hs. rewrite fmap_app, unspace_nospace, fmap_replicate by done. change (unspace 32) with 0. destruct k as [|k].
  - rewrite app_nil_r. by apply text_cstr.
  - rewrite <- app_assoc. by apply (text_cstr n).
Qed.

Lemma split_path_spec_witness :
  split_path (cstr (bytes_of "/usr/bin") []) = Ok ([bytes_of "usr" ++ [0]; bytes_of "bin" ++ [0]], 2).
Proof. apply (split_path_spec true (bytes_of "usr") [bytes_of "bin"] []); [repeat constructor; done|done|simpl; lia]. Defined.
