(* ===== verification/Tree.v ===== *)
(** * The tree of directories

    [get_dir] and [find_file] of file.c against a reference reading of the
    volume: a directory other than the root is what the slots in the clusters
    of its chain list, and a path leads from listing to listing. *)
From S2P Require Import Prelude Mem Strings Disk Fat16 Volume Files Directory Slots Root Paths FileSys Names.

(** ** Listing the clusters of a directory *)

Lemma slot_drop b i j : 0 <= i -> 0 <= j -> slot (drop (Z.to_nat (i * 512)) b) j = slot b (16 * i + j).
Proof. intros Hi Hj. unfold slot, slice. rewrite drop_drop. do 2 f_equal. lia. Qed.

(** The slots from sector [i] on, [n] sectors of them. *)
Definition sector_slots (b : list Z) (i n : Z) : list (list Z) := slot b <$> seqZ (16 * i) (16 * n).

Lemma sector_slots_cons b i n : 0 <= n -> sector_slots b i (n + 1) = sector_slots b i 1 ++ sector_slots b (i + 1) n.
Proof.
  intros Hn. unfold sector_slots. rewrite <- fmap_app. f_equal. replace (16 * (n + 1)) with (16 * 1 + 16 * n) by lia.
  rewrite seqZ_app by lia. do 2 f_equal. lia.
Qed.

Lemma add_sector_at fs b i acc :
  bytes_per_sector fs = sector_size -> is_bytes b -> 0 <= i -> (i + 1) * 512 <= zlength b ->
  add_sector_dir_entries_to_list fs (drop (Z.to_nat (i * bytes_per_sector fs)) b) acc =
    Ok (let '(t, es) := listed (sector_slots b i 1) in (t, acc ++ es)).
Proof.
  intros Hbps Hb Hi Hl. unfold add_sector_dir_entries_to_list. rewrite Hbps. unfold sector_size. change (i16 (512 / 32)) with 16.
  rewrite list_slots_from; [|by apply Forall_drop|lia|rewrite length_drop; lia]. unfold sector_slots.
  assert ((slot (drop (Z.to_nat (i * 512)) b) <$> seqZ 0 (Z.of_nat (Z.to_nat 16))) = slot b <$> seqZ (16 * i) (16 * 1)) as ->; [|done].
  apply list_eq. intros k. rewrite !list_lookup_fmap. destruct (decide (Z.of_nat k < 16)) as [Hk|Hk].
  - rewrite !lookup_seqZ_lt by lia. cbn. f_equal. rewrite slot_drop by lia. done.
  - by rewrite !lookup_seqZ_ge by lia.
Qed.

Lemma cluster_list_spec fs b n : forall i acc,
  bytes_per_sector fs = sector_size -> is_bytes b -> 0 <= i -> (i + Z.of_nat n) * 512 <= zlength b ->
  cluster_list n i fs b acc = Ok (let '(t, es) := listed (sector_slots b i (Z.of_nat n)) in (t, acc ++ es)).
Proof.
  induction n as [|n IH]; intros i acc Hbps Hb Hi Hl; cbn [cluster_list].
  - unfold sector_slots. rewrite seqZ_nil by lia. cbn. by rewrite app_nil_r.
  - rewrite add_sector_at by (done || lia). ok_bind. replace (Z.of_nat (S n)) with (Z.of_nat n + 1) by lia.
    rewrite sector_slots_cons, listed_app by lia. destruct (listed (sector_slots b i 1)) as [[] es]; [done|].
    rewrite IH by (done || lia). destruct (listed (sector_slots b (i + 1) (Z.of_nat n))) as [t' es']. by rewrite <- app_assoc.
Qed.

(** ** Names in paths *)

(** A part of a path: a name of one to seven characters and, after a dot, an
    extension of at most three. *)
Record component := Component { cname : list Z; cext : option (list Z) }.

Definition component_text (c : component) : list Z :=
  match cext c with Some e => cname c ++ DOT :: e | None => cname c end.
Definition extension_of (c : component) : list Z := default [] (cext c).

Record component_ok (c : component) : Prop := {
  co_name : Forall (fun x => x <> 0 /\ x <> DOT /\ x <> SLASH) (cname c);
  co_ext : Forall (fun x => x <> 0 /\ x <> SLASH) (extension_of c);
  co_length : 1 <= zlength (cname c) <= 7;
  co_ext_length : zlength (extension_of c) <= 3
}.

Lemma split_component c t :
  component_ok c -> exists x y, split_filename (cstr (component_text c) t) = Ok (cstr (cname c) x, cstr (extension_of c) y).
Proof.
  intros [Hn He Hl Hel]. assert (Hnok : name_ok (cname c)) by (eapply Forall_impl; [exact Hn|]; by intros x (? & ? & _)).
  unfold component_text, extension_of in *. destruct (cext c) as [e|]; cbn in *; [|apply split_filename_bare; (done || lia)].
  apply split_filename_spec; [done|lia| |done]. eapply Forall_impl; [exact He|]. by intros x [].
Qed.

Lemma component_part c : component_ok c -> part_ok (component_text c) /\ component_text c <> [].
Proof.
  intros [Hn He Hl _]. assert (Hnp : part_ok (cname c)) by (eapply Forall_impl; [exact Hn|]; by intros x (? & _ & ?)).
  unfold component_text, extension_of in *. destruct (cext c) as [e|]; cbn in *.
  - split; [|by destruct (cname c)]. apply Forall_app. split; [done|]. by constructor.
  - split; [done|]. destruct (cname c); [simpl in Hl; lia|done].
Qed.

Definition path_text (c : component) (cs : list component) : list Z := join_path (component_text c) (component_text <$> cs).

Lemma path_parts c cs : Forall component_ok (c :: cs) -> Forall part_ok (component_text c :: (component_text <$> cs)).
Proof.
  intros [Hc Hcs]%Forall_cons. constructor; [by apply component_part|]. apply Forall_fmap. eapply Forall_impl; [exact Hcs|].
  intros x Hx. by apply component_part.
Qed.

(** The slash a path may start with. *)
Definition slash (lead : bool) : list Z := if lead then [SLASH] else [].

Lemma descend_path_spec lead c q cs t :
  Forall component_ok (c :: q :: cs) ->
  descend_path (slash lead ++ cstr (path_text c (q :: cs)) t) = Ok (slash true ++ cstr (path_text q cs) t).
Proof.
  intros Hok. pose proof (path_parts c (q :: cs) Hok) as [Hp _]%Forall_cons. apply Forall_cons in Hok as [Hc _].
  pose proof (component_part c Hc) as [_ Hne]. unfold path_text at 1. cbn [fmap list_fmap join_path]. unfold cstr at 1. rewrite <- app_assoc. cbn [app].
  set (rest := join_path _ _ ++ 0 :: t). unfold descend_path.
  assert (Hs : skip_slash (slash lead ++ component_text c ++ SLASH :: rest) = Ok (component_text c ++ SLASH :: rest)).
  { destruct lead; [done|]. cbn [slash app]. destruct (component_text c) as [|x l]; [done|]. apply Forall_cons in Hp as [[_ Hx] _].
    unfold skip_slash. cbn [app]. rewrite (buf_get_lookup _ 0 x) by done. ok_bind. by destruct (Z.eqb_spec x SLASH). }
  rewrite Hs. ok_bind. rewrite part_length_spec by (done || by left). ok_bind. rewrite Z.add_0_l, Nat2Z.id. by rewrite drop_app_length.
Qed.

(** ** Directories *)
Section Tree.
Context `{BlockDeviceLaws D} (fs : fat16_t) (N : Z).
Context (Hlay : layout fs N).
Abbreviation vol := (vol fs N).
Abbreviation turns := (Z.to_nat 65536).

Lemma cluster_listing (d : D) n buf acc :
  vol d -> valid fs N n -> zlength buf = cluster_size fs ->
  ('(cluster, d) ← load_cluster fs n buf d;
   '(terminated, result) ← cluster_list (Z.to_nat (sectors_per_cluster fs)) 0 fs cluster acc;
   Ok (terminated, cluster, result, d)) =
    Ok (let '(t, es) := listed (slots (cluster fs d n)) in (t, cluster fs d n, acc ++ es, d)).
Proof.
  intros Hv [_ Hn] Hb. rewrite (load_cluster_spec fs N Hlay) by done. ok_bind. pose proof (lay_spc _ _ Hlay) as Hspc.
  pose proof (cluster_length fs N Hlay d n Hv Hn) as Hl.
  rewrite cluster_list_spec; [|apply Hlay|by apply (cluster_bytes fs N Hlay)|lia|rewrite Hl; unfold cluster_size, sector_size; lia]. ok_bind.
  assert (sector_slots (cluster fs d n) 0 (Z.of_nat (Z.to_nat (sectors_per_cluster fs))) = slots (cluster fs d n)) as ->.
  { unfold sector_slots, slots. rewrite Hl. unfold cluster_size, sector_size. rewrite Z.mul_0_r. do 2 f_equal.
    replace (512 * sectors_per_cluster fs) with (16 * sectors_per_cluster fs * 32) by lia. rewrite Z.div_mul by lia. lia. }
  by destruct (listed (slots (cluster fs d n))).
Qed.

Lemma dir_turn_in_use (d : D) n buf acc :
  vol d -> in_use n = true -> valid fs N n -> zlength buf = cluster_size fs ->
  dir_turn fs (n, false, buf, acc, d) =
    Ok (inl (let '(t, es) := listed (slots (cluster fs d n)) in (fat fs d n, t, cluster fs d n, acc ++ es, d))).
Proof.
  intros Hv Hu Hval Hb. unfold dir_turn. rewrite Hu. cbn [negb andb]. pose proof (cluster_listing d n buf acc Hv Hval Hb) as E.
  revert E. destruct (load_cluster fs n buf d) as [[cl d1]|]; [|done]. ok_bind.
  destruct (cluster_list _ 0 fs cl acc) as [[t1 r1]|]; [|done]. ok_bind.
  destruct (listed (slots (cluster fs d n))) as [t es]. intros [= -> -> -> ->]. pose proof Hu as Hr%in_use_range.
  destruct (get_successor_spec fs N Hlay d n Hv (proj1 Hval)) as [-> _]; [lia|done].
Qed.

Lemma dir_stops (d : D) next t buf acc : in_use next && negb t = false -> dir_turn fs (next, t, buf, acc, d) = Ok (inr (acc, d)).
Proof. intros E. unfold dir_turn. by rewrite E. Qed.

Lemma slots_chain (d : D) n ns : vol d -> valid fs N n -> slots (chain_bytes fs d (n :: ns)) = slots (cluster fs d n) ++ slots (chain_bytes fs d ns).
Proof.
  intros Hv [_ Hn]. unfold chain_bytes. cbn. apply (slots_app _ _ (16 * sectors_per_cluster fs)).
  rewrite (cluster_length fs N Hlay d n Hv Hn). unfold cluster_size, sector_size. lia.
Qed.

Lemma dir_loop (d : D) ns next : chain fs N d next ns -> vol d -> forall buf acc fuel,
  zlength buf = cluster_size fs -> (length ns < fuel)%nat ->
  while_loop fuel (dir_turn fs) (next, false, buf, acc, d) = Ok (acc ++ entries_of (slots (chain_bytes fs d ns)), d).
Proof.
  intros Hc Hv. induction Hc as [next He|n ns Hu Hval Hc IH]; intros buf acc fuel Hb Hf; (destruct fuel as [|fuel]; [simpl in Hf; lia|]); rewrite while_loop_S.
  - rewrite dir_stops by (unfold in_use; lia). cbn. by rewrite app_nil_r.
  - rewrite dir_turn_in_use by done. ok_bind. rewrite slots_chain by done. unfold entries_of. rewrite listed_app.
    destruct (listed (slots (cluster fs d n))) as [[] es].
    + destruct fuel as [|fuel]; [simpl in Hf; lia|]. rewrite while_loop_S, dir_stops; [done|apply andb_false_r].
    + rewrite IH; [|apply (cluster_length fs N Hlay); [done|apply Hval]|simpl in Hf; lia]. unfold entries_of.
      destruct (listed (slots (chain_bytes fs d ns))). by rewrite <- app_assoc.
Qed.

Definition is_dir (e : fat16_dir_entry_t) : bool := is_subdirectory (unpack_file_attributes (attributes e)).

(** What a directory of the volume holds. *)
Definition holds_entries (d : D) (e : fat16_dir_entry_t) (es : list fat16_dir_entry_t) : Prop :=
  is_dir e = true /\ exists ns, chain fs N d (first_cluster e) ns /\ es = entries_of (slots (chain_bytes fs d ns)).

Lemma get_dir_spec (d : D) e es : vol d -> holds_entries d e es -> get_dir turns fs e d = Ok (Some es, d).
Proof.
  intros Hv (He & ns & Hc & ->). unfold get_dir. unfold is_dir in He. rewrite He. cbn [negb].
  rewrite (dir_loop d ns _ Hc Hv); [done| |by eapply chain_length]. unfold fresh. rewrite length_replicate.
  rewrite (lay_bps _ _ Hlay). unfold cluster_size. pose proof (lay_spc _ _ Hlay). unfold sector_size. lia.
Qed.
(** ** Following a path *)

(** What passes for directory [c] on the way. *)
Definition way (c : component) (e : fat16_dir_entry_t) : bool := is_dir e && called (cname c) (extension_of c) e.

(** The path of [c] and then [cs] leads from the listing [es] to [r]: through
    the one subdirectory of each name, to the first entry of the last name. *)
Inductive leads (d : D) : list fat16_dir_entry_t -> component -> list component -> option fat16_dir_entry_t -> Prop :=
| leads_here es c : leads d es c [] (head (filter (fun e => Is_true (called (cname c) (extension_of c) e)) es))
| leads_nowhere es c q cs : Forall (fun e => way c e = false) es -> leads d es c (q :: cs) None
| leads_down pre x post sub c q cs r :
    way c x = true -> Forall (fun e => way c e = false) pre -> Forall (fun e => way c e = false) post ->
    holds_entries d x sub -> leads d sub q cs r -> leads d (pre ++ x :: post) c (q :: cs) r.

Lemma descend_skip test f search pre l result (d : D) :
  Forall (fun e => test e = Ok (f e)) pre -> Forall (fun e => is_dir e && f e = false) pre ->
  descend_into turns fs test search (pre ++ l) result d = descend_into turns fs test search l result d.
Proof.
  intros Ht Hn. induction pre as [|e pre IH]; [done|]. apply Forall_cons in Ht as [He Ht]. apply Forall_cons in Hn as [Hf Hn].
  cbn [app descend_into]. unfold is_dir in Hf. destruct (is_subdirectory _); [|by apply IH]. cbn in Hf. rewrite He, Hf. ok_bind. by apply IH.
Qed.

Lemma descend_stop test f search l result (d : D) :
  Forall (fun e => test e = Ok (f e)) l -> Forall (fun e => is_dir e && f e = false) l ->
  descend_into turns fs test search l result d = Ok (result, d).
Proof. intros Ht Hn. rewrite <- (app_nil_r l). by rewrite (descend_skip test f). Qed.

Lemma descend_one test f search pre x post sub r (d : D) :
  vol d -> Forall (fun e => test e = Ok (f e)) (pre ++ x :: post) -> is_dir x && f x = true ->
  Forall (fun e => is_dir e && f e = false) pre -> Forall (fun e => is_dir e && f e = false) post ->
  holds_entries d x sub -> search sub d = Ok (r, d) ->
  descend_into turns fs test search (pre ++ x :: post) None d = Ok (r, d).
Proof.
  intros Hv [Htpre [Htx Htpost]%Forall_cons]%Forall_app [Hd Hf]%andb_prop Hpre Hpost Hsub Hs.
  rewrite (descend_skip test f) by done. cbn [descend_into]. unfold is_dir in Hd. rewrite Hd, Htx. ok_bind. rewrite Hf.
  rewrite (get_dir_spec d x sub) by done. ok_bind. rewrite Hs. ok_bind. by apply (descend_stop test f).
Qed.

(** The last part. *)
Fixpoint final (c : component) (cs : list component) : component :=
  match cs with [] => c | q :: cs => final q cs end.

Lemma path_length c cs :
  Forall component_ok (c :: cs) -> 2 <= zlength (component_text (final c cs)) -> 2 <= zlength (path_text c cs).
Proof.
  intros Hok Hl. destruct cs as [|q cs]; [done|]. apply Forall_cons in Hok as [Hc [Hq _]%Forall_cons].
  pose proof (component_part c Hc) as [_ H1]. unfold path_text. cbn [fmap list_fmap join_path]. rewrite length_app. cbn [length].
  destruct (component_text c); [done|]. cbn [length]. lia.
Qed.

(** One call of [find_file], up to the next. *)
Lemma find_file_call (d : D) lead es c cs t depth :
  Forall component_ok (c :: cs) -> 2 <= zlength (component_text (final c cs)) -> zlength (path_text c cs) < 2 ^ 31 ->
  exists test, (forall e, terminated e -> test e = Ok (called (cname c) (extension_of c) e)) /\
    find_file turns fs (S depth) (slash lead ++ cstr (path_text c cs) t) es d =
      match cs with
      | [] => file ← first_entry test es; Ok (file, d)
      | q :: cs => descend_into turns fs test (find_file turns fs depth (slash true ++ cstr (path_text q cs) t)) es None d
      end.
Proof.
  intros Hok Hlast Hlen. pose proof Hok as [Hc _]%Forall_cons. destruct (split_component c [] Hc) as (a & b & Es).
  exists (names_equal (cstr (cname c) a) (cstr (extension_of c) b)). split.
  { intros e He. apply names_equal_spec; [| |done]; (eapply Forall_impl; [apply Hc|]; by intros y []). }
  pose proof (split_path_eq lead _ _ t (path_parts c cs Hok) (proj2 (component_part c Hc)) (conj (path_length c cs Hok Hlast) Hlen)) as E.
  cbn [find_file]. change (slash lead ++ cstr (path_text c cs) t) with ((if lead then [SLASH] else []) ++ cstr (join_path (component_text c) (component_text <$> cs)) t).
  rewrite E. ok_bind. cbn [fmap list_fmap]. ok_bind. unfold cstr at 1 in Es. rewrite Es. ok_bind. destruct cs as [|q cs]; [done|].
  assert (Hgt : (1 + zlength (component_text <$> q :: cs) >? 1) = true) by (apply Z.gtb_lt; rewrite length_fmap; cbn [length]; lia).
  rewrite Hgt.
  pose proof (descend_path_spec lead c q cs t Hok) as Ed. unfold slash at 1 in Ed. unfold path_text at 1 in Ed. by rewrite Ed.
Qed.

(** Whatever the depth of the tree, [find_file] gives the
    entry the path leads to: it reads every directory on the way from the
    clusters of its chain, and leaves the disk as it was. A depth of one for
    each part of the path is enough, and 65536 turns are for each directory. *)
Lemma find_file_eq (d : D) lead es c cs r t depth :
  vol d -> Forall component_ok (c :: cs) -> Forall terminated es -> leads d es c cs r ->
  2 <= zlength (component_text (final c cs)) -> zlength (path_text c cs) < 2 ^ 31 -> (length cs < depth)%nat ->
  find_file turns fs depth (slash lead ++ cstr (path_text c cs) t) es d = Ok (r, d).
Proof.
  intros Hv Hok Hes Hl. revert lead t depth Hok Hes. induction Hl as [es c|es c q cs Hno|pre x post sub c q cs r Hx Hpre Hpost Hsub Hl IH];
    intros lead t depth Hok Hes Hlast Hlen Hd; (destruct depth as [|depth]; [lia|]).
  - destruct (find_file_call d lead es c [] t depth Hok Hlast Hlen) as (test & Ht & ->).
    rewrite (first_entry_spec test (called (cname c) (extension_of c))); [done|]. by eapply Forall_impl.
  - destruct (find_file_call d lead es c (q :: cs) t depth Hok Hlast Hlen) as (test & Ht & ->).
    apply (descend_stop test (called (cname c) (extension_of c))); [by eapply Forall_impl|done].
  - destruct (find_file_call d lead (pre ++ x :: post) c (q :: cs) t depth Hok Hlast Hlen) as (test & Ht & ->).
    apply (descend_one test (called (cname c) (extension_of c)) _ pre x post sub); try done; [by eapply Forall_impl|].
    destruct Hsub as (_ & ns & _ & Hsub). apply Forall_cons in Hok as [Hc Hok].
    apply IH; [done|rewrite Hsub; apply entries_terminated|exact Hlast| |simpl in Hd; lia].
    revert Hlen. unfold path_text. cbn [fmap list_fmap join_path]. rewrite length_app. cbn [length]. lia.
Qed.
(** The table of open files with one more. *)
Definition opened_at (e : fat16_dir_entry_t) (p : Z) (f : files) : files :=
  with_open_files (open_files f ++ [OpenFile (next_fd f) e p 0 false]) (with_next_fd (i32 (next_fd f + 1)) f).

Lemma open_file_eq (f : files) (d : D) mem p c cs r t depth :
  root_layout fs N -> FileSys.fs f = fs -> vol d -> mem p = cstr (SLASH :: path_text c cs) t ->
  Forall component_ok (c :: cs) -> 2 <= zlength (component_text (final c cs)) -> zlength (path_text c cs) < 2 ^ 31 -> (length cs < depth)%nat ->
  leads d (entries_of (root_slots fs d)) c cs r ->
  open_file turns depth mem p f d =
    Ok (match r with Some e => (Some (length (open_files f)), opened_at e p f, d) | None => (None, f, d) end).
Proof.
  intros Hroot Hfs Hv Hp Hok Hlast Hlen Hd Hl. unfold open_file. rewrite Hfs, (get_root_dir_eq fs N Hroot) by done. ok_bind. rewrite Hp.
  rewrite (buf_get_lookup _ 0 SLASH) by done. ok_bind. cbn [negb]. pose proof (path_length c cs Hok Hlast) as H2.
  pose proof (join_nonul _ _ (path_parts c cs Hok)) as Hn. fold (path_text c cs) in Hn. destruct (path_text c cs) as [|x l] eqn:Ex; [simpl in H2; lia|].
  rewrite (buf_get_lookup _ 1 x) by done. ok_bind. apply Forall_cons in Hn as [Hx _]. destruct (Z.eqb_spec x 0); [done|].
  pose proof (find_file_eq d false (entries_of (root_slots fs d)) c cs r t depth Hv Hok (entries_terminated _) Hl Hlast) as E.
  rewrite Ex in E. change (drop 1 (cstr (SLASH :: x :: l) t)) with (slash false ++ cstr (x :: l) t). rewrite E by done. ok_bind. by destruct r.
Qed.

(** C6 (functional): opening the file at an absolute path of any depth, each
    part of it with one to seven characters and at most three after a dot, the
    last part at least two in all. [open_file] reads the root directory and
    every directory on the way from the clusters of its chain, gives the entry
    the path leads to the next descriptor, at position 0, and gives [NULL],
    changing nothing, when the path leads nowhere. The disk is as before. A
    depth of one for each part of the path is enough, and 65536 turns are for
    each directory. *)
Theorem open_file_spec (f : files) (d : D) mem p c cs r t depth :
  root_layout fs N -> FileSys.fs f = fs -> vol d -> mem p = cstr (SLASH :: path_text c cs) t ->
  Forall component_ok (c :: cs) -> 2 <= zlength (component_text (final c cs)) -> zlength (path_text c cs) < 2 ^ 31 -> (length cs < depth)%nat ->
  leads d (entries_of (root_slots fs d)) c cs r ->
  open_file turns depth mem p f d =
    Ok (match r with Some e => (Some (length (open_files f)), opened_at e p f, d) | None => (None, f, d) end).
Proof. apply open_file_eq. Qed.
End Tree.

(** ** At work: a file in a directory of the root directory *)
Definition story_slot : list Z := bytes_of "ASTORY  TXT" ++ [32] ++ replicate 14 0 ++ [3; 0; 10; 0; 0; 0].
Definition subdir_slot : list Z := bytes_of "SUBDIR     " ++ [16] ++ replicate 14 0 ++ [2; 0; 0; 0; 0; 0].
Definition tree_blocks : list (list Z) :=
  [replicate 512 0; x ← [65528] ++ replicate 255 65535; [x mod 256; x / 256]; subdir_slot ++ replicate 480 0;
   story_slot ++ replicate 480 0; replicate 512 3; replicate 512 4; replicate 512 5; replicate 512 6].
Definition tree_vol : ram_disk := RamDisk tree_blocks.
Definition story : fat16_dir_entry_t := DirEntry (bytes_of "ASTORY" ++ [0; 0; 0]) (bytes_of "TXT" ++ [0]) 32 3 10.

Lemma tree_vol_ok : vol demo_fs 8 tree_vol.
Proof.
  assert (Hb : Forall (fun b => zlength b = sector_size /\ is_bytes b) tree_blocks) by (apply (bool_decide_unpack _); by vm_compute).
  split; [exact Hb|split; [done|]]. vm_compute. discriminate.
Qed.

Definition subdir : component := Component (bytes_of "SUBDIR") None.
Definition astory : component := Component (bytes_of "ASTORY") (Some (bytes_of "TXT")).

Lemma tree_leads : leads demo_fs 8 tree_vol (entries_of (root_slots demo_fs tree_vol)) subdir [astory] (Some story).
Proof.
  assert (entries_of (root_slots demo_fs tree_vol) = [DirEntry (bytes_of "SUBDIR" ++ [0; 0; 0]) [0; 0; 0; 0] 16 2 0]) as -> by by vm_compute.
  apply (leads_down _ _ tree_vol [] _ [] [story]); [by vm_compute|constructor|constructor| |].
  - split; [done|]. exists [2]. split; [|by vm_compute]. apply (chain_by_value _ 2 65535); [by vm_compute|lia|by constructor].
  - assert (E : head (filter (fun e => Is_true (called (cname astory) (extension_of astory) e)) [story]) = Some story) by by vm_compute.
    rewrite <- E. constructor.
Qed.

Definition tree_files : files := Files demo_fs 3 [] [] [] [] [].

Lemma open_file_spec_witness :
  open_file (Z.to_nat 65536) 2 (fun _ => bytes_of "/SUBDIR/ASTORY.TXT" ++ [0]) 7 tree_files tree_vol =
    Ok (Some O, opened_at story 7 tree_files, tree_vol).
Proof.
  apply (open_file_spec demo_fs 8 demo_layout tree_files tree_vol (fun _ => bytes_of "/SUBDIR/ASTORY.TXT" ++ [0]) 7 subdir [astory] (Some story) [] 2
    demo_root_layout eq_refl tree_vol_ok eq_refl); [|by vm_compute|by vm_compute|by vm_compute; lia|exact tree_leads].
  repeat constructor; cbn; (lia || done).
Defined.
