(* ===== verification/Debug.v ===== *)
(** * The debug printers

    [debug_process_list], [debug_event_list] and [debug_priority] of
    scheduler.c, [debug_file_list] of file_debug.c and [debug_message_list] of
    ipc.c each format a list of the kernel's state into a static buffer, a call
    of [stdstring_append] at a time; [debug_fs] of file.c walks a volume,
    [read_file] and [write_file] call the system calls. The
    buffer is passed in as the last call left it. One law of printing, with its
    overflow, serves all the printers. *)
From S2P Require Import Prelude Mem Strings Scheduler Disk Fat16 Directory FileSys Names Ipc.

Abbreviation lit s := (cstr (bytes_of s) []).

(** ** scheduler.c *)
Definition running : list Z := lit "RUNNING".
Definition ready : list Z := lit "READY".
Definition blocked : list Z := lit "BLOCKED".
Definition terminated : list Z := lit "TERMINATED".
Definition exited : list Z := lit "EXITED".
Definition suspended : list Z := lit "SUSPENDED".
Definition unsuspended : list Z := lit "UNSUSPENDED".
Definition unblocked : list Z := lit "UNBLOCKED".
Definition created : list Z := lit "CREATED".

Definition append_status (status : Z) (result : list Z) (result_index : Z) : outcome (list Z * Z) :=
  if status =? PROCESS_STATUS_RUNNING then stdstring_append result result_index running
  else if status =? PROCESS_STATUS_READY then stdstring_append result result_index ready
  else if status =? PROCESS_STATUS_BLOCKED then stdstring_append result result_index blocked
  else if status =? PROCESS_STATUS_TERMINATED then stdstring_append result result_index terminated
  else Ok (result, result_index).

Fixpoint debug_process_loop (result : list Z) (result_index : Z) (tmp : list Z) (items : list pcb_t) : outcome (list Z * Z) :=
  match items with
  | [] => Ok (result, result_index)
  | item :: items =>
      tmp ← stdstring_int_to_str (pid item) tmp;
      '(result, result_index) ← stdstring_append result result_index (lit "{");
      '(result, result_index) ← stdstring_append result result_index tmp;
      '(result, result_index) ← stdstring_append result result_index (lit ", ");
      '(result, result_index) ← append_status (status item) result result_index;
      '(result, result_index) ← stdstring_append result result_index (lit "} ");
      debug_process_loop result result_index tmp items
  end.

Definition debug_process_list (debug_result : list Z) (s : sched) : outcome (list Z) :=
  '(result, result_index) ← stdstring_append debug_result 0 (lit "Processes: ");
  '(result, result_index) ← debug_process_loop result result_index (replicate 15 0) (process_list s);
  Ok result.

Definition append_event (event : Z) (result : list Z) (result_index : Z) : outcome (list Z * Z) :=
  if event =? PROCESS_EVENT_EXITED then stdstring_append result result_index exited
  else if event =? PROCESS_EVENT_SUSPENDED then stdstring_append result result_index suspended
  else if event =? PROCESS_EVENT_UNSUSPENDED then stdstring_append result result_index unsuspended
  else if event =? PROCESS_EVENT_BLOCKED then stdstring_append result result_index blocked
  else if event =? PROCESS_EVENT_UNBLOCKED then stdstring_append result result_index unblocked
  else if event =? PROCESS_EVENT_CREATED then stdstring_append result result_index created
  else Ok (result, result_index).

Fixpoint debug_event_loop (result : list Z) (result_index : Z) (tmp : list Z) (items : list event_t) : outcome (list Z * Z) :=
  match items with
  | [] => Ok (result, result_index)
  | item :: items =>
      '(result, result_index) ← stdstring_append result result_index (lit "{");
      '(result, result_index) ← append_event (event item) result result_index;
      '(result, result_index) ← stdstring_append result result_index (lit ", ");
      tmp ← stdstring_int_to_str (from_process item) tmp;
      '(result, result_index) ← stdstring_append result result_index tmp;
      '(result, result_index) ← stdstring_append result result_index (lit "} ");
      debug_event_loop result result_index tmp items
  end.

Definition debug_event_list (debug_result : list Z) (s : sched) : outcome (list Z) :=
  '(result, result_index) ← stdstring_append debug_result 0 (lit "Events: ");
  '(result, result_index) ← debug_event_loop result result_index (replicate 15 0) (events_head s);
  Ok result.

Fixpoint debug_pid_loop (result : list Z) (result_index : Z) (tmp : list Z) (items : list Z) : outcome (list Z * Z) :=
  match items with
  | [] => Ok (result, result_index)
  | item :: items =>
      tmp ← stdstring_int_to_str item tmp;
      '(result, result_index) ← stdstring_append result result_index (lit "{");
      '(result, result_index) ← stdstring_append result result_index tmp;
      '(result, result_index) ← stdstring_append result result_index (lit "} ");
      debug_pid_loop result result_index tmp items
  end.

(** The buffer and, when it is not the buffer, the string returned. *)
Definition debug_priority (debug_result : list Z) (priority : Z) (s : sched) : outcome (list Z * option (list Z)) :=
  '(result, result_index) ← stdstring_append debug_result 0 (lit "Priority queue: ");
  if priority =? 0 then
    '(result, result_index) ← debug_pid_loop result result_index (replicate 15 0) (high_priority_queue s);
    Ok (result, None)
  else if priority =? 1 then
    '(result, result_index) ← debug_pid_loop result result_index (replicate 15 0) (low_priority_queue s);
    Ok (result, None)
  else Ok (result, Some (lit "")).

(** ** file_debug.c *)
Fixpoint debug_file_loop (mem : Z -> list Z) (result : list Z) (result_index : Z) (tmp : list Z) (items : list open_file_t)
  : outcome (list Z * Z) :=
  match items with
  | [] => Ok (result, result_index)
  | item :: items =>
      tmp ← stdstring_int_to_str (fd item) tmp;
      '(result, result_index) ← stdstring_append result result_index (lit "{ fd: ");
      '(result, result_index) ← stdstring_append result result_index tmp;
      '(result, result_index) ← stdstring_append result result_index (lit ", ofst: ");
      tmp ← stdstring_int_to_str (offset item) tmp;
      '(result, result_index) ← stdstring_append result result_index tmp;
      '(result, result_index) ← stdstring_append result result_index (lit ", size: ");
      tmp ← stdstring_int_to_str (i32 (file_size_bytes (directory_entry item))) tmp;
      '(result, result_index) ← stdstring_append result result_index tmp;
      '(result, result_index) ← stdstring_append result result_index (lit ", pth: ");
      '(result, result_index) ← stdstring_append result result_index (mem (path item));
      '(result, result_index) ← stdstring_append result result_index (lit "} ");
      debug_file_loop mem result result_index tmp items
  end.

Definition debug_file_list (mem : Z -> list Z) (debug_result : list Z) (f : files) : outcome (list Z) :=
  '(result, result_index) ← stdstring_append debug_result 0 (lit "Files: ");
  '(result, result_index) ← debug_file_loop mem result result_index (replicate 15 0) (open_files f);
  Ok result.

(** [read_file] gives back its buffer and drops the count, errors included. *)
Definition read_file `{BlockDevice D} (turns : nat) (n nbytes : Z) (f : files) (d : D) : outcome (list Z * files * D) :=
  '(_, buf, f, d) ← sys_read turns n (fresh (u32 nbytes)) (u32 nbytes) f d;
  Ok (buf, f, d).

Definition write_file `{BlockDevice D} (turns depth : nat) (mem : Z -> list Z) (n : Z) (buf : list Z) (nbytes : Z) (console : list Z)
    (f : files) (d : D) : outcome (Z * list Z * files * D) :=
  sys_write turns depth mem n buf (u32 nbytes) console f d.

(** [debug_fs] of file.c, which looks at the volume and keeps nothing; [find]
    stops where the loop breaks, and a loop that does not break leaves [NULL]. *)
Definition debug_fs `{BlockDevice D} (fuel : nat) (d : D) : outcome D :=
  '(fs, d) ← inspect_file_system d;
  '(root_dir, d) ← get_root_dir fs d;
  first_entry ← deref_opt (head root_dir);
  '(_, _, d) ← load_file fuel fs first_entry d;
  directory_entry ← deref_opt (List.find (fun e => is_subdirectory (unpack_file_attributes (attributes e))) root_dir);
  '(subdirectory, d) ← get_dir fuel fs directory_entry d;
  _ ← deref_opt subdirectory;
  Ok d.

(** ** Printing *)

(** What printing [t] at the start of [dest] amounts to. *)
Definition printing (dest t : list Z) : outcome (list Z * Z) :=
  if decide (zlength t < zlength dest) then Ok (splice dest 0 (t ++ [0]), zlength t) else Err OutOfBounds.

Lemma append_loop_over dest di s u si :
  nonul s -> 0 <= di -> 0 <= si -> zlength dest <= di + si + zlength s ->
  append_loop dest di (cstr s u) si = Err OutOfBounds.
Proof.
  revert dest si; induction s as [|c s IH]; intros dest si Hs Hdi Hsi Hl; cbn -[buf_set].
  - rewrite buf_set_full; [done|]. cbn [length] in Hl. lia.
  - apply Forall_cons in Hs as [Hc Hs]. destruct (Z.eqb_spec c 0); [done|]. cbn [length] in Hl.
    destruct (decide (di + si < zlength dest)) as [Hin|Hout]; [|by rewrite buf_set_full by lia].
    rewrite buf_set_Ok by lia. ok_bind. apply IH; [done|lia|lia|rewrite length_insert; lia].
Qed.

Lemma append_over dest di s u :
  nonul s -> 0 <= di -> zlength dest <= di + zlength s -> stdstring_append dest di (cstr s u) = Err OutOfBounds.
Proof. intros. apply append_loop_over; (done || lia). Qed.

Lemma append_first dest s u : nonul s -> stdstring_append dest 0 (cstr s u) = printing dest s.
Proof.
  intros Hs. unfold printing. destruct (decide _); [|apply append_over; (done || lia)].
  rewrite append_eq by (done || lia). by rewrite Z.add_0_l.
Qed.

(** One more string. *)
Lemma printing_append {A} dest t s u (k : list Z * Z -> outcome A) :
  nonul s ->
  (printing dest t ≫= fun '(result, i) => stdstring_append result i (cstr s u) ≫= k) = printing dest (t ++ s) ≫= k.
Proof.
  intros Hs. unfold printing. rewrite length_app, Nat2Z.inj_add. destruct (decide (zlength t < zlength dest)) as [Ht|Ht].
  2: { by rewrite decide_False by lia. }
  ok_bind. assert (Hl : zlength (splice dest 0 (t ++ [0])) = zlength dest).
  { rewrite splice_length; [done|lia|]. rewrite length_app. cbn [length]. lia. }
  destruct (decide _) as [Hts|Hts].
  - rewrite append_eq by (done || lia). ok_bind.
    assert (splice (splice dest 0 (t ++ [0])) (zlength t) (s ++ [0]) = splice dest 0 ((t ++ s) ++ [0])) as ->; [|done].
    rewrite <- (app_assoc t). apply list_eq. intros i.
    rewrite !lookup_splice; rewrite ?splice_length, ?length_app; cbn [length]; rewrite ?length_app; cbn [length]; try lia.
    repeat case_decide; try lia; try done.
    + rewrite (lookup_app_r t) by lia. f_equal. lia.
    + rewrite (lookup_app_l t [0]), (lookup_app_l t (s ++ [0])) by lia. done.
  - rewrite append_over by (done || lia). done.
Qed.

(** A conversion on the way. *)
Lemma printing_pure {A B} dest t (x : outcome B) v (k : list Z -> Z -> B -> outcome A) :
  x = Ok v ->
  (printing dest t ≫= fun '(result, i) => x ≫= fun b => k result i b) = printing dest t ≫= fun '(result, i) => k result i v.
Proof. intros ->. by destruct (printing dest t) as [[]|]. Qed.

Definition printable (n : Z) : Prop := - 2 ^ 31 < n < 2 ^ 31.

(** A number, converted in a buffer of 15 bytes. *)
Definition converted (n : Z) (tmp : list Z) : list Z := cstr (decimal n) (drop (S (length (decimal n))) tmp).

Lemma converted_length n tmp : printable n -> zlength tmp = 15 -> zlength (converted n tmp) = 15.
Proof.
  intros Hn Ht. pose proof (decimal_length n Hn). unfold converted, cstr. rewrite length_app. cbn [length]. rewrite length_drop. lia.
Qed.

Lemma printing_number {A} dest t n tmp (k : list Z -> Z -> list Z -> outcome A) :
  printable n -> zlength tmp = 15 ->
  (printing dest t ≫= fun '(result, i) => stdstring_int_to_str n tmp ≫= fun b => k result i b) =
    printing dest t ≫= fun '(result, i) => k result i (converted n tmp).
Proof.
  intros Hn Ht. apply printing_pure. pose proof (decimal_length n Hn). rewrite int_to_str_eq by done. by rewrite decide_True by lia.
Qed.

Lemma decimal_nonul n : nonul (decimal n).
Proof.
  apply Forall_app. split; [destruct (n <? 0); by repeat constructor|]. apply Forall_reverse.
  eapply Forall_impl; [apply lsd_digits_range|]. simpl. lia.
Qed.

Lemma printing_converted {A} dest t n tmp (k : list Z * Z -> outcome A) :
  (printing dest t ≫= fun '(result, i) => stdstring_append result i (converted n tmp) ≫= k) = printing dest (t ++ decimal n) ≫= k.
Proof. apply printing_append, decimal_nonul. Qed.

(** ** What each printer writes *)
Definition status_text (status : Z) : list Z :=
  if status =? PROCESS_STATUS_RUNNING then bytes_of "RUNNING"
  else if status =? PROCESS_STATUS_READY then bytes_of "READY"
  else if status =? PROCESS_STATUS_BLOCKED then bytes_of "BLOCKED"
  else if status =? PROCESS_STATUS_TERMINATED then bytes_of "TERMINATED" else [].

Definition event_text (event : Z) : list Z :=
  if event =? PROCESS_EVENT_EXITED then bytes_of "EXITED"
  else if event =? PROCESS_EVENT_SUSPENDED then bytes_of "SUSPENDED"
  else if event =? PROCESS_EVENT_UNSUSPENDED then bytes_of "UNSUSPENDED"
  else if event =? PROCESS_EVENT_BLOCKED then bytes_of "BLOCKED"
  else if event =? PROCESS_EVENT_UNBLOCKED then bytes_of "UNBLOCKED"
  else if event =? PROCESS_EVENT_CREATED then bytes_of "CREATED" else [].

Definition braces (l : list Z) : list Z := bytes_of "{" ++ l ++ bytes_of "} ".
Definition comma : list Z := bytes_of ", ".

Definition process_text (p : pcb_t) : list Z := braces (decimal (pid p) ++ comma ++ status_text (status p)).
Definition event_item_text (e : event_t) : list Z := braces (event_text (event e) ++ comma ++ decimal (from_process e)).
Definition file_text (mem : Z -> list Z) (o : open_file_t) : list Z :=
  bytes_of "{ fd: " ++ decimal (fd o) ++ bytes_of ", ofst: " ++ decimal (offset o) ++
    bytes_of ", size: " ++ decimal (i32 (file_size_bytes (directory_entry o))) ++ bytes_of ", pth: " ++ text (mem (path o)) ++ bytes_of "} ".
Definition message_text (m : tailq_message_t) : list Z :=
  braces (decimal (from m) ++ bytes_of "->" ++ decimal (to m) ++ comma ++ text (content m)).

(** The buffer after [t] was printed into it. *)
Definition printed (dest t : list Z) : outcome (list Z) :=
  if decide (zlength t < zlength dest) then Ok (splice dest 0 (t ++ [0])) else Err OutOfBounds.

Lemma printing_done {A} dest t (g : list Z -> A) :
  (printing dest t ≫= fun '(result, _) => Ok (g result)) = r ← printed dest t; Ok (g r).
Proof. unfold printing, printed. by destruct (decide _). Qed.

Lemma printed_Ok dest t : (r ← printed dest t; Ok r) = printed dest t.
Proof. by destruct (printed dest t). Qed.

Lemma printing_nil_r {A} dest t (k : list Z * Z -> outcome A) : (printing dest t ≫= fun '(result, i) => Ok (result, i) ≫= k) = printing dest (t ++ []) ≫= k.
Proof. rewrite app_nil_r. by destruct (printing dest t) as [[]|]. Qed.

Lemma mjoin_cons (x : list Z) l : mjoin (x :: l) = x ++ mjoin l.
Proof. done. Qed.

Ltac print_literal := rewrite printing_append by (apply (bool_decide_unpack _); by vm_compute).
Ltac next_item := rewrite fmap_cons, mjoin_cons; unfold braces, comma; by rewrite <- !app_assoc.

Lemma printing_status {A} dest t st (k : list Z * Z -> outcome A) :
  (printing dest t ≫= fun '(result, i) => append_status st result i ≫= k) = printing dest (t ++ status_text st) ≫= k.
Proof. unfold append_status, status_text. repeat case_match; try (apply printing_append; apply (bool_decide_unpack _); by vm_compute). apply printing_nil_r. Qed.

Lemma printing_event {A} dest t e (k : list Z * Z -> outcome A) :
  (printing dest t ≫= fun '(result, i) => append_event e result i ≫= k) = printing dest (t ++ event_text e) ≫= k.
Proof. unfold append_event, event_text. repeat case_match; try (apply printing_append; apply (bool_decide_unpack _); by vm_compute). apply printing_nil_r. Qed.

Lemma printing_stop dest t : (printing dest t ≫= fun '(result, i) => Ok (result, i)) = printing dest t.
Proof. by destruct (printing dest t) as [[]|]. Qed.

Ltac tmp_length := repeat (apply converted_length; [done|]); done.

Lemma process_loop_spec dest items t tmp :
  Forall (fun p => printable (pid p)) items -> zlength tmp = 15 ->
  (printing dest t ≫= fun '(result, i) => debug_process_loop result i tmp items) = printing dest (t ++ mjoin (process_text <$> items)).
Proof.
  revert t tmp; induction items as [|p items IH]; intros t tmp Hp Ht; cbn [debug_process_loop]; [by rewrite app_nil_r, printing_stop|].
  apply Forall_cons in Hp as [Hp Hps]. rewrite printing_number by done. cbv beta. print_literal. rewrite printing_converted. print_literal. rewrite printing_status. print_literal.
  rewrite IH; [|done|tmp_length]. unfold process_text. next_item.
Qed.

Lemma event_loop_spec dest items t tmp :
  Forall (fun e => printable (from_process e)) items -> zlength tmp = 15 ->
  (printing dest t ≫= fun '(result, i) => debug_event_loop result i tmp items) = printing dest (t ++ mjoin (event_item_text <$> items)).
Proof.
  revert t tmp; induction items as [|e items IH]; intros t tmp Hp Ht; cbn [debug_event_loop]; [by rewrite app_nil_r, printing_stop|].
  apply Forall_cons in Hp as [Hp Hps]. print_literal. rewrite printing_event. print_literal. rewrite printing_number by done. cbv beta.
  rewrite printing_converted. print_literal. rewrite IH; [|done|tmp_length]. unfold event_item_text. next_item.
Qed.

Lemma pid_loop_spec dest items t tmp :
  Forall printable items -> zlength tmp = 15 ->
  (printing dest t ≫= fun '(result, i) => debug_pid_loop result i tmp items) = printing dest (t ++ mjoin ((fun p => braces (decimal p)) <$> items)).
Proof.
  revert t tmp; induction items as [|p items IH]; intros t tmp Hp Ht; cbn [debug_pid_loop]; [by rewrite app_nil_r, printing_stop|].
  apply Forall_cons in Hp as [Hp Hps]. rewrite printing_number by done. cbv beta. print_literal. rewrite printing_converted. print_literal.
  rewrite IH; [|done|tmp_length]. next_item.
Qed.

(** A string in memory, up to its terminator. *)
Lemma printing_string {A} dest t s (k : list Z * Z -> outcome A) :
  0 ∈ s -> (printing dest t ≫= fun '(result, i) => stdstring_append result i s ≫= k) = printing dest (t ++ text s) ≫= k.
Proof.
  intros Hs. destruct (cstr_text s Hs) as (u & E & Hn). by rewrite <- (printing_append dest t (text s) u k Hn), <- E.
Qed.

Lemma file_loop_spec mem dest items t tmp :
  Forall (fun o => printable (fd o) /\ printable (offset o) /\ printable (i32 (file_size_bytes (directory_entry o))) /\ 0 ∈ mem (path o)) items ->
  zlength tmp = 15 ->
  (printing dest t ≫= fun '(result, i) => debug_file_loop mem result i tmp items) = printing dest (t ++ mjoin (file_text mem <$> items)).
Proof.
  revert t tmp; induction items as [|o items IH]; intros t tmp Hp Ht; cbn [debug_file_loop]; [by rewrite app_nil_r, printing_stop|].
  apply Forall_cons in Hp as [(Hfd & Hofs & Hsize & Hpath) Hps].
  rewrite printing_number by done. cbv beta. print_literal. rewrite printing_converted. print_literal.
  rewrite printing_number by (done || tmp_length). cbv beta. rewrite printing_converted. print_literal.
  rewrite printing_number by (done || tmp_length). cbv beta. rewrite printing_converted. print_literal.
  rewrite printing_string by done. print_literal. rewrite IH; [|done|tmp_length]. unfold file_text. next_item.
Qed.

Lemma message_loop_spec dest items t tmp :
  Forall (fun m => printable (from m) /\ printable (to m) /\ 0 ∈ content m) items -> zlength tmp = 15 ->
  (printing dest t ≫= fun '(result, i) => debug_message_loop result i tmp items) = printed dest (t ++ mjoin (message_text <$> items)).
Proof.
  revert t tmp; induction items as [|m items IH]; intros t tmp Hp Ht; cbn [debug_message_loop].
  { rewrite app_nil_r. unfold printing, printed. by destruct (decide _). }
  apply Forall_cons in Hp as [(Hf & Hto & Hc) Hps]. rewrite printing_number by done. cbv beta. print_literal. rewrite printing_converted. print_literal.
  rewrite printing_number by (done || tmp_length). cbv beta. rewrite printing_converted. print_literal.
  rewrite printing_string by done. print_literal. rewrite IH; [|done|tmp_length]. unfold message_text. next_item.
Qed.

(** ** The printers: each writes its whole text, or past its buffer *)
Lemma printing_first {A} s dest (k : list Z * Z -> outcome A) : nonul s -> stdstring_append dest 0 (cstr s []) ≫= k = printing dest s ≫= k.
Proof. intros. by rewrite append_first. Qed.

Lemma printing_finish {A} dest h t (loop : list Z -> Z -> outcome (list Z * Z)) (g : list Z -> A) :
  (printing dest h ≫= fun '(result, i) => loop result i) = printing dest t ->
  (printing dest h ≫= fun '(result, i) => loop result i ≫= fun '(result, _) => Ok (g result)) = r ← printed dest t; Ok (g r).
Proof. intros E. rewrite <- printing_done, <- E. by destruct (printing dest h) as [[]|]. Qed.

Ltac print_first := rewrite printing_first by (apply (bool_decide_unpack _); by vm_compute).

Lemma core_printable s p : core s -> p ∈ pids s -> printable p.
Proof. intros Hc Hp. pose proof (core_range s Hc p Hp). pose proof (core_next s Hc). unfold printable. lia. Qed.

Lemma debug_process_list_spec debug_result s :
  core s -> debug_process_list debug_result s = printed debug_result (bytes_of "Processes: " ++ mjoin (process_text <$> process_list s)).
Proof.
  intros Hc. unfold debug_process_list. print_first. rewrite <- printed_Ok. apply (printing_finish _ _ _ _ id), process_loop_spec; [|done].
  apply Forall_forall. intros p Hp. apply (core_printable s); [done|]. by apply list_elem_of_fmap_2.
Qed.

Lemma debug_event_list_spec debug_result s :
  Forall (fun e => printable (from_process e)) (events_head s) ->
  debug_event_list debug_result s = printed debug_result (bytes_of "Events: " ++ mjoin (event_item_text <$> events_head s)).
Proof.
  intros He. unfold debug_event_list. print_first. rewrite <- printed_Ok. by apply (printing_finish _ _ _ _ id), event_loop_spec.
Qed.

Lemma queue_printable s q : core s -> (forall p, p ∈ q -> p ∈ low_priority_queue s) -> Forall printable q.
Proof. intros Hc Hq. apply Forall_forall. intros p Hp. apply (core_printable s); [done|]. by apply (core_known s Hc), Hq. Qed.

Lemma debug_priority_spec debug_result priority s :
  core s ->
  let queue := if priority =? 0 then high_priority_queue s else if priority =? 1 then low_priority_queue s else [] in
  debug_priority debug_result priority s =
    r ← printed debug_result (bytes_of "Priority queue: " ++ mjoin ((fun p => braces (decimal p)) <$> queue));
    Ok (r, if (priority =? 0) || (priority =? 1) then None else Some [0]).
Proof.
  intros Hc. unfold debug_priority. print_first. destruct (priority =? 0); [|destruct (priority =? 1)]; cbn [orb].
  - apply (printing_finish _ _ _ _ (fun r => (r, None))), pid_loop_spec; [|done]. apply (queue_printable s); [done|apply (core_high_low s Hc)].
  - apply (printing_finish _ _ _ _ (fun r => (r, None))), pid_loop_spec; [|done]. by apply (queue_printable s).
  - rewrite fmap_nil. cbn [mjoin list_join]. rewrite app_nil_r. apply (printing_done _ _ (fun r => (r, Some [0]))).
Qed.

Lemma debug_file_list_spec mem debug_result f :
  Forall (fun o => printable (fd o) /\ printable (offset o) /\ printable (i32 (file_size_bytes (directory_entry o))) /\ 0 ∈ mem (path o)) (open_files f) ->
  debug_file_list mem debug_result f = printed debug_result (bytes_of "Files: " ++ mjoin (file_text mem <$> open_files f)).
Proof.
  intros Hf. unfold debug_file_list. print_first. rewrite <- printed_Ok. by apply (printing_finish _ _ _ _ id), file_loop_spec.
Qed.

(** A failed read cannot be told from one of zeros. *)
Lemma read_file_failed `{BlockDevice D} turns n nbytes f (d : D) :
  n <> STDIN_FILEDESC -> find_open_file_by_fd n (open_files f) = None -> read_file turns n nbytes f d = Ok (fresh (u32 nbytes), f, d).
Proof. intros Hn E. unfold read_file, sys_read. by rewrite (proj2 (Z.eqb_neq _ _) Hn), E. Qed.

Lemma debug_message_list_spec messages :
  Forall (fun m => printable (from m) /\ printable (to m) /\ 0 ∈ content m) messages ->
  debug_message_list messages = printed (replicate 200 0) (bytes_of "Messages: " ++ mjoin (message_text <$> messages)).
Proof. intros Hm. unfold debug_message_list. print_first. by apply message_loop_spec. Qed.
