(* ===== verification/Create.v ===== *)
(** * Creating a file

    From the call of [open] with [O_CREAT] down to the allocation table, the
    root directory and back to the table of open files. *)
From S2P Require Import Prelude Mem Strings Stream Disk Fat16 Volume Files Directory Slots Root Paths FileSys Descriptors Names.

(** A name of one to seven characters and an extension of at most three, of
    plain characters. *)
Definition plain_char (c : Z) : Prop := 0 < c < 256 /\ c <> DOT /\ c <> SLASH /\ c <> 32.

Record good_name (n e : list Z) : Prop := {
  gn_name : Forall plain_char n;
  gn_ext : Forall plain_char e;
  gn_length : 1 <= zlength n <= 7;
  gn_ext_length : zlength e <= 3;
  gn_first : byte n 0 <> 5
}.

Section Good.
Context (n e : list Z) (Hg : good_name n e).

Lemma gn_part : part_ok (n ++ DOT :: e).
Proof.
  destruct Hg as [Hn He _ _ _]. apply Forall_app. split; [|constructor; [done|]]; eapply Forall_impl; try exact Hn; try exact He;
    intros c (Hc & _ & Hs & _); (split; [lia|done]).
Qed.

Lemma gn_name_ok : name_ok n.
Proof. eapply Forall_impl; [apply Hg|]. intros c (Hc & Hd & _). split; [lia|done]. Qed.

Lemma plain_nonul l : Forall plain_char l -> nonul l.
Proof. intros Hl. eapply Forall_impl; [exact Hl|]. intros c (Hc & _). lia. Qed.

Lemma plain_bytes l : Forall plain_char l -> is_bytes l.
Proof. intros Hl. eapply Forall_impl; [exact Hl|]. intros c (Hc & _). unfold is_byte. lia. Qed.

Lemma plain_nospace l : Forall plain_char l -> Forall (fun c => c <> 32) l.
Proof. intros Hl. eapply Forall_impl; [exact Hl|]. by intros c (_ & _ & _ & Hc). Qed.

(** The entry [create_new_file] makes. *)
Definition new_entry (attr c : Z) : fat16_dir_entry_t :=
  DirEntry ((n ++ replicate (8 - length n) 32) ++ [0]) ((e ++ replicate (3 - length e) 32) ++ [0]) attr c 0.

Lemma new_entry_storable attr c : is_byte attr -> 0 <= c < 2 ^ 16 -> storable (new_entry attr c).
Proof.
  intros Ha Hc. destruct Hg as [Hn He Hl Hel Hf]. constructor; unfold new_entry; cbn; try done.
  - split; cbn; rewrite !length_app, length_replicate; simpl; lia.
  - repeat (apply Forall_app; split); [by apply plain_bytes|by apply Forall_replicate|by repeat constructor].
  - repeat (apply Forall_app; split); [by apply plain_bytes|by apply Forall_replicate|by repeat constructor].
  - rewrite !byte_app_l by (rewrite ?length_app, ?length_replicate; lia). done.
Qed.

Lemma new_entry_first attr c : byte (filename (new_entry attr c)) 0 <> 0.
Proof.
  destruct Hg as [Hn _ Hl _ _]. unfold new_entry; cbn. rewrite !byte_app_l by (rewrite ?length_app, ?length_replicate; lia).
  destruct n as [|x n']; [simpl in Hl; lia|]. apply Forall_cons in Hn as [(Hx & _) _]. change (x <> 0). lia.
Qed.

(** As it is listed. *)
Definition listed_entry (attr c : Z) : fat16_dir_entry_t := read_back (new_entry attr c).

Lemma listed_entry_called attr c : called n e (listed_entry attr c) = true.
Proof.
  destruct Hg as [Hn He Hl Hel _]. unfold called, listed_entry, read_back, new_entry; cbn. apply bool_decide_eq_true.
  rewrite (slice_app_l _ [0] 0 8), (slice_0 _ 8) by (rewrite ?length_app, ?length_replicate; lia).
  rewrite (slice_app_l _ [0] 0 3), (slice_0 _ 3) by (rewrite ?length_app, ?length_replicate; lia).
  split; apply text_padded; by (apply plain_nonul || apply plain_nospace).
Qed.

Lemma listed_entry_terminated attr c : terminated (listed_entry attr c).
Proof. unfold terminated, listed_entry, read_back; cbn. split; apply elem_of_app; right; set_solver. Qed.

(** The file a path of one part names. *)
Lemma find_file_single `{BlockDevice D} turns v depth t dir (d : D) :
  Forall terminated dir ->
  find_file turns v (S depth) (cstr (n ++ DOT :: e) t) dir d = Ok (head (filter (fun entry => Is_true (called n e entry)) dir), d).
Proof.
  intros Ht. pose proof gn_part as Hp. destruct Hg as [Hn He Hl Hel _]. cbn [find_file].
  pose proof (split_path_eq false (n ++ DOT :: e) [] t) as Es. cbn [app join_path] in Es.
  rewrite Es; [|by repeat constructor|by destruct n|rewrite length_app; simpl; lia]. ok_bind. cbn [fmap list_fmap]. ok_bind.
  assert (Hen : nonul e) by by apply plain_nonul.
  destruct (split_filename_spec n e [] gn_name_ok ltac:(lia) Hen Hel) as (x & y & E). unfold cstr at 1 in E. rewrite E. ok_bind.
  simpl (1 + zlength [] >? 1). cbv beta iota. simpl (1 + zlength [] =? 1). cbv beta iota.
  rewrite (first_entry_spec _ (called n e)); [done|]. eapply Forall_impl; [exact Ht|]. intros entry Hent.
  apply names_equal_spec; [by apply plain_nonul|done|done].
Qed.
End Good.

(** A part of a path, and the name and extension it is taken apart into. *)
Definition spells (w n e : list Z) : Prop := part_ok w /\ exists x y, split_filename (cstr w []) = Ok (cstr n x, cstr e y).

Lemma spells_dotted n e : good_name n e -> spells (n ++ DOT :: e) n e.
Proof.
  intros Hg. split; [by apply gn_part|]. assert (Hen : nonul e) by apply plain_nonul, Hg.
  apply split_filename_spec; [by apply (gn_name_ok n e)|apply Hg|done|apply Hg].
Qed.

Lemma spells_bare n : good_name n [] -> spells n n [].
Proof.
  intros Hg. split; [|apply split_filename_bare; [by apply (gn_name_ok n [])|apply Hg]].
  eapply Forall_impl; [apply Hg|]. intros c (Hc & _ & Hs & _). split; [lia|done].
Qed.

Section Creating.
Context `{BlockDeviceLaws D} (v : fat16_t) (N : Z) (Hroot : root_layout v N).
Context (depth : nat) (mem : Z -> list Z).
Abbreviation turns := (Z.to_nat 65536).
Abbreviation root_slots := (root_slots v).


Lemma root_after_table d d' F C : vol v N d -> same_but v N F C d d' -> root_slots d' = root_slots d.
Proof.
  intros Hv Hs. apply (slots_in_same v N Hroot). intros a Ha%elem_of_seqZ. pose proof (root_size_eq v N Hroot).
  pose proof (root_start_bounds v N (rl_lay _ _ Hroot)). apply (sb_rest _ _ _ _ _ _ Hs); lia.
Qed.

(** [create_new_file] once it has its names, a cluster and the root directory. *)
Lemma create_new_file_eq k w n e t attr f (d : D) p dir c :
  good_name n e -> spells w n e -> fs f = v -> vol v N d -> nonul dir -> mem p = cstr (dir ++ SLASH :: w) t ->
  find_first_free_cluster v d = Ok (c, d) ->
  create_new_file turns k mem p attr f d =
    '(result, d) ← (
      match dir with
      | [] => add_root_directory_entry turns v (new_entry n e attr c) d
      | _ =>
          '(dir, d) ← find_dir turns v k (dir ++ [0]) (entries_of (root_slots d)) d;
          match dir with
          | None => Ok (-1, d)
          | Some dir => add_directory_entry turns v (first_cluster dir) (new_entry n e attr c) d
          end
      end);
    if negb (result =? 0) then Ok (-1, d)
    else d ← set_successor_cluster v c 65535 d; Ok (0, d).
Proof.
  intros Hg (Hpart & x & y & E) Hfs Hv Hdir Hp Efree. unfold create_new_file. rewrite Hp.
  rewrite (to_filename_spec dir w) by done. ok_bind. assert (Hen : nonul e) by apply plain_nonul, Hg. unfold cstr at 1 in E.
  rewrite E. ok_bind. pose proof (gn_length n e Hg). pose proof (gn_ext_length n e Hg).
  pose proof (pad_name_spec n x (plain_nonul n (gn_name n e Hg)) [] 8 ltac:(lia)) as Ep. cbn [app length] in Ep. change (Z.of_nat 0) with 0 in Ep. rewrite Ep.
  pose proof (pad_name_spec e y Hen [] 3 ltac:(lia)) as Eq. cbn [app length] in Eq. change (Z.of_nat 0) with 0 in Eq. ok_bind. rewrite Eq. ok_bind.
  rewrite Hfs, Efree. ok_bind. rewrite (get_root_dir_eq v N Hroot) by done. ok_bind.
  rewrite (to_directory_spec dir w) by done. ok_bind. fold (new_entry n e attr c). destruct dir as [|z dir].
  - cbn [app]. rewrite (buf_get_lookup [0] 0 0) by done. ok_bind. done.
  - rewrite (buf_get_lookup _ 0 z) by done. ok_bind. apply Forall_cons in Hdir as [Hz _]. by destruct (Z.eqb_spec z 0).
Qed.

(** [create_new_file] in the root directory. *)
Lemma create_root_file w n e t attr f d pre s post p :
  good_name n e -> spells w n e -> fs f = v -> vol v N d -> is_byte attr -> mem p = cstr (SLASH :: w) t ->
  (exists m, in_table v m /\ fat v d m = 0) -> table_sane v N d ->
  root_slots d = pre ++ s :: post -> all_taken pre -> slot_free s = true ->
  exists c d1 d', create_new_file turns (S depth) mem p attr f d = Ok (0, d') /\
    in_table v c /\ fat v d c = 0 /\ chain v N d' c [c] /\ only_root v N d d1 /\ same_but v N [c] [] d1 d' /\ fat v d' c = 65535 /\
    root_slots d' = pre ++ slot_with (first_byte (new_entry n e attr c)) (new_entry n e attr c) s :: post /\ zlength s = 32 /\
    entries_of (root_slots d') = entries_of pre ++ listed_entry n e attr c :: entries_of post.
Proof.
  intros Hg Hw Hfs Hv Ha Hp (m & Hm & Hm0) Hsane Hslots Hpre Hs. pose proof (rl_lay _ _ Hroot) as Hlay. pose proof (root_size_eq v N Hroot) as (_ & Hrs & _).
  destruct (first_free_spec v N Hlay d Hv) as (c & Efree & [(Hc & Hc0 & _)|[_ Hnone]]); [|by destruct (Hnone m Hm)].
  destruct (Hsane c Hc Hc0) as [Hval Hu]. pose proof (proj1 (in_use_range c) Hu) as Hcr.
  pose proof (new_entry_storable n e Hg attr c Ha ltac:(lia)) as Hst.
  destruct (add_root v N Hroot d (new_entry n e attr c) pre s post turns Hv Hst) as (d1 & E1 & Hu1 & Hsl & Hs32 & Hl1); try done;
    [by apply new_entry_first|lia|].
  destruct (set_successor_same v N Hlay d1 c 65535) as (d' & E2 & Hs2 & Hf2); [apply Hu1|done|lia|lia|].
  exists c, d1, d'. split.
  - rewrite (create_new_file_eq (S depth) w n e t attr f d p [] c) by (done || constructor). rewrite E1. ok_bind. change (negb (0 =? 0)) with false.
    cbv beta iota. rewrite E2. done.
  - split; [done|]. split; [done|]. split.
    + apply chain_link; [done|done|]. rewrite Hf2. by constructor.
    + split; [done|]. split; [done|]. split; [done|]. rewrite (root_after_table d1 d' [c] []) by (done || apply Hu1). done.
Qed.

(** The table with a file added under the next descriptor. *)
Definition opened (file : fat16_dir_entry_t) (p : Z) (ap : bool) (f : files) : files :=
  with_open_files (open_files f ++ [OpenFile (next_fd f) file p 0 ap]) (with_next_fd (i32 (next_fd f + 1)) f).

Lemma open_named n e t f d p :
  good_name n e -> fs f = v -> vol v N d -> mem p = cstr (SLASH :: n ++ DOT :: e) t ->
  open_file turns (S depth) mem p f d =
    Ok (match head (filter (fun entry => Is_true (called n e entry)) (entries_of (root_slots d))) with
        | None => (None, f, d)
        | Some file => (Some (length (open_files f)), opened file p false f, d)
        end).
Proof.
  intros Hg Hfs Hv Hp. unfold open_file. rewrite Hfs, (get_root_dir_eq v N Hroot) by done. ok_bind. rewrite Hp.
  change (cstr (SLASH :: n ++ DOT :: e) t) with (SLASH :: cstr (n ++ DOT :: e) t).
  rewrite (buf_get_lookup _ 0 SLASH) by done. ok_bind. change (negb (SLASH =? SLASH)) with false. cbv beta iota.
  destruct n as [|x n'] eqn:En; [pose proof (gn_length _ _ Hg); simpl in *; lia|].
  rewrite (buf_get_lookup _ 1 x) by done. ok_bind. pose proof (gn_name _ _ Hg) as [(Hx & _) _]%Forall_cons.
  destruct (Z.eqb_spec x 0); [lia|]. change (drop 1 (SLASH :: cstr ((x :: n') ++ DOT :: e) t)) with (cstr ((x :: n') ++ DOT :: e) t).
  rewrite find_file_single by (done || apply entries_terminated). ok_bind. by destruct (head _).
Qed.

Lemma update_last (g : open_file_t -> open_file_t) (l : list open_file_t) o : alter g (length l) (l ++ [o]) = l ++ [g o].
Proof. induction l as [|o' l IH]; [done|]. cbn. by rewrite <- IH. Qed.

(** Opening a name that is not there, with [O_CREAT]. *)
Lemma open_creates n e t flags f d pre s post p :
  good_name n e -> fs f = v -> vol v N d -> table_sane v N d -> mem p = cstr (SLASH :: n ++ DOT :: e) t ->
  find_open_file mem p (open_files f) = Ok None -> Z.land flags O_CREAT <> 0 ->
  (exists m, in_table v m /\ fat v d m = 0) ->
  root_slots d = pre ++ s :: post -> all_taken pre -> slot_free s = true ->
  Forall (fun entry => called n e entry = false) (entries_of (root_slots d)) ->
  exists c d1 d', sys_open turns (S depth) mem p flags f d =
      Ok (next_fd f, opened (listed_entry n e 0 c) p (negb (Z.land flags O_APPEND =? 0)) f, d') /\
    in_table v c /\ fat v d c = 0 /\ chain v N d' c [c] /\ only_root v N d d1 /\ same_but v N [c] [] d1 d' /\ fat v d' c = 65535 /\
    root_slots d' = pre ++ slot_with (first_byte (new_entry n e 0 c)) (new_entry n e 0 c) s :: post /\ zlength s = 32.
Proof.
  intros Hg Hfs Hv Hsane Hp Hopen Hfl Hfree Hslots Hpre Hs Hnone.
  destruct (create_root_file (n ++ DOT :: e) n e t 0 f d pre s post p) as (c & d1 & d' & Ecreate & Hc & Hc0 & Hchain & Hu & Hsame & Hf & Hsl & Hs32 & Hlist); try done; [by apply spells_dotted|].
  exists c, d1, d'. split_and!; try done. pose proof (listed_entry_called n e Hg 0 c) as Hcalled.
  assert (Hno : forall l, Forall (fun entry => called n e entry = false) l -> filter (fun entry => Is_true (called n e entry)) l = []).
  { intros l Hl. induction Hl as [|x l Hx _ IH]; [done|]. rewrite filter_cons_False; [done|]. rewrite Hx. by intros []. }
  rewrite Hslots, (entries_app pre) in Hnone by by apply taken_no_end. apply Forall_app in Hnone as [Hn1 Hn2].
  unfold sys_open. rewrite Hopen. ok_bind. rewrite (open_named n e t f d p) by done.
  rewrite Hslots, (entries_app pre) by by apply taken_no_end. rewrite filter_app, (Hno _ Hn1), (Hno _ Hn2). cbn [app head]. ok_bind.
  destruct (Z.eqb_spec (Z.land flags O_CREAT) 0); [done|]. cbn [negb]. rewrite Ecreate. ok_bind. change (0 =? -1) with false. cbv beta iota.
  rewrite (open_named n e t f d' p) by (done || apply Hsame). rewrite Hlist, filter_app, (Hno _ Hn1). cbn [app].
  rewrite filter_cons_True by (by rewrite Hcalled). cbn [head]. ok_bind. unfold opened, update_open. cbn [open_files with_open_files].
  by rewrite update_last, list_lookup_middle by done.
Qed.

(** What a new file leaves to the others. *)
Lemma chains_after_creation d d1 d' c first ms :
  vol v N d -> fat v d c = 0 -> only_root v N d d1 -> same_but v N [c] [] d1 d' -> chain v N d first ms ->
  chain v N d' first ms /\ chain_bytes v d' ms = chain_bytes v d ms.
Proof.
  intros Hv Hc0 Hu Hsame Hms. pose proof (rl_lay _ _ Hroot) as Hlay. pose proof (only_root_same v N Hroot d d1 Hv Hu) as Hdata.
  assert (Hout : forall m, m ∈ ms -> m ∉ [c]).
  { intros m Hm ->%list_elem_of_singleton. by apply (chain_not_free v N Hlay d first ms c Hms). }
  pose proof (chain_data v N d d1 first ms Hdata Hms) as Hms1.
  split; [by eapply (chain_same v N Hlay)|]. rewrite (chain_bytes_same v N _ _ _ _ ms Hsame).
  - by apply (chain_bytes_data v N Hlay d d1 first).
  - intros m Hm. split; [by apply (chain_valid v N Hlay d first ms m Hms)|set_solver].
Qed.

(** Opening a file that does not exist, with [O_CREAT], in a
    volume with a free slot in the root directory and a free cluster: the call
    returns the next descriptor; the table of open files gains an empty file
    with that name, at position 0; its one cluster was free and now ends the
    file's chain; and every other chain of the volume keeps its bytes. *)
Lemma create_then_open n e t flags f d pre s post p :
  good_name n e -> fs f = v -> vol v N d -> table_sane v N d -> mem p = cstr (SLASH :: n ++ DOT :: e) t ->
  find_open_file mem p (open_files f) = Ok None -> Z.land flags O_CREAT <> 0 ->
  (exists m, in_table v m /\ fat v d m = 0) ->
  root_slots d = pre ++ s :: post -> all_taken pre -> slot_free s = true ->
  Forall (fun entry => called n e entry = false) (entries_of (root_slots d)) ->
  exists c d', sys_open turns (S depth) mem p flags f d =
      Ok (next_fd f, opened (listed_entry n e 0 c) p (negb (Z.land flags O_APPEND =? 0)) f, d') /\
    text (filename (listed_entry n e 0 c)) = n /\ text (extension (listed_entry n e 0 c)) = e /\
    first_cluster (listed_entry n e 0 c) = c /\ file_size_bytes (listed_entry n e 0 c) = 0 /\
    vol v N d' /\ fat v d c = 0 /\ chain v N d' c [c] /\
    (forall first ms, chain v N d first ms -> chain v N d' first ms /\ chain_bytes v d' ms = chain_bytes v d ms).
Proof.
  intros Hg Hfs Hv Hsane Hp Hopen Hfl Hfree Hslots Hpre Hs Hnone.
  destruct (open_creates n e t flags f d pre s post p) as (c & d1 & d' & E & Hc & Hc0 & Hchain & Hu & Hsame & _); try done.
  exists c, d'. pose proof (listed_entry_called n e Hg 0 c) as [Ht1 Ht2]%bool_decide_eq_true.
  split_and!; try done; [apply Hsame|]. intros first ms. by apply (chains_after_creation d d1 d' c).
Qed.

(** A path of one character below the root dereferences [NULL]:
    [split_path] takes it for the root directory and gives no parts. *)
Lemma one_character_names_fault c t flags f d p :
  c <> 0 -> c <> SLASH -> fs f = v -> vol v N d -> mem p = cstr [SLASH; c] t ->
  find_open_file mem p (open_files f) = Ok None -> sys_open turns (S depth) mem p flags f d = Err NullPointer.
Proof.
  intros Hc Hs Hfs Hv Hp Hopen. unfold sys_open. rewrite Hopen. ok_bind. unfold open_file. rewrite Hfs, (get_root_dir_eq v N Hroot) by done.
  ok_bind. rewrite Hp. change (cstr [SLASH; c] t) with (SLASH :: c :: 0 :: t). rewrite (buf_get_lookup _ 0 SLASH) by done. ok_bind.
  change (negb (SLASH =? SLASH)) with false. cbv beta iota. rewrite (buf_get_lookup _ 1 c) by done. ok_bind.
  destruct (Z.eqb_spec c 0); [done|]. cbn [drop find_file]. unfold split_path, skip_slash. rewrite (buf_get_lookup _ 0 c) by done. ok_bind.
  destruct (Z.eqb_spec c SLASH); [done|]. rewrite (buf_get_lookup _ 1 0) by done. done.
Qed.
End Creating.

(** ** The theorems at work *)
Definition demo_files : files := Files demo_fs 3 [] (replicate 100 0) [] [] [].
Definition demo_mem (s : string) (p : Z) : list Z := if p =? 4096 then cstr (bytes_of s) [] else [0].

Lemma demo_dir_sane : table_sane demo_fs 8 demo_dir.
Proof. apply sane_by_check, (bool_decide_unpack _). by vm_compute. Qed.

Lemma demo_good_name : good_name (bytes_of "TODO") (bytes_of "MD").
Proof. constructor; [repeat constructor; done|repeat constructor; done|simpl; lia|simpl; lia|done]. Qed.

Lemma create_then_open_witness :
  exists c d', sys_open (Z.to_nat 65536) 1 (demo_mem "/TODO.MD") 4096 1 demo_files demo_dir =
      Ok (3, opened (listed_entry (bytes_of "TODO") (bytes_of "MD") 0 c) 4096 false demo_files, d') /\
    text (filename (listed_entry (bytes_of "TODO") (bytes_of "MD") 0 c)) = bytes_of "TODO" /\
    text (extension (listed_entry (bytes_of "TODO") (bytes_of "MD") 0 c)) = bytes_of "MD" /\
    first_cluster (listed_entry (bytes_of "TODO") (bytes_of "MD") 0 c) = c /\
    file_size_bytes (listed_entry (bytes_of "TODO") (bytes_of "MD") 0 c) = 0 /\
    vol demo_fs 8 d' /\ fat demo_fs demo_dir c = 0 /\ chain demo_fs 8 d' c [c] /\
    (forall first ms, chain demo_fs 8 demo_dir first ms ->
       chain demo_fs 8 d' first ms /\ chain_bytes demo_fs d' ms = chain_bytes demo_fs demo_dir ms).
Proof.
  apply (create_then_open demo_fs 8 demo_root_layout 0 (demo_mem "/TODO.MD") (bytes_of "TODO") (bytes_of "MD") [] 1 demo_files demo_dir
    [demo_slot "README  " "TXT"; demo_slot "NOTES   " "TXT"] (replicate 32 0) (replicate 13 (replicate 32 0)) 4096);
    [exact demo_good_name|done|exact demo_dir_ok|exact demo_dir_sane|done|done|done| | | |done|].
  - exists 4. split; [unfold in_table; simpl; lia|by vm_compute].
  - apply (bool_decide_unpack _). by vm_compute.
  - repeat constructor.
  - apply (bool_decide_unpack _). by vm_compute.
Defined.

Lemma one_character_names_fault_witness :
  sys_open (Z.to_nat 65536) 1 (demo_mem "/x") 4096 0 demo_files demo_dir = Err NullPointer.
Proof.
  by apply (one_character_names_fault demo_fs 8 demo_root_layout 0 (demo_mem "/x") 120 [] 0 demo_files demo_dir 4096); [..|exact demo_dir_ok| |].
Defined.

