(* ===== verification/Subdir.v ===== *)
(** * Changing directories other than the root

    [add_directory_entry] and [update_directory_entry] of file.c on the slots
    of a directory's chain of clusters, creating files and directories at the
    end of a path, and what [mkdir] makes of the cluster it takes. *)
From S2P Require Import Prelude Mem Strings Disk Fat16 Volume Files Directory Slots Root Paths FileSys Descriptors Names Create Tree.

Section Slots.
Context `{BlockDeviceLaws D} (fs : fat16_t) (N : Z) (Hlay : layout fs N).
Abbreviation vol := (vol fs N).
Abbreviation chain := (chain fs N).
Abbreviation cluster := (cluster fs).
Abbreviation same_but := (same_but fs N).

(** The slots of a directory, its clusters one after the other. *)
Definition dir_slots (d : D) (ns : list Z) : list (list Z) := ns ≫= (fun n => slots (cluster d n)).

Lemma dir_slots_chain d n ns : vol d -> chain d n ns -> dir_slots d ns = slots (chain_bytes fs d ns).
Proof.
  intros Hv Hc. induction Hc as [|n ns Hu Hval Hc IH]; [done|]. rewrite (slots_chain fs N Hlay) by done. by rewrite <- IH.
Qed.

Lemma dir_slots_same (d d' : D) ns : (forall a, a ∈ ns -> cluster d' a = cluster d a) -> dir_slots d' ns = dir_slots d ns.
Proof.
  clear N Hlay. intros Hs. unfold dir_slots. induction ns as [|a ns IH]; [done|]. cbn. rewrite Hs by set_solver. f_equal. apply IH. set_solver.
Qed.

(** Slots in a cluster. *)
Definition per_cluster : Z := 16 * sectors_per_cluster fs.

Lemma per_cluster_eq : bytes_per_cluster fs / 32 = per_cluster.
Proof.
  pose proof (lay_spc _ _ Hlay). unfold bytes_per_cluster, per_cluster. rewrite (lay_bps _ _ Hlay). unfold sector_size.
  replace (512 * sectors_per_cluster fs) with (16 * sectors_per_cluster fs * 32) by lia. rewrite ?Z.div_mul by lia. lia.
Qed.

Lemma cluster_slots d n : vol d -> valid fs N n -> is_bytes (cluster d n) /\ zlength (cluster d n) = 32 * per_cluster.
Proof.
  intros Hv [_ Hn]. split; [by apply (cluster_bytes fs N Hlay)|]. rewrite (cluster_length fs N Hlay) by done. unfold cluster_size, per_cluster, sector_size. lia.
Qed.

Lemma free_search_dir b : find_first_free_space_in_directory_cluster fs b = first_free_space per_cluster b.
Proof. unfold find_first_free_space_in_directory_cluster. by rewrite per_cluster_eq. Qed.

Lemma file_search_dir b fn ex : find_file_in_directory_cluster fs b fn ex = find_slot per_cluster b fn ex.
Proof. unfold find_file_in_directory_cluster. by rewrite per_cluster_eq. Qed.

Lemma per_cluster_pos : 0 <= per_cluster.
Proof. pose proof (lay_spc _ _ Hlay). unfold per_cluster. lia. Qed.

(** The code follows a directory's chain only to clusters below 4080. *)
Definition reachable_part (ns : list Z) : Prop := Forall (fun n => n <= 4079) (tail ns).

Lemma next_in_reach d n ns : vol d -> chain d n (n :: ns) -> ns <> [] -> reachable_part (n :: ns) ->
  get_successor_cluster fs n d = Ok (fat fs d n, d) /\ past_end (fat fs d n) = false /\ valid fs N (fat fs d n) /\
  chain d (fat fs d n) ns /\ exists ns', ns = fat fs d n :: ns' /\ reachable_part ns.
Proof.
  intros Hv Hc Hne Hr. inversion Hc as [|? ? Hu Hval Hn]; subst. pose proof (proj1 (in_use_range n) Hu).
  destruct (get_successor_spec fs N Hlay d n Hv (proj1 Hval)) as [-> _]; [lia|]. split; [done|].
  inversion Hn as [x Hx E1 E2|x ns' Hu' Hval' Hn' E1 E2]; subst; [done|]. apply Forall_cons in Hr as [Hle Hr].
  pose proof (proj1 (in_use_range _) Hu'). split; [unfold past_end; lia|]. split; [done|]. split; [done|]. by exists ns'.
Qed.

(** The search of the loops: none in the clusters [l1], the first in [m]. *)
Section Search.
Context (search : list Z -> outcome Z) (test : list Z -> bool) (Hsearch : searches per_cluster search test).

Lemma search_hit d n p s q :
  vol d -> valid fs N n -> slots (cluster d n) = p ++ s :: q -> Forall (fun s => test s = false) p -> test s = true ->
  search (cluster d n) = Ok (32 * zlength p).
Proof. intros Hv Hn E Hp Hs. destruct (cluster_slots d n Hv Hn) as [Hb Hl]. by apply (proj1 (Hsearch _ Hb Hl) p s q). Qed.

Lemma search_miss d n :
  vol d -> valid fs N n -> Forall (fun s => test s = false) (slots (cluster d n)) -> search (cluster d n) = Ok (-1).
Proof. intros Hv Hn E. destruct (cluster_slots d n Hv Hn) as [Hb Hl]. by apply (proj2 (Hsearch _ Hb Hl)). Qed.

(** A loop that goes from cluster to cluster as long as the search fails. *)
Lemma dir_search {St R} (turn : St -> outcome (St + R)) (state : Z -> Z -> D -> St -> Prop) d l1 : forall n m l2 p s q st fuel (found : Z -> Z -> D -> R -> Prop),
  (forall n st, state n (-1) d st -> past_end (fat fs d n) = false -> valid fs N (fat fs d n) ->
     get_successor_cluster fs n d = Ok (fat fs d n, d) -> forall i, search (cluster d (fat fs d n)) = Ok i ->
     exists st', turn st = Ok (inl st') /\ state (fat fs d n) i d st') ->
  (forall n i st, state n i d st -> i <> -1 -> exists r, turn st = Ok (inr r) /\ found n i d r) ->
  vol d -> chain d n (l1 ++ m :: l2) -> reachable_part (l1 ++ m :: l2) ->
  Forall (fun s => test s = false) (dir_slots d l1) -> slots (cluster d m) = p ++ s :: q ->
  Forall (fun s => test s = false) p -> test s = true ->
  (forall i, search (cluster d n) = Ok i -> state n i d st) -> (length l1 < fuel)%nat ->
  exists r, while_loop fuel turn st = Ok r /\ found m (32 * zlength p) d r.
Proof.
  induction l1 as [|a l1 IH]; intros n m l2 p s q st fuel found Hturn Hexit Hv Hc Hr Hn Hm Hp Hs Hst Hf; (destruct fuel as [|fuel]; [simpl in Hf; lia|]);
    rewrite while_loop_S.
  - assert (n = m) as -> by (inversion Hc; congruence). assert (Hval : valid fs N m) by (apply (chain_valid fs N Hlay d m (m :: l2) m Hc); set_solver).
    specialize (Hst _ (search_hit d m p s q Hv Hval Hm Hp Hs)). destruct (Hexit m _ st Hst ltac:(lia)) as (r & -> & Hfound). by exists r.
  - assert (n = a) as -> by (inversion Hc; congruence). assert (Hval : valid fs N a) by (apply (chain_valid fs N Hlay d a ((a :: l1) ++ m :: l2) a Hc); set_solver).
    unfold dir_slots in Hn. cbn in Hn. apply Forall_app in Hn as [Hna Hn]. specialize (Hst _ (search_miss d a Hv Hval Hna)).
    destruct (next_in_reach d a (l1 ++ m :: l2) Hv Hc ltac:(by destruct l1) Hr) as (Eg & Hpe & Hval' & Hc' & ns' & Ens & Hr').
    assert (Hi : exists i, search (cluster d (fat fs d a)) = Ok i).
    { destruct l1 as [|b l1]; cbn in Ens; injection Ens as Eb _; rewrite <- Eb in *.
      - exists (32 * zlength p). by apply (search_hit d m p s q).
      - exists (-1). cbn in Hn. apply Forall_app in Hn as [Hb _]. by apply search_miss. }
    destruct Hi as [i Hi]. destruct (Hturn a st Hst Hpe Hval' Eg i Hi) as (st' & -> & Hst'). cbn in Hf.
    apply (IH (fat fs d a) m l2 p s q st' fuel found Hturn Hexit Hv Hc' Hr' Hn Hm Hp Hs); [|lia]. intros i' Hi'. by replace i' with i by congruence.
Qed.
End Search.

(** The cluster of a slot of the directory. *)
Lemma dir_locate d n ns pre s post :
  vol d -> chain d n ns -> dir_slots d ns = pre ++ s :: post ->
  exists l1 m l2 p q, ns = l1 ++ m :: l2 /\ slots (cluster d m) = p ++ s :: q /\ pre = dir_slots d l1 ++ p /\ post = q ++ dir_slots d l2 /\
    valid fs N m /\ zlength p < per_cluster /\ zlength s = 32.
Proof.
  intros Hv Hc E. destruct (bind_split _ _ _ _ _ E) as (l1 & m & l2 & p & q & Hns & Hp & Hpre & Hpost). exists l1, m, l2, p, q.
  assert (Hm : valid fs N m) by (apply (chain_valid fs N Hlay d n ns m Hc); rewrite Hns; set_solver).
  destruct (cluster_slots d m Hv Hm) as [_ Hl]. destruct (slots_decomp _ _ _ _ _ Hl Hp) as [Hlt Hsl]. split_and!; try done.
  rewrite <- Hsl. unfold slot. rewrite slice_length; lia.
Qed.

(** An entry stored in a slot of a cluster. *)
Lemma dir_store d n ns l1 m l2 p s q first e :
  vol d -> chain d n ns -> ns = l1 ++ m :: l2 -> slots (cluster d m) = p ++ s :: q -> field_bytes e -> is_byte first ->
  exists b d', store_entry (cluster d m) (32 * zlength p) first e = Ok b /\ write_cluster fs m b d = Ok d' /\ same_but [] [m] d d' /\
    dir_slots d' ns = dir_slots d l1 ++ (p ++ slot_with first e s :: q) ++ dir_slots d l2.
Proof.
  intros Hv Hc Hns Hp (Hok & Hfn & Hex & Hat) Hf.
  assert (Hm : valid fs N m) by (apply (chain_valid fs N Hlay d n ns m Hc); rewrite Hns; set_solver).
  destruct (cluster_slots d m Hv Hm) as [Hb Hl]. destruct (slots_decomp _ _ _ _ _ Hl Hp) as [Hlt _].
  exists (stored (cluster d m) (32 * zlength p) first e).
  destruct (write_cluster_same fs N Hlay d m (stored (cluster d m) (32 * zlength p) first e) Hv (proj2 Hm)) as (d' & E & Hs & Hcl).
  { rewrite stored_length by (done || lia). by apply (cluster_length fs N Hlay); [|apply Hm]. }
  { by apply stored_bytes. }
  exists d'. split; [apply store_entry_spec; (done || lia)|]. split; [done|]. split; [done|].
  pose proof (chain_nodup fs N Hlay d n ns Hc) as Hnd. rewrite Hns in Hnd. apply NoDup_app in Hnd as (_ & Hd & [Hm2 _]%NoDup_cons).
  assert (Hsame : forall l, (forall a, a ∈ l -> a ∈ ns /\ a <> m) -> dir_slots d' l = dir_slots d l).
  { intros l Hin. apply dir_slots_same. intros a (Ha & Hne)%Hin.
    destruct (chain_valid fs N Hlay d n ns a Hc Ha) as [Hval _]. apply (sb_cluster _ _ _ _ _ _ Hs); [apply Hval|set_solver]. }
  rewrite Hns. unfold dir_slots at 1. rewrite bind_app. cbn [mbind list_bind].
  change (l1 ≫= (fun n => slots (cluster d' n))) with (dir_slots d' l1). change (mbind (fun n => slots (cluster d' n)) l2) with (dir_slots d' l2).
  rewrite !Hsame; [|intros a Ha; split; [set_solver|by intros ->]|intros a Ha; split; [set_solver|intros ->; by eapply Hd; [exact Ha|left]]].
  f_equal. f_equal. rewrite Hcl. by apply (slots_stored _ per_cluster).
Qed.

Lemma fresh_length : zlength (fresh (bytes_per_sector fs * sectors_per_cluster fs)) = cluster_size fs.
Proof.
  unfold fresh. rewrite length_replicate, (lay_bps _ _ Hlay). unfold cluster_size. pose proof (lay_spc _ _ Hlay). unfold sector_size. lia.
Qed.

Lemma chain_start d n ns x l : chain d n ns -> ns = l ++ x -> x <> [] -> exists ns', ns = n :: ns' /\ valid fs N n.
Proof. intros Hc -> Hx. inversion Hc as [? ? E1 E2|? ns' Hu Hval Hn]; subst; [by destruct l, x|]. by exists ns'. Qed.

(** Adding an entry where there is a free slot within reach. *)
Lemma add_directory d n ns e pre s post fuel :
  vol d -> chain d n ns -> reachable_part ns -> storable e ->
  dir_slots d ns = pre ++ s :: post -> all_taken pre -> slot_free s = true -> (length ns <= fuel)%nat ->
  exists m d', m ∈ ns /\ add_directory_entry fuel fs n e d = Ok (0, d') /\ same_but [] [m] d d' /\
    dir_slots d' ns = pre ++ slot_with (first_byte e) e s :: post /\ zlength s = 32.
Proof.
  intros Hv Hc Hr He E Hpre Hs Hf. destruct (dir_locate d n ns pre s post Hv Hc E) as (l1 & m & l2 & p & q & Hns & Hp & -> & -> & Hm & Hlt & Hs32).
  destruct (chain_start d n ns (m :: l2) l1 Hc Hns ltac:(done)) as (ns' & Hn' & Hn). apply Forall_app in Hpre as [Hpre1 Hpre2].
  assert (Hfb : is_byte (first_byte e)) by (unfold first_byte; destruct (_ =? _); [done|]; apply byte_bytes, He).
  destruct (dir_store d n ns l1 m l2 p s q (first_byte e) e Hv Hc Hns Hp (storable_fields e He) Hfb) as (b & d' & Est & Ewr & Hsame & Hsl).
  exists m, d'. rewrite <- app_assoc in Hsl. split; [rewrite Hns; set_solver|]. split; [|split; [done|]; split; [by rewrite Hsl, app_assoc|done]].
  unfold add_directory_entry. rewrite (load_cluster_spec fs N Hlay) by (done || apply fresh_length || apply Hn). ok_bind. rewrite free_search_dir.
  destruct (search_total per_cluster (first_free_space per_cluster) slot_free (cluster d n)) as [i Hi]; [apply free_searches, per_cluster_pos|by apply cluster_slots..|].
  rewrite Hi. ok_bind.
  destruct (dir_search (first_free_space per_cluster) slot_free (free_searches _ per_cluster_pos) (add_turn fs)
    (fun n i d st => valid fs N n /\ exists prev, st = (prev, n, cluster d n, i, d)) d l1 n m l2 p s q (0, n, cluster d n, i, d) fuel
    (fun n i d r => r = (Some (n, cluster d n, i), d))) as (r & -> & ->); try done.
  - intros n1 st (Hn1 & prev & ->) Hpe Hval Eg j Ej. unfold add_turn. change (-1 =? -1) with true. cbv beta iota. rewrite Eg. ok_bind.
    rewrite Hpe. rewrite (load_cluster_spec fs N Hlay); [|done|apply Hval|apply (cluster_length fs N Hlay); [done|apply Hn1]].
    ok_bind. rewrite free_search_dir, Ej. ok_bind. eexists. split; [done|]. split; [done|]. by exists n1.
  - intros n' i' st (_ & prev & ->) Hne. unfold add_turn. destruct (Z.eqb_spec i' (-1)); [done|]. by eexists.
  - by rewrite <- Hns.
  - by rewrite <- Hns.
  - intros j Hj. split; [done|]. exists 0. congruence.
  - rewrite Hns, length_app in Hf. simpl in Hf. lia.
  - ok_bind. rewrite stored_first_spec by apply He. ok_bind. rewrite Est. ok_bind. by rewrite Ewr.
Qed.

(** Updating the first entry of a name. *)
Lemma update_directory d n ns e fn ex pre s post fuel :
  vol d -> chain d n ns -> reachable_part ns -> field_bytes e -> 8 <= zlength fn -> 3 <= zlength ex ->
  dir_slots d ns = pre ++ s :: post -> Forall (fun s => slot_matches fn ex s = false) pre -> slot_matches fn ex s = true ->
  (length ns <= fuel)%nat ->
  exists m d', m ∈ ns /\ update_directory_entry fuel fs n e fn ex d = Ok (0, d') /\ same_but [] [m] d d' /\
    dir_slots d' ns = pre ++ slot_with (byte (filename e) 0) e s :: post /\ zlength s = 32.
Proof.
  intros Hv Hc Hr He Hfn Hex E Hpre Hs Hf. destruct (dir_locate d n ns pre s post Hv Hc E) as (l1 & m & l2 & p & q & Hns & Hp & -> & -> & Hm & Hlt & Hs32).
  destruct (chain_start d n ns (m :: l2) l1 Hc Hns ltac:(done)) as (ns' & Hn' & Hn). apply Forall_app in Hpre as [Hpre1 Hpre2].
  assert (Hfb : is_byte (byte (filename e) 0)) by apply byte_bytes, He. pose proof (find_searches per_cluster fn ex per_cluster_pos Hfn Hex) as Hsr.
  destruct (dir_store d n ns l1 m l2 p s q (byte (filename e) 0) e Hv Hc Hns Hp He Hfb) as (b & d' & Est & Ewr & Hsame & Hsl).
  exists m, d'. rewrite <- app_assoc in Hsl. split; [rewrite Hns; set_solver|]. split; [|split; [done|]; split; [by rewrite Hsl, app_assoc|done]].
  unfold update_directory_entry. rewrite (load_cluster_spec fs N Hlay) by (done || apply fresh_length || apply Hn). ok_bind. rewrite file_search_dir.
  destruct (search_total per_cluster _ _ (cluster d n) Hsr) as [i Hi]; [by apply cluster_slots..|]. rewrite Hi. ok_bind.
  destruct (dir_search _ _ Hsr (update_turn fs fn ex) (fun n i d st => valid fs N n /\ st = (n, cluster d n, i, d)) d l1 n m l2 p s q
    (n, cluster d n, i, d) fuel (fun n i d r => r = (Some (n, cluster d n, i), d))) as (r & -> & ->); try done.
  - intros n1 st (Hn1 & ->) Hpe Hval Eg j Ej. unfold update_turn. change (-1 =? -1) with true. cbv beta iota. rewrite Eg. ok_bind.
    rewrite Hpe. rewrite (load_cluster_spec fs N Hlay); [|done|apply Hval|apply (cluster_length fs N Hlay); [done|apply Hn1]].
    ok_bind. rewrite file_search_dir, Ej. ok_bind. by eexists.
  - intros n' i' st (_ & ->) Hne. unfold update_turn. destruct (Z.eqb_spec i' (-1)); [done|]. by eexists.
  - by rewrite <- Hns.
  - by rewrite <- Hns.
  - intros j Hj. split; [done|]. congruence.
  - rewrite Hns, length_app in Hf. simpl in Hf. lia.
  - ok_bind. destruct He as ((Hfl & _) & _). rewrite (buf_get_byte (filename e) 0) by lia. ok_bind. rewrite Est. ok_bind. by rewrite Ewr.
Qed.
End Slots.

(** ** The directory at the end of a path *)
Section Path.
Context `{BlockDeviceLaws D} (fs : fat16_t) (N : Z) (Hlay : layout fs N).
Abbreviation vol := (vol fs N).
Abbreviation turns := (Z.to_nat 65536).
Abbreviation holds_entries := (holds_entries fs N).

(** A directory whose name is [c]; [find_dir] does not look at extensions. *)
Definition dir_named (c : component) (e : fat16_dir_entry_t) : bool := is_dir e && bool_decide (text (filename e) = cname c).

(** In the listing [pre ++ x :: post] the one directory named [c] is [x]. *)
Record only_dir (c : component) (pre : list fat16_dir_entry_t) (x : fat16_dir_entry_t) (post : list fat16_dir_entry_t) : Prop := {
  od_bare : cext c = None;
  od_dir : is_dir x = true;
  od_called : called (cname c) [] x = true;
  od_pre : Forall (fun e => dir_named c e = false) pre;
  od_post : Forall (fun e => dir_named c e = false) post
}.

(** The path of [c] and then [cs] leads from the listing [es] to the directory
    [x], through directories that lie in the clusters [ms]. *)
Inductive dir_path (d : D) : list fat16_dir_entry_t -> component -> list component -> fat16_dir_entry_t -> list Z -> Prop :=
| dp_here pre x post c : only_dir c pre x post -> dir_path d (pre ++ x :: post) c [] x []
| dp_down pre y post c ns q cs x ms :
    only_dir c pre y post -> chain fs N d (first_cluster y) ns -> dir_path d (entries_of (slots (chain_bytes fs d ns))) q cs x ms ->
    dir_path d (pre ++ y :: post) c (q :: cs) x (ns ++ ms).

Lemma only_dir_named c pre x post : only_dir c pre x post -> dir_named c x = true.
Proof. intros [_ Hd [Hn _]%bool_decide_eq_true _ _]. unfold dir_named. rewrite Hd. by rewrite bool_decide_true. Qed.

Lemma dir_named_way c e : cext c = None -> dir_named c e = false -> way c e = false.
Proof.
  intros Hc. unfold dir_named, way, called, extension_of. rewrite Hc. destruct (is_dir e); [|done]. cbn.
  intros Hn%bool_decide_eq_false. apply bool_decide_eq_false. tauto.
Qed.

(** [find_file] takes the same way. *)
Lemma dir_path_leads d es c cs x ms f sub :
  dir_path d es c cs x ms -> holds_entries d x sub ->
  leads fs N d es c (cs ++ [f]) (head (filter (fun e => Is_true (called (cname f) (extension_of f) e)) sub)).
Proof.
  intros Hp Hx.
  assert (Hway : forall c pre y post, only_dir c pre y post ->
    way c y = true /\ Forall (fun e => way c e = false) pre /\ Forall (fun e => way c e = false) post).
  { intros c' pre y post [Hb Hd Hcl Hpre Hpost]. split; [|split]; [unfold way, extension_of; by rewrite Hd, Hb|..];
      (eapply Forall_impl; [eassumption|]; intros e; by apply dir_named_way). }
  induction Hp as [pre y post c Ho|pre y post c ns q cs x ms Ho Hc Hp IH]; destruct (Hway _ _ _ _ Ho) as (H1 & H2 & H3).
  - apply (leads_down _ _ d pre y post sub c f []); [done..|constructor].
  - apply (leads_down _ _ d pre y post (entries_of (slots (chain_bytes fs d ns))) c q (cs ++ [f])); [done..| |by apply IH].
    split; [apply Ho|by exists ns].
Qed.

(** The path does not depend on what lies elsewhere. *)
Lemma dir_path_same F C (d d' : D) es c cs x ms :
  same_but fs N F C d d' -> dir_path d es c cs x ms -> (forall a, a ∈ ms -> (a ∉ F) /\ (a ∉ C)) -> dir_path d' es c cs x ms.
Proof.
  intros Hs. induction 1 as [pre x post c Ho|pre y post c ns q cs x ms Ho Hc Hp IH]; intros Hms; [by apply dp_here|].
  apply dp_down; [done|apply (chain_same fs N Hlay F C d d'); [done|done|]; intros a Ha; apply Hms; set_solver|].
  rewrite (chain_bytes_same fs N F C d d' ns Hs); [apply IH; intros a Ha; apply Hms; set_solver|].
  intros a Ha. split; [by apply (chain_valid fs N Hlay d _ ns a Hc)|apply Hms; set_solver].
Qed.

Lemma dir_path_not_free (d : D) es c cs x ms a : dir_path d es c cs x ms -> a ∈ ms -> fat fs d a <> 0.
Proof.
  induction 1 as [pre x post c Ho|pre y post c ns q cs x ms Ho Hc Hp IH]; intros Ha; [set_solver|].
  apply elem_of_app in Ha as [Ha|Ha]; [by apply (chain_not_free fs N Hlay d (first_cluster y) ns a)|by apply IH].
Qed.

Lemma bare_text c : cext c = None -> component_text c = cname c.
Proof. unfold component_text. by intros ->. Qed.

Lemma named_test c t e :
  component_ok c -> terminated e ->
  (r ← stdstring_compare (cstr (cname c) t) (filename e); Ok (r =? 0)) = Ok (bool_decide (text (filename e) = cname c)).
Proof.
  intros Hc [(x' & E1 & Hn')%cstr_text _]. assert (Hn : nonul (cname c)) by (eapply Forall_impl; [apply Hc|]; by intros y []).
  assert (stdstring_compare (cstr (cname c) t) (filename e) = Ok (lex (cname c) (text (filename e)))) as -> by (rewrite E1 at 1; by apply compare_lex).
  ok_bind. f_equal. destruct (Z.eqb_spec (lex (cname c) (text (filename e))) 0) as [E|E].
  - apply lex_eq in E. by rewrite bool_decide_true.
  - rewrite bool_decide_false; [done|]. intros En. apply E. by apply lex_eq.
Qed.

(** One call of [find_dir], up to the next. *)
Lemma find_dir_call (d : D) lead es c cs t depth :
  Forall component_ok (c :: cs) -> cext c = None -> 2 <= zlength (component_text (final c cs)) -> zlength (path_text c cs) < 2 ^ 31 ->
  Forall terminated es ->
  exists test, Forall (fun e => test e = Ok (bool_decide (text (filename e) = cname c))) es /\
    find_dir turns fs (S depth) (slash lead ++ cstr (path_text c cs) t) es d =
      match cs with
      | [] => Ok (head (filter (fun e => Is_true (dir_named c e)) es), d)
      | q :: cs => descend_into turns fs test (find_dir turns fs depth (slash true ++ cstr (path_text q cs) t)) es None d
      end.
Proof.
  intros Hok Hb Hlast Hlen Hes. pose proof Hok as [Hc _]%Forall_cons.
  exists (fun e => r ← stdstring_compare (cstr (component_text c) []) (filename e); Ok (r =? 0)). rewrite (bare_text c Hb). split.
  { eapply Forall_impl; [exact Hes|]. intros e He. by apply named_test. }
  pose proof (split_path_eq lead _ _ t (path_parts c cs Hok) (proj2 (component_part c Hc)) (conj (path_length c cs Hok Hlast) Hlen)) as E.
  cbn [find_dir]. change (slash lead ++ cstr (path_text c cs) t) with ((if lead then [SLASH] else []) ++ cstr (join_path (component_text c) (component_text <$> cs)) t).
  rewrite E. ok_bind. destruct cs as [|q cs].
  - cbn [fmap list_fmap length]. change (1 + 0 >? 1) with false. change (1 + 0 =? 1) with true. cbv beta iota. ok_bind.
    destruct (split_component c [] Hc) as (a & b & Es). unfold cstr at 1 in Es. rewrite Es. ok_bind.
    rewrite (first_entry_spec _ (dir_named c)); [done|]. eapply Forall_impl; [exact Hes|]. intros e He. unfold dir_named, is_dir.
    destruct (is_subdirectory _); [|done]. exact (named_test c a e Hc He).
  - assert (Hgt : (1 + zlength (component_text <$> q :: cs) >? 1) = true) by (apply Z.gtb_lt; rewrite length_fmap; cbn [length]; lia).
    rewrite Hgt. cbn [fmap list_fmap]. ok_bind. pose proof (descend_path_spec lead c q cs t Hok) as Ed. unfold slash at 1 in Ed. unfold path_text at 1 in Ed.
    cbn [fmap list_fmap] in Ed. rewrite Ed. ok_bind. by rewrite <- (bare_text c Hb).
Qed.

Lemma only_dir_head c pre x post : only_dir c pre x post -> head (filter (fun e => Is_true (dir_named c e)) (pre ++ x :: post)) = Some x.
Proof.
  intros Ho. pose proof (only_dir_named c pre x post Ho) as Hx. destruct Ho as [_ _ _ Hpre _]. rewrite filter_app.
  assert (filter (fun e => Is_true (dir_named c e)) pre = []) as ->.
  { induction Hpre as [|e l He _ IH]; [done|]. rewrite filter_cons_False; [done|]. rewrite He. by intros []. }
  cbn [app]. rewrite filter_cons_True by by rewrite Hx. done.
Qed.

Lemma find_dir_eq (d : D) lead es c cs x ms t depth :
  vol d -> Forall component_ok (c :: cs) -> Forall terminated es -> dir_path d es c cs x ms ->
  2 <= zlength (component_text (final c cs)) -> zlength (path_text c cs) < 2 ^ 31 -> (length cs < depth)%nat ->
  find_dir turns fs depth (slash lead ++ cstr (path_text c cs) t) es d = Ok (Some x, d).
Proof.
  intros Hv Hok Hes Hp. revert lead t depth Hok Hes.
  induction Hp as [pre x post c Ho|pre y post c ns q cs x ms Ho Hc Hp IH]; intros lead t depth Hok Hes Hlast Hlen Hd; (destruct depth as [|depth]; [lia|]).
  - destruct (find_dir_call d lead (pre ++ x :: post) c [] t depth Hok (od_bare _ _ _ _ Ho) Hlast Hlen Hes) as (test & _ & ->).
    by rewrite (only_dir_head c pre x post Ho).
  - destruct (find_dir_call d lead (pre ++ y :: post) c (q :: cs) t depth Hok (od_bare _ _ _ _ Ho) Hlast Hlen Hes) as (test & Ht & ->).
    apply (descend_one fs N Hlay test (fun e => bool_decide (text (filename e) = cname c)) _ pre y post (entries_of (slots (chain_bytes fs d ns)))); try done.
    + exact (only_dir_named c pre y post Ho).
    + apply Ho.
    + apply Ho.
    + split; [apply Ho|by exists ns].
    + apply Forall_cons in Hok as [Hc' Hok]. apply IH; [done|apply entries_terminated|exact Hlast| |simpl in Hd; lia].
      revert Hlen. unfold path_text. cbn [fmap list_fmap join_path]. rewrite length_app. cbn [length]. lia.
Qed.
End Path.

(** ** Creating at the end of a path *)
Section Creating.
Context `{BlockDeviceLaws D} (v : fat16_t) (N : Z) (Hroot : root_layout v N).
Context (depth : nat) (mem : Z -> list Z).
Abbreviation turns := (Z.to_nat 65536).
Abbreviation root_entries d := (entries_of (root_slots v d)).

(** A directory at the end of a path from the root, with a free slot. *)
Record room_at (d : D) (c : component) (cs : list component) (x : fat16_dir_entry_t) (ns : list Z) (pre : list (list Z)) (s : list Z) (post : list (list Z)) : Prop := {
  ra_parts : Forall component_ok (c :: cs);
  ra_depth : (S (length cs) < depth)%nat;
  ra_last : 2 <= zlength (component_text (final c cs));
  ra_length : zlength (path_text c cs) < 2 ^ 30;
  ra_path : exists ms, dir_path v N d (root_entries d) c cs x ms /\ (forall m, m ∈ ns -> m ∉ ms);
  ra_chain : chain v N d (first_cluster x) ns;
  ra_reach : reachable_part ns;
  ra_slots : dir_slots v d ns = pre ++ s :: post;
  ra_pre : all_taken pre;
  ra_free : slot_free s = true
}.

Lemma dir_path_nonul c cs : Forall component_ok (c :: cs) -> nonul (SLASH :: path_text c cs).
Proof. intros Hok. constructor; [done|]. by apply join_nonul, path_parts. Qed.

(** [create_new_file] in such a directory. *)
Lemma create_dir_file w n e t attr f (d : D) c cs x ns pre s post p :
  good_name n e -> spells w n e -> fs f = v -> vol v N d -> is_byte attr -> mem p = cstr ((SLASH :: path_text c cs) ++ (SLASH :: w)) t ->
  (exists m, in_table v m /\ fat v d m = 0) -> table_sane v N d -> room_at d c cs x ns pre s post ->
  exists cl m d', create_new_file turns depth mem p attr f d = Ok (0, d') /\
    in_table v cl /\ fat v d cl = 0 /\ chain v N d' cl [cl] /\ m ∈ ns /\ (cl ∉ ns) /\ same_but v N [cl] [m] d d' /\
    dir_slots v d' ns = pre ++ slot_with (first_byte (new_entry n e attr cl)) (new_entry n e attr cl) s :: post /\ zlength s = 32.
Proof.
  intros Hg Hw Hfs Hv Ha Hp (m0 & Hm0 & Hm00) Hsane [Hok Hd Hlast Hlen (ms & Hpath & _) Hc Hr Hslots Hpre Hs]. pose proof (rl_lay _ _ Hroot) as Hlay.
  destruct (first_free_spec v N Hlay d Hv) as (cl & Efree & [(Hcl & Hcl0 & _)|[_ Hnone]]); [|by destruct (Hnone m0 Hm0)].
  destruct (Hsane cl Hcl Hcl0) as [Hval Hu]. pose proof (proj1 (in_use_range cl) Hu) as Hclr.
  pose proof (new_entry_storable n e Hg attr cl Ha ltac:(lia)) as Hst. pose proof (chain_length v N Hlay d _ ns Hc).
  destruct (add_directory v N Hlay d (first_cluster x) ns (new_entry n e attr cl) pre s post turns Hv Hc Hr Hst Hslots Hpre Hs ltac:(lia))
    as (m & d1 & Hm & E1 & Hs1 & Hsl & Hs32).
  destruct (set_successor_same v N Hlay d1 cl 65535) as (d' & E2 & Hs2 & Hf2); [apply Hs1|done|lia|lia|].
  assert (Hout : cl ∉ ns). { intros Hin. by apply (chain_not_free v N Hlay d _ ns cl Hc Hin). }
  exists cl, m, d'. split.
  - rewrite (create_new_file_eq v N Hroot mem depth w n e t attr f d p (SLASH :: path_text c cs) cl) by (done || by apply dir_path_nonul).
    change ((SLASH :: path_text c cs) ++ [0]) with (slash true ++ cstr (path_text c cs) []).
    rewrite (find_dir_eq v N Hlay d true (root_entries d) c cs x ms [] depth Hv Hok (entries_terminated _) Hpath Hlast ltac:(lia) ltac:(lia)). ok_bind.
    rewrite E1. ok_bind. change (negb (0 =? 0)) with false. cbv beta iota. by rewrite E2.
  - split_and!; try done.
    + apply chain_link; [done|done|]. rewrite Hf2. by constructor.
    + by apply (same_but_trans v N Hlay [] [m] [cl] [] d d1 d').
    + rewrite <- Hsl. apply (dir_slots_same v). intros a Ha'.
      apply (sb_cluster _ _ _ _ _ _ Hs2); [|set_solver]. by apply (chain_valid v N Hlay d _ ns a Hc Ha').
Qed.

(** The rest of the tree after a change of one cluster and one free entry. *)
Section Kept.
Context (d d' : D) (cl m : Z) (Hv : vol v N d) (Hfree : fat v d cl = 0) (Hsame : same_but v N [cl] [m] d d').
Abbreviation Hlay := (rl_lay _ _ Hroot).

Lemma kept_chain first ms : chain v N d first ms -> chain v N d' first ms.
Proof.
  intros Hc. apply (chain_same v N Hlay [cl] [m] d d' first ms Hsame Hc). intros a Ha ->%list_elem_of_singleton.
  by apply (chain_not_free v N Hlay d first ms cl Hc Ha).
Qed.

Lemma kept_bytes first ms : chain v N d first ms -> m ∉ ms -> chain_bytes v d' ms = chain_bytes v d ms.
Proof.
  intros Hc Hm. apply (chain_bytes_same v N [cl] [m] d d' ms Hsame). intros a Ha. split; [by apply (chain_valid v N Hlay d first ms a Hc)|].
  intros ->%list_elem_of_singleton. done.
Qed.

Lemma kept_root : root_slots v d' = root_slots v d.
Proof. by apply (root_after_table v N Hroot d d' [cl] [m]). Qed.

Lemma kept_path es c cs x ms : dir_path v N d es c cs x ms -> m ∉ ms -> dir_path v N d' es c cs x ms.
Proof.
  intros Hp Hm. apply (dir_path_same v N Hlay [cl] [m] d d' es c cs x ms Hsame Hp). intros a Ha. split.
  - intros ->%list_elem_of_singleton. by apply (dir_path_not_free v N Hlay d es c cs x ms cl Hp).
  - by intros ->%list_elem_of_singleton.
Qed.
End Kept.

Lemma path_text_snoc c cs f : path_text c (cs ++ [f]) = path_text c cs ++ SLASH :: component_text f.
Proof.
  unfold path_text. rewrite fmap_app. cbn. generalize (component_text c). induction cs as [|q cs IH]; intros p; [done|].
  cbn. rewrite IH. by rewrite <- app_assoc.
Qed.

Lemma final_snoc c cs f : final c (cs ++ [f]) = f.
Proof. revert c. induction cs as [|q cs IH]; intros c; [done|]. apply IH. Qed.

Definition file_component (n e : list Z) : component := Component n (Some e).

Lemma file_component_ok n e : good_name n e -> component_ok (file_component n e).
Proof.
  intros [Hn He Hl Hel _]. constructor; cbn; [..|lia|lia].
  - eapply Forall_impl; [exact Hn|]. intros y (Hy & Hd & Hs & _). split_and!; [lia|done|done].
  - eapply Forall_impl; [exact He|]. intros y (Hy & _ & Hs & _). split; [lia|done].
Qed.

(** Looking a file up in the directory at the end of a path. *)
Lemma open_in_dir n e t f (d : D) c cs x ms sub p :
  good_name n e -> fs f = v -> vol v N d -> mem p = cstr ((SLASH :: path_text c cs) ++ (SLASH :: n ++ DOT :: e)) t ->
  Forall component_ok (c :: cs) -> (S (length cs) < depth)%nat -> zlength (path_text c cs) < 2 ^ 30 ->
  dir_path v N d (root_entries d) c cs x ms -> holds_entries v N d x sub ->
  open_file turns depth mem p f d =
    Ok (match head (filter (fun e' => Is_true (called n e e')) sub) with
        | Some e' => (Some (length (open_files f)), opened_at e' p f, d)
        | None => (None, f, d)
        end).
Proof.
  intros Hg Hfs Hv Hp Hok Hd Hlen Hpath Hx. set (fc := file_component n e).
  pose proof (dir_path_leads v N d _ c cs x ms fc sub Hpath Hx) as Hl. pose proof (gn_length n e Hg). pose proof (gn_ext_length n e Hg).
  assert (Ht : component_text fc = n ++ DOT :: e) by done.
  apply (open_file_eq v N (rl_lay _ _ Hroot) f d mem p c (cs ++ [fc]) _ t depth Hroot Hfs Hv).
  - rewrite path_text_snoc, Ht. exact Hp.
  - rewrite app_comm_cons. apply Forall_app. split; [done|]. constructor; [by apply file_component_ok|constructor].
  - rewrite final_snoc, Ht, length_app. cbn [length]. lia.
  - rewrite path_text_snoc, Ht, !length_app. cbn [length]. rewrite length_app. cbn [length]. lia.
  - rewrite length_app. cbn [length]. lia.
  - exact Hl.
Qed.

Lemma dir_path_dir (d : D) es c cs x ms : dir_path v N d es c cs x ms -> is_dir x = true.
Proof. by induction 1 as [? ? ? ? []|]. Qed.

(** What the directory lists, before and with an entry in a free slot. *)
Lemma room_listing (d : D) c cs x ns pre s post :
  vol v N d -> room_at d c cs x ns pre s post -> holds_entries v N d x (entries_of pre ++ entries_of (s :: post)).
Proof.
  intros Hv [_ _ _ _ (ms & Hp & _) Hc _ Hsl Hpre _]. split; [by eapply dir_path_dir|]. exists ns. split; [done|].
  rewrite <- (dir_slots_chain v N (rl_lay _ _ Hroot) d _ ns Hv Hc), Hsl. by rewrite entries_app by by apply taken_no_end.
Qed.

Lemma none_called n e l : Forall (fun entry => called n e entry = false) l -> filter (fun entry => Is_true (called n e entry)) l = [].
Proof. intros Hl. induction Hl as [|x l Hx _ IH]; [done|]. rewrite filter_cons_False; [done|]. rewrite Hx. by intros []. Qed.

(** [open] with [O_CREAT] of a new name in such a directory. *)
Lemma create_in_dir n e t flags f (d : D) c cs x ns pre s post p :
  good_name n e -> fs f = v -> vol v N d -> table_sane v N d ->
  mem p = cstr ((SLASH :: path_text c cs) ++ (SLASH :: n ++ DOT :: e)) t ->
  find_open_file mem p (open_files f) = Ok None -> Z.land flags O_CREAT <> 0 ->
  (exists m, in_table v m /\ fat v d m = 0) -> room_at d c cs x ns pre s post ->
  Forall (fun entry => called n e entry = false) (entries_of pre ++ entries_of (s :: post)) ->
  exists cl d', sys_open turns depth mem p flags f d =
      Ok (next_fd f, opened (listed_entry n e 0 cl) p (negb (Z.land flags O_APPEND =? 0)) f, d') /\
    called n e (listed_entry n e 0 cl) = true /\ first_cluster (listed_entry n e 0 cl) = cl /\ file_size_bytes (listed_entry n e 0 cl) = 0 /\
    vol v N d' /\ fat v d cl = 0 /\ chain v N d' cl [cl] /\
    holds_entries v N d' x (entries_of pre ++ listed_entry n e 0 cl :: entries_of post) /\
    root_slots v d' = root_slots v d /\ (exists ms, dir_path v N d' (root_entries d') c cs x ms) /\
    (forall first ms, chain v N d first ms -> (forall a, a ∈ ms -> a ∉ ns) ->
       chain v N d' first ms /\ chain_bytes v d' ms = chain_bytes v d ms).
Proof.
  intros Hg Hfs Hv Hsane Hp Hopen Hfl Hfree Hra Hnone. pose proof (room_listing d c cs x ns pre s post Hv Hra) as Hx.
  destruct (create_dir_file (n ++ DOT :: e) n e t 0 f d c cs x ns pre s post p) as (cl & m & d' & Ecreate & Hcl & Hcl0 & Hchain & Hm & Hout & Hsame & Hsl & Hs32); try done; [by apply spells_dotted|].
  pose proof Hra as [Hok Hd Hlast Hlen (ms & Hpath & Hapart) Hc Hr Hslots Hpre Hs]. pose proof (kept_root d d' cl m Hv Hsame) as Ert.
  assert (Hms : m ∉ ms) by by apply Hapart. pose proof (kept_path d d' cl m Hcl0 Hsame _ c cs x ms Hpath Hms) as Hpath'. rewrite <- Ert in Hpath'.
  assert (Hx' : holds_entries v N d' x (entries_of pre ++ listed_entry n e 0 cl :: entries_of post)).
  { split; [apply Hx|]. exists ns. pose proof (kept_chain d d' cl m Hcl0 Hsame _ ns Hc) as Hc'. split; [done|].
    rewrite <- (dir_slots_chain v N (rl_lay _ _ Hroot) d' _ ns (sb_vol _ _ _ _ _ _ Hsame) Hc'), Hsl, entries_app by by apply taken_no_end.
    rewrite listed_slot_with; [done|done|apply new_entry_storable; [done|done|]|by apply new_entry_first].
    destruct (Hsane cl Hcl Hcl0) as [_ Hu%in_use_range]. lia. }
  exists cl, d'. pose proof (listed_entry_called n e Hg 0 cl) as Hcalled. split.
  - unfold sys_open. rewrite Hopen. ok_bind.
    rewrite (open_in_dir n e t f d c cs x ms _ p Hg Hfs Hv Hp Hok Hd Hlen Hpath Hx), none_called by done. cbn [head]. ok_bind.
    destruct (Z.eqb_spec (Z.land flags O_CREAT) 0); [done|]. cbn [negb]. rewrite Ecreate. ok_bind. change (0 =? -1) with false. cbv beta iota.
    rewrite (open_in_dir n e t f d' c cs x ms _ p Hg Hfs (sb_vol _ _ _ _ _ _ Hsame) Hp Hok Hd Hlen Hpath' Hx').
    apply Forall_app in Hnone as [Hn1 _]. rewrite filter_app, none_called by done. cbn [app]. rewrite filter_cons_True by by rewrite Hcalled. cbn [head]. ok_bind.
    unfold opened, opened_at, update_open. cbn [open_files with_open_files]. by rewrite update_last, list_lookup_middle by done.
  - split_and!; try done; [apply Hsame|by exists ms|]. intros first ms' Hms' Hdis. split; [by apply (kept_chain d d' cl m Hcl0 Hsame)|].
    apply (kept_bytes d d' cl m Hsame first ms' Hms'). intros Hin. by apply (Hdis m Hin).
Qed.

(** C7 (functional): opening a file that does not exist at the end of a path of
    any depth, with [O_CREAT]. The file's name has one to seven plain
    characters, the first not 0x05, a dot and an extension of at most three
    ([good_name]); the parts of the path have one to seven characters and an
    extension of at most three, the last of them at least two in all, and the
    clusters of the directory after the first are not above 0xfef ([room_at]).
    The directory the path leads to lists the file, where it had a free slot;
    the call returns the next descriptor, open on an empty file of that name
    whose one cluster was free; the root directory is as before, the path still
    leads to the directory, and every chain that does not run through the
    directory keeps its clusters and its bytes. *)
Theorem create_in_directory n e t flags f (d : D) c cs x ns pre s post p :
  good_name n e -> fs f = v -> vol v N d -> table_sane v N d ->
  mem p = cstr ((SLASH :: path_text c cs) ++ (SLASH :: n ++ DOT :: e)) t ->
  find_open_file mem p (open_files f) = Ok None -> Z.land flags O_CREAT <> 0 ->
  (exists m, in_table v m /\ fat v d m = 0) -> room_at d c cs x ns pre s post ->
  Forall (fun entry => called n e entry = false) (entries_of pre ++ entries_of (s :: post)) ->
  exists cl d', sys_open turns depth mem p flags f d =
      Ok (next_fd f, opened (listed_entry n e 0 cl) p (negb (Z.land flags O_APPEND =? 0)) f, d') /\
    called n e (listed_entry n e 0 cl) = true /\ first_cluster (listed_entry n e 0 cl) = cl /\ file_size_bytes (listed_entry n e 0 cl) = 0 /\
    vol v N d' /\ fat v d cl = 0 /\ chain v N d' cl [cl] /\
    holds_entries v N d' x (entries_of pre ++ listed_entry n e 0 cl :: entries_of post) /\
    root_slots v d' = root_slots v d /\ (exists ms, dir_path v N d' (root_entries d') c cs x ms) /\
    (forall first ms, chain v N d first ms -> (forall a, a ∈ ms -> a ∉ ns) ->
       chain v N d' first ms /\ chain_bytes v d' ms = chain_bytes v d ms).
Proof. apply create_in_dir. Qed.
End Creating.

(** ** Making a directory *)
Section Mkdir.
Context `{BlockDeviceLaws D} (v : fat16_t) (N : Z) (Hroot : root_layout v N).
Context (depth : nat) (mem : Z -> list Z).
Abbreviation turns := (Z.to_nat 65536).
Abbreviation root_entries d := (entries_of (root_slots v d)).
Abbreviation dir_component n := (Component n None).

Lemma dir_component_ok n : good_name n [] -> component_ok (dir_component n).
Proof.
  intros [Hn _ Hl Hel _]. constructor; cbn; [|constructor|lia|lia]. eapply Forall_impl; [exact Hn|].
  intros y (Hy & Hd & Hs & _). split_and!; [lia|done|done].
Qed.

Lemma listed_entry_is_dir n e c : is_dir (listed_entry n e 16 c) = true.
Proof. done. Qed.

(** [mkdir] in the root directory. The new directory lists what its cluster
    held before: nothing when it was blank. *)
Lemma mkdir_eq (k : nat) n t f (d : D) pre s post p :
  good_name n [] -> 2 <= zlength n -> fs f = v -> vol v N d -> table_sane v N d -> mem p = cstr (SLASH :: n) t ->
  (exists m, in_table v m /\ fat v d m = 0) ->
  root_slots v d = pre ++ s :: post -> all_taken pre -> slot_free s = true ->
  Forall (fun entry => called n [] entry = false) (root_entries d) ->
  exists cl d1 d', sys_mkdir turns (S k) mem p f d = Ok (0, d') /\
    in_table v cl /\ fat v d cl = 0 /\ chain v N d' cl [cl] /\ only_root v N d d1 /\ same_but v N [cl] [] d1 d' /\ fat v d' cl = 65535 /\
    root_entries d' = entries_of pre ++ listed_entry n [] 16 cl :: entries_of post /\
    holds_entries v N d' (listed_entry n [] 16 cl) (entries_of (slots (cluster v d cl))).
Proof.
  intros Hg H2 Hfs Hv Hsane Hp Hfree Hslots Hpre Hs Hnone. pose proof (rl_lay _ _ Hroot) as Hlay.
  destruct (create_root_file v N Hroot k mem n n [] t 16 f d pre s post p) as (cl & d1 & d' & E & Hcl & Hcl0 & Hch & Hu & Hsame & Hf & Hsl & Hs32 & Hlist);
    try done; [by apply spells_bare|].
  destruct (Hsane cl Hcl Hcl0) as [Hval _]. exists cl, d1, d'. split.
  - unfold sys_mkdir. rewrite Hfs, (get_root_dir_eq v N Hroot) by done. ok_bind. rewrite Hp.
    change (cstr (SLASH :: n) t) with (SLASH :: cstr n t). rewrite (buf_get_lookup _ 0 SLASH) by done. ok_bind.
    change (negb (SLASH =? SLASH)) with false. cbv beta iota. pose proof (gn_name n [] Hg) as Hn. destruct n as [|x n'] eqn:En; [simpl in H2; lia|].
    rewrite (buf_get_lookup _ 1 x) by done. ok_bind. apply Forall_cons in Hn as [(Hx & _) _]. destruct (Z.eqb_spec x 0); [lia|]. rewrite <- En in *.
    change (drop 1 (SLASH :: cstr n t)) with (slash false ++ cstr (path_text (dir_component n) []) t). pose proof (gn_length n [] Hg).
    rewrite (find_file_eq v N Hlay d false (root_entries d) (dir_component n) [] (head (filter (fun e => Is_true (called n [] e)) (root_entries d))) t (S k) Hv);
      [|constructor; [by apply dir_component_ok|constructor]|apply entries_terminated|constructor|exact H2|cbn; lia|cbn; lia]. ok_bind.
    rewrite none_called by done. exact E.
  - split_and!; try done. split; [done|]. exists [cl]. split; [done|]. f_equal. unfold chain_bytes. cbn. rewrite app_nil_r. f_equal.
    rewrite (sb_cluster _ _ _ _ _ _ Hsame); [|apply Hval|set_solver]. symmetry. apply (only_root_same v N Hroot d d1 Hv Hu), Hval.
Qed.

Definition blank (b : list Z) : Prop := Forall (fun x => x = 0) b.

Lemma blank_slots b : blank b -> Forall (fun s => byte s 0 = 0) (slots b).
Proof.
  intros Hb. unfold slots. apply Forall_fmap, Forall_forall. intros j [Hj _]%elem_of_seqZ. cbn. unfold slot. rewrite byte_slice by lia.
  unfold byte. destruct (b !! _) as [x|] eqn:E; [|done]. by apply (Forall_lookup_1 _ _ _ _ Hb E).
Qed.

Lemma blank_entries ss : Forall (fun s => byte s 0 = 0) ss -> entries_of ss = [].
Proof. intros Hs. destruct Hs as [|s ss E _]; [done|]. unfold entries_of. cbn [listed]. by rewrite E. Qed.

(** A blank cluster is a directory with room. *)
Lemma blank_room (d : D) es n cl : Forall (fun e => dir_named (dir_component n) e = false) es ->
  good_name n [] -> 2 <= zlength n -> vol v N d -> on_disk v N cl -> chain v N d cl [cl] -> blank (cluster v d cl) ->
  forall pre post, root_entries d = pre ++ listed_entry n [] 16 cl :: post -> es = pre ++ post ->
  exists s rest, room_at v N (2 + depth) d (dir_component n) [] (listed_entry n [] 16 cl) [cl] [] s rest /\ entries_of (s :: rest) = [] /\ entries_of rest = [].
Proof.
  intros Hes Hg H2 Hv Hcl Hch Hb pre post Hroot_es ->. pose proof (blank_slots _ Hb) as Hz. apply Forall_app in Hes as [Hpre Hpost].
  assert (Hlen : 0 < zlength (slots (cluster v d cl))).
  { rewrite slots_length. rewrite (cluster_length v N (rl_lay _ _ Hroot) d cl Hv Hcl). pose proof (lay_spc _ _ (rl_lay _ _ Hroot)).
    unfold cluster_size, sector_size. apply Z.div_str_pos. lia. }
  destruct (slots (cluster v d cl)) as [|s rest] eqn:E; [simpl in Hlen; lia|]. pose proof Hz as [Hs Hrest]%Forall_cons. pose proof (gn_length n [] Hg).
  exists s, rest. split; [|split; by apply blank_entries]. constructor.
  - constructor; [by apply dir_component_ok|constructor].
  - cbn. lia.
  - exact H2.
  - cbn. lia.
  - exists []. split; [|set_solver]. rewrite Hroot_es. apply dp_here. split; [done|done|by apply listed_entry_called|done|done].
  - exact Hch.
  - constructor.
  - unfold dir_slots. cbn. by rewrite E, app_nil_r.
  - constructor.
  - unfold slot_free. by rewrite Hs.
Qed.

(** What [mkdir] leaves in a volume whose free clusters are blank: a directory
    that lists nothing and has room, in a sane volume, with every chain as it
    was. *)
Record mkdir_left (d d1 : D) (dn : list Z) (cl : Z) (before after : list fat16_dir_entry_t) : Prop := {
  ml_vol : vol v N d1;
  ml_sane : table_sane v N d1;
  ml_free : fat v d cl = 0;
  ml_taken : fat v d1 cl <> 0;
  ml_others : forall m, m <> cl -> in_table v m -> fat v d1 m = fat v d m;
  ml_root : root_entries d1 = before ++ listed_entry dn [] 16 cl :: after;
  ml_room : exists s rest, room_at v N (2 + depth) d1 (dir_component dn) [] (listed_entry dn [] 16 cl) [cl] [] s rest /\
    entries_of (s :: rest) = [] /\ entries_of rest = [];
  ml_chains : forall first ms, chain v N d first ms -> chain v N d1 first ms /\ chain_bytes v d1 ms = chain_bytes v d ms
}.

Lemma mkdir_leaves dn td f (d : D) pre s post pd :
  good_name dn [] -> 2 <= zlength dn -> fs f = v -> vol v N d -> table_sane v N d -> mem pd = cstr (SLASH :: dn) td ->
  (exists m, in_table v m /\ fat v d m = 0) -> (forall m, in_table v m -> fat v d m = 0 -> blank (cluster v d m)) ->
  root_slots v d = pre ++ s :: post -> all_taken pre -> slot_free s = true ->
  Forall (fun entry => called dn [] entry = false /\ dir_named (dir_component dn) entry = false) (root_entries d) ->
  Forall (fun entry => dir_named (dir_component dn) entry = false) (entries_of post) ->
  exists cl d1, sys_mkdir turns (2 + depth) mem pd f d = Ok (0, d1) /\ mkdir_left d d1 dn cl (entries_of pre) (entries_of post).
Proof.
  intros Hdn H2 Hfs Hv Hsane Hpd Hfree Hblank Hslots Hpre Hs Hnone Hpost.
  destruct (mkdir_eq (S depth) dn td f d pre s post pd) as (cl1 & d0 & d1 & E1 & Hcl1 & Hcl10 & Hch1 & Hu & Hs1 & Hf1 & Hr1 & Hx1); try done.
  { eapply Forall_impl; [exact Hnone|]. by intros x []. }
  pose proof (rl_lay _ _ Hroot) as Hlay. destruct (only_root_same v N Hroot d d0 Hv Hu) as [Hf Hc].
  pose proof (sb_vol _ _ _ _ _ _ Hs1) as Hv1. destruct (Hsane cl1 Hcl1 Hcl10) as [[_ Hd1] _].
  assert (Hfat : forall m, m <> cl1 -> in_table v m -> fat v d1 m = fat v d m).
  { intros m Hne Hm. rewrite (sb_fat _ _ _ _ _ _ Hs1), Hf by (done || set_solver). done. }
  assert (Hcl : forall m, on_disk v N m -> cluster v d1 m = cluster v d m).
  { intros m Hm. rewrite (sb_cluster _ _ _ _ _ _ Hs1) by (done || set_solver). by apply Hc. }
  rewrite Hslots, entries_app in Hnone by by apply taken_no_end. apply Forall_app in Hnone as [Hnone _].
  destruct (blank_room d1 (entries_of pre ++ entries_of post) dn cl1) with (pre := entries_of pre) (post := entries_of post)
    as (s' & rest & Hra & He1 & He2); try done.
  { apply Forall_app. split; [|done]. eapply Forall_impl; [exact Hnone|]. by intros x []. }
  { rewrite Hcl by done. by apply Hblank. }
  exists cl1, d1. split; [done|]. split; try done; [|congruence|by exists s', rest|].
  - intros m Hm Hm0. assert (m <> cl1) by congruence. apply Hsane; [done|]. by rewrite <- Hfat.
  - intros first ms. by apply (chains_after_creation v N Hroot d d0 d1 cl1).
Qed.

(** [mkdir] and then a file in the new directory. In a volume
    whose free clusters are blank, with a free slot in the root directory and
    two free clusters, [mkdir] of a new name succeeds; a file created in that
    directory afterwards is open under the next descriptor, and is all that the
    directory lists; the root directory lists the directory and all that was
    there, and every chain keeps its clusters and its bytes. *)
Lemma mkdir_then_create dn n e td tf flags f (d : D) pre s post pd pf :
  good_name dn [] -> 2 <= zlength dn -> good_name n e -> fs f = v -> vol v N d -> table_sane v N d ->
  mem pd = cstr (SLASH :: dn) td -> mem pf = cstr ((SLASH :: dn) ++ (SLASH :: n ++ DOT :: e)) tf ->
  (exists m1 m2, m1 <> m2 /\ in_table v m1 /\ fat v d m1 = 0 /\ in_table v m2 /\ fat v d m2 = 0) ->
  (forall m, in_table v m -> fat v d m = 0 -> blank (cluster v d m)) ->
  root_slots v d = pre ++ s :: post -> all_taken pre -> slot_free s = true ->
  Forall (fun entry => called dn [] entry = false /\ dir_named (dir_component dn) entry = false) (root_entries d) ->
  Forall (fun entry => dir_named (dir_component dn) entry = false) (entries_of post) ->
  find_open_file mem pf (open_files f) = Ok None -> Z.land flags O_CREAT <> 0 ->
  exists cl1 d1, sys_mkdir turns (2 + depth) mem pd f d = Ok (0, d1) /\
    exists cl2 d2, sys_open turns (2 + depth) mem pf flags f d1 =
        Ok (next_fd f, opened (listed_entry n e 0 cl2) pf (negb (Z.land flags O_APPEND =? 0)) f, d2) /\
      fat v d cl1 = 0 /\ fat v d cl2 = 0 /\ cl1 <> cl2 /\ chain v N d2 cl2 [cl2] /\
      root_entries d2 = entries_of pre ++ listed_entry dn [] 16 cl1 :: entries_of post /\
      holds_entries v N d2 (listed_entry dn [] 16 cl1) [listed_entry n e 0 cl2] /\
      (forall first ms, chain v N d first ms -> chain v N d2 first ms /\ chain_bytes v d2 ms = chain_bytes v d ms).
Proof.
  intros Hdn H2 Hg Hfs Hv Hsane Hpd Hpf (m1 & m2 & Hm12 & Hm1 & Hm10 & Hm2 & Hm20) Hblank Hslots Hpre Hs Hnone Hpost Hopen Hfl.
  destruct (mkdir_leaves dn td f d pre s post pd) as (cl1 & d1 & E1 & [Hv1 Hsane1 Hcl10 Hcl11 Hoth Hr1 (s' & rest & Hra & He1 & He2) Hch1]); try done; [by exists m1|].
  destruct (create_in_dir v N Hroot (2 + depth) mem n e tf flags f d1 (dir_component dn) [] (listed_entry dn [] 16 cl1) [cl1] [] s' rest pf)
    as (cl2 & d2 & E2 & _ & _ & _ & _ & Hcl20 & Hch2 & Hx2 & Hr2 & _ & Hkept); try done.
  - destruct (decide (m1 = cl1)) as [->|]; [exists m2|exists m1]; (split; [done|]); by rewrite Hoth.
  - by rewrite He1.
  - assert (Hcl2 : cl2 <> cl1) by congruence.
    assert (Hin2 : in_table v cl2) by by apply (chain_valid v N (rl_lay _ _ Hroot) d2 cl2 [cl2] cl2 Hch2); left.
    exists cl1, d1. split; [done|]. exists cl2, d2. split; [done|]. split_and!; try done.
    + by rewrite <- Hoth.
    + by rewrite Hr2.
    + by rewrite He2 in Hx2.
    + intros first ms Hms. destruct (Hch1 first ms Hms) as [Hms1 Hb1]. destruct (Hkept first ms Hms1) as [Hms2 Hb2]; [|by rewrite Hb2].
      intros a Ha ->%list_elem_of_singleton. by apply (chain_not_free v N (rl_lay _ _ Hroot) d first ms cl1 Hms).
Qed.
End Mkdir.

(** ** At work: a volume with a directory and two blank clusters *)
Definition yard_entries : list Z := [65528; 65535; 65535; 65535; 0; 65535; 0] ++ replicate 249 65535.
Definition yard_blocks : list (list Z) :=
  [replicate 512 0; x ← yard_entries; [x mod 256; x / 256]; subdir_slot ++ replicate 480 0;
   story_slot ++ replicate 480 0; replicate 512 3; replicate 512 0; replicate 512 5; replicate 512 0].
Definition yard : ram_disk := RamDisk yard_blocks.

Lemma yard_ok : vol demo_fs 8 yard.
Proof.
  assert (Hb : Forall (fun b => zlength b = sector_size /\ is_bytes b) yard_blocks) by (apply (bool_decide_unpack _); by vm_compute).
  split; [exact Hb|split; [done|]]. vm_compute. discriminate.
Qed.

Lemma yard_free m : in_table demo_fs m -> fat demo_fs yard m = 0 -> m = 4 \/ m = 6.
Proof.
  assert (Hall : Forall (fun m => fat demo_fs yard m = 0 -> m = 4 \/ m = 6) (seqZ 0 256)) by (apply (bool_decide_unpack _); by vm_compute).
  intros Hm. unfold in_table in Hm. simpl in Hm. apply (proj1 (Forall_forall _ _) Hall m), elem_of_seqZ. lia.
Qed.

Lemma yard_sane : table_sane demo_fs 8 yard.
Proof. apply sane_by_check, (bool_decide_unpack _). by vm_compute. Qed.

Lemma yard_chain : chain demo_fs 8 yard 2 [2].
Proof. apply (chain_by_value _ 2 65535); [by vm_compute|lia|by constructor]. Qed.

Lemma yard_root : entries_of (root_slots demo_fs yard) = [DirEntry (bytes_of "SUBDIR" ++ [0; 0; 0]) [0; 0; 0; 0] 16 2 0].
Proof. by vm_compute. Qed.

Definition yard_dir : fat16_dir_entry_t := DirEntry (bytes_of "SUBDIR" ++ [0; 0; 0]) [0; 0; 0; 0] 16 2 0.

Lemma yard_room : room_at demo_fs 8 2 yard subdir [] yard_dir [2] [story_slot] (replicate 32 0) (replicate 14 (replicate 32 0)).
Proof.
  constructor; [repeat constructor; cbn; (lia || done)|simpl; lia|by vm_compute|by vm_compute| |exact yard_chain|constructor|by vm_compute|repeat constructor|done].
  exists []. split; [|set_solver]. rewrite yard_root. apply (dp_here _ _ _ [] _ [] subdir). by constructor.
Qed.

Lemma create_in_directory_witness :
  let e := listed_entry (bytes_of "TODO") (bytes_of "MD") 0 in
  exists cl d', sys_open (Z.to_nat 65536) 2 (demo_mem "/SUBDIR/TODO.MD") 4096 1 demo_files yard =
      Ok (3, opened (e cl) 4096 false demo_files, d') /\
    called (bytes_of "TODO") (bytes_of "MD") (e cl) = true /\ first_cluster (e cl) = cl /\ file_size_bytes (e cl) = 0 /\
    vol demo_fs 8 d' /\ fat demo_fs yard cl = 0 /\ chain demo_fs 8 d' cl [cl] /\
    holds_entries demo_fs 8 d' yard_dir (entries_of [story_slot] ++ e cl :: entries_of (replicate 14 (replicate 32 0))) /\
    root_slots demo_fs d' = root_slots demo_fs yard /\
    (exists ms, dir_path demo_fs 8 d' (entries_of (root_slots demo_fs d')) subdir [] yard_dir ms) /\
    (forall first ms, chain demo_fs 8 yard first ms -> (forall a, a ∈ ms -> a ∉ [2]) ->
       chain demo_fs 8 d' first ms /\ chain_bytes demo_fs d' ms = chain_bytes demo_fs yard ms).
Proof.
  apply (create_in_directory demo_fs 8 demo_root_layout 2 (demo_mem "/SUBDIR/TODO.MD") (bytes_of "TODO") (bytes_of "MD") [] 1 demo_files yard
    subdir [] yard_dir [2] [story_slot] (replicate 32 0) (replicate 14 (replicate 32 0)) 4096);
    [exact demo_good_name|done|exact yard_ok|exact yard_sane|done|done|done| |exact yard_room|].
  - exists 4. split; [unfold in_table; simpl; lia|by vm_compute].
  - apply (bool_decide_unpack _). by vm_compute.
Defined.

(** One memory with both paths. *)
Definition yard_mem (p : Z) : list Z :=
  if p =? 4096 then cstr (bytes_of "/NEW") [] else if p =? 8192 then cstr (bytes_of "/NEW/TODO.MD") [] else [0].

Lemma new_good : good_name (bytes_of "NEW") [].
Proof. constructor; [repeat constructor; done|repeat constructor; done|simpl; lia|simpl; lia|done]. Qed.

Lemma mkdir_then_create_witness :
  exists cl1 d1, sys_mkdir (Z.to_nat 65536) 2 yard_mem 4096 demo_files yard = Ok (0, d1) /\
    exists cl2 d2, sys_open (Z.to_nat 65536) 2 yard_mem 8192 1 demo_files d1 =
        Ok (3, opened (listed_entry (bytes_of "TODO") (bytes_of "MD") 0 cl2) 8192 false demo_files, d2) /\
      fat demo_fs yard cl1 = 0 /\ fat demo_fs yard cl2 = 0 /\ cl1 <> cl2 /\ chain demo_fs 8 d2 cl2 [cl2] /\
      entries_of (root_slots demo_fs d2) = entries_of [subdir_slot] ++ listed_entry (bytes_of "NEW") [] 16 cl1 :: entries_of (replicate 14 (replicate 32 0)) /\
      holds_entries demo_fs 8 d2 (listed_entry (bytes_of "NEW") [] 16 cl1) [listed_entry (bytes_of "TODO") (bytes_of "MD") 0 cl2] /\
      (forall first ms, chain demo_fs 8 yard first ms -> chain demo_fs 8 d2 first ms /\ chain_bytes demo_fs d2 ms = chain_bytes demo_fs yard ms).
Proof.
  apply (mkdir_then_create demo_fs 8 demo_root_layout 0 yard_mem (bytes_of "NEW") (bytes_of "TODO") (bytes_of "MD") [] [] 1 demo_files yard
    [subdir_slot] (replicate 32 0) (replicate 14 (replicate 32 0)) 4096 8192);
    [exact new_good|simpl; lia|exact demo_good_name|done|exact yard_ok|exact yard_sane|done|done| | | | |done| | |done|done].
  - exists 4, 6. unfold in_table. simpl. split_and!; (done || lia || by vm_compute).
  - intros m Hm H0. destruct (yard_free m Hm H0) as [->| ->]; apply (bool_decide_unpack _); by vm_compute.
  - by vm_compute.
  - repeat constructor.
  - rewrite yard_root. apply (bool_decide_unpack _). by vm_compute.
  - constructor.
Defined.
