(* ===== verification/FullDir.v ===== *)
(** * A directory without a free slot

    What [add_directory_entry] and [create_new_file] of file.c do when every
    slot of a directory other than the root is taken: they add a cluster to the
    directory, which is also the cluster of the new file. *)
From S2P Require Import Prelude Mem Strings Disk Fat16 Volume Files Directory Slots Root Paths FileSys Descriptors Names Create Tree Subdir.

Section Full.
Context `{BlockDeviceLaws D} (fs : fat16_t) (N : Z) (Hlay : layout fs N).
Abbreviation vol := (vol fs N).
Abbreviation chain := (chain fs N).
Abbreviation cluster := (cluster fs).
Abbreviation same_but := (same_but fs N).

Lemma taken_not_free l : all_taken l -> Forall (fun s => slot_free s = false) l.
Proof. done. Qed.

Lemma cluster_missed d n : vol d -> valid fs N n -> all_taken (slots (cluster d n)) ->
  find_first_free_space_in_directory_cluster fs (cluster d n) = Ok (-1).
Proof.
  intros Hv Hn Ht. rewrite (free_search_dir fs N Hlay). apply (search_miss fs N Hlay _ slot_free (free_searches _ (per_cluster_pos fs N Hlay))); done.
Qed.

(** The loop, up to the last cluster. *)
Lemma add_walk d l : forall n m prev fuel,
  vol d -> chain d n (l ++ [m]) -> reachable_part (l ++ [m]) -> all_taken (dir_slots fs d (l ++ [m])) ->
  exists prev', while_loop (length l + fuel) (add_turn fs) (prev, n, cluster d n, -1, d) =
    while_loop fuel (add_turn fs) (prev', m, cluster d m, -1, d).
Proof.
  induction l as [|a l IH]; intros n m prev fuel Hv Hc Hr Ht.
  - exists prev. inversion Hc; by subst.
  - assert (n = a) as -> by (inversion Hc; congruence). unfold dir_slots in Ht. cbn in Ht. apply Forall_app in Ht as [_ Ht].
    destruct (next_in_reach fs N Hlay d a (l ++ [m]) Hv Hc ltac:(by destruct l) Hr) as (Eg & Hpe & Hval & Hc' & ns' & Ens & Hr').
    destruct (IH (fat fs d a) m a fuel Hv Hc' Hr' Ht) as (prev' & E). exists prev'. rewrite <- E. cbn [length Nat.add]. rewrite while_loop_S.
    assert (Ha : valid fs N a) by (apply (chain_valid fs N Hlay d a (a :: l ++ [m]) a Hc); set_solver).
    assert (Et : add_turn fs (prev, a, cluster d a, -1, d) = Ok (inl (a, fat fs d a, cluster d (fat fs d a), -1, d))).
    { unfold add_turn. change (-1 =? -1) with true. cbv beta iota. rewrite Eg. ok_bind. rewrite Hpe.
      rewrite (load_cluster_spec fs N Hlay); [|done|apply Hval|apply (cluster_length fs N Hlay); [done|apply Ha]]. ok_bind.
      rewrite cluster_missed; [done|done|done|]. rewrite Ens in Ht. cbn in Ht. by apply Forall_app in Ht as [Ht _]. }
    by rewrite Et.
Qed.

(** The turn after it. *)
Lemma add_extends d n prev c :
  vol d -> valid fs N n -> in_use n = true -> past_end (fat fs d n) = true -> find_first_free_cluster fs d = Ok (c, d) -> in_table fs c -> 2 <= c < 2 ^ 16 ->
  exists d', add_turn fs (prev, n, cluster d n, -1, d) = Ok (inr (Some (c, cluster d n, 0), d')) /\ same_but [n] [] d d' /\ fat fs d' n = c.
Proof.
  intros Hv Hn Hu Hpe Efree Hc Hc2. pose proof (proj1 (in_use_range n) Hu).
  destruct (set_successor_same fs N Hlay d n c Hv (proj1 Hn)) as (d' & E & Hs & Hf); [lia|lia|]. exists d'. split; [|done].
  unfold add_turn. change (-1 =? -1) with true. cbv beta iota. destruct (get_successor_spec fs N Hlay d n Hv (proj1 Hn)) as [-> _]; [lia|].
  ok_bind. rewrite Hpe, Efree. ok_bind. destruct (Z.ltb_spec c 2); [lia|]. by rewrite E.
Qed.

(** Adding an entry to a full directory: the new cluster starts as a copy of
    the last one. *)
Lemma add_directory_full d n ns m e c fuel s0 q :
  vol d -> chain d n (ns ++ [m]) -> reachable_part (ns ++ [m]) -> storable e -> all_taken (dir_slots fs d (ns ++ [m])) ->
  find_first_free_cluster fs d = Ok (c, d) -> valid fs N c -> in_use c = true -> fat fs d c = 0 -> slots (cluster d m) = s0 :: q ->
  (length ns < fuel)%nat ->
  exists d', add_directory_entry fuel fs n e d = Ok (0, d') /\ same_but [m] [c] d d' /\ fat fs d' m = c /\
    slots (cluster d' c) = slot_with (first_byte e) e s0 :: q /\ zlength s0 = 32.
Proof.
  intros Hv Hc Hr He Ht Efree Hval Huc Hc0 Hsl Hf. pose proof (proj1 (in_use_range c) Huc).
  assert (Hin : forall a, a ∈ ns ++ [m] -> valid fs N a /\ in_use a = true) by (intros a; by apply (chain_valid fs N Hlay d n)).
  destruct (Hin m ltac:(set_solver)) as [Hm Hum]. assert (Hn : valid fs N n) by (apply Hin; inversion Hc; [by destruct ns|left]).
  assert (Hend : past_end (fat fs d m) = true).
  { clear -Hc. revert n Hc. induction ns as [|a ns IH]; intros n Hc; inversion Hc as [|? ? _ _ Hc']; subst; [|by apply (IH _ Hc')].
    inversion Hc' as [? Hr|]. unfold past_end. lia. }
  destruct (add_walk d ns n m 0 (S (fuel - S (length ns)))%nat Hv Hc Hr Ht) as (prev & Ew).
  destruct (add_extends d m prev c Hv Hm Hum Hend Efree (proj1 Hval)) as (d1 & Et & Hs1 & Hf1); [lia|].
  destruct (cluster_slots fs N Hlay d m Hv Hm) as [Hb Hl]. destruct He as [Hok Hfn Hex Hat].
  destruct (slots_decomp _ _ [] _ _ Hl Hsl) as [Hlt Hs0]. set (b := stored (cluster d m) 0 (first_byte e) e).
  assert (Hfb : is_byte (first_byte e)) by (unfold first_byte; destruct (_ =? _); [done|]; by apply byte_bytes).
  destruct (write_cluster_same fs N Hlay d1 c b (sb_vol _ _ _ _ _ _ Hs1) (proj2 Hval)) as (d' & Ewr & Hs2 & Hcl).
  { unfold b. rewrite stored_length by (done || lia). apply (cluster_length fs N Hlay); [done|apply Hm]. }
  { by apply stored_bytes. }
  exists d'. pose proof (same_but_trans fs N Hlay _ _ _ _ _ _ _ Hs1 Hs2) as Hs. split; [|split; [exact Hs|split; [|split]]].
  - unfold add_directory_entry. rewrite (load_cluster_spec fs N Hlay); [|done|apply Hn|apply (fresh_length fs N Hlay)]. ok_bind.
    rewrite cluster_missed; [|done|done|].
    + ok_bind. replace fuel with (length ns + S (fuel - S (length ns)))%nat by lia. rewrite Ew, while_loop_S, Et. ok_bind. rewrite stored_first_spec by done. ok_bind.
      rewrite store_entry_spec by (done || lia). ok_bind. change (write_cluster fs c _ d1) with (write_cluster fs c b d1). by rewrite Ewr.
    + assert (Hsub : exists post, dir_slots fs d (ns ++ [m]) = slots (cluster d n) ++ post).
      { inversion Hc as [? ? E1 E2|? ns' ? ? ? E1 E2]; [by destruct ns|]. by eexists. }
      destruct Hsub as [post Ep]. rewrite Ep in Ht. by apply Forall_app in Ht as [Ht _].
  - by rewrite (sb_fat _ _ _ _ _ _ Hs2 m (proj1 Hm)) by apply not_elem_of_nil.
  - rewrite Hcl. by apply (slots_stored _ (per_cluster fs) [] s0 q).
  - rewrite <- Hs0. unfold slot. rewrite slice_length; [done|lia|lia|]. simpl in *. lia.
Qed.
End Full.

(** ** Creating in a full directory *)
Section Creating.
Context `{BlockDeviceLaws D} (v : fat16_t) (N : Z) (Hroot : root_layout v N).
Context (depth : nat) (mem : Z -> list Z).
Abbreviation turns := (Z.to_nat 65536).
Abbreviation root_entries d := (entries_of (root_slots v d)).

(** A directory at the end of a path from the root, its last cluster [m],
    without a free slot. *)
Record full_at (d : D) (c : component) (cs : list component) (x : fat16_dir_entry_t) (ns : list Z) (m : Z) : Prop := {
  fa_parts : Forall component_ok (c :: cs);
  fa_depth : (S (length cs) < depth)%nat;
  fa_last : 2 <= zlength (component_text (final c cs));
  fa_length : zlength (path_text c cs) < 2 ^ 30;
  fa_path : exists ms, dir_path v N d (root_entries d) c cs x ms /\ (m ∉ ms);
  fa_chain : chain v N d (first_cluster x) (ns ++ [m]);
  fa_reach : reachable_part (ns ++ [m]);
  fa_taken : all_taken (dir_slots v d (ns ++ [m]))
}.

Lemma create_in_full w n e t attr f (d : D) c cs x ns m s0 q p :
  good_name n e -> spells w n e -> fs f = v -> vol v N d -> is_byte attr -> mem p = cstr ((SLASH :: path_text c cs) ++ (SLASH :: w)) t ->
  (exists m, in_table v m /\ fat v d m = 0) -> table_sane v N d -> full_at d c cs x ns m -> slots (cluster v d m) = s0 :: q ->
  exists cl d', create_new_file turns depth mem p attr f d = Ok (0, d') /\
    in_table v cl /\ fat v d cl = 0 /\ chain v N d' (first_cluster x) ((ns ++ [m]) ++ [cl]) /\ chain v N d' cl [cl] /\
    same_but v N [m; cl] [cl] d d' /\
    dir_slots v d' ((ns ++ [m]) ++ [cl]) = dir_slots v d (ns ++ [m]) ++ slot_with (first_byte (new_entry n e attr cl)) (new_entry n e attr cl) s0 :: q /\
    zlength s0 = 32.
Proof.
  intros Hg Hw Hfs Hv Ha Hp (m0 & Hm0 & Hm00) Hsane [Hok Hd Hlast Hlen (ms & Hpath & _) Hc Hr Htaken] Hsl. pose proof (rl_lay _ _ Hroot) as Hlay.
  destruct (first_free_spec v N Hlay d Hv) as (cl & Efree & [(Hcl & Hcl0 & _)|[_ Hnone]]); [|by destruct (Hnone m0 Hm0)].
  destruct (Hsane cl Hcl Hcl0) as [Hval Hu]. pose proof (proj1 (in_use_range cl) Hu) as Hclr.
  pose proof (new_entry_storable n e Hg attr cl Ha ltac:(lia)) as Hst. pose proof (chain_length v N Hlay d _ _ Hc) as Hcount.
  destruct (add_directory_full v N Hlay d (first_cluster x) ns m (new_entry n e attr cl) cl turns s0 q) as (d1 & E1 & Hs1 & Hf1 & Hsl1 & Hs32);
    [done..|rewrite length_app in Hcount; simpl in Hcount; lia|].
  destruct (set_successor_same v N Hlay d1 cl 65535) as (d' & E2 & Hs2 & Hf2); [apply Hs1|done|lia|lia|].
  assert (Hout : cl ∉ ns ++ [m]) by (intros Hin; by apply (chain_not_free v N Hlay d _ _ cl Hc Hin)).
  pose proof (same_but_trans v N Hlay [m] [cl] [cl] [] d d1 d' Hs1 Hs2) as Hs. simpl in Hs.
  destruct (chain_valid v N Hlay d _ _ m Hc ltac:(set_solver)) as [Hvm _].
  assert (Hfm : fat v d' m = cl) by (rewrite (sb_fat _ _ _ _ _ _ Hs2 m (proj1 Hvm)); [done|intros ->%list_elem_of_singleton; set_solver]).
  exists cl, d'. split.
  - rewrite (create_new_file_eq v N Hroot mem depth w n e t attr f d p (SLASH :: path_text c cs) cl) by (done || by apply dir_path_nonul).
    change ((SLASH :: path_text c cs) ++ [0]) with (slash true ++ cstr (path_text c cs) []).
    rewrite (find_dir_eq v N Hlay d true (root_entries d) c cs x ms [] depth Hv Hok (entries_terminated _) Hpath Hlast ltac:(lia) ltac:(lia)). ok_bind.
    rewrite E1. ok_bind. change (negb (0 =? 0)) with false. cbv beta iota. by rewrite E2.
  - assert (Hcl' : cluster v d' cl = cluster v d1 cl) by (apply (sb_cluster _ _ _ _ _ _ Hs2); [apply Hval|apply not_elem_of_nil]).
    split_and!; try done.
    + eapply (chain_extend v N Hlay d d' _ _ m cl [m; cl] [cl]); [exact Hc|by rewrite last_snoc|done|done|done|exact Hs|set_solver|done|done].
    + apply chain_link; [done|done|]. rewrite Hf2. by constructor.
    + unfold dir_slots at 1. rewrite bind_app. change ((ns ++ [m]) ≫= (fun n => slots (cluster v d' n))) with (dir_slots v d' (ns ++ [m])).
      rewrite (dir_slots_same v d d'); [f_equal; cbn; by rewrite app_nil_r, Hcl'|]. intros a Ha'.
      apply (sb_cluster _ _ _ _ _ _ Hs); [by apply (chain_valid v N Hlay d _ _ a Hc Ha')|]. intros ->%list_elem_of_singleton. done.
Qed.

(** C38 (error): creating a file in a directory that is full, however deep, is
    reported as done, and ruins both: the cluster the directory is given is the
    one the file is given, since it was not marked in between. The directory
    lists the file, and after it, once more, all but the first entry of the
    cluster that was its last. *)
Theorem full_directory_shares_cluster n e t flags f (d : D) c cs x ns m s0 q p :
  good_name n e -> fs f = v -> vol v N d -> table_sane v N d ->
  mem p = cstr ((SLASH :: path_text c cs) ++ (SLASH :: n ++ DOT :: e)) t ->
  find_open_file mem p (open_files f) = Ok None -> Z.land flags O_CREAT <> 0 ->
  (exists m, in_table v m /\ fat v d m = 0) -> full_at d c cs x ns m -> slots (cluster v d m) = s0 :: q ->
  Forall (fun entry => called n e entry = false) (entries_of (dir_slots v d (ns ++ [m]))) ->
  exists cl d', sys_open turns depth mem p flags f d =
      Ok (next_fd f, opened (listed_entry n e 0 cl) p (negb (Z.land flags O_APPEND =? 0)) f, d') /\
    first_cluster (listed_entry n e 0 cl) = cl /\ fat v d cl = 0 /\
    chain v N d' cl [cl] /\ chain v N d' (first_cluster x) ((ns ++ [m]) ++ [cl]) /\
    holds_entries v N d' x (entries_of (dir_slots v d (ns ++ [m])) ++ listed_entry n e 0 cl :: entries_of q).
Proof.
  intros Hg Hfs Hv Hsane Hp Hopen Hfl Hfree Hfa Hsl Hnone. pose proof (rl_lay _ _ Hroot) as Hlay.
  destruct (create_in_full (n ++ DOT :: e) n e t 0 f d c cs x ns m s0 q p) as (cl & d' & Ecreate & Hcl & Hcl0 & Hchx & Hchcl & Hs & Hsl' & Hs32);
    try done; [by apply spells_dotted|].
  pose proof Hfa as [Hok Hd Hlast Hlen (ms & Hpath & Hm) Hc Hr Htaken]. pose proof (root_after_table v N Hroot d d' _ _ Hv Hs) as Ert.
  assert (Hpath' : dir_path v N d' (root_entries d') c cs x ms).
  { rewrite Ert. apply (dir_path_same v N Hlay _ _ d d' _ c cs x ms Hs Hpath). intros a Ha.
    assert (a <> cl) by (intros ->; by apply (dir_path_not_free v N Hlay d _ c cs x ms cl Hpath)). set_solver. }
  assert (Hx : holds_entries v N d x (entries_of (dir_slots v d (ns ++ [m])))).
  { split; [by eapply dir_path_dir|]. exists (ns ++ [m]). split; [done|]. by rewrite (dir_slots_chain v N Hlay d _ _ Hv Hc). }
  assert (Hx' : holds_entries v N d' x (entries_of (dir_slots v d (ns ++ [m])) ++ listed_entry n e 0 cl :: entries_of q)).
  { split; [apply Hx|]. exists ((ns ++ [m]) ++ [cl]). split; [done|].
    rewrite <- (dir_slots_chain v N Hlay d' _ _ (sb_vol _ _ _ _ _ _ Hs) Hchx), Hsl', entries_app by by apply taken_no_end.
    destruct (Hsane cl Hcl Hcl0) as [_ Hu%in_use_range].
    rewrite listed_slot_with; [done|done|apply new_entry_storable; [done|done|lia]|by apply new_entry_first]. }
  exists cl, d'. pose proof (listed_entry_called n e Hg 0 cl) as Hcalled. split; [|done].
  unfold sys_open. rewrite Hopen. ok_bind.
  rewrite (open_in_dir v N Hroot depth mem n e t f d c cs x ms _ p Hg Hfs Hv Hp Hok Hd Hlen Hpath Hx), none_called by done. cbn [head]. ok_bind.
  destruct (Z.eqb_spec (Z.land flags O_CREAT) 0); [done|]. cbn [negb]. rewrite Ecreate. ok_bind. change (0 =? -1) with false. cbv beta iota.
  rewrite (open_in_dir v N Hroot depth mem n e t f d' c cs x ms _ p Hg Hfs (sb_vol _ _ _ _ _ _ Hs) Hp Hok Hd Hlen Hpath' Hx').
  rewrite filter_app, none_called by done. cbn [app]. rewrite filter_cons_True by by rewrite Hcalled. cbn [head]. ok_bind.
  unfold opened, opened_at, update_open. cbn [open_files with_open_files]. by rewrite update_last, list_lookup_middle by done.
Qed.
End Creating.

(** ** At work: a directory of sixteen files in one cluster *)
Definition shed_blocks : list (list Z) :=
  [replicate 512 0; x ← yard_entries; [x mod 256; x / 256]; subdir_slot ++ replicate 480 0;
   mjoin (replicate 16 story_slot); replicate 512 3; replicate 512 0; replicate 512 5; replicate 512 0].
Definition shed : ram_disk := RamDisk shed_blocks.

Lemma shed_ok : vol demo_fs 8 shed.
Proof.
  assert (Hb : Forall (fun b => zlength b = sector_size /\ is_bytes b) shed_blocks) by (apply (bool_decide_unpack _); by vm_compute).
  split; [exact Hb|split; [done|]]. vm_compute. discriminate.
Qed.

Lemma shed_sane : table_sane demo_fs 8 shed.
Proof. apply sane_by_check, (bool_decide_unpack _). by vm_compute. Qed.

Lemma shed_full : full_at demo_fs 8 2 shed subdir [] yard_dir [] 2.
Proof.
  constructor; [repeat constructor; cbn; (lia || done)|simpl; lia|by vm_compute|by vm_compute| | |constructor|].
  - exists []. split; [|set_solver]. assert (entries_of (root_slots demo_fs shed) = [yard_dir]) as -> by by vm_compute.
    apply (dp_here _ _ _ [] _ [] subdir). by constructor.
  - apply (chain_by_value _ 2 65535); [by vm_compute|lia|by constructor].
  - apply (bool_decide_unpack _). by vm_compute.
Qed.

Lemma full_directory_shares_cluster_witness :
  let e := listed_entry (bytes_of "TODO") (bytes_of "MD") 0 in
  exists cl d', sys_open (Z.to_nat 65536) 2 (demo_mem "/SUBDIR/TODO.MD") 4096 1 demo_files shed =
      Ok (3, opened (e cl) 4096 false demo_files, d') /\
    first_cluster (e cl) = cl /\ fat demo_fs shed cl = 0 /\
    chain demo_fs 8 d' cl [cl] /\ chain demo_fs 8 d' 2 [2; cl] /\
    holds_entries demo_fs 8 d' yard_dir (entries_of (dir_slots demo_fs shed [2]) ++ e cl :: entries_of (replicate 15 story_slot)).
Proof.
  apply (full_directory_shares_cluster demo_fs 8 demo_root_layout 2 (demo_mem "/SUBDIR/TODO.MD") (bytes_of "TODO") (bytes_of "MD") [] 1 demo_files shed
    subdir [] yard_dir [] 2 story_slot (replicate 15 story_slot) 4096);
    [exact demo_good_name|done|exact shed_ok|exact shed_sane|done|done|done| |exact shed_full|by vm_compute|].
  - exists 4. split; [unfold in_table; simpl; lia|by vm_compute].
  - apply (bool_decide_unpack _). by vm_compute.
Defined.
