(* ===== verification/NamedFiles.v ===== *)
(** * Files of the root directory

    An open file of the root directory, seen at once as a descriptor, a chain
    of clusters and an entry of the directory, and what opening it and writing
    to it do to all three. *)
From S2P Require Import Prelude Mem Strings Stream Disk Fat16 Volume Files Directory Slots Root Paths FileSys Descriptors FileCalls Names Create.

(** ** Entries whose size is updated *)
Section Entry.
Context (nm ex : list Z) (Hg : good_name nm ex) (H3 : zlength ex = 3) (H229 : byte nm 0 <> 229).

(** An entry as listings give it, with names the file system can find again. *)
Record named_entry (e : fat16_dir_entry_t) : Prop := {
  ne_storable : storable e;
  ne_called : called nm ex e = true;
  ne_terminated : terminated e
}.

Lemma named_texts e : named_entry e -> exists x y, filename e = cstr nm x /\ extension e = cstr ex y.
Proof.
  intros [_ [E1 E2]%bool_decide_eq_true [(x & Ex & _)%cstr_text (y & Ey & _)%cstr_text]].
  exists x, y. by rewrite <- E1, <- E2.
Qed.

Lemma named_byte e : named_entry e -> byte (filename e) 0 = byte nm 0.
Proof. intros He. destruct (named_texts e He) as (x & y & -> & _). apply byte_app_l. pose proof (gn_length _ _ Hg). lia. Qed.

Lemma byte_nm : byte nm 0 <> 0 /\ byte nm 0 <> 5.
Proof.
  clear H3 H229.
  split; [|apply Hg]. pose proof (gn_length _ _ Hg). pose proof (gn_name _ _ Hg) as Hn. destruct nm as [|c l]; [simpl in *; lia|].
  apply Forall_cons in Hn as [(Hc & _) _]. change (c <> 0). lia.
Qed.

Lemma called_read_back e : named_entry e -> called nm ex (read_back e) = true.
Proof.
  intros He. destruct (named_texts e He) as (x & y & Ex & Ey). pose proof (st_ok _ (ne_storable e He)) as [Lx Ly]. rewrite Ex in Lx. rewrite Ey in Ly.
  apply bool_decide_eq_true. unfold read_back; cbn [filename extension]. rewrite Ex, Ey. pose proof (gn_length _ _ Hg). unfold cstr in *.
  rewrite length_app in Lx. split.
  - assert (slice (nm ++ 0 :: x) 0 8 = cstr nm (take (7 - length nm) x)) as ->.
    { unfold slice. rewrite drop_0, take_app_ge by lia. unfold cstr. f_equal. by replace (_ - _)%nat with (S (7 - length nm)) by lia. }
    unfold cstr. rewrite fmap_app, unspace_nospace by by apply (plain_nospace), Hg. rewrite <- app_assoc. cbn [fmap list_fmap app].
    change (unspace 0) with 0. apply (text_cstr nm). by apply plain_nonul, Hg.
  - rewrite slice_app_l, (slice_0 ex) by lia. rewrite unspace_nospace by by apply plain_nospace, Hg.
    apply (text_cstr ex). by apply plain_nonul, Hg.
Qed.

Lemma named_with_size e k : named_entry e -> 0 <= k < 2 ^ 32 -> named_entry (with_size k e).
Proof. by intros [[] ? ?] Hk. Qed.

(** Its slot after an update finds it again, and lists it. *)
Lemma slot_updated e s :
  named_entry e -> zlength s = 32 ->
  let s' := slot_with (byte (filename e) 0) e s in
  slot_matches (filename e) (extension e) s' = true /\ byte s' 0 = byte nm 0 /\ called nm ex (decode s' 0) = true.
Proof.
  intros He Hs s'. pose proof (ne_storable e He) as Hst. pose proof (st_ok e Hst) as Hok. pose proof (named_byte e He) as Hb.
  assert (Ef : byte (filename e) 0 = first_byte e) by (unfold first_byte; rewrite Hb; by destruct (Z.eqb_spec (byte nm 0) 229)).
  assert (E0 : byte s' 0 = byte nm 0) by (unfold s'; rewrite slot_with_byte by done; done).
  destruct (head_parts (byte (filename e) 0) e Hok) as (P8 & P3 & _).
  split; [|split; [done|]].
  - pose proof (stored_head s 0 (byte (filename e) 0) e 0 8 Hok ltac:(lia) ltac:(lia) ltac:(lia) ltac:(lia) ltac:(lia)) as S8.
    pose proof (stored_head s 0 (byte (filename e) 0) e 8 3 Hok ltac:(lia) ltac:(lia) ltac:(lia) ltac:(lia) ltac:(lia)) as S3.
    rewrite P8 in S8. rewrite P3 in S3. rewrite <- first_seven in S8 by done. fold s' in S8, S3. unfold slot_matches. apply andb_true_iff. split.
    + assert (Hk : forall k, 0 <= k < 8 -> byte s' k = byte (filename e) k).
      { intros k Hk. pose proof (f_equal (fun l => byte l k) S8) as E. cbv beta in E. by rewrite !byte_slice in E by lia. }
      assert (Hn : forall n j, 0 <= j -> j + Z.of_nat n <= 8 -> name_test n j s' (filename e) = true).
      { induction n as [|n IH]; intros j Hj Hn; [done|]. cbn [name_test]. rewrite Hk by lia. destruct (_ && _); [done|].
        rewrite Z.eqb_refl. apply IH; lia. }
      apply Hn; lia.
    + assert (Hk : forall k, 0 <= k < 3 -> byte s' (8 + k) = byte (extension e) k).
      { intros k Hk. pose proof (f_equal (fun l => byte l k) S3) as E. cbv beta in E. by rewrite !byte_slice in E by lia. }
      unfold ext_test. rewrite <- !Hk by lia. by rewrite !Z.eqb_refl.
  - unfold s', slot_with. rewrite Ef, decode_stored by (done || lia). by apply called_read_back.
Qed.
(** A name that matches, as listings read it. *)
Lemma name_test_text fn s m : forall n j x,
  nonul m -> Forall (fun c => c <> 32) m -> 0 <= j -> (length m < n)%nat -> j + Z.of_nat n <= zlength s -> drop (Z.to_nat j) fn = cstr m x ->
  name_test n j s fn = true -> text ((unspace <$> slice s j (Z.of_nat n)) ++ [0]) = m.
Proof.
  clear. induction m as [|c m IH]; intros n j x Hm Hsp Hj Hn Hs E; (destruct n as [|n]; [lia|]); cbn [name_test];
    replace (Z.of_nat (S n)) with (1 + Z.of_nat n) by lia; rewrite slice_split by lia;
    (destruct (buf_get_Ok s j) as (b & Hb & _); [lia|]); rewrite (slice_one s j b Hb);
    (assert (byte s j = b) as -> by (unfold byte; by rewrite Hb)).
  - assert (byte fn j = 0) as -> by (unfold byte; by rewrite <- (Nat.add_0_r (Z.to_nat j)), <- lookup_drop, E).
    cbn. unfold unspace at 1. destruct (Z.eqb_spec b 32) as [->|]; [done|]. by intros [->%Z.eqb_eq _]%andb_true_iff.
  - assert (byte fn j = c) as -> by (unfold byte; by rewrite <- (Nat.add_0_r (Z.to_nat j)), <- lookup_drop, E).
    apply Forall_cons in Hm as [Hc Hm]. apply Forall_cons in Hsp as [Hc' Hsp].
    rewrite (proj2 (Z.eqb_neq c 0)), andb_false_r by done. intros [->%Z.eqb_eq Ht]%andb_true_iff.
    assert (unspace c = c) as Eu by (unfold unspace; by rewrite (proj2 (Z.eqb_neq c 32))).
    cbn. rewrite Eu, (proj2 (Z.eqb_neq c 0)) by done. f_equal.
    eapply (IH n (j + 1) x); try done; try (simpl in *; lia).
    replace (Z.to_nat (j + 1)) with (S (Z.to_nat j)) by lia. rewrite <- Nat.add_1_r, <- drop_drop, E. done.
Qed.

Lemma slice_three s off : 0 <= off -> off + 3 <= zlength s -> slice s off 3 = [byte s off; byte s (off + 1); byte s (off + 2)].
Proof.
  clear. intros Ho Hs. change 3 with (1 + (1 + 1)). rewrite !slice_split by lia. unfold byte.
  destruct (buf_get_Ok s off) as (a & Ha & _); [lia|]. destruct (buf_get_Ok s (off + 1)) as (b & Hb & _); [lia|].
  destruct (buf_get_Ok s (off + 1 + 1)) as (c & Hc & _); [lia|]. rewrite (slice_one _ _ _ Ha), (slice_one _ _ _ Hb), (slice_one _ _ _ Hc).
  replace (off + 2) with (off + 1 + 1) by lia. by rewrite Ha, Hb, Hc.
Qed.

Lemma ext_test_text s y : zlength s = 32 -> ext_test s (cstr ex y) = true -> text ((unspace <$> slice s 8 3) ++ [0]) = ex.
Proof.
  intros Hs. pose proof (plain_nonul _ (gn_ext _ _ Hg)) as Hn. pose proof (plain_nospace _ (gn_ext _ _ Hg)) as Hsp. clear H229 Hg.
  destruct ex as [|a [|b [|c [|]]]]; try (simpl in H3; lia). unfold ext_test. rewrite !andb_true_iff, !Z.eqb_eq.
  intros (E8 & E9 & E10). rewrite slice_three by lia. change (8 + 1) with 9. change (8 + 2) with 10. rewrite E8, E9, E10.
  change [_; _; _] with [a; b; c]. rewrite unspace_nospace by done. by apply (text_cstr [a; b; c] []).
Qed.

(** A slot that matches the names of the file is listed under them. *)
Lemma matched_called e s : named_entry e -> zlength s = 32 -> slot_matches (filename e) (extension e) s = true -> called nm ex (decode s 0) = true.
Proof.
  intros He Hs [Hn Ht]%andb_true_iff. destruct (named_texts e He) as (x & y & Ex & Ey). pose proof (named_byte e He) as Hb.
  destruct (byte_nm) as [Hb0 Hb5]. assert (H5 : byte s 0 <> 5).
  { intros E5. cbn [name_test] in Hn. rewrite Hb, E5, (proj2 (Z.eqb_neq (byte nm 0) 0)), andb_false_r in Hn by done.
    by apply andb_true_iff in Hn as [E%Z.eqb_eq _]. }
  rewrite Ex in Hn. rewrite Ey in Ht.
  apply bool_decide_eq_true. unfold decode; cbn [filename extension]. rewrite (proj2 (Z.eqb_neq _ 5)) by done. split.
  - pose proof (gn_length _ _ Hg). apply (name_test_text (cstr nm x) s nm 8 0 x); try done; try lia.
    + by apply plain_nonul, Hg.
    + by apply plain_nospace, Hg.
  - by apply (ext_test_text s y).
Qed.
End Entry.

Section Named.
Context `{BlockDeviceLaws D} (v : fat16_t) (N : Z) (Hroot : root_layout v N).
Context (depth : nat) (mem : Z -> list Z) (nm ex t : list Z).
Abbreviation turns := (Z.to_nat 65536).
Abbreviation root_slots := (root_slots v).
Abbreviation Hlay := (rl_lay _ _ Hroot).

(** The directory holds the entry [e]: the first slot with its names is listed. *)
Record listed_file (d : D) (e : fat16_dir_entry_t) : Prop := {
  lf_vol : vol v N d;
  lf_slot : exists pre s post, root_slots d = pre ++ s :: post /\ no_end pre /\ byte s 0 = byte nm 0 /\
    Forall (fun s' => slot_matches (filename e) (extension e) s' = false) pre /\
    slot_matches (filename e) (extension e) s = true /\ called nm ex (decode s 0) = true
}.

Context (Hg : good_name nm ex) (H3 : zlength ex = 3) (H229 : byte nm 0 <> 229).

Lemma to_directory_bare name x : part_ok name -> to_directory (cstr name x) = Ok [0].
Proof.
  intros Hn. unfold to_directory, cstr. pose proof (last_slash_part name x 0 0 Hn) as E. unfold cstr in E. rewrite E. ok_bind.
  rewrite stdmem_copy_spec; [|lia|lia|lia|rewrite length_replicate; lia|rewrite length_app; simpl; lia]. ok_bind.
  destruct name as [|c name]; done.
Qed.

Lemma found_in_listing d e :
  listed_file d e -> exists file, find_file turns v (S depth) (cstr (nm ++ DOT :: ex) t) (entries_of (root_slots d)) d = Ok (Some file, d).
Proof.
  intros [_ (pre & s & post & E & Hpre & Hs0 & _ & _ & Hc)]. rewrite find_file_single by (done || apply entries_terminated).
  destruct (byte_nm nm ex Hg) as [Hn0 Hn5]. rewrite E, entries_app by done. rewrite entries_cons, filter_app by congruence.
  destruct (filter _ (entries_of pre)) as [|file l] eqn:El; [|by eexists]. cbn [app]. rewrite filter_cons_True by by rewrite Hc. by eexists.
Qed.

(** The end of a write that made the file longer. *)
Lemma update_details d f p e :
  fs f = v -> mem p = cstr (SLASH :: nm ++ DOT :: ex) t -> named_entry nm ex e -> listed_file d e ->
  exists d', update_file_details turns (S depth) mem p e (filename e) (extension e) f d = Ok (0, d') /\ listed_file d' e /\ same_data v N d d'.
Proof.
  intros Hfs Hp He Hl. pose proof Hl as [Hv (pre & s & post & E & Hpre & Hs0 & Hbefore & Hm & Hc)].
  pose proof (ne_storable _ _ _ He) as Hst. pose proof (st_ok _ Hst) as [L8 L3]. destruct (root_slots_ok v N Hroot d s Hv) as [_ Hs]; [rewrite E; set_solver|].
  pose proof (root_size_eq v N Hroot) as (_ & Hrs & _).
  destruct (update_root_directory_entry_spec v N Hroot d e (filename e) (extension e) pre s post turns Hv (storable_fields e Hst) L8 L3 E Hbefore Hm)
    as (d' & E' & Hv' & Hsl & Hfat & Hcl); [lia|].
  destruct (slot_updated nm ex Hg H3 H229 e s He Hs) as (Hm' & Hs0' & Hc').
  exists d'. split; [|split; [|by split]].
  - unfold update_file_details. rewrite Hfs, (get_root_dir_eq v N Hroot) by done. ok_bind. rewrite Hp.
    change (cstr (SLASH :: nm ++ DOT :: ex) t) with (SLASH :: cstr (nm ++ DOT :: ex) t). rewrite (buf_get_lookup _ 0 SLASH) by done. ok_bind.
    change (negb (SLASH =? SLASH)) with false. cbv beta iota. change (drop 1 (SLASH :: ?l)) with l. cbv zeta.
    rewrite to_directory_bare by by apply gn_part. ok_bind. destruct (found_in_listing d e Hl) as (file & Ef).
    change (drop 1 (SLASH :: cstr (nm ++ DOT :: ex) t)) with (cstr (nm ++ DOT :: ex) t). rewrite Ef. ok_bind.
    rewrite (buf_get_lookup [0] 0 0) by done. ok_bind. done.
  - split; [done|]. exists pre, (slot_with (byte (filename e) 0) e s), post. done.
Qed.

Lemma listed_same d d' e e' :
  listed_file d e -> vol v N d' -> root_slots d' = root_slots d -> filename e' = filename e -> extension e' = extension e -> listed_file d' e'.
Proof. intros [_ Hs] Hv E En Ee. split; [done|]. by rewrite E, En, Ee. Qed.

Lemma root_after_data d d' F C : vol v N d -> same_but v N F C d d' -> root_slots d' = root_slots d.
Proof.
  intros Hv Hs. apply (slots_in_same v N Hroot). intros a Ha%elem_of_seqZ. pose proof (root_size_eq v N Hroot).
  pose proof (root_start_bounds v N Hlay). apply (sb_rest _ _ _ _ _ _ Hs); lia.
Qed.

Lemma table_sane_data d d' : same_data v N d d' -> table_sane v N d -> table_sane v N d'.
Proof. intros [Hf _] Hs m Hm. rewrite Hf by done. by apply Hs. Qed.

(** An open file of the root directory. *)
Record named_open (n : Z) (f : files) (d : D) (i : nat) (o : open_file_t) (ns : list Z) : Prop := {
  no_at : file_at v N n f d i o ns;
  no_path : mem (path o) = cstr (SLASH :: nm ++ DOT :: ex) t;
  no_entry : named_entry nm ex (directory_entry o);
  no_listed : listed_file d (directory_entry o);
  no_sane : table_sane v N d;
  no_append : append o = false
}.

(** What the file holds. *)
Definition contents (d : D) (o : open_file_t) (ns : list Z) : list Z :=
  slice (chain_bytes v d ns) 0 (file_size_bytes (directory_entry o)).

(** [o'] is [o] after [r] bytes were written at its position. *)
Definition written (r : Z) (o o' : open_file_t) : Prop :=
  exists k, o' = with_offset (offset o + r) (with_entry (with_size k (directory_entry o)) o) /\ k = Z.max (file_size_bytes (directory_entry o)) (offset o + r).

Lemma written_same r o :
  offset o + r <= file_size_bytes (directory_entry o) -> written r o (with_offset (offset o + r) o).
Proof.
  intros Hr. exists (file_size_bytes (directory_entry o)). split; [|lia]. destruct o as [fd0 e p off a]. by destruct e.
Qed.

(** Writing at a place inside a prefix and looking at the longer prefix. *)
Lemma slice_splice_prefix b off s k :
  0 <= off <= k -> k <= zlength b -> off + zlength s <= zlength b ->
  slice (splice b off s) 0 (Z.max k (off + zlength s)) = splice (slice b 0 k) off s.
Proof.
  intros Hoff Hk Hs. apply list_eq. intros j. unfold slice, splice. change (Z.to_nat 0) with 0%nat. rewrite !drop_0.
  destruct (decide (j < Z.to_nat (Z.max k (off + zlength s)))%nat) as [Hj|Hj].
  - rewrite lookup_take_lt by done. rewrite take_take, Nat.min_l by lia. destruct (decide (j < Z.to_nat off + length s)%nat) as [Hjs|Hjs].
    + rewrite !app_assoc, !(lookup_app_l (take (Z.to_nat off) b ++ s)) by (rewrite length_app, length_take; lia). done.
    + rewrite !app_assoc. rewrite !(lookup_app_r (take (Z.to_nat off) b ++ s)) by (rewrite length_app, length_take; lia).
      rewrite !lookup_drop, lookup_take_lt by (rewrite length_app, length_take; lia). done.
  - rewrite lookup_take_ge by lia. symmetry. apply lookup_ge_None_2. rewrite !length_app, !length_take, length_drop, length_take. lia.
Qed.

Lemma file_at_written n f d d' i o o' ns r :
  file_at v N n f d i o ns -> written r o o' -> chain v N d' (first_cluster (directory_entry o)) ns -> 0 <= offset o -> 0 <= r ->
  offset o + r <= cluster_size v * zlength ns -> offset o + r < 2 ^ 31 -> file_at v N n (update_open i (fun _ => o') f) d' i o' ns.
Proof.
  intros [Hfs Hn Hfind Ho Hreg Hc Hsize Hint] (k & -> & Hk) Hc' H0' Hr Hcs Hlt. constructor; try done; cbn; try lia.
  - rewrite <- Hfind. clear -Ho. revert i Ho. induction (open_files f) as [|o' l IH]; intros i Ho; [done|].
    destruct i as [|i]; cbn in *; [by injection Ho as ->|]. by rewrite <- (IH i).
  - by rewrite list_lookup_alter_eq, Ho.
Qed.

(** The disk once the bytes of a write and the new size are on it. *)
Lemma write_settled n f d d1 d2 i o o' ns num s :
  named_open n f d i o ns -> written num o o' -> 0 <= offset o <= file_size_bytes (directory_entry o) -> zlength s = num ->
  offset o + num < cluster_size v * zlength ns -> offset o + num < 2 ^ 31 ->
  chain v N d1 (first_cluster (directory_entry o)) ns -> same_but v N ns ns d d1 -> table_sane v N d1 ->
  chain_bytes v d1 ns = splice (chain_bytes v d ns) (offset o) s ->
  same_data v N d1 d2 -> listed_file d2 (directory_entry o') ->
  named_open n (update_open i (fun _ => o') f) d2 i o' ns /\
  (forall first ms, chain v N d first ms -> (forall m, m ∈ ms -> m ∉ ns) -> chain v N d2 first ms /\ chain_bytes v d2 ms = chain_bytes v d ms) /\
  contents d2 o' ns = splice (contents d o ns) (offset o) s.
Proof.
  intros [Hat Hp He Hl Hsane Ha] Hw Hoff Hs Hfit Hint Hc1 Hsame Hsane1 Hbytes Hdata Hl2.
  pose proof (fa_size _ _ _ _ _ _ _ _ Hat) as Hsize. pose proof (lf_vol _ _ Hl) as Hv.
  pose proof (chain_size v N Hlay d _ _ Hv (fa_chain _ _ _ _ _ _ _ _ Hat)) as Hcs. pose proof (fa_int _ _ _ _ _ _ _ _ Hat).
  split; [|split].
  - pose proof Hw as (k & -> & Hk). split; try done.
    + eapply file_at_written; [done|exact Hw|by eapply chain_data|lia..].
    + apply named_with_size; [done|lia].
    + by eapply table_sane_data.
  - intros first ms Hms Hd. assert (Hms1 : chain v N d1 first ms).
    { eapply (chain_same v N Hlay); [exact Hsame|done|done]. }
    split; [by eapply chain_data|]. rewrite (chain_bytes_data v N Hlay d1 d2 first ms Hdata Hms1).
    eapply (chain_bytes_same v N); [exact Hsame|]. intros m Hm. split; [|by apply Hd]. by apply (chain_valid v N Hlay d first ms m Hms).
  - destruct Hw as (k & -> & Hk). unfold contents. cbn [directory_entry with_offset with_entry with_size file_size_bytes].
    rewrite (chain_bytes_data v N Hlay d1 d2 _ ns Hdata Hc1), Hbytes, Hk, <- Hs. apply slice_splice_prefix; lia.
Qed.

(** A write that stays inside the chain. *)
Lemma write_named n f d i o ns buf num con :
  named_open n f d i o ns -> 0 <= offset o <= file_size_bytes (directory_entry o) -> 0 <= num ->
  offset o + num < cluster_size v * zlength ns -> offset o + num < 2 ^ 31 -> num <= zlength buf -> is_bytes buf ->
  exists o' d', sys_write turns (S depth) mem n buf num con f d = Ok (num, con, update_open i (fun _ => o') f, d') /\
    written num o o' /\ named_open n (update_open i (fun _ => o') f) d' i o' ns /\
    (forall first ms, chain v N d first ms -> (forall m, m ∈ ms -> m ∉ ns) -> chain v N d' first ms /\ chain_bytes v d' ms = chain_bytes v d ms) /\
    contents d' o' ns = splice (contents d o ns) (offset o) (slice buf 0 num).
Proof.
  intros Hno Hoff Hnum Hfit Hint Hb Hby. pose proof Hno as [Hat Hp He Hl Hsane Ha].
  pose proof Hat as [Hfs Hn Hfind Ho Hreg Hc Hsize Hsi]. pose proof (lf_vol _ _ Hl) as Hv.
  destruct (write_spec v N Hlay d (directory_entry o) ns (offset o) buf num turns) as
    (r & d1 & new & E & Hr & Hsane1 & Hc1 & Hsame & _ & _ & Hbytes & Hin & _); try done; try lia.
  destruct Hin as [-> ->]; [lia|]. rewrite app_nil_r in *.
  assert (Hs : zlength (slice buf 0 num) = num) by (rewrite slice_length; lia).
  pose proof (listed_same d d1 _ _ Hl (sb_vol _ _ _ _ _ _ Hsame) (root_after_data d d1 _ _ Hv Hsame) eq_refl eq_refl) as Hl1.
  assert (Ew : exists o' d', sys_write turns (S depth) mem n buf num con f d = Ok (num, con, update_open i (fun _ => o') f, d') /\
    written num o o' /\ same_data v N d1 d' /\ listed_file d' (directory_entry o')).
  { unfold sys_write. destruct (Z.eqb_spec n STDOUT_FILEDESC); [unfold STDOUT_FILEDESC in *; lia|]. rewrite Hfind, Ho. cbn [deref_opt]. ok_bind.
    rewrite Hreg, Ha, Hfs, u32_small by lia. rewrite E. ok_bind. rewrite (i32_small num) by lia. destruct (Z.ltb_spec num 0); [lia|].
    rewrite i32_small, u32_small by lia. destruct (Z.gtb_spec (offset o + num) (file_size_bytes (directory_entry o))).
    - set (o1 := with_entry (with_size (offset o + num) (directory_entry o)) o). set (f1 := update_open i (fun _ => o1) f).
      destruct (update_details d1 f1 (path o1) (directory_entry o1)) as (d2 & E2 & Hl2 & Hdata);
        [done|done|by apply named_with_size; [|lia]|by apply (listed_same d1 d1 _ _ Hl1 (lf_vol _ _ Hl1))|].
      cbv zeta. rewrite E2. ok_bind. exists (with_offset (offset o + num) o1), d2. rewrite i32_small by (unfold o1; cbn; lia).
      split; [done|]. split; [exists (offset o + num); split; [done|lia]|done].
    - ok_bind. exists (with_offset (offset o + num) o), d1. rewrite i32_small by lia. split; [done|]. split; [by apply written_same|]. by split. }
  destruct Ew as (o' & d' & Ew' & Hw & Hdata & Hl2). exists o', d'. split; [done|]. split; [done|].
  by eapply (write_settled n f d d1 d' i o o' ns num).
Qed.

(** ** A file just created *)
Lemma listed_named attr c : is_byte attr -> 0 <= c < 2 ^ 16 -> named_entry nm ex (listed_entry nm ex attr c).
Proof.
  intros Ha Hc. pose proof (new_entry_storable nm ex Hg attr c Ha Hc) as [[Hf He] Hn Hx _ _ _ H5]. cbn [new_entry filename extension] in *.
  split; [|by apply (listed_entry_called nm ex Hg)|by apply listed_entry_terminated].
  assert (Hu : forall l, is_bytes l -> is_bytes (unspace <$> l)).
  { intros l Hl. apply Forall_fmap. eapply Forall_impl; [exact Hl|]. intros x Hx'. unfold unspace. cbn. by destruct (x =? 32). }
  constructor; unfold listed_entry, read_back; cbn; try done.
  - split; cbn; rewrite length_app, length_fmap; [pose proof (slice_length (filename (new_entry nm ex attr c)) 0 8)|
      pose proof (slice_length (extension (new_entry nm ex attr c)) 0 3)]; cbn in *; lia.
  - apply Forall_app. split; [by apply Hu, slice_bytes|by repeat constructor].
  - apply Forall_app. split; [by apply Hu, slice_bytes|by repeat constructor].
  - intros E. pose proof (listed_entry_called nm ex Hg attr c) as [Ht _]%bool_decide_eq_true.
    pose proof (listed_entry_terminated nm ex Hg attr c) as [(x & Ex & _)%cstr_text _].
    destruct (byte_nm nm ex Hg) as [_ Hb]. apply Hb. rewrite <- E. change (byte nm 0 = byte (filename (listed_entry nm ex attr c)) 0).
    rewrite Ex, Ht. symmetry. apply byte_app_l. pose proof (gn_length _ _ Hg). lia.
Qed.

Lemma created_listed d' c pre s post :
  vol v N d' -> 0 <= c < 2 ^ 16 -> zlength s = 32 ->
  root_slots d' = pre ++ slot_with (first_byte (new_entry nm ex 0 c)) (new_entry nm ex 0 c) s :: post -> all_taken pre ->
  Forall (fun entry => called nm ex entry = false) (entries_of pre) -> listed_file d' (listed_entry nm ex 0 c).
Proof.
  intros Hv Hc Hs E Hpre Hno. split; [done|]. set (e := new_entry nm ex 0 c) in *. set (s' := slot_with _ e s) in *.
  pose proof (new_entry_storable nm ex Hg 0 c ltac:(done) Hc) as Hst. fold e in Hst. pose proof (gn_length _ _ Hg) as Hl.
  assert (Eb : byte (filename e) 0 = byte nm 0).
  { unfold e, new_entry; cbn [filename]. rewrite <- app_assoc. apply byte_app_l. lia. }
  assert (Ef : first_byte e = byte nm 0) by (unfold first_byte; rewrite Eb; by destruct (Z.eqb_spec (byte nm 0) 229)).
  assert (Ed : decode s' 0 = listed_entry nm ex 0 c) by (unfold s', slot_with; rewrite decode_stored by (done || lia); done).
  assert (Hs' : zlength s' = 32) by (apply (root_slots_ok v N Hroot d'); [done|rewrite E; set_solver]).
  assert (E0 : byte s' 0 = byte nm 0) by (unfold s'; rewrite slot_with_byte by (done || apply Hst); done).
  destruct (byte_nm nm ex Hg) as [Hb0 Hb5].
  exists pre, s', post. split; [done|]. split; [by apply taken_no_end|]. split; [done|]. split; [|split].
  - apply Forall_forall. intros s0 Hs0. apply not_true_iff_false. intros Hm.
    destruct (root_slots_ok v N Hroot d' s0) as [_ Hs32]; [done|rewrite E; set_solver|].
    assert (Hc' : called nm ex (decode s0 0) = true).
    { eapply matched_called; [done..|by apply (listed_named 0 c)|done|done]. }
    apply list_elem_of_split in Hs0 as (p1 & p2 & ->). apply Forall_app in Hpre as [Hp1 [Hp0 Hp2]%Forall_cons].
    rewrite entries_app in Hno by by apply taken_no_end. destruct (taken_bytes s0 Hp0). rewrite entries_cons in Hno by done.
    apply Forall_app in Hno as [_ [Hno _]%Forall_cons]. congruence.
  - rewrite <- Ed. pose proof (plain_nospace _ (gn_ext _ _ Hg)) as Hsp. destruct Hst as [Hok _ _ _ _ _ _].
    assert (He3 : forall k, 0 <= k < 3 -> byte s' (8 + k) = byte ex k).
    { intros k Hk. pose proof (stored_byte_head s 0 (first_byte e) e (8 + k) Hok ltac:(lia) ltac:(lia) ltac:(lia)) as Hh.
      fold s' in Hh. rewrite Z.add_0_l in Hh. change (stored s 0 (first_byte e) e) with s' in Hh. rewrite Hh.
      destruct (head_parts (first_byte e) e Hok) as (_ & P3 & _). rewrite <- (byte_slice _ 8 3) by lia. rewrite P3, byte_slice by lia.
      unfold e, new_entry; cbn [extension]. rewrite <- app_assoc. apply byte_app_l. lia. }
    assert (Hne : forall k, 0 <= k < 3 -> byte s' (8 + k) <> 32).
    { intros k Hk. rewrite He3 by done. unfold byte. destruct (buf_get_Ok ex k) as (x & Hx & _); [lia|]. rewrite Hx. by apply (Forall_lookup_1 _ _ _ _ Hsp Hx). }
    apply listed_matches; [done|congruence|apply (Hne 0); lia|apply (Hne 1); lia|apply (Hne 2); lia].
  - rewrite Ed. by apply listed_entry_called.
Qed.
End Named.
