(* ===== verification/Kernel.v ===== *)
(** * The kernel's entry points

    [kernel.c]: what the reset, interrupt and supervisor-call handlers do to
    the state of the scheduler, the file system, the message queue and the
    devices of the board, [devices]. The context is the one the handler returns
    into. *)
From S2P Require Import Prelude Mem Tailq Strings Scheduler Stream Ipc Uart Devices Disk Fat16 Directory Paths FileSys.

Definition WAITPID_NOHANG : Z := 1.
Definition SIGKILL : Z := 9.

(** A list that a call hands to user code, at the address it is given. *)
Inductive exported :=
| Dirents (l : list fat16_dir_entry_t)
| Procs (l : list pcb_t).

Record kernel (D U : Type) := Kernel {
  scheduler : sched;
  file_system : files;
  disk : D;
  messages : list tailq_message_t;
  devices : U;
  lists : list (Z * exported)
}.
Arguments Kernel {D U}.
Arguments scheduler {D U}.
Arguments file_system {D U}.
Arguments disk {D U}.
Arguments messages {D U}.
Arguments devices {D U}.
Arguments lists {D U}.

(** ** User memory *)

(** [n] bytes from [p], the bytes of a string at [p], and a write of bytes. *)
Definition peek (m : Z -> Z) (p n : Z) : list Z := (fun i => m (u32 (p + i))) <$> seqZ 0 n.
Fixpoint c_string (limit : nat) (m : Z -> Z) (p : Z) : list Z :=
  match limit with
  | O => []
  | S limit => let c := m (u32 p) in if c =? 0 then [0] else c :: c_string limit m (p + 1)
  end.
Definition poke (m : Z -> Z) (p : Z) (l : list Z) : Z -> Z := fun a => default (m a) (l !! Z.to_nat (u32 (a - p))).

(** The layout of [fat16_dir_entry_t]. *)
Definition entry_bytes (e : fat16_dir_entry_t) : list Z :=
  slice (filename e) 0 9 ++ slice (extension e) 0 4 ++ [attributes e; first_cluster e mod 256; first_cluster e / 256;
    file_size_bytes e mod 256; file_size_bytes e / 2 ^ 8 mod 256; file_size_bytes e / 2 ^ 16 mod 256; file_size_bytes e / 2 ^ 24 mod 256].

Section Handlers.
Context `{BlockDevice D} `{Board U}.

(** Fuel for chains, for the parts of a path, and the length of the longest
    string a call looks at. *)
Context (turns depth limit : nat).

Definition with_scheduler (s : sched) (k : kernel D U) : kernel D U := Kernel s (file_system k) (disk k) (messages k) (devices k) (lists k).
Definition with_files (f : files) (d : D) (k : kernel D U) : kernel D U := Kernel (scheduler k) f d (messages k) (devices k) (lists k).
Definition with_messages (l : list tailq_message_t) (k : kernel D U) : kernel D U :=
  Kernel (scheduler k) (file_system k) (disk k) l (devices k) (lists k).
Definition with_devices (u : U) (k : kernel D U) : kernel D U := Kernel (scheduler k) (file_system k) (disk k) (messages k) u (lists k).
Definition with_list (p : Z) (l : exported) (k : kernel D U) : kernel D U :=
  Kernel (scheduler k) (file_system k) (disk k) (messages k) (devices k) ((p, l) :: lists k).
Definition with_user (m : Z -> Z) (k : kernel D U) : kernel D U := with_scheduler (with_memory m (scheduler k)) k.
Definition with_console (c : list Z) (k : kernel D U) : kernel D U :=
  let s := scheduler k in
  with_scheduler (Sched (current_pid s) (next_pid s) (current_stack_break s) (events_head s) (process_list s)
    (low_priority_queue s) (high_priority_queue s) c (memory s)) k.

Definition user (k : kernel D U) : Z -> Z := memory (scheduler k).
Definition strings (k : kernel D U) : Z -> list Z := c_string limit (user k).

(** [ctx->gpr[0] = result]. *)
Definition return_value (result : Z) (c : ctx_t) : ctx_t := set_gpr 0 (u32 result) c.

(** ** Reset

    [entry_sh] is the address of the shell's code and [root_path] that of the
    string ["/"]. [irq_enable], in assembly, leaves nothing in the state. *)
Definition print (s : string) (n : Z) (k : kernel D U) : kernel D U := with_scheduler (puts (bytes_of s ++ [10]) n (scheduler k)) k.

Definition rst_files (root_path : Z) (k : kernel D U) : outcome (kernel D U) :=
  '(f, d) ← file_initialise turns depth (strings k) root_path (file_system k) (disk k);
  Ok (with_messages ipc_initialise (with_files f d k)).

Definition write_reg (a v : Z) (k : kernel D U) : kernel D U := with_devices (reg_write a v (devices k)) k.
Definition or_reg (a v : Z) (k : kernel D U) : kernel D U := with_devices (reg_or a v (devices k)) k.

Definition rst_timer (k : kernel D U) : kernel D U :=
  let k := write_reg (Timer1Load TIMER0) 0x00100000 k in
  let k := write_reg (Timer1Ctrl TIMER0) 0x00000002 k in
  let k := or_reg (Timer1Ctrl TIMER0) 0x00000040 k in
  let k := or_reg (Timer1Ctrl TIMER0) 0x00000020 k in
  or_reg (Timer1Ctrl TIMER0) 0x00000080 k.

Definition rst_uart (k : kernel D U) : kernel D U :=
  let k := or_reg (IMSC UART0) 0x00000010 k in
  let k := write_reg (CR UART0) 0x00000301 k in
  write_reg (CR UART1) 0x00000301 k.

Definition rst_gic (k : kernel D U) : kernel D U :=
  let k := write_reg (PMR GICC0) 0x000000F0 k in
  let k := or_reg (ISENABLER GICD0 1) 0x00001000 k in
  let k := or_reg (ISENABLER GICD0 1) 0x00000010 k in
  let k := write_reg (GICC_CTLR GICC0) 0x00000001 k in
  write_reg (GICD_CTLR GICD0) 0x00000001 k.

Definition rst_devices (k : kernel D U) : kernel D U :=
  let k := rst_timer (print "Configuring Timer" 18 k) in
  let k := rst_uart (print "Configuring UART" 17 k) in
  let k := rst_gic (print "Configuring Interrupt Controller" 33 k) in
  let k := print "Enabling interrupts" 20 k in
  print "Relinquishing control" 22 k.

Definition kernel_handler_rst (entry_sh root_path : Z) (c : ctx_t) (k : kernel D U) : outcome (ctx_t * kernel D U) :=
  let k := print "Starting MalapropOS" 20 k in
  '(c, s) ← scheduler_initialise entry_sh c (scheduler k);
  k ← rst_files root_path (with_scheduler s k);
  Ok (c, rst_devices k).

(** ** Interrupts

    The [switch] on the source, and the handler around it. *)
Definition irq_source (id : Z) (c : ctx_t) (k : kernel D U) : outcome (ctx_t * kernel D U) :=
  if id =? GIC_SOURCE_TIMER0 then
    '(c, s) ← scheduler_run c (scheduler k);
    Ok (c, write_reg (Timer1IntClr TIMER0) 0x01 (with_scheduler s k))
  else if id =? GIC_SOURCE_UART0 then
    '(ch, u) ← PL011_getc (devices k);
    let f := file_system k in
    let k := with_files (with_stdin (stdstream_push_char (stdin_buffer f) ch) f) (disk k) (with_devices u k) in
    Ok (c, write_reg (ICR UART0) 0x10 k)
  else Ok (c, k).

Definition kernel_handler_irq (c : ctx_t) (k : kernel D U) : outcome (ctx_t * kernel D U) :=
  let '(id, u) := reg_read (IAR GICC0) (devices k) in
  '(c, k) ← irq_source id c (with_devices u k);
  Ok (c, write_reg (EOIR GICC0) id k).

(** ** Supervisor calls

    The calls that deal with processes. [garbage] is what an uninitialised
    result holds. *)
Definition svc_process (id garbage : Z) (c : ctx_t) (k : kernel D U) : outcome (ctx_t * kernel D U) :=
  let r i := get_gpr i c in
  let s := scheduler k in
  match id with
  | 0 => (* exit *)
      '(c, s) ← scheduler_exit c s;
      Ok (c, with_scheduler s k)
  | 2 => (* fork *)
      '(result, s) ← scheduler_fork c (r 0%nat) (r 1%nat) s;
      Ok (return_value result c, with_scheduler s k)
  | 7 => (* waitpid *)
      let until_event := Event (i32 (r 0%nat)) (i32 (r 1%nat)) in
      if negb (Z.land (i32 (r 2%nat)) WAITPID_NOHANG =? 0) then
        Ok (return_value (scheduler_has_event_occurred until_event s) c, k)
      else
        '(result, c, s) ← scheduler_block_process c until_event s;
        Ok (return_value result c, with_scheduler s k)
  | 20 => (* getpid *)
      Ok (return_value (scheduler_getpid c s) c, k)
  | 37 => (* kill *)
      if i32 (r 1%nat) =? SIGKILL then
        '(result, c, s) ← scheduler_kill c (i32 (r 0%nat)) s;
        Ok (return_value result c, with_scheduler s k)
      else Ok (return_value garbage c, k)
  | 97 => (* setpriority *)
      let '(result, s) := scheduler_setpriority c (i32 (r 0%nat)) (i32 (r 2%nat)) s in
      Ok (return_value result c, with_scheduler s k)
  | 158 => (* yield *)
      '(c, s) ← scheduler_run c s;
      Ok (c, with_scheduler s k)
  | 1000 => (* exec *)
      '(_, c, s) ← scheduler_exec c (r 0%nat) (i32 (r 1%nat)) (r 2%nat) s;
      Ok (c, with_scheduler s k)
  | _ => Ok (c, k)
  end.

(** The calls that deal with files. [place] is the address of the list a call
    allocates. *)
Definition svc_file (id place : Z) (c : ctx_t) (k : kernel D U) : outcome (ctx_t * kernel D U) :=
  let r i := get_gpr i c in
  let f := file_system k in
  let d := disk k in
  match id with
  | 3 => (* read *)
      let nbytes := u32 (i32 (r 2%nat)) in
      '(result, buf, f, d) ← sys_read turns (i32 (r 0%nat)) (peek (user k) (r 1%nat) nbytes) nbytes f d;
      Ok (return_value result c, with_user (poke (user k) (r 1%nat) buf) (with_files f d k))
  | 4 => (* write *)
      let nbytes := u32 (i32 (r 2%nat)) in
      '(result, console, f, d) ← sys_write turns depth (strings k) (i32 (r 0%nat)) (peek (user k) (r 1%nat) nbytes) nbytes
                                    (console (scheduler k)) f d;
      Ok (return_value result c, with_console console (with_files f d k))
  | 5 => (* open *)
      '(result, f, d) ← sys_open turns depth (strings k) (r 0%nat) (i32 (r 1%nat)) f d;
      Ok (return_value result c, with_files f d k)
  | 6 => (* close *)
      let '(result, f) := sys_close (i32 (r 0%nat)) f in
      Ok (return_value result c, with_files f d k)
  | 10 => (* unlink *)
      '(result, d) ← sys_unlink turns depth (strings k) (r 0%nat) f d;
      Ok (return_value result c, with_files f d k)
  | 12 => (* chdir *)
      '(result, f, d) ← sys_chdir turns depth (strings k) (r 0%nat) f d;
      Ok (return_value result c, with_files f d k)
  | 18 => (* stat *)
      '(result, entry, d) ← sys_stat turns depth (strings k) (r 0%nat) f d;
      let k := with_files f d k in
      let k := match entry with Some e => with_user (poke (user k) (r 1%nat) (entry_bytes e)) k | None => k end in
      Ok (return_value result c, k)
  | 19 => (* lseek *)
      let '(result, f) := sys_lseek (i32 (r 0%nat)) (i32 (r 1%nat)) (i32 (r 2%nat)) f in
      Ok (return_value result c, with_files f d k)
  | 28 => (* fstat *)
      let '(result, entry) := sys_fstat (i32 (r 0%nat)) f in
      let k := match entry with Some e => with_user (poke (user k) (r 1%nat) (entry_bytes e)) k | None => k end in
      Ok (return_value result c, k)
  | 39 => (* mkdir *)
      '(result, d) ← sys_mkdir turns depth (strings k) (r 0%nat) f d;
      Ok (return_value result c, with_files f d k)
  | 141 => (* getdents *)
      '(entries, d) ← sys_getdents turns (i32 (r 0%nat)) (i32 (r 1%nat)) f d;
      let k := with_files f d k in
      match entries with
      | None => Ok (return_value NULL c, k)
      | Some l => Ok (return_value place c, with_list place (Dirents l) k)
      end
  | 183 => (* getcwd *)
      buf ← sys_getcwd (peek (user k) (r 0%nat) (r 1%nat)) (r 1%nat) f;
      Ok (return_value (r 0%nat) c, with_user (poke (user k) (r 0%nat) buf) k)
  | _ => Ok (c, k)
  end.

(** The calls that deal with messages, and the list of processes. *)
Definition svc_message (id place garbage : Z) (c : ctx_t) (k : kernel D U) : outcome (ctx_t * kernel D U) :=
  let r i := get_gpr i c in
  match id with
  | 1001 => (* smessage *)
      l ← ipc_send_message (peek (user k) (r 0%nat) (r 1%nat)) (r 1%nat) (i32 (r 2%nat)) (i32 (r 3%nat)) (messages k);
      Ok (return_value garbage c, with_messages l k)
  | 1002 => (* rmessagefr *)
      '(result, buf, l) ← ipc_receive_message_from (peek (user k) (r 0%nat) (r 1%nat)) (r 1%nat) (i32 (r 2%nat)) (i32 (r 3%nat)) (messages k);
      Ok (return_value result c, with_user (poke (user k) (r 0%nat) buf) (with_messages l k))
  | 1003 => (* rmessage *)
      '(result, buf, l) ← ipc_receive_any_message (peek (user k) (r 0%nat) (r 1%nat)) (r 1%nat) (i32 (r 2%nat)) (messages k);
      Ok (return_value result c, with_user (poke (user k) (r 0%nat) buf) (with_messages l k))
  | 1004 => (* lprocs *)
      Ok (return_value place c, with_list place (Procs (scheduler_list_procs (scheduler k))) k)
  | _ => Ok (c, k)
  end.

Definition process_calls : list Z := [0; 2; 7; 20; 37; 97; 158; 1000].
Definition file_calls : list Z := [3; 4; 5; 6; 10; 12; 18; 19; 28; 39; 141; 183].

Definition kernel_handler_svc (id place garbage : Z) (c : ctx_t) (k : kernel D U) : outcome (ctx_t * kernel D U) :=
  if decide (id ∈ process_calls) then svc_process id garbage c k
  else if decide (id ∈ file_calls) then svc_file id place c k
  else svc_message id place garbage c k.
End Handlers.
