(* ===== verification/Machine.v ===== *)
(** * The machine

    The runs of the kernel: user code, interrupts and supervisor calls one
    after another, from reset on, and what holds in every state they reach. *)
From S2P Require Import Prelude Mem Tailq Strings Scheduler Stream Ipc Uart Devices Disk Fat16 Directory Paths FileSys Descriptors Kernel.
From S2P Require Volume Files Slots Root Names Create.

(** ** Invariants of the parts *)

(** User memory and the console are no concern of the scheduler's. *)
Lemma same_sched_wf s s' :
  current_pid s' = current_pid s -> next_pid s' = next_pid s -> process_list s' = process_list s ->
  low_priority_queue s' = low_priority_queue s -> high_priority_queue s' = high_priority_queue s -> sched_wf s -> sched_wf s'.
Proof.
  intros E1 E2 E3 E4 E5 [Hc He Hcur].
  assert (Hp : forall p, proc p s' = proc p s) by (intros p; unfold proc, find_process; by rewrite E3).
  split.
  - destruct Hc. constructor; unfold pids in *; rewrite ?E1, ?E2, ?E3, ?E4, ?E5; done.
  - intros p. unfold exact. rewrite E4, Hp. apply He.
  - by rewrite E1, E4.
Qed.

Section Machine.
Context `{BlockDevice D} `{Board U} (turns depth limit : nat).
Abbreviation kernel := (kernel D U).

Record kernel_ok (k : kernel) : Prop := {
  ko_sched : sched_wf (scheduler k);
  ko_fds : fds_ok (file_system k)
}.

Lemma ok_with_scheduler s k : kernel_ok k -> sched_wf s -> kernel_ok (with_scheduler s k).
Proof. by intros [] ?. Qed.

Lemma ok_with_files f d k : kernel_ok k -> fds_ok f -> kernel_ok (with_files f d k).
Proof. by intros [] ?. Qed.

Lemma ok_with_user m k : kernel_ok k -> kernel_ok (with_user m k).
Proof. intros [Hs Hf]. split; [|done]. by apply (same_sched_wf (scheduler k)). Qed.

Lemma ok_with_console c k : kernel_ok k -> kernel_ok (with_console c k).
Proof. intros [Hs Hf]. split; [|done]. by apply (same_sched_wf (scheduler k)). Qed.

Lemma ok_same_fds k f d : kernel_ok k -> same_fds (file_system k) f -> kernel_ok (with_files f d k).
Proof. intros Hk Hf. apply ok_with_files; [done|]. eapply same_fds_ok; [exact Hf|apply Hk]. Qed.

(** What a call asks of the machine for the invariant to hold after it: pids
    and descriptors are not exhausted, and priorities are set for processes
    that can run. *)
Definition allowed (id : Z) (c : ctx_t) (k : kernel) : Prop :=
  (id = 2 -> next_pid (scheduler k) + 1 < 2 ^ 31) /\
  (id = 5 -> next_fd (file_system k) + 1 < 2 ^ 31) /\
  (id = 97 -> exists item, proc (i32 (get_gpr 0 c)) (scheduler k) = Some item /\ runnable item).

Lemma svc_process_ok id garbage c k c' k' :
  kernel_ok k -> allowed id c k -> id ∈ process_calls -> svc_process id garbage c k = Ok (c', k') -> kernel_ok k'.
Proof.
  intros Hk (Hfork & _ & Hprio) Hid E. pose proof (ko_sched k Hk) as Hs. unfold process_calls in Hid. rewrite !elem_of_cons, elem_of_nil in Hid.
  destruct Hid as [-> |[->|[->|[->|[->|[->|[->|[->|[]]]]]]]]]; cbn [svc_process] in E.
  - apply bind_Ok in E as ([c1 s1] & E1 & [= <- <-]). apply ok_with_scheduler; [done|]. by eapply exit_wf.
  - destruct (fork_full c (get_gpr 0 c) (get_gpr 1 c) _ Hs (Hfork eq_refl)) as (s1 & parent & E1 & Hs1 & _). rewrite E1 in E. revert E. ok_bind.
    intros [= <- <-]. by apply ok_with_scheduler.
  - destruct (negb _); [by injection E as <- <-|]. apply bind_Ok in E as ([[r c1] s1] & E1 & [= <- <-]).
    apply ok_with_scheduler; [done|]. by eapply block_wf.
  - by injection E as <- <-.
  - destruct (_ =? SIGKILL); [|by injection E as <- <-]. apply bind_Ok in E as ([[r c1] s1] & E1 & [= <- <-]).
    apply ok_with_scheduler; [done|]. by eapply kill_wf.
  - injection E as <- <-. apply ok_with_scheduler; [done|]. destruct (Hprio eq_refl) as (item & Hi & Hr). by eapply set_priority_wf.
  - destruct (run_total c _ Hs) as (c1 & s1 & E1 & _ & Hs1). rewrite E1 in E. injection E as <- <-. by apply ok_with_scheduler.
  - destruct (exec_full c (get_gpr 0 c) (i32 (get_gpr 1 c)) (get_gpr 2 c) _ Hs) as (s1 & E1 & Hs1 & _). rewrite E1 in E.
    injection E as <- <-. by apply ok_with_scheduler.
Qed.

Lemma svc_file_ok id place c k c' k' :
  kernel_ok k -> allowed id c k -> id ∈ file_calls -> svc_file turns depth limit id place c k = Ok (c', k') -> kernel_ok k'.
Proof.
  intros Hk (_ & Hopen & _) Hid E. pose proof (ko_fds k Hk) as Hf. unfold file_calls in Hid. rewrite !elem_of_cons, elem_of_nil in Hid.
  assert (Hsame : forall d, kernel_ok (with_files (file_system k) d k)) by (intros; by apply ok_with_files).
  destruct Hid as [->|[->|[->|[->|[->|[->|[->|[->|[->|[->|[->|[->|[]]]]]]]]]]]]]; cbn [svc_file] in E.
  - apply bind_Ok in E as ([[[r b] f1] d1] & E1 & [= <- <-]). apply ok_with_user, ok_same_fds; [done|]. by eapply sys_read_fds.
  - apply bind_Ok in E as ([[[r b] f1] d1] & E1 & [= <- <-]). apply ok_with_console, ok_same_fds; [done|]. by eapply sys_write_fds.
  - apply bind_Ok in E as ([[r f1] d1] & E1 & [= <- <-]). apply ok_with_files; [done|].
    by destruct (sys_open_fds _ _ _ _ _ _ _ _ _ _ Hf (Hopen eq_refl) E1).
  - destruct (sys_close _ _) as [r f1] eqn:E1. injection E as <- <-. apply ok_with_files; [done|]. by destruct (close_spec _ _ _ _ Hf E1).
  - by apply bind_Ok in E as ([r d1] & _ & [= <- <-]).
  - apply bind_Ok in E as ([[r f1] d1] & E1 & [= <- <-]). apply ok_same_fds; [done|]. by eapply sys_chdir_fds.
  - apply bind_Ok in E as ([[r [e|]] d1] & _ & [= <- <-]); [by apply ok_with_user|done].
  - destruct (sys_lseek _ _ _ _) as [r f1] eqn:E1. injection E as <- <-. apply ok_same_fds; [done|]. by eapply sys_lseek_fds.
  - destruct (sys_fstat _ _) as [r [e|]]; injection E as <- <-; [by apply ok_with_user|done].
  - by apply bind_Ok in E as ([r d1] & _ & [= <- <-]).
  - apply bind_Ok in E as ([[l|] d1] & _ & [= <- <-]); destruct (Hsame d1); by split.
  - apply bind_Ok in E as (b & _ & [= <- <-]). by apply ok_with_user.
Qed.

Lemma svc_message_ok id place garbage c k c' k' :
  kernel_ok k -> svc_message id place garbage c k = Ok (c', k') -> kernel_ok k'.
Proof.
  intros Hk E. assert (Hm : forall l, kernel_ok (with_messages l k)) by by destruct Hk.
  destruct (decide (id ∈ [1001; 1002; 1003; 1004])) as [Hid|Hid]; rewrite !elem_of_cons, elem_of_nil in Hid.
  - destruct Hid as [->|[->|[->|[->|[]]]]]; cbn [svc_message] in E.
    + by apply bind_Ok in E as (l & _ & [= <- <-]).
    + apply bind_Ok in E as ([[r b] l] & _ & [= <- <-]). by apply ok_with_user.
    + apply bind_Ok in E as ([[r b] l] & _ & [= <- <-]). by apply ok_with_user.
    + injection E as <- <-. by destruct Hk.
  - assert (svc_message id place garbage c k = Ok (c, k)) as E2; [|rewrite E2 in E; by injection E as <- <-].
    unfold svc_message. repeat (case_match; subst; try done; try tauto).
Qed.

Lemma svc_ok id place garbage c k c' k' :
  kernel_ok k -> allowed id c k -> kernel_handler_svc turns depth limit id place garbage c k = Ok (c', k') -> kernel_ok k'.
Proof.
  intros Hk Ha E. unfold kernel_handler_svc in E. destruct (decide (id ∈ process_calls)) as [Hp|_]; [exact (svc_process_ok _ _ _ _ _ _ Hk Ha Hp E)|].
  destruct (decide (id ∈ file_calls)) as [Hf|_]; [exact (svc_file_ok _ _ _ _ _ _ Hk Ha Hf E)|exact (svc_message_ok _ _ _ _ _ _ _ Hk E)].
Qed.

Lemma ok_with_devices u k : kernel_ok k -> kernel_ok (with_devices u k).
Proof. by intros []. Qed.

Lemma irq_ok c k c' k' : kernel_ok k -> kernel_handler_irq c k = Ok (c', k') -> kernel_ok k'.
Proof.
  intros Hk E. unfold kernel_handler_irq in E. destruct (reg_read _ _) as [id u]. apply bind_Ok in E as ([c1 k1] & E & [= <- <-]).
  apply ok_with_devices. apply (ok_with_devices u) in Hk. unfold irq_source in E. destruct (id =? GIC_SOURCE_TIMER0).
  - destruct (run_total c _ (ko_sched _ Hk)) as (c2 & s2 & E2 & _ & Hs2). rewrite E2 in E. injection E as <- <-.
    by apply ok_with_devices, ok_with_scheduler.
  - destruct (id =? GIC_SOURCE_UART0); [|by injection E as <- <-].
    apply bind_Ok in E as ([ch v] & _ & [= <- <-]). apply ok_with_devices, ok_same_fds; [by apply ok_with_devices|done].
Qed.

(** What the machine is before reset. *)
Record powered_on (k : kernel) : Prop := {
  po_sched : exists stack_top_usr m, scheduler k = scheduler_reset stack_top_usr m;
  po_fd : next_fd (file_system k) = 3
}.

Lemma initialise_console entry_sh c str n stack_top_usr m c' s' :
  scheduler_initialise entry_sh c (puts str n (scheduler_reset stack_top_usr m)) = Ok (c', s') -> sched_wf s'.
Proof.
  intros [= <- <-]. destruct (initialise_full entry_sh c stack_top_usr m) as (s & E & Hs & _). injection E as E. rewrite <- E in Hs.
  eapply same_sched_wf; [..|exact Hs]; done.
Qed.

Lemma initialise_print entry_sh c str n (k : kernel) c' s' :
  powered_on k -> scheduler_initialise entry_sh c (scheduler (print str n k)) = Ok (c', s') -> sched_wf s'.
Proof. intros [(st & m & Hs) _]. unfold print; cbn [scheduler with_scheduler]. rewrite Hs. apply initialise_console. Qed.

Lemma file_initialise_fds mem root_path f d f' d' :
  next_fd f = 3 -> file_initialise turns depth mem root_path f d = Ok (f', d') -> fds_ok f'.
Proof.
  intros Hn E. unfold file_initialise in E. apply bind_Ok in E as ([v d1] & _ & E). apply bind_Ok in E as ([[r f1] d2] & E1 & [= <- <-]).
  eapply same_fds_ok; [by eapply sys_chdir_fds|]. constructor; unfold fds; cbn; [constructor|set_solver|lia].
Qed.

Lemma print_ok str n (k : kernel) : kernel_ok k -> kernel_ok (print str n k).
Proof. intros [Hs Hf]. split; [|done]. by apply (same_sched_wf (scheduler k)). Qed.

Lemma rst_files_ok root_path (k k' : kernel) :
  sched_wf (scheduler k) -> next_fd (file_system k) = 3 -> rst_files turns depth limit root_path k = Ok k' -> kernel_ok k'.
Proof.
  intros Hs Hfd E. apply bind_Ok in E as ([f1 d1] & E2 & [= <-]). eapply file_initialise_fds in E2; [|done]. by split.
Qed.

Lemma devices_ok (k : kernel) : kernel_ok k -> kernel_ok (rst_devices k).
Proof.
  intros Hk. unfold rst_devices, rst_timer, rst_uart, rst_gic, write_reg, or_reg. repeat (apply print_ok || apply ok_with_devices). exact Hk.
Qed.

Lemma rst_inv entry_sh root_path c (k : kernel) c' k' :
  kernel_handler_rst turns depth limit entry_sh root_path c k = Ok (c', k') ->
  exists c1 s1 k1, scheduler_initialise entry_sh c (scheduler (print "Starting MalapropOS" 20 k)) = Ok (c1, s1) /\
    rst_files turns depth limit root_path (with_scheduler s1 (print "Starting MalapropOS" 20 k)) = Ok k1 /\ k' = rst_devices k1.
Proof.
  unfold kernel_handler_rst. destruct (scheduler_initialise _ _ _) as [[c1 s1]|] eqn:E1; [|done].
  rewrite bind_ok_l. destruct (rst_files _ _ _ _ _) as [k1|] eqn:E2; [|done]. rewrite bind_ok_l. intros E.
  exists c1, s1, k1. split; [done|]. split; [done|]. congruence.
Qed.

Lemma rst_ok entry_sh root_path c k c' k' :
  powered_on k -> kernel_handler_rst turns depth limit entry_sh root_path c k = Ok (c', k') -> kernel_ok k'.
Proof.
  intros Hp (c1 & s1 & k1 & E1 & E2 & ->)%rst_inv. apply devices_ok.
  refine (rst_files_ok _ _ k1 _ _ E2); [exact (initialise_print _ _ _ _ _ _ _ Hp E1)|exact (po_fd _ Hp)].
Qed.

(** ** Runs *)
Inductive step : ctx_t * kernel -> ctx_t * kernel -> Prop :=
| step_user c c' m k :
    (* user code changes its registers and memory at will *)
    step (c, k) (c', with_user m k)
| step_svc id place garbage c k c' k' :
    allowed id c k -> kernel_handler_svc turns depth limit id place garbage c k = Ok (c', k') -> step (c, k) (c', k')
| step_devices c u k :
    (* the devices change on their own: the timer runs out, a key is pressed *)
    step (c, k) (c, with_devices u k)
| step_irq c k c' k' :
    kernel_handler_irq c k = Ok (c', k') -> step (c, k) (c', k').

Inductive reachable : ctx_t * kernel -> Prop :=
| reach_reset entry_sh root_path c k c' k' :
    powered_on k -> kernel_handler_rst turns depth limit entry_sh root_path c k = Ok (c', k') -> reachable (c', k')
| reach_step st st' : reachable st -> step st st' -> reachable st'.

Lemma reachable_ok st : reachable st -> kernel_ok st.2.
Proof.
  induction 1 as [entry_sh root_path c k c' k' Hp E|st st' _ IH Hst]; [by eapply rst_ok|].
  destruct Hst as [c c' m k|id place garbage c k c' k' Ha E|c u k|c k c' k' E]; cbn in *.
  - by apply ok_with_user.
  - by eapply svc_ok.
  - by apply ok_with_devices.
  - by eapply irq_ok.
Qed.

(** A timer interrupt runs the scheduler. *)
Lemma tick_eq c (k : kernel) c' s' :
  (reg_read (IAR GICC0) (devices k)).1 = GIC_SOURCE_TIMER0 -> scheduler_run c (scheduler k) = Ok (c', s') ->
  exists k', kernel_handler_irq c k = Ok (c', k') /\ scheduler k' = s'.
Proof.
  intros Hid E. unfold kernel_handler_irq. destruct (reg_read _ _) as [id u]. cbn in Hid. subst id. unfold irq_source. cbn [Z.eqb Pos.eqb].
  change (scheduler (with_devices u k)) with (scheduler k). rewrite E. ok_bind. eexists. by split.
Qed.

(** C10 (invariant): in every state the machine reaches the scheduler's queues,
    statuses and process list agree and file descriptors are different; the
    process that has the processor can run; and a timer interrupt cannot fault:
    it switches to a process that can run, with the context saved for it. User
    code and the devices may do anything, but for three things ([allowed]): a
    process sets priorities only of processes that exist and can run - for
    others the invariant fails, see [Scheduler.setpriority_requeues_the_dead] -,
    and there are never 2^31 - 1 pids or descriptors. *)
Theorem machine_invariant c k :
  reachable (c, k) ->
  sched_wf (scheduler k) /\ fds_ok (file_system k) /\
  (exists item, proc (current_pid (scheduler k)) (scheduler k) = Some item /\ runnable item) /\
  ((reg_read (IAR GICC0) (devices k)).1 = GIC_SOURCE_TIMER0 ->
    exists c' k' item, kernel_handler_irq c k = Ok (c', k') /\
      proc (current_pid (scheduler k')) (scheduler k') = Some item /\ runnable item /\ ctx item = c').
Proof.
  intros [Hs Hf]%reachable_ok. cbn in *. split; [done|]. split; [done|]. split; [apply (wf_exact _ Hs), (wf_current _ Hs)|]. intros Hid.
  destruct (run_total c _ Hs) as (c1 & s1 & E1 & Hsw & Hs1). pose proof (proj1 (wf_exact _ Hs1 _) (wf_current _ Hs1)) as (item & Hi & Hr).
  destruct (tick_eq c k c1 s1 Hid E1) as (k' & E & Ek). exists c1, k', item. rewrite Ek. split_and!; try done.
  pose proof (sw_ctx _ _ _ _ Hsw) as Hc. rewrite Hi in Hc. by injection Hc.
Qed.

(** C39 (error): a process that waits for another without [WAITPID_NOHANG]
    hands the processor over, and the handler then writes the awaited pid over
    the [r0] of the process it switched to. *)
Theorem waitpid_clobbers_r0 place garbage c k :
  kernel_ok k -> (exists q, q ∈ low_priority_queue (scheduler k) /\ q <> current_pid (scheduler k)) ->
  Z.land (i32 (get_gpr 2 c)) WAITPID_NOHANG = 0 ->
  Event (i32 (get_gpr 0 c)) (i32 (get_gpr 1 c)) <> Event PROCESS_EVENT_BLOCKED (current_pid (scheduler k)) ->
  exists saved k', kernel_handler_svc turns depth limit 7 place garbage c k = Ok (set_gpr 0 (u32 (i32 (get_gpr 1 c))) saved, k') /\
    current_pid (scheduler k') <> current_pid (scheduler k) /\
    ctx <$> proc (current_pid (scheduler k')) (scheduler k') = Some saved.
Proof.
  intros [Hs _] Hq Hopt Hev. destruct (block_full c _ _ Hs Hq Hev) as (c1 & s1 & E & _ & _ & _ & _ & Hne & _ & Hctx).
  exists c1, (with_scheduler s1 k). split; [|by split]. unfold kernel_handler_svc. cbn. rewrite Hopt, E. done.
Qed.
End Machine.

(** ** The theorems at work *)
Definition demo_boot : kernel ram_disk board :=
  Kernel (scheduler_reset 458752 (fun a => if a =? 100 then SLASH else 0)) Create.demo_files Root.demo_dir [] quiet [].

Lemma demo_powered_on : powered_on demo_boot.
Proof. split; [by eexists _, _|done]. Qed.

Lemma demo_reset : exists c k, kernel_handler_rst 1 1 64 32768 100 demo_ctx demo_boot = Ok (c, k).
Proof. eexists _, _. vm_compute. reflexivity. Qed.

Lemma machine_invariant_witness :
  exists (c : ctx_t) (k : kernel ram_disk board), reachable 1 1 64 (c, k) /\
    sched_wf (scheduler k) /\ fds_ok (file_system k) /\
    (exists item, proc (current_pid (scheduler k)) (scheduler k) = Some item /\ runnable item) /\
    exists c' k' item, kernel_handler_irq c k = Ok (c', k') /\
      proc (current_pid (scheduler k')) (scheduler k') = Some item /\ runnable item /\ ctx item = c'.
Proof.
  destruct demo_reset as (c & k & E).
  assert (Hr : reachable 1 1 64 (c, with_devices ticking k)) by (eapply reach_step; [eapply reach_reset; [exact demo_powered_on|exact E]|apply step_devices]).
  exists c, (with_devices ticking k). split; [exact Hr|].
  destruct (machine_invariant 1 1 64 c (with_devices ticking k) Hr) as (H1 & H2 & H3 & H4). split_and!; [done..|]. apply H4. by vm_compute.
Defined.

Definition demo_kernel : kernel ram_disk board := Kernel demo2 Create.demo_files Root.demo_dir [] quiet [].
Definition demo_wait : ctx_t := set_gpr 0 1 (set_gpr 1 2 demo_ctx).

Lemma demo_kernel_ok : kernel_ok demo_kernel.
Proof. split; [exact demo2_wf|]. constructor; unfold fds; cbn; [constructor|set_solver|lia]. Qed.

Lemma waitpid_clobbers_r0_witness :
  exists saved k', kernel_handler_svc 1 1 64 7 0 0 demo_wait demo_kernel = Ok (set_gpr 0 (u32 (i32 2)) saved, k') /\
    current_pid (scheduler k') <> current_pid (scheduler demo_kernel) /\
    ctx <$> proc (current_pid (scheduler k')) (scheduler k') = Some saved.
Proof. apply (waitpid_clobbers_r0 1 1 64 0 0 demo_wait demo_kernel demo_kernel_ok demo2_other); [done|]. by vm_compute. Defined.
