(* ===== verification/Syscalls.v ===== *)
(** * User code

    The calls of [syscall.c], [stdproc.c] and [stdio.c] as user code makes
    them. User code is an interaction tree: what it computes by itself is Rocq,
    what it asks of the machine is an event, and a program may run for ever. *)
From S2P Require Import Prelude Mem Strings Stream Fat16 FileSys Kernel.
From ITree Require Export ITree.

#[export] Instance itree_ret E : MRet (itree E) := fun A a => Ret a.
#[export] Instance itree_bind E : MBind (itree E) := fun A B f m => ITree.bind m f.

(** ** What user code asks of the machine *)
Variant userE : Type -> Type :=
| Svc (id : Z) (args : list Z) : userE Z       (** load [r0], [r1], ..., [svc #id], and read [r0] *)
| Load (p n : Z) : userE (list Z)              (** [n] bytes from [p] *)
| Text (p : Z) : userE (list Z)                (** the bytes readable from a [char* ] *)
| Store (p : Z) (l : list Z) : userE unit      (** bytes to [p] *)
| Allocate (n : Z) : userE Z                   (** [stdmem_allocate] *)
| Local (n : Z) : userE Z                      (** the address of a local object of [n] bytes *)
| Garbage : userE Z                            (** the value of an uninitialised local *)
| FramePointer : userE Z                       (** [mov %0, r11] *)
| StackPointer : userE Z                       (** [mov r0, sp] *)
| Nodes (p : Z) : userE exported               (** the elements of a list the kernel handed out *)
| NodeAt (e : fat16_dir_entry_t) : userE Z     (** the address of such an element *)
| Fault (e : fault) : userE Empty_set.         (** the computation faults *)

Abbreviation code := (itree userE).

Definition svc (id : Z) (args : list Z) : code Z := ITree.trigger (Svc id args).
Definition load (p n : Z) : code (list Z) := ITree.trigger (Load p n).
Definition text_of (p : Z) : code (list Z) := ITree.trigger (Text p).
Definition store (p : Z) (l : list Z) : code unit := ITree.trigger (Store p l).
Definition allocate (n : Z) : code Z := ITree.trigger (Allocate n).

(** Library functions over bytes already read. *)
Definition lift {A} (m : outcome A) : code A :=
  match m with Ok a => Ret a | Err e => v ← ITree.trigger (Fault e); match v : Empty_set with end end.

(** A word in memory. *)
Definition load32 (p : Z) : code Z :=
  b ← load p 4;
  lift (b0 ← buf_get b 0; b1 ← buf_get b 1; b2 ← buf_get b 2; b3 ← buf_get b 3;
        Ok (b0 + 256 * (b1 + 256 * (b2 + 256 * b3)))).
Definition store32 (p v : Z) : code unit := store p [v mod 256; v / 2 ^ 8 mod 256; v / 2 ^ 16 mod 256; v / 2 ^ 24 mod 256].

(** [argv[i]]. *)
Definition arg (argv i : Z) : code Z := load32 (u32 (argv + 4 * i)).

(** ** The stubs ([syscall.c]) *)
Definition _yield : code unit := _ ← svc 158 []; mret tt.
Definition _exit (status : Z) : code unit := _ ← svc 0 [u32 status]; mret tt.
Definition _fork (fp : Z) : code Z := sp ← ITree.trigger StackPointer; r ← svc 2 [sp; fp]; mret (i32 r).
Definition _read (fd buf nbytes : Z) : code Z := r ← svc 3 [u32 fd; buf; nbytes]; mret (i32 r).
Definition _write (fd buf nbytes : Z) : code Z := r ← svc 4 [u32 fd; buf; nbytes]; mret (u32 (i32 r)).
Definition _getpid : code Z := r ← svc 20 []; mret (i32 r).
Definition _waitpid (event pid options : Z) : code Z := r ← svc 7 [u32 event; u32 pid; u32 options]; mret (i32 r).
Definition _exec (function argc argv : Z) : code unit := _ ← svc 1000 [function; u32 argc; argv]; mret tt.
Definition _kill (pid sig : Z) : code Z := r ← svc 37 [u32 pid; u32 sig]; mret (i32 r).
Definition _setpriority (which who priority : Z) : code Z := r ← svc 97 [u32 which; u32 who; u32 priority]; mret (i32 r).
Definition _open (pathname flags : Z) : code Z := r ← svc 5 [pathname; u32 flags]; mret (i32 r).
Definition _close (fd : Z) : code Z := r ← svc 6 [u32 fd]; mret (i32 r).
Definition _unlink (pathname : Z) : code Z := r ← svc 10 [pathname]; mret (i32 r).
Definition _getdents (fd max_num : Z) : code Z := svc 141 [u32 fd; u32 max_num].
Definition _lseek (fd offset whence : Z) : code Z := r ← svc 19 [u32 fd; u32 offset; u32 whence]; mret (i32 r).
Definition _chdir (path : Z) : code Z := r ← svc 12 [path]; mret (i32 r).
Definition _getcwd (buf nbytes : Z) : code Z := svc 183 [buf; nbytes].
Definition _stat (path buf : Z) : code Z := r ← svc 18 [path; buf]; mret (i32 r).
Definition _fstat (fd buf : Z) : code Z := r ← svc 28 [u32 fd; buf]; mret (i32 r).
Definition _mkdir (path : Z) : code Z := r ← svc 39 [path]; mret (i32 r).
Definition _smessage (buf nbytes from to : Z) : code Z := r ← svc 1001 [buf; nbytes; u32 from; u32 to]; mret (i32 r).
Definition _rmessagefr (buf nbytes from to : Z) : code Z := r ← svc 1002 [buf; nbytes; u32 from; u32 to]; mret (i32 r).
Definition _rmessage (buf nbytes to : Z) : code Z := r ← svc 1003 [buf; nbytes; u32 to]; mret (i32 r).
Definition _lprocs : code Z := svc 1004 [].

(** ** [stdproc.c] *)
Definition EXIT_SUCCESS : Z := 0.
Definition stdproc_exit (result : Z) : code unit := _exit result.
Definition stdproc_fork : code Z := fp ← ITree.trigger FramePointer; _fork fp.
Definition stdproc_getpid : code Z := _getpid.

(** ** [stdio.c] *)
Definition stdio_print (str : Z) : code unit :=
  s ← text_of str;
  len ← lift (stdstring_length s);
  _ ← _write STDOUT_FILEDESC str len;
  mret tt.

Definition stdio_printchar (c : Z) : code unit :=
  p ← ITree.trigger (Local 1);
  _ ← store p [c];
  _ ← _write STDOUT_FILEDESC p 1;
  mret tt.

Definition stdio_printint (n : Z) : code unit :=
  str ← ITree.trigger (Local 10);
  s ← lift (stdstring_int_to_str n (replicate 10 0));
  _ ← store str s;
  len ← lift (stdstring_length s);
  _ ← _write STDOUT_FILEDESC str len;
  mret tt.

Definition stdio_file_print (fd str : Z) : code unit :=
  s ← text_of str;
  len ← lift (stdstring_length s);
  _ ← _write fd str len;
  mret tt.

(** The byte at a [char* ]. *)
Definition char_at (p : Z) : code Z := b ← load p 1; lift (buf_get b 0).

(** The loop of [stdio_readline] at [i]; it ends at a newline or after [n]
    more characters. *)
Fixpoint readline_loop (n : nat) (i buf nbytes : Z) : code Z :=
  match n with
  | O => _ ← store (u32 (buf + nbytes)) [0]; mret nbytes
  | S n =>
      _ ← _read STDIN_FILEDESC (u32 (buf + i)) 1;
      c ← char_at (u32 (buf + i));
      if c =? 10 then _ ← store (u32 (buf + (i + 1))) [0]; mret (i + 1)
      else readline_loop n (i + 1) buf nbytes
  end.
Definition stdio_readline (buf nbytes : Z) : code Z := readline_loop (Z.to_nat nbytes) 0 buf nbytes.

(** A [do] loop that reads until there is something. *)
Definition stdio_readchar : code Z :=
  c ← ITree.trigger (Local 1);
  _ ← store c [EOF];
  ITree.iter (fun _ : unit =>
    _ ← _read STDIN_FILEDESC c 1;
    x ← char_at c;
    mret (if x =? EOF then inl tt else inr x)) tt.

Definition stdio_readchar_nonblocking : code Z :=
  c ← ITree.trigger (Local 1);
  _ ← store c [EOF];
  _ ← _read STDIN_FILEDESC c 1;
  char_at c.
