(* ===== verification/Programs.v ===== *)
(** * The programs

    The programs of [src/os/src/user] the shell starts, as user code. [lit]
    gives the addresses of string literals. Loops that only burn time
    ([nop]) leave no trace here. *)
From S2P Require Import Prelude Mem Strings Scheduler Fat16 Directory Paths FileSys Kernel Syscalls.

Definition when (b : bool) (m : code unit) : code unit := if b then m else mret tt.

(** [for (i = from; i < from + n; i++) body]. *)
Fixpoint count_code (n : nat) (i : Z) (body : Z -> code unit) : code unit :=
  match n with
  | O => mret tt
  | S n => body i;; count_code n (i + 1) body
  end.

Fixpoint each {A} (l : list A) (body : A -> code unit) : code unit :=
  match l with
  | [] => mret tt
  | a :: l => body a;; each l body
  end.

(** [stdstring_strtol(str, end, base)], whose [end] the callers do not
    initialise: unless it happens to be [NULL] it is written through. *)
Definition strtol_at (str base : Z) : code Z :=
  endptr ← ITree.trigger Garbage;
  s ← text_of str;
  '(v, stop) ← lift (stdstring_strtol s base);
  _ ← when (negb (endptr =? 0)) (store32 endptr (u32 (str + (zlength s - zlength stop))));
  mret v.

(** The layout of [fat16_dir_entry_t]. *)
Definition sizeof_dir_entry : Z := 20.
Definition attributes_at (p : Z) : code Z := char_at (u32 (p + 13)).
Definition file_size_at (p : Z) : code Z := load32 (u32 (p + 16)).

Section Programs.
Context (lit : list Z -> Z).

Definition say (s : string) : code unit := stdio_print (lit (bytes_of s)).
Definition say_line (s : string) : code unit := stdio_print (lit (bytes_of s ++ [10])).
Definition newline : code unit := stdio_print (lit [10]).

Definition cat (argc argv : Z) : code unit :=
  _ ← when (argc =? 1) (
    name ← arg argv 0;
    fd ← _open name 0;
    _ ← _lseek fd 0 SEEK_SET;
    file_entry ← allocate sizeof_dir_entry;
    r ← _fstat fd file_entry;
    _ ← when (negb (r =? 0)) (say_line "File not found.";; stdproc_exit (-1));
    attr ← attributes_at file_entry;
    _ ← when (is_subdirectory (unpack_file_attributes attr)) (say_line "Cannot cat a directory.";; stdproc_exit (-1));
    size ← file_size_at file_entry;
    buf ← allocate (u32 (size + 1));
    size ← file_size_at file_entry;
    bytes_read ← _read fd buf size;
    _ ← store (u32 (buf + bytes_read)) [0];
    _ ← stdio_print buf;
    _ ← newline;
    stdproc_exit EXIT_SUCCESS);
  _ ← say_line "Invalid arguments.";
  stdproc_exit (-1).

(** The body of the loop of [ls]. *)
Definition ls_entry (e : fat16_dir_entry_t) : code unit :=
  _ ← (if is_subdirectory (unpack_file_attributes (attributes e)) then say "d  " else say "f  ");
  p ← ITree.trigger (NodeAt e);
  _ ← stdio_print p;
  c ← lift (buf_get (extension e) 0);
  _ ← when (negb (c =? 0)) (say ".";; stdio_print (u32 (p + 9)));
  newline.

Definition ls (argc argv : Z) : code unit :=
  dir ← (if argc >? 0 then name ← arg argv 0; _open name 0
         else cwd ← allocate 100; _ ← _getcwd cwd 100; _open cwd 0);
  _ ← when (dir <? 0) (say_line "Directory not found.";; stdproc_exit (-1));
  files ← _getdents dir 100;
  nodes ← ITree.trigger (Nodes files);
  _ ← each (match nodes with Dirents l => l | Procs _ => [] end) ls_entry;
  stdproc_exit EXIT_SUCCESS.

(** The loop that [write] and [append] share, over [argv[1]], [argv[2]], ... *)
Definition write_word (fd argv i : Z) : code unit :=
  word ← arg argv i;
  s ← text_of word;
  len ← lift (stdstring_length s);
  word ← arg argv i;
  len_written ← _write fd word len;
  space_written ← _write fd (lit [32]) 1;
  when (negb (i32 len_written =? len) || negb (i32 space_written =? 1))
    (say_line "Ran out of space in file.";; stdproc_exit (-1)).

Definition write_words (fd argc argv : Z) : code unit :=
  count_code (Z.to_nat (argc - 1)) 1 (write_word fd argv).

Definition write (argc argv : Z) : code unit :=
  _ ← when (argc >? 1) (
    name ← arg argv 0;
    fd ← _open name 0;
    _ ← _lseek fd 0 SEEK_SET;
    _ ← when (fd <? 0) (say_line "Could not find file.";; stdproc_exit (-1));
    _ ← write_words fd argc argv;
    stdproc_exit EXIT_SUCCESS);
  _ ← say_line "Invalid arguments.";
  stdproc_exit (-1).

Definition append (argc argv : Z) : code unit :=
  _ ← when (argc >? 1) (
    name ← arg argv 0;
    fd ← _open name 0;
    _ ← _lseek fd 0 SEEK_END;
    _ ← when (fd <? 0) (say_line "Could not find file.";; stdproc_exit (-1));
    _ ← write_words fd argc argv;
    stdproc_exit EXIT_SUCCESS);
  _ ← say_line "Invalid arguments.";
  stdproc_exit (-1).

Definition touch (argc argv : Z) : code unit :=
  _ ← when (argc =? 1) (
    name ← arg argv 0;
    result ← _open name O_CREAT;
    _ ← when (result <? 0) (say_line "Could not find or create file.";; stdproc_exit (-1));
    stdproc_exit EXIT_SUCCESS);
  _ ← say_line "Invalid arguments.";
  stdproc_exit (-1).

Definition rm (argc argv : Z) : code unit :=
  _ ← when (argc =? 1) (
    name ← arg argv 0;
    fd ← _open name 0;
    _ ← _close fd;
    name ← arg argv 0;
    result ← _unlink name;
    _ ← when (result <? 0) (say_line "Could not find file.";; stdproc_exit (-1));
    stdproc_exit EXIT_SUCCESS);
  _ ← say_line "Invalid arguments.";
  stdproc_exit (-1).

Definition mkdir (argc argv : Z) : code unit :=
  _ ← when (argc =? 1) (
    name ← arg argv 0;
    result ← _mkdir name;
    _ ← when (negb (result =? 0)) (say_line "Directory creation failed.";; stdproc_exit (-1));
    stdproc_exit EXIT_SUCCESS);
  _ ← say_line "Invalid arguments.";
  stdproc_exit (-1).

Definition cd (argc argv : Z) : code unit :=
  _ ← when (argc >? 0) (
    name ← arg argv 0;
    dir ← _open name 0;
    _ ← when (dir <? 0) (say_line "Directory not found.";; stdproc_exit (-1));
    name ← arg argv 0;
    _ ← _chdir name;
    stdproc_exit EXIT_SUCCESS);
  stdproc_exit (-1).

Definition pwd (argc argv : Z) : code unit :=
  cwd ← allocate 100;
  _ ← _getcwd cwd 100;
  _ ← stdio_print cwd;
  _ ← newline;
  stdproc_exit EXIT_SUCCESS.

Definition digits90 : string :=
  "123456789123456789123456789123456789123456789123456789123456789123456789123456789123456789".

Definition writemany (argc argv : Z) : code unit :=
  _ ← when (negb (argc =? 2)) (say_line "Invalid arguments.";; stdproc_exit (-1));
  name ← arg argv 0;
  fd ← _open name 0;
  _ ← _lseek fd 0 SEEK_SET;
  _ ← when (fd <? 0) (say_line "Could not find file.";; stdproc_exit (-1));
  number ← arg argv 1;
  count ← strtol_at number 10;
  _ ← count_code (Z.to_nat count) 0 (fun _ => _ ← _write fd (lit (bytes_of digits90)) 90; mret tt);
  stdproc_exit EXIT_SUCCESS.

Definition proc (argc argv : Z) : code unit :=
  processes ← _lprocs;
  nodes ← ITree.trigger (Nodes processes);
  _ ← each (match nodes with Procs l => l | Dirents _ => [] end) (fun item =>
    _ ← stdio_printint (pid item);
    _ ← say " ";
    _ ← (if status item =? PROCESS_STATUS_RUNNING then say "RUNNING"
         else if status item =? PROCESS_STATUS_READY then say "READY"
         else if status item =? PROCESS_STATUS_BLOCKED then say "BLOCKED"
         else if status item =? PROCESS_STATUS_TERMINATED then say "TERMINATED"
         else mret tt);
    newline);
  stdproc_exit EXIT_SUCCESS.

Definition kill (argc argv : Z) : code unit :=
  _ ← when (negb (argc =? 1)) (stdproc_exit (-1));
  number ← arg argv 0;
  p ← strtol_at number 10;
  result ← _kill (i32 p) SIGKILL;
  _ ← when (negb (result =? 0)) (stdproc_exit (-1));
  stdproc_exit EXIT_SUCCESS.

(** ** Programs that talk to each other *)

(** [do { _yield(); result = _rmessage(...); } while (result < 0);] *)
Definition await_message (buf nbytes pid : Z) : code unit :=
  ITree.iter (fun _ : unit =>
    _ ← _yield;
    result ← _rmessage buf nbytes pid;
    mret (if result <? 0 then inl tt else inr tt)) tt.

Definition messenger (argc argv : Z) : code unit :=
  parent_pid ← _getpid;
  fp ← ITree.trigger FramePointer;
  fork_pid ← _fork fp;
  if fork_pid =? 0 then
    child_pid ← _getpid;
    received_message ← allocate 101;
    _ ← await_message received_message 100 child_pid;
    _ ← store (u32 (received_message + 100)) [0];
    _ ← say "Received message: ";
    _ ← stdio_print received_message;
    _ ← newline;
    stdproc_exit EXIT_SUCCESS
  else
    let message := lit (bytes_of "Hi!") in
    _ ← _smessage message 4 parent_pid fork_pid;
    _ ← say "Sent message: ";
    _ ← stdio_print message;
    _ ← newline;
    stdproc_exit EXIT_SUCCESS.

Definition producer (argc argv : Z) : code unit :=
  _ ← when (negb (argc =? 2)) (say_line "Invalid arguments.";; stdproc_exit (-1));
  number ← arg argv 0;
  out_pid ← strtol_at number 10;
  pid ← _getpid;
  ITree.iter (fun _ : unit =>
    message ← arg argv 1;
    _ ← _smessage message 1 pid out_pid;
    mret (inl tt)) tt.

(** A turn of the loop of [consumer]. A [char] is unsigned and is never -1. *)
Definition consumer_turn (pid received_message : Z) : code (unit + unit) :=
  _ ← await_message received_message 1 pid;
  _ ← say "Consumer: received ";
  c ← char_at received_message;
  _ ← stdio_printchar c;
  _ ← newline;
  c ← char_at received_message;
  mret (if c =? -1 then inr tt else inl tt).

Definition consumer (argc argv : Z) : code unit :=
  pid ← _getpid;
  _ ← say "Consumer PID: ";
  _ ← stdio_printint pid;
  _ ← newline;
  received_message ← allocate 1;
  _ ← ITree.iter (fun _ : unit => consumer_turn pid received_message) tt;
  stdproc_exit EXIT_SUCCESS.

Definition pipeline_turn (pid out_pid received_message outward_message : Z) : code (unit + unit) :=
  _ ← await_message received_message 1 pid;
  c ← char_at received_message;
  _ ← store outward_message [u8 (c + 1)];
  _ ← _smessage outward_message 1 pid out_pid;
  c ← char_at outward_message;
  mret (if c =? -1 then inr tt else inl tt).

Definition pipeline (argc argv : Z) : code unit :=
  _ ← when (negb (argc =? 1)) (say_line "Invalid arguments.";; stdproc_exit (-1));
  number ← arg argv 0;
  out_pid ← strtol_at number 10;
  pid ← _getpid;
  _ ← say "Pipeline PID: ";
  _ ← stdio_printint pid;
  _ ← newline;
  received_message ← allocate 1;
  outward_message ← allocate 1;
  _ ← ITree.iter (fun _ : unit => pipeline_turn pid out_pid received_message outward_message) tt;
  stdproc_exit EXIT_SUCCESS.

(** ** Programs that count *)
Definition count_five (who : string) : code unit :=
  ITree.iter (fun _ : unit =>
    _ ← count_code 5 0 (fun i => say who;; stdio_printint i;; newline);
    _ ← stdproc_exit EXIT_SUCCESS;
    mret (inl tt)) tt.

Definition P0 (argc argv : Z) : code unit := count_five "P0: ".
Definition P1 (argc argv : Z) : code unit := count_five "P1: ".
End Programs.
