(* ===== verification/Process.v ===== *)
(** * A process at work

    What user code does when the kernel serves it: a weakest precondition for
    the trees of [Syscalls] over the handlers of [Kernel], for a process as if
    it were alone. Addresses the code does not fix (blocks of the heap, locals)
    and values it does not initialise are whatever they may be; the kernel,
    which shares the heap, may allocate between two requests. The process keeps
    to its own memory, below the stacks, and to the calls of the file system,
    so that what it does among others is the same ([Sharing], [Runs]). *)
From S2P Require Import Prelude Mem Strings Scheduler Uart Devices Disk Fat16 Directory Paths FileSys Kernel Syscalls.

Record ustate (D U : Type) := UState {
  uctx : ctx_t;
  ukernel : kernel D U;
  uheap : heap
}.
Arguments UState {D U}.
Arguments uctx {D U}.
Arguments ukernel {D U}.
Arguments uheap {D U}.

(** [r0], [r1], ... loaded for a call. *)
Fixpoint load_args (i : nat) (args : list Z) (c : ctx_t) : ctx_t :=
  match args with
  | [] => c
  | a :: args => load_args (S i) args (set_gpr i (u32 a) c)
  end.

(** The heap after the kernel took at most [slack] bytes of it. *)
Definition grown (slack : Z) (h h' : heap) : Prop :=
  heap_low h' = heap_low h /\ heap_top h' = heap_top h /\ brk h <= current_break h' <= brk h + slack /\ current_break h' <= heap_top h.

(** The stacks of user processes are above the heap. *)
Definition on_stack (h : heap) (a n : Z) : Prop := heap_top h <= a /\ a + n <= 2 ^ 32.

(** The size of an element of a list of directory entries. *)
Definition sizeof_node : Z := 28.

(** ** Bytes in memory *)
Definition holds (m : Z -> Z) (a : Z) (l : list Z) : Prop := forall i x, l !! i = Some x -> m (u32 (a + Z.of_nat i)) = x.
Definition in_space (a n : Z) : Prop := 0 <= a /\ a + n <= 2 ^ 32.

Lemma peek_holds m a l : holds m a l -> peek m a (zlength l) = l.
Proof.
  intros Hl. apply list_eq. intros i. unfold peek. rewrite list_lookup_fmap. destruct (l !! i) as [x|] eqn:E.
  - pose proof (lookup_lt_Some _ _ _ E). rewrite lookup_seqZ_lt by lia. cbn [fmap option_fmap option_map]. f_equal. rewrite Z.add_0_l. by apply Hl.
  - apply lookup_ge_None in E. by rewrite lookup_seqZ_ge by lia.
Qed.

Lemma holds_peek m a l : peek m a (zlength l) = l -> holds m a l.
Proof.
  intros E i x Hi. pose proof (lookup_lt_Some _ _ _ Hi). rewrite <- E in Hi. unfold peek in Hi. rewrite list_lookup_fmap in Hi.
  apply fmap_Some in Hi as (j & Hj & ->). rewrite lookup_seqZ_lt in Hj by lia. injection Hj as <-. by rewrite Z.add_0_l.
Qed.

Lemma peek_length m a n : 0 <= n -> zlength (peek m a n) = n.
Proof. intros. unfold peek. rewrite length_fmap, length_seqZ. lia. Qed.

Lemma c_string_holds limit m a s : nonul s -> (length s < limit)%nat -> holds m a (cstr s []) -> c_string limit m a = cstr s [].
Proof.
  revert a limit. induction s as [|c s IH]; intros a limit Hs Hl Hm; (destruct limit as [|limit]; [lia|]); cbn [c_string].
  - pose proof (Hm 0%nat 0 eq_refl) as E. rewrite Z.add_0_r in E. by rewrite E.
  - apply Forall_cons in Hs as [Hc Hs]. pose proof (Hm 0%nat c eq_refl) as E. rewrite Z.add_0_r in E. rewrite E.
    destruct (Z.eqb_spec c 0); [done|]. change (cstr (c :: s) []) with (c :: cstr s []). f_equal. simpl in Hl. apply IH; [done|lia|].
    intros i x Hi. rewrite <- (Hm (S i) x Hi). f_equal. f_equal. lia.
Qed.

Lemma u32_u32 z : u32 (u32 z) = u32 z.
Proof. apply Z.mod_mod. lia. Qed.

Lemma u32_sub_l z w : u32 (u32 z - w) = u32 (z - w).
Proof. unfold u32. by rewrite Zminus_mod_idemp_l. Qed.

Lemma i32_u32 z : i32 (u32 z) = i32 z.
Proof. unfold i32, u32. by rewrite Zplus_mod_idemp_l. Qed.

Lemma u32_i32 z : u32 (i32 z) = u32 z.
Proof. unfold i32, u32. by rewrite Zminus_mod_idemp_l, Z.add_simpl_r. Qed.

Lemma i32_i32 z : i32 (i32 z) = i32 z.
Proof. by rewrite <- i32_u32, u32_i32, i32_u32. Qed.

Lemma holds_poke m a l : zlength l <= 2 ^ 32 -> holds (poke m a l) a l.
Proof.
  intros Hl i x Hi. pose proof (lookup_lt_Some _ _ _ Hi). unfold poke. rewrite u32_sub_l.
  replace (a + Z.of_nat i - a) with (Z.of_nat i) by lia. rewrite (u32_small (Z.of_nat i)), Nat2Z.id by lia. by rewrite Hi.
Qed.

Lemma holds_poke_other m a l p l' :
  in_space a (zlength l) -> in_space p (zlength l') -> a + zlength l <= p \/ p + zlength l' <= a -> holds m a l -> holds (poke m p l') a l.
Proof.
  intros [Ha1 Ha2] [Hp1 Hp2] Hd Hl i x Hi. pose proof (lookup_lt_Some _ _ _ Hi). unfold poke. rewrite u32_sub_l.
  rewrite lookup_ge_None_2; [by apply Hl|]. unfold u32. destruct Hd.
  - rewrite <- (Z.mod_unique _ (2 ^ 32) (-1) (a + Z.of_nat i - p + 2 ^ 32)) by lia. lia.
  - rewrite Z.mod_small by lia. lia.
Qed.

(** A write does not reach what is below it. *)
Lemma poke_below m p l a : in_space p (zlength l) -> 0 <= a < p -> poke m p l a = m a.
Proof.
  intros [Hp Hl] Ha. unfold poke. rewrite lookup_ge_None_2; [done|]. unfold u32.
  rewrite <- (Z.mod_unique _ (2 ^ 32) (-1) (a - p + 2 ^ 32)) by lia. lia.
Qed.

Lemma holds_app m a l l' : holds m a (l ++ l') -> holds m a l /\ holds m (a + zlength l) l'.
Proof.
  intros Hl. split; intros i x Hi.
  - apply Hl. rewrite lookup_app_l; [done|]. by eapply lookup_lt_Some.
  - rewrite <- (Hl (length l + i)%nat x); [f_equal; f_equal; lia|]. rewrite lookup_app_r by lia. rewrite <- Hi. f_equal. lia.
Qed.

Lemma holds_join m a l l' : holds m a l -> holds m (a + zlength l) l' -> holds m a (l ++ l').
Proof.
  intros Hl Hl' i x [Hi|[Hi Hx]]%lookup_app_Some; [by apply Hl|]. rewrite <- (Hl' _ _ Hx). f_equal. f_equal. lia.
Qed.

(** A terminator after some bytes makes a string of them. *)
Lemma holds_terminate m p l : in_space p (zlength l + 1) -> holds m p l -> holds (poke m (p + zlength l) [0]) p (cstr l []).
Proof.
  intros [Hp Hl] Hm. apply holds_join; [|by apply holds_poke].
  apply holds_poke_other; [split; lia|split; cbn; lia|left; lia|done].
Qed.

(** ** Registers *)
Definition ctx_ok (c : ctx_t) : Prop := length (gpr c) = 13%nat.

Lemma set_gpr_ok i v c : ctx_ok c -> ctx_ok (set_gpr i v c).
Proof. unfold ctx_ok. intros Hc. cbn. by rewrite length_insert. Qed.

Lemma get_set_gpr i v c : ctx_ok c -> (i < 13)%nat -> get_gpr i (set_gpr i v c) = v.
Proof. unfold ctx_ok. intros Hc Hi. unfold get_gpr; cbn. by rewrite list_lookup_insert_eq by lia. Qed.

Lemma get_set_gpr_ne i j v c : i <> j -> get_gpr i (set_gpr j v c) = get_gpr i c.
Proof. intros Hi. unfold get_gpr; cbn. by rewrite list_lookup_insert_ne. Qed.

Lemma load_args_ok i args c : ctx_ok c -> ctx_ok (load_args i args c).
Proof. revert i c. induction args as [|a args IH]; intros i c Hc; [done|]. by apply IH, set_gpr_ok. Qed.

Lemma load_args_before i j args c : (j < i)%nat -> get_gpr j (load_args i args c) = get_gpr j c.
Proof.
  revert i c. induction args as [|a args IH]; intros i c Hj; [done|]. cbn [load_args]. rewrite IH by lia. apply get_set_gpr_ne. lia.
Qed.

Lemma load_args_get i j args c a : ctx_ok c -> args !! j = Some a -> (i + j < 13)%nat -> get_gpr (i + j) (load_args i args c) = u32 a.
Proof.
  revert i j c. induction args as [|a' args IH]; intros i j c Hc Hj Hl; [done|]. cbn [load_args]. destruct j as [|j].
  - injection Hj as ->. rewrite Nat.add_0_r, load_args_before by lia. apply get_set_gpr; [done|lia].
  - rewrite Nat.add_succ_r, <- Nat.add_succ_l. apply IH; [by apply set_gpr_ok|done|lia].
Qed.

Lemma arg_register args c j a : ctx_ok c -> args !! j = Some a -> (j < 13)%nat -> get_gpr j (load_args 0 args c) = u32 a.
Proof. intros. by apply (load_args_get 0). Qed.

Lemma return_value_ok r c : ctx_ok c -> ctx_ok (return_value r c).
Proof. apply set_gpr_ok. Qed.

Lemma return_value_r0 r c : ctx_ok c -> get_gpr 0 (return_value r c) = u32 r.
Proof. intros Hc. by apply get_set_gpr; [|lia]. Qed.

(** The registers of a call. *)
Ltac registers Hc := repeat match goal with
  | |- context [get_gpr ?j (load_args 0 ?args _)] => rewrite (arg_register args _ j _ Hc eq_refl) by lia
  end.

(** A number is in a list of calls. *)
Ltac in_calls := by apply (bool_decide_unpack _).

Section Process.
Context `{BlockDevice D} `{Board U} (turns depth limit : nat) (slack : Z).
Abbreviation kernel := (kernel D U).
Abbreviation ustate := (ustate D U).

Definition with_umemory (m : Z -> Z) (s : ustate) : ustate := UState (uctx s) (with_user m (ukernel s)) (uheap s).
Definition with_uheap (h : heap) (s : ustate) : ustate := UState (uctx s) (ukernel s) h.
Definition umemory (s : ustate) : Z -> Z := user (ukernel s).

Definition is_word (z : Z) : Prop := 0 <= z < 2 ^ 32.

(** Descriptors are not exhausted. *)
Definition fds_left (s : ustate) : Prop := next_fd (file_system (ukernel s)) + 1 < 2 ^ 31.

(** The calls that do more to the caller than give it a result: [exit], [fork],
    [setpriority] and [exec]. *)
Definition special_calls : list Z := [0; 2; 97; 1000].

(** The file system's view of a process. *)
Definition ufiles (s : ustate) : files := file_system (ukernel s).
Definition udisk (s : ustate) : D := disk (ukernel s).
Definition ustrings (s : ustate) : Z -> list Z := strings limit (ukernel s).
Definition uconsole (s : ustate) : list Z := console (scheduler (ukernel s)).

(** ** A process in its own memory

    The stacks are above the heap. A process that stays below them, with what
    it has the kernel read and write too, does not see what others do there. *)
Definition own (s : ustate) (a n : Z) : Prop := 0 <= a /\ a + n <= heap_top (uheap s) < 2 ^ 32.
Definition own_string (s : ustate) (a : Z) : Prop := exists n, 0 <= n /\ own s a (n + 1) /\ umemory s (a + n) = 0.

(** The paths that a search for the one at [a] compares with it. *)
Fixpoint own_paths (s : ustate) (a : Z) (l : list open_file_t) : Prop :=
  match l with
  | [] => True
  | o :: l => own_string s (path o) /\ (stdstring_compare (ustrings s (path o)) (ustrings s a) = Ok 0 \/ own_paths s a l)
  end.

Lemma own_cstr s a t : own s a (zlength t + 1) -> holds (umemory s) a (cstr t []) -> own_string s a.
Proof.
  intros [Ha Hb] Hm. exists (zlength t). split; [lia|]. split; [done|]. rewrite <- (u32_small (a + zlength t)) by lia.
  apply (Hm (length t) 0). unfold cstr. by apply list_lookup_middle.
Qed.

(** The path of the file a descriptor is open on. *)
Definition own_path (s : ustate) (n : Z) : Prop :=
  forall i o, find_open_file_by_fd n (open_files (ufiles s)) = Some i -> open_files (ufiles s) !! i = Some o -> own_string s (path o).

(** The calls of the file system but for reads of standard input, and but for
    [chdir], [getcwd] and [stat]. *)
Definition own_call (id : Z) (c : ctx_t) (s : ustate) : Prop :=
  let r i := get_gpr i c in
  match id with
  | 3 => i32 (r 0%nat) <> STDIN_FILEDESC /\ own s (r 1%nat) (u32 (i32 (r 2%nat)))
  | 4 => own s (r 1%nat) (u32 (i32 (r 2%nat))) /\ (i32 (r 0%nat) = STDOUT_FILEDESC \/ own_path s (i32 (r 0%nat)))
  | 5 | 10 => own_string s (r 0%nat) /\ own_paths s (r 0%nat) (open_files (ufiles s))
  | 6 | 19 | 141 => True
  | 28 => own s (r 1%nat) 20
  | 39 => own_string s (r 0%nat)
  | _ => False
  end.

Definition owns {X} (e : userE X) (s : ustate) : Prop :=
  match e with
  | Svc id args => own_call id (load_args 0 args (uctx s)) s
  | Load p n => own s p n
  | Text p => own_string s p
  | Store p l => own s p (zlength l)
  | NodeAt e => forall h, grown slack (uheap s) h -> own s (stdmem_allocate sizeof_node h).1 (zlength (entry_bytes e))
  | Local _ => False
  | _ => True
  end.

(** [answers e s mid]: the machine answers [e] in the state [s], and every
    answer, with the state after it, is in [mid]. *)
Definition answers {X} (e : userE X) (s : ustate) : (X -> ustate -> Prop) -> Prop :=
  match e in userE X return (X -> ustate -> Prop) -> Prop with
  | Svc id args => fun mid => (id ∉ special_calls) /\ (id = 5 -> fds_left s) /\ forall place garbage, is_word place -> exists c k,
      kernel_handler_svc turns depth limit id place garbage (load_args 0 args (uctx s)) (ukernel s) = Ok (c, k) /\
      current_pid (scheduler k) = current_pid (scheduler (ukernel s)) /\ mid (get_gpr 0 c) (UState c k (uheap s))
  | Load p n => fun mid => mid (peek (umemory s) p n) s
  | Text p => fun mid => mid (c_string limit (umemory s) p) s
  | Store p l => fun mid => mid tt (with_umemory (poke (umemory s) p l) s)
  | Allocate n => fun mid => (exists h, grown slack (uheap s) h) /\ forall h, grown slack (uheap s) h ->
      let '(p, h) := stdmem_allocate n h in mid p (with_uheap h s)
  | Local n => fun mid => (exists a, on_stack (uheap s) a n) /\ forall a, on_stack (uheap s) a n -> mid a s
  | Garbage => fun mid => forall v, mid v s
  | FramePointer => fun mid => mid (get_gpr 11 (uctx s)) s
  | StackPointer => fun mid => mid (sp (uctx s)) s
  | Nodes p => fun mid => exists l, snd <$> list_find (fun x => x.1 = p) (lists (ukernel s)) = Some l /\ mid l.2 s
  | NodeAt e => fun mid => (exists h, grown slack (uheap s) h) /\ forall h, grown slack (uheap s) h ->
      let '(p, h) := stdmem_allocate sizeof_node h in
      mid p (with_uheap h (with_umemory (poke (umemory s) p (entry_bytes e)) s))
  | Fault _ => fun _ => False
  end.

(** Every run of [t] from [s] comes to an end: it returns a value in [Q], or
    exits with a status in [X], and keeps to its own memory until then. *)
Inductive wp {A} (Q : A -> ustate -> Prop) (X : Z -> ustate -> Prop) (t : code A) (s : ustate) : Prop :=
| wp_return a : observe t = RetF a -> Q a s -> wp Q X t s
| wp_step t' : observe t = TauF t' -> wp Q X t' s -> wp Q X t s
| wp_event B (e : userE B) k mid :
    observe t = VisF e k -> owns e s -> answers e s mid -> (forall b s', mid b s' -> wp Q X (k b) s') -> wp Q X t s
| wp_exits status k : observe t = VisF (Svc 0 [status]) k -> X status s -> wp Q X t s.

(** ** Rules *)
Lemma observe_bind {A B} (m : code A) (f : A -> code B) :
  observe (m ≫= f) =
    match observe m with RetF r => observe (f r) | TauF t => TauF (t ≫= f) | VisF e k => VisF e (fun x => k x ≫= f) end.
Proof.
  transitivity (observe (match observe m with
    RetF r => f r | TauF t => Tau (t ≫= f) | VisF e k => Vis e (fun x => k x ≫= f) end)); [reflexivity|].
  by destruct (observe m).
Qed.

Lemma wp_observe {A} Q X (t t' : code A) s : observe t = observe t' -> wp Q X t' s -> wp Q X t s.
Proof. intros E [a|t''|B e k mid|status k]; [eapply wp_return|eapply wp_step|eapply wp_event|eapply wp_exits]; by rewrite ?E. Qed.

Lemma wp_bind {A B} Q X (m : code A) (f : A -> code B) s :
  wp (fun a s => wp Q X (f a) s) X m s -> wp Q X (m ≫= f) s.
Proof.
  induction 1 as [m s a E Ha|m s t' E _ IH|m s C e k mid E Ho He _ IH|m s status k E Hs].
  - eapply wp_observe; [|exact Ha]. by rewrite observe_bind, E.
  - eapply wp_step; [by rewrite observe_bind, E|done].
  - eapply wp_event; [by rewrite observe_bind, E|exact Ho|exact He|done].
  - eapply wp_exits; [by rewrite observe_bind, E|done].
Qed.

Lemma wp_mret {A} (Q : A -> ustate -> Prop) X a s : Q a s -> wp Q X (mret a) s.
Proof. by apply wp_return. Qed.

Lemma wp_trigger {B} (Q : B -> ustate -> Prop) X (e : userE B) s : owns e s -> answers e s Q -> wp Q X (ITree.trigger e) s.
Proof. intros Ho He. eapply wp_event; [done|exact Ho|exact He|]. intros b s' Hb. by apply wp_return with b. Qed.

Lemma wp_lift {A} (Q : A -> ustate -> Prop) X m a s : m = Ok a -> Q a s -> wp Q X (lift m) s.
Proof. intros -> Ha. by apply wp_return with a. Qed.

Lemma wp_mono {A} (Q Q' : A -> ustate -> Prop) (X X' : Z -> ustate -> Prop) t s :
  wp Q X t s -> (forall a s, Q a s -> Q' a s) -> (forall v s, X v s -> X' v s) -> wp Q' X' t s.
Proof.
  intros Ht HQ HX. induction Ht as [t s a E Ha|t s t' E _ IH|t s B e k mid E Ho He _ IH|t s status k E Hs].
  - eapply wp_return; [done|auto].
  - by eapply wp_step.
  - by eapply wp_event.
  - eapply wp_exits; [done|auto].
Qed.

Lemma wp_exit {A} (Q : A -> ustate -> Prop) (X : Z -> ustate -> Prop) status (f : unit -> code A) s :
  X (u32 status) s -> wp Q X (stdproc_exit status ≫= f) s.
Proof. intros Hs. apply wp_bind, wp_bind. by eapply wp_exits. Qed.

Lemma wp_exit_last (Q : unit -> ustate -> Prop) (X : Z -> ustate -> Prop) status s : X (u32 status) s -> wp Q X (stdproc_exit status) s.
Proof. intros Hs. apply wp_bind. by eapply wp_exits. Qed.

(** ** Memory *)
Lemma wp_load (Q : list Z -> ustate -> Prop) X p n s : own s p n -> Q (peek (umemory s) p n) s -> wp Q X (load p n) s.
Proof. intros Ho HQ. by apply wp_trigger. Qed.
Lemma wp_text (Q : list Z -> ustate -> Prop) X p s : own_string s p -> Q (c_string limit (umemory s) p) s -> wp Q X (text_of p) s.
Proof. intros Ho HQ. by apply wp_trigger. Qed.
Lemma wp_store (Q : unit -> ustate -> Prop) X p l s : own s p (zlength l) -> Q tt (with_umemory (poke (umemory s) p l) s) -> wp Q X (store p l) s.
Proof. intros Ho HQ. by apply wp_trigger. Qed.

Lemma grown_some h : 0 <= slack -> heap_ok h -> exists h', grown slack h h'.
Proof.
  intros Hs Hh. pose proof (brk_bounds _ Hh). exists (Heap (brk h) (heap_low h) (heap_top h)). split; [done|]. split; [done|]. cbn. lia.
Qed.

Lemma allocate_grown n h0 h :
  grown slack h0 h -> heap_ok h0 -> 0 <= n < 2 ^ 31 -> brk h0 + slack + n <= heap_top h0 ->
  exists p h', stdmem_allocate n h = (p, h') /\ brk h0 <= p <= brk h0 + slack /\ heap_ok h' /\ brk h' = p + n /\
    heap_low h' = heap_low h0 /\ heap_top h' = heap_top h0.
Proof.
  intros (El & Et & Hb & Htop) Hok Hn Hroom. pose proof (brk_bounds _ Hok). destruct Hok as (Hl & Ht & _).
  assert (Eb : brk h = current_break h) by (unfold brk; destruct (Z.eqb_spec (current_break h) 0); [lia|done]).
  rewrite allocate_eq; [|unfold heap_ok; lia|done]. rewrite decide_True by lia. eexists _, _. split; [done|].
  split_and!; cbn; try lia; [apply heap_ok_Heap; lia|]. rewrite brk_Heap by lia. lia.
Qed.

(** A block of the heap: above everything allocated before, below the end. *)
Lemma wp_allocate (Q : Z -> ustate -> Prop) X n s :
  0 <= slack -> heap_ok (uheap s) -> 0 <= n < 2 ^ 31 -> brk (uheap s) + slack + n <= heap_top (uheap s) ->
  (forall p h, brk (uheap s) <= p <= brk (uheap s) + slack -> heap_ok h -> brk h = p + n -> heap_low h = heap_low (uheap s) ->
     heap_top h = heap_top (uheap s) -> Q p (with_uheap h s)) ->
  wp Q X (allocate n) s.
Proof.
  intros Hslack Hok Hn Hroom HQ. apply wp_trigger; [done|]. split; [by apply grown_some|]. intros h Hh.
  destruct (allocate_grown n (uheap s) h) as (p & h' & -> & Hp & Hok' & Hb & Hl & Ht); [done|done|done|done|]. by apply HQ.
Qed.

(** ** Supervisor calls *)
Lemma handler_process id place garbage c (k : kernel) :
  id ∈ process_calls -> kernel_handler_svc turns depth limit id place garbage c k = svc_process id garbage c k.
Proof. intros Hid. unfold kernel_handler_svc. by rewrite decide_True. Qed.

Lemma handler_file id place garbage c (k : kernel) :
  id ∈ file_calls -> kernel_handler_svc turns depth limit id place garbage c k = svc_file turns depth limit id place c k.
Proof.
  intros Hid. unfold kernel_handler_svc. rewrite decide_False, decide_True; [done|done|]. revert Hid. unfold process_calls, file_calls.
  rewrite !elem_of_cons, !elem_of_nil. lia.
Qed.

(** A call of the file system that gives a result; what it allocates is at a
    [place]. *)
Lemma wp_placed_call (Q : Z -> ustate -> Prop) X id args s (r : Z -> Z) (k : Z -> kernel) :
  id ∈ file_calls -> own_call id (load_args 0 args (uctx s)) s -> (id = 5 -> fds_left s) -> ctx_ok (uctx s) ->
  (forall place, is_word place -> svc_file turns depth limit id place (load_args 0 args (uctx s)) (ukernel s) =
     Ok (return_value (r place) (load_args 0 args (uctx s)), k place)) ->
  (forall place, current_pid (scheduler (k place)) = current_pid (scheduler (ukernel s))) ->
  (forall place c, is_word place -> ctx_ok c -> Q (u32 (r place)) (UState c (k place) (uheap s))) -> wp Q X (svc id args) s.
Proof.
  intros Hid Hown Hfd Hc E Hcur HQ. apply wp_trigger; [done|]. split; [|split; [done|]].
  { revert Hid. unfold file_calls, special_calls. rewrite !not_elem_of_cons, !elem_of_cons, elem_of_nil. pose proof (not_elem_of_nil id). lia. }
  intros place garbage Hp. eexists _, (k place). split; [rewrite handler_file by done; by apply E|]. split; [done|].
  rewrite return_value_r0 by by apply load_args_ok. by apply HQ, return_value_ok, load_args_ok.
Qed.

Lemma wp_file_call (Q : Z -> ustate -> Prop) X id args s r k :
  id ∈ file_calls -> own_call id (load_args 0 args (uctx s)) s -> (id = 5 -> fds_left s) -> ctx_ok (uctx s) ->
  (forall place, svc_file turns depth limit id place (load_args 0 args (uctx s)) (ukernel s) =
     Ok (return_value r (load_args 0 args (uctx s)), k)) ->
  current_pid (scheduler k) = current_pid (scheduler (ukernel s)) ->
  (forall c, ctx_ok c -> Q (u32 r) (UState c k (uheap s))) -> wp Q X (svc id args) s.
Proof.
  intros Hid Hown Hfd Hc E Hcur HQ. apply (wp_placed_call _ _ _ _ _ (fun _ => r) (fun _ => k)); auto.
Qed.

Definition is_int (z : Z) : Prop := - 2 ^ 31 <= z < 2 ^ 31.

Lemma wp_open (Q : Z -> ustate -> Prop) X name flags s r f d :
  ctx_ok (uctx s) -> fds_left s -> own_string s name -> own_paths s name (open_files (ufiles s)) -> is_word name -> is_int flags -> is_int r ->
  sys_open turns depth (ustrings s) name flags (ufiles s) (udisk s) = Ok (r, f, d) ->
  (forall c, ctx_ok c -> Q r (UState c (with_files f d (ukernel s)) (uheap s))) -> wp Q X (_open name flags) s.
Proof.
  unfold is_word, is_int. intros Hc Hfd Ho Hop Hn Hf Hr E HQ. apply wp_bind, (wp_file_call _ _ _ _ _ r (with_files f d (ukernel s))); [in_calls| |done|done| |done|].
  - cbn [own_call]. registers Hc. by rewrite (u32_small name) by lia.
  - intros place. cbn [svc_file]. registers Hc. rewrite u32_u32, i32_u32, (i32_small flags), (u32_small name) by lia.
    unfold ustrings, ufiles, udisk in E. rewrite E. done.
  - intros c Hc'. apply wp_mret. rewrite i32_u32, i32_small by lia. by apply HQ.
Qed.

Lemma wp_lseek (Q : Z -> ustate -> Prop) X n off whence s r f :
  ctx_ok (uctx s) -> is_int n -> is_int off -> is_int whence -> is_int r ->
  sys_lseek n off whence (ufiles s) = (r, f) ->
  (forall c, ctx_ok c -> Q r (UState c (with_files f (udisk s) (ukernel s)) (uheap s))) -> wp Q X (_lseek n off whence) s.
Proof.
  unfold is_int. intros Hc Hn Ho Hw Hr E HQ. apply wp_bind, (wp_file_call _ _ _ _ _ r (with_files f (udisk s) (ukernel s))); [in_calls|done|done|done| |done|].
  - intros place. cbn [svc_file]. registers Hc. rewrite !u32_u32, !i32_u32, !i32_small by lia. unfold ufiles in E. by rewrite E.
  - intros c Hc'. apply wp_mret. rewrite i32_u32, i32_small by lia. by apply HQ.
Qed.

Lemma wp_fstat (Q : Z -> ustate -> Prop) X n buf s r e :
  ctx_ok (uctx s) -> is_int n -> is_word buf -> own s buf 20 -> is_int r -> sys_fstat n (ufiles s) = (r, Some e) ->
  (forall c, ctx_ok c -> Q r (UState c (with_user (poke (umemory s) buf (entry_bytes e)) (ukernel s)) (uheap s))) -> wp Q X (_fstat n buf) s.
Proof.
  unfold is_int, is_word. intros Hc Hn Hb Ho Hr E HQ.
  apply wp_bind, (wp_file_call _ _ _ _ _ r (with_user (poke (umemory s) buf (entry_bytes e)) (ukernel s))); [in_calls| |done|done| |done|].
  - cbn [own_call]. registers Hc. by rewrite (u32_small buf) by lia.
  - intros place. cbn [svc_file]. registers Hc. rewrite u32_u32, i32_u32, i32_small, (u32_small buf) by lia. unfold ufiles in E. by rewrite E.
  - intros c Hc'. apply wp_mret. rewrite i32_u32, i32_small by lia. by apply HQ.
Qed.

Lemma wp_fstat_none (Q : Z -> ustate -> Prop) X n buf s r :
  ctx_ok (uctx s) -> is_int n -> is_word buf -> own s buf 20 -> is_int r -> sys_fstat n (ufiles s) = (r, None) ->
  (forall c, ctx_ok c -> Q r (UState c (ukernel s) (uheap s))) -> wp Q X (_fstat n buf) s.
Proof.
  unfold is_int, is_word. intros Hc Hn Hb Ho Hr E HQ. apply wp_bind, (wp_file_call _ _ _ _ _ r (ukernel s)); [in_calls| |done|done| |done|].
  - cbn [own_call]. registers Hc. by rewrite (u32_small buf) by lia.
  - intros place. cbn [svc_file]. registers Hc. rewrite u32_u32, i32_u32, i32_small by lia. unfold ufiles in E. by rewrite E.
  - intros c Hc'. apply wp_mret. rewrite i32_u32, i32_small by lia. by apply HQ.
Qed.

Lemma wp_close (Q : Z -> ustate -> Prop) X n s r f :
  ctx_ok (uctx s) -> is_int n -> is_int r -> sys_close n (ufiles s) = (r, f) ->
  (forall c, ctx_ok c -> Q r (UState c (with_files f (udisk s) (ukernel s)) (uheap s))) -> wp Q X (_close n) s.
Proof.
  unfold is_int. intros Hc Hn Hr E HQ. apply wp_bind, (wp_file_call _ _ _ _ _ r (with_files f (udisk s) (ukernel s))); [in_calls|done|done|done| |done|].
  - intros place. cbn [svc_file]. registers Hc. rewrite u32_u32, i32_u32, i32_small by lia. unfold ufiles in E. by rewrite E.
  - intros c Hc'. apply wp_mret. rewrite i32_u32, i32_small by lia. by apply HQ.
Qed.

Lemma wp_unlink (Q : Z -> ustate -> Prop) X name s r d :
  ctx_ok (uctx s) -> own_string s name -> own_paths s name (open_files (ufiles s)) -> is_word name -> is_int r ->
  sys_unlink turns depth (ustrings s) name (ufiles s) (udisk s) = Ok (r, d) ->
  (forall c, ctx_ok c -> Q r (UState c (with_files (ufiles s) d (ukernel s)) (uheap s))) -> wp Q X (_unlink name) s.
Proof.
  unfold is_word, is_int. intros Hc Ho Hop Hn Hr E HQ. apply wp_bind, (wp_file_call _ _ _ _ _ r (with_files (ufiles s) d (ukernel s))); [in_calls| |done|done| |done|].
  - cbn [own_call]. registers Hc. by rewrite (u32_small name) by lia.
  - intros place. cbn [svc_file]. registers Hc. rewrite (u32_small name) by lia. unfold ustrings, ufiles, udisk in E. by rewrite E.
  - intros c Hc'. apply wp_mret. rewrite i32_u32, i32_small by lia. by apply HQ.
Qed.

Lemma wp_mkdir (Q : Z -> ustate -> Prop) X name s r d :
  ctx_ok (uctx s) -> own_string s name -> is_word name -> is_int r ->
  sys_mkdir turns depth (ustrings s) name (ufiles s) (udisk s) = Ok (r, d) ->
  (forall c, ctx_ok c -> Q r (UState c (with_files (ufiles s) d (ukernel s)) (uheap s))) -> wp Q X (_mkdir name) s.
Proof.
  unfold is_word, is_int. intros Hc Ho Hn Hr E HQ. apply wp_bind, (wp_file_call _ _ _ _ _ r (with_files (ufiles s) d (ukernel s))); [in_calls| |done|done| |done|].
  - cbn [own_call]. registers Hc. by rewrite (u32_small name) by lia.
  - intros place. cbn [svc_file]. registers Hc. rewrite (u32_small name) by lia. unfold ustrings, ufiles, udisk in E. by rewrite E.
  - intros c Hc'. apply wp_mret. rewrite i32_u32, i32_small by lia. by apply HQ.
Qed.

(** The list of a directory, and its elements. *)
Lemma wp_getdents (Q : Z -> ustate -> Prop) X n num s es d :
  ctx_ok (uctx s) -> is_int n -> is_int num -> sys_getdents turns n num (ufiles s) (udisk s) = Ok (Some es, d) ->
  (forall place c, is_word place -> ctx_ok c ->
     Q place (UState c (with_list place (Dirents es) (with_files (ufiles s) d (ukernel s))) (uheap s))) ->
  wp Q X (_getdents n num) s.
Proof.
  unfold is_int. intros Hc Hn Hnum E HQ.
  apply (wp_placed_call _ _ _ _ _ (fun place => place) (fun place => with_list place (Dirents es) (with_files (ufiles s) d (ukernel s))));
    [in_calls|done|done|done| |done|].
  - intros place Hp. cbn [svc_file]. registers Hc. rewrite !u32_u32, !i32_u32, !i32_small by lia. unfold ufiles, udisk in E. by rewrite E.
  - intros place c Hp Hc'. unfold is_word in Hp. rewrite u32_small by lia. by apply HQ.
Qed.

Lemma wp_nodes (Q : exported -> ustate -> Prop) X p l ls s :
  lists (ukernel s) = (p, l) :: ls -> Q l s -> wp Q X (ITree.trigger (Nodes p)) s.
Proof. intros E HQ. apply wp_trigger; [done|]. exists (p, l). rewrite E. cbn. by rewrite decide_True. Qed.

Lemma entry_bytes_short e : zlength (entry_bytes e) <= 20.
Proof. unfold entry_bytes, slice. rewrite !length_app, !length_take. cbn [length]. lia. Qed.

Lemma wp_node_at (Q : Z -> ustate -> Prop) X e s :
  0 <= slack -> heap_ok (uheap s) -> brk (uheap s) + slack + sizeof_node <= heap_top (uheap s) ->
  (forall p h, brk (uheap s) <= p <= brk (uheap s) + slack -> heap_ok h -> brk h = p + sizeof_node -> heap_low h = heap_low (uheap s) ->
     heap_top h = heap_top (uheap s) -> Q p (with_uheap h (with_umemory (poke (umemory s) p (entry_bytes e)) s))) ->
  wp Q X (ITree.trigger (NodeAt e)) s.
Proof.
  intros Hslack Hok Hroom HQ. pose proof Hok as (_ & Ht31 & _). apply wp_trigger; [|split; [by apply grown_some|]]; intros h Hh.
  { destruct (allocate_grown sizeof_node (uheap s) h) as (p & h' & -> & Hp & Hok' & Hb & Hl & Ht); [done|done|done|done|].
    pose proof (entry_bytes_short e). pose proof (brk_bounds _ Hok). pose proof (brk_bounds _ Hok'). destruct Hok as (Hlow & _). unfold own, sizeof_node in *. cbn [fst]. lia. }
  destruct (allocate_grown sizeof_node (uheap s) h) as (p & h' & -> & Hp & Hok' & Hb & Hl & Ht); [done|done|done|done|]. by apply HQ.
Qed.

Lemma wp_read (Q : Z -> ustate -> Prop) X n buf nbytes s r b f d :
  ctx_ok (uctx s) -> is_int n -> n <> STDIN_FILEDESC -> is_word buf -> is_word nbytes -> own s buf nbytes -> is_int r ->
  sys_read turns n (peek (umemory s) buf nbytes) nbytes (ufiles s) (udisk s) = Ok (r, b, f, d) ->
  (forall c, ctx_ok c -> Q r (UState c (with_user (poke (umemory s) buf b) (with_files f d (ukernel s))) (uheap s))) ->
  wp Q X (_read n buf nbytes) s.
Proof.
  unfold is_int, is_word. intros Hc Hn Hn0 Hb Hnb Ho Hr E HQ.
  apply wp_bind, (wp_file_call _ _ _ _ _ r (with_user (poke (umemory s) buf b) (with_files f d (ukernel s)))); [in_calls| |done|done| |done|].
  - cbn [own_call]. registers Hc. by rewrite u32_u32, (i32_u32 n), (i32_small n), (u32_small buf), u32_i32, !(u32_small nbytes) by lia.
  - intros place. cbn [svc_file]. registers Hc. rewrite u32_u32, i32_u32, (i32_small n), (u32_small buf) by lia.
    rewrite u32_i32, !(u32_small nbytes) by lia. unfold umemory, ufiles, udisk in E. rewrite E. done.
  - intros c Hc'. apply wp_mret. rewrite i32_u32, i32_small by lia. by apply HQ.
Qed.

Lemma wp_write (Q : Z -> ustate -> Prop) X n buf nbytes s r con f d :
  ctx_ok (uctx s) -> is_int n -> is_word buf -> is_word nbytes -> own s buf nbytes -> n = STDOUT_FILEDESC \/ own_path s n -> is_word r ->
  sys_write turns depth (ustrings s) n (peek (umemory s) buf nbytes) nbytes (uconsole s) (ufiles s) (udisk s) = Ok (i32 r, con, f, d) ->
  (forall c, ctx_ok c -> Q r (UState c (with_console con (with_files f d (ukernel s))) (uheap s))) ->
  wp Q X (_write n buf nbytes) s.
Proof.
  unfold is_int, is_word. intros Hc Hn Hb Hnb Ho Hop Hr E HQ.
  apply wp_bind, (wp_file_call _ _ _ _ _ (i32 r) (with_console con (with_files f d (ukernel s)))); [in_calls| |done|done| |done|].
  - cbn [own_call]. registers Hc. by rewrite u32_u32, (i32_u32 n), (i32_small n), (u32_small buf), u32_i32, !(u32_small nbytes) by lia.
  - intros place. cbn [svc_file]. registers Hc. rewrite u32_u32, i32_u32, (i32_small n), (u32_small buf) by lia.
    rewrite u32_i32, !(u32_small nbytes) by lia. unfold umemory, ufiles, udisk, uconsole, ustrings in E. rewrite E. done.
  - intros c Hc'. apply wp_mret. rewrite i32_u32, i32_i32, u32_i32, u32_small by lia. by apply HQ.
Qed.

(** ** Printing *)
Lemma put_chars buf n con :
  0 <= n <= zlength buf ->
  for_loop (Z.to_nat n) 0 (fun i console => c ← buf_get buf i; Ok (console ++ [c])) con = Ok (con ++ slice buf 0 n).
Proof.
  intros Hn. destruct (for_loop_inv (fun i c => c = con ++ slice buf 0 i) (Z.to_nat n) 0
    (fun i console => c ← buf_get buf i; Ok (console ++ [c])) con) as (c & -> & ->).
  - by rewrite app_nil_r.
  - intros j c Hj ->. destruct (buf_get_Ok buf j) as (x & Hx & ->); [lia|]. ok_bind. eexists. split; [done|].
    rewrite slice_split, (slice_one buf (0 + j) x) by (rewrite ?Z.add_0_l; (done || lia)). by rewrite app_assoc.
  - by rewrite Z.add_0_l, Z2Nat.id by lia.
Qed.




(** Bytes written to the standard output. *)
Lemma wp_put (Q : Z -> ustate -> Prop) X p t s :
  ctx_ok (uctx s) -> is_word p -> own s p (zlength t) -> holds (umemory s) p t -> zlength t < 2 ^ 31 ->
  (forall c, ctx_ok c -> Q (zlength t) (UState c (with_console (uconsole s ++ t) (ukernel s)) (uheap s))) ->
  wp Q X (_write STDOUT_FILEDESC p (zlength t)) s.
Proof.
  intros Hc Hp Ho Ht Hl HQ. apply (wp_write _ _ _ _ _ _ (zlength t) (uconsole s ++ t) (ufiles s) (udisk s)); unfold is_word, is_int; try done; try lia.
  rewrite (peek_holds _ _ _ Ht). unfold sys_write. cbn [Z.eqb STDOUT_FILEDESC Pos.eqb]. rewrite put_chars by lia. ok_bind. by rewrite slice_0 by lia.
Qed.

Lemma wp_print (Q : unit -> ustate -> Prop) X p t s :
  ctx_ok (uctx s) -> is_word p -> own s p (zlength t + 1) -> holds (umemory s) p (cstr t []) -> nonul t -> (length t < limit)%nat -> zlength t < 2 ^ 31 ->
  (forall c, ctx_ok c -> Q tt (UState c (with_console (uconsole s ++ t) (ukernel s)) (uheap s))) -> wp Q X (stdio_print p) s.
Proof.
  intros Hc Hp Ho Ht Hn Hl Hi HQ. apply wp_bind, wp_text; [by eapply own_cstr|]. rewrite (c_string_holds _ _ _ t) by done.
  apply wp_bind, (wp_lift _ _ _ (zlength t)); [by apply stdstring_length_spec|]. apply wp_bind, wp_put; try done.
  { unfold own in *. lia. }
  { by destruct (holds_app _ _ _ _ Ht). }
  intros c Hc'. apply wp_mret. by apply HQ.
Qed.

(** ** Words *)
Definition word_bytes (v : Z) : list Z := [v mod 256; v / 2 ^ 8 mod 256; v / 2 ^ 16 mod 256; v / 2 ^ 24 mod 256].

Lemma wp_load32 (Q : Z -> ustate -> Prop) X p v s : is_word v -> own s p 4 -> holds (umemory s) p (word_bytes v) -> Q v s -> wp Q X (load32 p) s.
Proof.
  intros Hv Ho Hp HQ. apply wp_bind, wp_load; [done|]. rewrite (peek_holds _ _ (word_bytes v) Hp : peek (umemory s) p 4 = _).
  apply (wp_lift _ _ _ v); [|done]. pose proof (le32_sum v Hv).
  change (Ok (v mod 256 + 256 * (v / 2 ^ 8 mod 256 + 256 * (v / 2 ^ 16 mod 256 + 256 * (v / 2 ^ 24 mod 256)))) = Ok v). f_equal. lia.
Qed.

Lemma wp_char_at (Q : Z -> ustate -> Prop) X p c s : own s p 1 -> holds (umemory s) p [c] -> Q c s -> wp Q X (char_at p) s.
Proof. intros Ho Hp HQ. apply wp_bind, wp_load; [done|]. rewrite (peek_holds _ _ [c] Hp : peek (umemory s) p 1 = _). by apply (wp_lift _ _ _ c). Qed.
End Process.

(** ** What a process leaves as it was

    Everything that was in memory before the end of the heap, while the heap
    only grows. *)
Section Keeps.
Context {D U : Type}.

Record keeps (s s' : ustate D U) : Prop := {
  kp_low : heap_low (uheap s') = heap_low (uheap s);
  kp_top : heap_top (uheap s') = heap_top (uheap s);
  kp_brk : brk (uheap s) <= brk (uheap s');
  kp_memory : forall a, 0 <= a < brk (uheap s) -> umemory s' a = umemory s a
}.

#[export] Instance keeps_preorder : PreOrder keeps.
Proof.
  split; [by split|]. intros s1 s2 s3 [L1 T1 B1 M1] [L2 T2 B2 M2]. split; [congruence|congruence|lia|].
  intros a Ha. rewrite M2 by lia. by apply M1.
Qed.

(** Bytes that are there to stay. *)
Definition lasting (s : ustate D U) (a : Z) (l : list Z) : Prop :=
  0 <= a /\ a + zlength l <= brk (uheap s) /\ brk (uheap s) <= heap_top (uheap s) < 2 ^ 31 /\ holds (umemory s) a l.

Lemma lasting_own (s : ustate D U) a l : lasting s a l -> own s a (zlength l).
Proof. intros (Ha & Hl & Hb & _). unfold own. lia. Qed.

Lemma lasting_keeps s s' a l : keeps s s' -> brk (uheap s') <= heap_top (uheap s') -> lasting s a l -> lasting s' a l.
Proof.
  intros [_ Et Hb Hm] Hb' (Ha & Hl & Hlt & Hh). split; [done|]. split; [lia|]. split; [lia|].
  intros i x Hi. pose proof (lookup_lt_Some _ _ _ Hi). rewrite u32_small by lia. rewrite Hm by lia. rewrite <- (Hh i x Hi). by rewrite u32_small by lia.
Qed.

(** [argv[i]] is the string [t] at [p]. *)
Record argument (s : ustate D U) (argv i p : Z) (t : list Z) : Prop := {
  ag_pointer : lasting s (argv + 4 * i) (word_bytes p);
  ag_text : lasting s p (cstr t []);
  ag_nonul : nonul t
}.

Lemma argument_keeps s s' argv i p t : keeps s s' -> brk (uheap s') <= heap_top (uheap s') -> argument s argv i p t -> argument s' argv i p t.
Proof. intros Hk Hb [H1 H2 H3]. split; [by eapply lasting_keeps..|done]. Qed.
End Keeps.

(** ** The fields of a directory entry in memory *)
Record entry_shape (e : fat16_dir_entry_t) : Prop := {
  es_filename : 9 <= zlength (filename e);
  es_extension : 4 <= zlength (extension e);
  es_size : 0 <= file_size_bytes e < 2 ^ 31
}.

Lemma entry_bytes_length e : entry_shape e -> zlength (entry_bytes e) = 20.
Proof. intros [Hf He _]. unfold entry_bytes. rewrite !length_app, !slice_length by lia. done. Qed.

Lemma entry_fields m p e :
  entry_shape e -> in_space p 20 -> holds m p (entry_bytes e) ->
  holds m (u32 (p + 13)) [attributes e] /\ holds m (u32 (p + 16)) (word_bytes (file_size_bytes e)).
Proof.
  intros [Hf He Hs] [Hp1 Hp2] Hm. rewrite !u32_small by lia. unfold entry_bytes in Hm.
  apply holds_app in Hm as [_ Hm]. apply holds_app in Hm as [_ Hm]. rewrite !slice_length in Hm by lia.
  replace (p + _ + _) with (p + 13) in Hm by lia. apply (holds_app _ _ [_] (_ :: _ :: _)) in Hm as [Ha Hm]. split; [done|].
  apply (holds_app _ _ [_; _]) in Hm as [_ Hm]. by replace (p + 13 + zlength [attributes e] + _) with (p + 16) in Hm by (cbn; lia).
Qed.

Section Strings.
Context `{BlockDevice D} `{Board U} (turns depth limit : nat) (slack : Z).
Abbreviation wp := (wp (D := D) (U := U) turns depth limit slack).

Lemma wp_arg (Q : Z -> ustate D U -> Prop) X argv i p t s : argument s argv i p t -> Q p s -> wp Q X (arg argv i) s.
Proof.
  intros [Hlast (Hp & Hpl & _) _] HQ. pose proof (lasting_own _ _ _ Hlast) as Ho. destruct Hlast as (Ha & Hl & Hb & Hm). unfold cstr in Hpl. rewrite length_app in Hpl. simpl in Hl, Hpl.
  apply (wp_load32 _ _ _ _ _ _ _ p); [unfold is_word; lia|by rewrite u32_small by lia|by rewrite u32_small by lia|done].
Qed.

Lemma lasting_string (s : ustate D U) p t : lasting s p (cstr t []) -> own_string s p.
Proof.
  intros Hp. eapply own_cstr; [|apply Hp]. pose proof (lasting_own _ _ _ Hp) as Ho. unfold cstr in Ho. rewrite length_app in Ho. simpl in Ho.
  by replace (zlength t + 1) with (Z.of_nat (length t + 1)) by lia.
Qed.

(** A string as the kernel reads it. *)
Lemma string_at (s : ustate D U) p t : lasting s p (cstr t []) -> nonul t -> (length t < limit)%nat -> ustrings limit s p = cstr t [].
Proof. intros (_ & _ & _ & Hm) Hn Hl. by apply c_string_holds. Qed.

(** Paths in memory that is there to stay. *)
Definition lasting_path (s : ustate D U) (o : open_file_t) : Prop := exists t, lasting s (path o) (cstr t []).

Lemma own_paths_all (s : ustate D U) a l : Forall (lasting_path s) l -> own_paths limit s a l.
Proof. induction 1 as [|o l [t Ho] _ IH]; [done|]. split; [by eapply lasting_string|by right]. Qed.

Lemma known_paths (s : ustate D U) t l :
  Forall (fun o => exists t', lasting s (path o) (cstr t' []) /\ nonul t' /\ (length t' < limit)%nat /\ t' <> t) l -> Forall (lasting_path s) l.
Proof. intros Hl. eapply Forall_impl; [exact Hl|]. intros o (t' & Ht & _). by exists t'. Qed.

Lemma own_paths_at (s : ustate D U) a l i o t :
  l !! i = Some o -> lasting s (path o) (cstr t []) -> nonul t -> (length t < limit)%nat -> ustrings limit s a = cstr t [] ->
  Forall (lasting_path s) (take i l) -> own_paths limit s a l.
Proof.
  intros Hi Ho Hn Hl Ha. revert i Hi. induction l as [|o' l IH]; intros [|i] Hi Hb; [done|done| |].
  - injection Hi as ->. split; [by eapply lasting_string|left]. rewrite Ha, (string_at s (path o) t) by done.
    rewrite compare_lex by done. by rewrite (proj2 (lex_eq t t)).
  - apply Forall_cons in Hb as [[t' Ho'] Hb]. split; [by eapply lasting_string|right]. by apply (IH i).
Qed.

Lemma wp_text_of (Q : list Z -> ustate D U -> Prop) X p t s :
  lasting s p (cstr t []) -> nonul t -> (length t < limit)%nat -> Q (cstr t []) s -> wp Q X (text_of p) s.
Proof. intros Hp Hn Hl HQ. apply wp_text; [by eapply lasting_string|]. by rewrite (string_at s p t Hp Hn Hl : c_string limit (umemory s) p = _). Qed.
End Strings.

(** The parts of the state after a step. *)
Ltac state := cbn [uctx ukernel uheap with_uheap with_umemory].
