(* ===== verification/Interrupts.v ===== *)
(** * The devices and the kernel

    What reset writes to the registers of the board, what an interrupt does on
    every branch of its handler and to the lines of the interrupt controller,
    and the way of a character from the keyboard to the process that reads it. *)
From S2P Require Import Prelude Mem Strings Scheduler Stream Uart Devices Disk Fat16 Directory Paths FileSys Descriptors Kernel Machine Syscalls Process.

(** ** Reset *)
Section Reset.
Context `{BlockDevice D} `{BoardLaws U}.
Abbreviation kernel := (kernel D U).

Definition reg (a : Z) (k : kernel) : Z := setting a (devices k).

(** The source [id], of the 32 that the second enable register is for, is
    passed on to the processor. *)
Definition passes (id : Z) (k : kernel) : bool := Z.testbit (reg (ISENABLER GICD0 1) k) (id - 32).

Lemma reg_write_reg a v b k :
  a ∈ settings -> reg b (write_reg a v k) =
    if decide (b = a) then (if decide (a = ISENABLER GICD0 1) then Z.lor (reg a k) v else v) else reg b k.
Proof. intros Ha. by apply (write_setting a v (devices k)). Qed.

Lemma or_reg_eq a v k : a ∈ settings -> or_reg a v k = write_reg a (Z.lor (reg a k) v) k.
Proof. intros Ha. unfold or_reg, write_reg, reg_or. by rewrite (read_setting a (devices k) Ha). Qed.

Lemma reg_or_reg a v b k : a ∈ settings -> reg b (or_reg a v k) = if decide (b = a) then Z.lor (reg a k) v else reg b k.
Proof.
  intros Ha. rewrite or_reg_eq, reg_write_reg by done. destruct (decide (b = a)); [|done]. destruct (decide (a = _)); [|done].
  by rewrite Z.lor_assoc, Z.lor_diag.
Qed.

Lemma reg_print a s n k : reg a (print s n k) = reg a k.
Proof. done. Qed.
End Reset.

(** Decide which registers are the same one. *)
Ltac member := apply (bool_decide_unpack _); vm_compute; exact I.
Ltac same_register :=
  match goal with |- context [decide (?a = ?b)] =>
    let v := eval vm_compute in (bool_decide (a = b)) in
    lazymatch v with
    | true => rewrite (decide_True (P := a = b)) by (vm_compute; reflexivity)
    | false => rewrite (decide_False (P := a = b)) by (apply (bool_decide_unpack _); vm_compute; exact I)
    end
  end.
#[local] Opaque reg print write_reg or_reg.
Ltac registers :=
  unfold rst_devices, rst_timer, rst_uart, rst_gic; cbv zeta;
  repeat (first [rewrite reg_print | rewrite reg_write_reg by member | rewrite reg_or_reg by member]; repeat same_register).

Section ResetTheorem.
Context `{BlockDevice D} `{BoardLaws U} (turns depth limit : nat).
Abbreviation kernel := (kernel D U).

Lemma files_devices root_path (k k' : kernel) : rst_files turns depth limit root_path k = Ok k' -> devices k' = devices k.
Proof. intros ([f d] & _ & [= <-])%bind_Ok. done. Qed.

Lemma devices_settings (k : kernel) :
  reg (Timer1Load TIMER0) (rst_devices k) = 2 ^ 20 /\ reg (Timer1Ctrl TIMER0) (rst_devices k) = 0xE2 /\
  reg (IMSC UART0) (rst_devices k) = Z.lor (reg (IMSC UART0) k) 0x10 /\
  reg (CR UART0) (rst_devices k) = 0x301 /\ reg (CR UART1) (rst_devices k) = 0x301 /\
  reg (PMR GICC0) (rst_devices k) = 0xF0 /\ reg (GICC_CTLR GICC0) (rst_devices k) = 1 /\ reg (GICD_CTLR GICD0) (rst_devices k) = 1 /\
  reg (ISENABLER GICD0 1) (rst_devices k) = Z.lor (Z.lor (reg (ISENABLER GICD0 1) k) 0x1000) 0x10.
Proof. split_and!; registers; reflexivity. Qed.
#[local] Transparent reg print write_reg or_reg.

(** C31 (functional): after reset the timer counts periods of [2 ^ 20] in 32 bits,
    again and again, and interrupts; the UART interrupts when it receives, and
    both lines are on; the interrupt controller is on and masks nothing, and of
    the 32 sources that the timer and the UART are among it passes on those two
    and what was enabled before. *)
Theorem reset_configures entry_sh root_path c (k : kernel) c' k' :
  kernel_handler_rst turns depth limit entry_sh root_path c k = Ok (c', k') ->
  reg (Timer1Load TIMER0) k' = 2 ^ 20 /\
  (forall i, Z.testbit (reg (Timer1Ctrl TIMER0) k') i = true <-> i = 1 \/ i = 5 \/ i = 6 \/ i = 7) /\
  (forall i, 0 <= i -> Z.testbit (reg (IMSC UART0) k') i = true <-> i = 4 \/ Z.testbit (reg (IMSC UART0) k) i = true) /\
  reg (CR UART0) k' = 0x301 /\ reg (CR UART1) k' = 0x301 /\
  reg (PMR GICC0) k' = 0xF0 /\ reg (GICC_CTLR GICC0) k' = 1 /\ reg (GICD_CTLR GICD0) k' = 1 /\
  (forall id, 32 <= id < 64 -> passes id k' = true <-> id = GIC_SOURCE_TIMER0 \/ id = GIC_SOURCE_UART0 \/ passes id k = true).
Proof.
  intros (c1 & s1 & k1 & _ & E & ->)%rst_inv. apply files_devices in E. change (devices k1 = devices k) in E.
  assert (Hk : forall a, reg a k1 = reg a k) by (intros a; unfold reg; by rewrite E).
  destruct (devices_settings k1) as (-> & -> & E3 & -> & -> & -> & -> & -> & E9). unfold passes. rewrite E3, E9, !Hk.
  assert (Hbit : forall n i, 0 <= n -> 0 <= i -> Z.testbit (2 ^ n) i = true <-> i = n) by (intros n i Hn Hi; rewrite Z.pow2_bits_eqb by lia; lia).
  split_and!; try done.
  - intros i. destruct (decide (0 <= i < 8)) as [Hi|Hi].
    + assert (i = 0 \/ i = 1 \/ i = 2 \/ i = 3 \/ i = 4 \/ i = 5 \/ i = 6 \/ i = 7) as Hc by lia.
      repeat destruct Hc as [-> |Hc]; [..|subst i]; (split; [cbn; try done; auto|by intros [|[|[|]]]]).
    + split; [|lia]. destruct (Z.neg_nonneg_cases i); [by rewrite Z.testbit_neg_r|]. rewrite Z.bits_above_log2; [done|lia|vm_compute Z.log2; lia].
  - intros i Hi. rewrite Z.lor_spec, orb_true_iff. pose proof (Hbit 4 i ltac:(lia) Hi). change 0x10 with (2 ^ 4). tauto.
  - intros id Hid. unfold GIC_SOURCE_TIMER0, GIC_SOURCE_UART0. rewrite !Z.lor_spec, !orb_true_iff.
    pose proof (Hbit 4 (id - 32) ltac:(lia) ltac:(lia)). pose proof (Hbit 12 (id - 32) ltac:(lia) ltac:(lia)). change 0x1000 with (2 ^ 12). change 0x10 with (2 ^ 4).
    assert (id - 32 = 4 <-> id = 36) by lia. assert (id - 32 = 12 <-> id = 44) by lia. tauto.
Qed.
End ResetTheorem.

(** ** Interrupts *)
Section Interrupts.
Context `{BlockDevice D} `{BoardLaws U}.
Abbreviation kernel := (kernel D U).
Abbreviation lines_up k := (asserted (devices k)).
Abbreviation in_service k := (active (devices k)).

Ltac parts := cbn [write_reg with_devices with_scheduler with_files devices scheduler file_system disk messages lists fst snd] in *.

(** What the handler does for the source [id], the devices apart. *)
Definition handled (id : Z) (c : ctx_t) (k : kernel) (c' : ctx_t) (k' : kernel) : Prop :=
  if decide (id = GIC_SOURCE_TIMER0) then
    scheduler_run c (scheduler k) = Ok (c', scheduler k') /\ file_system k' = file_system k
  else if decide (id = GIC_SOURCE_UART0) then
    c' = c /\ scheduler k' = scheduler k /\
    exists ch, file_system k' = with_stdin (stdin_buffer (file_system k) ++ [ch]) (file_system k)
  else c' = c /\ scheduler k' = scheduler k /\ file_system k' = file_system k.

Definition known (id : Z) : Prop := id = GIC_SOURCE_TIMER0 \/ id = GIC_SOURCE_UART0.

Lemma source_spec id c (k : kernel) c' k' :
  irq_source id c k = Ok (c', k') ->
  handled id c k c' k' /\ disk k' = disk k /\ messages k' = messages k /\ lists k' = lists k /\
  in_service k' = in_service k /\ (known id -> lines_up k' = lines_up k ∖ {[id]}) /\ (~ known id -> lines_up k' = lines_up k).
Proof.
  unfold irq_source, handled, known. intros E. destruct (Z.eqb_spec id GIC_SOURCE_TIMER0) as [-> |H36].
  - apply bind_Ok in E as ([c1 s1] & E & [= <- <-]). rewrite decide_True by done. parts. destruct (timer_clear (devices k)) as [-> ->].
    split_and!; try done. tauto.
  - rewrite decide_False by done. destruct (Z.eqb_spec id GIC_SOURCE_UART0) as [-> |H44].
    + apply bind_Ok in E as ([ch u] & E & [= <- <-]). rewrite decide_True by done. parts. unfold PL011_getc in E.
      destruct (FR_rx_empty (devices k)); [done|]. injection E as E. pose proof (receive (devices k)) as [Hl Hs].
      assert (u = (DR_read (devices k)).2) as Eu by by rewrite E. destruct (uart_clear u) as [-> ->]. subst u. rewrite Hl, Hs.
      split_and!; try done; [by exists ch|tauto].
    + injection E as <- <-. rewrite decide_False by done. split_and!; try done. tauto.
Qed.

(** C12 (functional): an interrupt is served once. The handler takes the source
    the interrupt controller names, does what that source is for and nothing
    else to the kernel, lowers its line and signals its end: afterwards the
    sources in service are those of before, so that it can come again. A source
    it does not know keeps its line up. *)
Theorem irq_served_once c (k : kernel) c' k' id u :
  reg_read (IAR GICC0) (devices k) = (id, u) -> kernel_handler_irq c k = Ok (c', k') ->
  handled id c k c' k' /\ disk k' = disk k /\ messages k' = messages k /\ lists k' = lists k /\
  in_service k' = in_service k /\
  (known id -> id ∈ lines_up k /\ lines_up k' = lines_up k ∖ {[id]}) /\ (~ known id -> lines_up k' = lines_up k).
Proof.
  intros Eid. unfold kernel_handler_irq. rewrite Eid. intros ([c1 k1] & E & [= <- <-])%bind_Ok.
  apply source_spec in E as (Hh & Hd & Hm & Hl & Hs & Hk & Hn). parts. destruct (acknowledge (devices k) id u Eid) as [Ha Hc].
  destruct (end_of_interrupt id (devices k1)) as [-> ->]. rewrite Hs. split_and!; try done.
  - destruct Hc as [[-> ->]|(_ & Hin & ->)]; [|set_solver]. pose proof (not_spurious (devices k)). set_solver.
  - intros Hid. rewrite <- Ha. split; [|by apply Hk]. destruct Hc as [[-> _]|(_ & Hin & _)]; [by destruct Hid|]. rewrite Ha. set_solver.
  - intros Hid. rewrite <- Ha. by apply Hn.
Qed.
End Interrupts.

(** ** From the keyboard to a process *)
Section Frames.
Context `{BlockDevice D} (turns depth limit : nat) (mem : Z -> list Z).

Lemma open_stdin p flags f (d : D) r f' d' : sys_open turns depth mem p flags f d = Ok (r, f', d') -> stdin_buffer f' = stdin_buffer f.
Proof.
  unfold sys_open. intros (found & _ & E)%bind_Ok. apply bind_Ok in E as ([[result f1] d1] & E1 & E).
  assert (Hopen : forall d res g d'', open_file turns depth mem p f d = Ok (res, g, d'') -> stdin_buffer g = stdin_buffer f).
  { intros d0 res g d'' [[_ ->]|(o & _ & _ & ->)]%open_file_fds; done. }
  assert (Hf1 : stdin_buffer f1 = stdin_buffer f).
  { destruct found as [i|]; [by injection E1 as <- <- <-|]. apply bind_Ok in E1 as ([[result2 f2] d2] & E2 & E1).
    pose proof (Hopen _ _ _ _ E2). destruct result2 as [i|]; [by injection E1 as <- <- <-|].
    assert (f2 = f) as -> by by apply open_file_fds in E2 as [[_ ->]|(o & ? & _)].
    destruct (negb (Z.land flags O_CREAT =? 0)); [|by injection E1 as <- <- <-].
    apply bind_Ok in E1 as ([r3 d3] & _ & E1). destruct (r3 =? -1); [by injection E1 as <- <- <-|]. by eapply Hopen. }
  destruct result as [i|]; [|by injection E as <- <- <-]. apply bind_Ok in E as (o & _ & E). by injection E as <- <- <-.
Qed.

Lemma write_stdin n buf nbytes console f (d : D) r console' f' d' :
  sys_write turns depth mem n buf nbytes console f d = Ok (r, console', f', d') -> stdin_buffer f' = stdin_buffer f.
Proof.
  unfold sys_write. destruct (n =? STDOUT_FILEDESC); [by intros (c & _ & [= <- <- <- <-])%bind_Ok|].
  destruct (find_open_file_by_fd n (open_files f)) as [i|]; [|by intros [= <- <- <- <-]].
  intros (o & _ & E)%bind_Ok. destruct (is_subdirectory _); [by injection E as <- <- <- <-|].
  apply bind_Ok in E as ([w d1] & _ & E). destruct (i32 w <? 0); [by injection E as <- <- <- <-|].
  apply bind_Ok in E as ([o2 d2] & _ & E). by injection E as <- <- <- <-.
Qed.

Lemma read_file_stdin n buf nbytes f (d : D) r buf' f' d' :
  n <> STDIN_FILEDESC -> sys_read turns n buf nbytes f d = Ok (r, buf', f', d') -> stdin_buffer f' = stdin_buffer f.
Proof.
  intros Hn. unfold sys_read. rewrite (proj2 (Z.eqb_neq _ _) Hn). destruct (find_open_file_by_fd n (open_files f)) as [i|]; [|by intros [= <- <- <- <-]].
  intros (o & _ & E)%bind_Ok. destruct (_ <? 2); [by injection E as <- <- <- <-|].
  apply bind_Ok in E as ([[b w] d1] & _ & E). by destruct (i32 w <? 0); injection E as <- <- <- <-.
Qed.

Lemma chdir_stdin p f (d : D) r f' d' : sys_chdir turns depth mem p f d = Ok (r, f', d') -> stdin_buffer f' = stdin_buffer f.
Proof.
  unfold sys_chdir. intros (len & _ & E)%bind_Ok. apply bind_Ok in E as (c & _ & E). destruct (c =? 0).
  { apply bind_Ok in E as (b1 & _ & E). apply bind_Ok in E as (b2 & _ & E). by injection E as <- <- <-. }
  apply bind_Ok in E as (c1 & _ & E). apply bind_Ok in E as ([found d1] & _ & E). destruct found.
  { apply bind_Ok in E as (b1 & _ & E). by injection E as <- <- <-. }
  apply bind_Ok in E as ([root d2] & _ & E). apply bind_Ok in E as ([cwd d3] & _ & E). apply bind_Ok in E as (cwd' & _ & E).
  apply bind_Ok in E as ([dir d4] & _ & E). apply bind_Ok in E as (dir' & _ & E). apply bind_Ok in E as ([fo d5] & _ & E).
  destruct fo; [|by injection E as <- <- <-]. apply bind_Ok in E as (st & _ & E). apply bind_Ok in E as (b1 & _ & E).
  apply bind_Ok in E as (b2 & _ & E). by injection E as <- <- <-.
Qed.

Lemma lseek_stdin n off whence f r f' : sys_lseek n off whence f = (r, f') -> stdin_buffer f' = stdin_buffer f.
Proof.
  unfold sys_lseek. destruct (find_open_file_by_fd n (open_files f)) as [i|]; [|by intros [= <- <-]].
  by destruct (whence =? SEEK_SET); [|destruct (whence =? SEEK_CUR); [|destruct (whence =? SEEK_END)]]; intros [= <- <-].
Qed.

Lemma close_stdin n f r f' : sys_close n f = (r, f') -> stdin_buffer f' = stdin_buffer f.
Proof. unfold sys_close. by destruct (find_open_file_by_fd n (open_files f)); intros [= <- <-]. Qed.
End Frames.

(** Reading [n] characters of a stream: what is there, then [EOF]s. *)
Definition first_chars (n : Z) (stream : list Z) : list Z := resize (Z.to_nat n) EOF stream.

Lemma read_stdin_spec buf n stream :
  0 <= n -> zlength buf = n -> read_stdin buf n stream = Ok (first_chars n stream, drop (Z.to_nat n) stream).
Proof.
  intros Hn Hb. unfold read_stdin, first_chars.
  match goal with |- for_loop _ _ ?body _ = _ =>
    destruct (for_loop_inv (fun i '(b, s) => b = resize (Z.to_nat i) EOF stream ++ drop (Z.to_nat i) buf /\ s = drop (Z.to_nat i) stream)
      (Z.to_nat n) 0 body (buf, stream)) as ([b s] & -> & -> & ->) end.
  - change (Z.to_nat 0) with 0%nat. by rewrite resize_0.
  - intros i [b s] Hi [-> ->]. set (k := Z.to_nat i). assert (Hk : (k < length buf)%nat) by lia.
    destruct (lookup_lt_is_Some_2 buf k Hk) as [x Hx]. rewrite (drop_S _ _ _ Hx). replace (Z.to_nat (i + 1)) with (S k) by lia.
    assert (Hset : forall c, buf_set (resize k EOF stream ++ x :: drop (S k) buf) i c = Ok ((resize k EOF stream ++ [c]) ++ drop (S k) buf)).
    { intros c. rewrite buf_set_Ok by (rewrite length_app, length_resize; simpl; lia). fold k.
      rewrite insert_app_r_alt by (rewrite length_resize; lia). rewrite length_resize, Nat.sub_diag. by rewrite <- app_assoc. }
    destruct (stream !! k) as [c|] eqn:Ec.
    + rewrite (drop_S _ _ _ Ec). cbn [stdstream_pop_char]. rewrite Hset. ok_bind. eexists. split; [done|]. split; [|done]. do 2 f_equal.
      pose proof (lookup_lt_Some _ _ _ Ec). rewrite !resize_le by lia. by rewrite (take_S_r _ _ _ Ec).
    + apply lookup_ge_None in Ec. rewrite !drop_ge by lia. cbn [stdstream_pop_char]. rewrite Hset. ok_bind. eexists. split; [done|].
      split; [|by rewrite drop_ge by lia]. f_equal. rewrite !resize_ge by lia. rewrite <- app_assoc. f_equal.
      replace (S k - length stream)%nat with ((k - length stream) + 1)%nat by lia. by rewrite replicate_add.
  - replace (Z.to_nat (0 + Z.of_nat (Z.to_nat n))) with (Z.to_nat n) by lia. rewrite (drop_ge buf), app_nil_r by lia. done.
Qed.

Lemma first_chars_filter n stream : EOF ∉ stream -> filter (fun c => c <> EOF) (first_chars n stream) = take (Z.to_nat n) stream.
Proof.
  intros Hs. unfold first_chars. rewrite resize_spec, filter_app.
  assert (forall m, filter (fun c => c <> EOF) (replicate m EOF) = []) as ->.
  { intros m. induction m as [|m IH]; [done|]. cbn [replicate]. rewrite filter_cons_False by tauto. done. }
  rewrite app_nil_r. assert (Hl : forall l : list Z, EOF ∉ l -> filter (fun c : Z => c <> EOF) l = l).
  { induction l as [|c l IH]; [done|]. intros [Hc Hl]%not_elem_of_cons. by rewrite filter_cons_True, IH. }
  apply Hl. intros (i & Hi & _)%elem_of_take. by apply Hs, (list_elem_of_lookup_2 _ i).
Qed.

(** ** The stream, over a run of the machine *)
Section Keyboard.
Context `{BlockDevice D} `{Board U} (turns depth limit : nat).
Abbreviation kernel := (kernel D U).
Abbreviation stdin k := (stdin_buffer (file_system k)).

(** A read from standard input, and how much it asks for. *)
Definition reads_stdin (id : Z) (c : ctx_t) : Prop := id = 3 /\ i32 (get_gpr 0 c) = STDIN_FILEDESC.
Definition wanted (c : ctx_t) : Z := u32 (i32 (get_gpr 2 c)).

(** The steps of the machine with what they take from the keyboard, and what a
    process finds in its memory. *)
Inductive key_step : list Z -> list Z -> ctx_t * kernel -> ctx_t * kernel -> Prop :=
| key_irq c k c' k' u ch u' :
    reg_read (IAR GICC0) (devices k) = (GIC_SOURCE_UART0, u) -> PL011_getc u = Ok (ch, u') ->
    kernel_handler_irq c k = Ok (c', k') -> key_step [ch] [] (c, k) (c', k')
| key_read id place garbage c k c' k' :
    reads_stdin id c -> kernel_handler_svc turns depth limit id place garbage c k = Ok (c', k') ->
    key_step [] (peek (user k') (get_gpr 1 c) (wanted c)) (c, k) (c', k')
| key_svc id place garbage c k c' k' :
    ~ reads_stdin id c -> kernel_handler_svc turns depth limit id place garbage c k = Ok (c', k') -> key_step [] [] (c, k) (c', k')
| key_other_irq c k c' k' :
    (reg_read (IAR GICC0) (devices k)).1 <> GIC_SOURCE_UART0 -> kernel_handler_irq c k = Ok (c', k') -> key_step [] [] (c, k) (c', k')
| key_user c c' m k : key_step [] [] (c, k) (c', with_user m k)
| key_devices c u k : key_step [] [] (c, k) (c, with_devices u k).

Inductive key_run : list Z -> list Z -> ctx_t * kernel -> ctx_t * kernel -> Prop :=
| key_done st : key_run [] [] st st
| key_more typed got typed' got' st st1 st2 :
    key_step typed got st st1 -> key_run typed' got' st1 st2 -> key_run (typed ++ typed') (got ++ got') st st2.

(** What an interrupt of the UART makes of the kernel. *)
Definition received (ch : Z) (u' : U) (k : kernel) : kernel :=
  write_reg (EOIR GICC0) GIC_SOURCE_UART0
    (write_reg (ICR UART0) 0x10 (with_files (with_stdin (stdin k ++ [ch]) (file_system k)) (disk k) (with_devices u' k))).

Lemma key_eq c (k : kernel) u ch u' :
  reg_read (IAR GICC0) (devices k) = (GIC_SOURCE_UART0, u) -> PL011_getc u = Ok (ch, u') -> kernel_handler_irq c k = Ok (c, received ch u' k).
Proof.
  intros Eid Ec. unfold kernel_handler_irq. rewrite Eid. unfold irq_source.
  cbn [Z.eqb Pos.eqb GIC_SOURCE_UART0 GIC_SOURCE_TIMER0 devices with_devices]. by rewrite Ec.
Qed.

(** Every step of the machine is one of these. *)
Lemma step_key st st' : step turns depth limit st st' -> exists typed got, key_step typed got st st'.
Proof.
  intros [c c' m k|id place garbage c k c' k' _ E|c u k|c k c' k' E].
  - exists [], []. apply key_user.
  - destruct (decide (id = 3 /\ i32 (get_gpr 0 c) = STDIN_FILEDESC)); eexists _, _; [by eapply key_read|by eapply key_svc].
  - exists [], []. apply key_devices.
  - destruct (reg_read (IAR GICC0) (devices k)) as [id u] eqn:Eid. destruct (decide (id = GIC_SOURCE_UART0)) as [->|Hid].
    + destruct (PL011_getc u) as [[ch u']|e] eqn:Ec; [eexists _, _; by eapply key_irq|]. exfalso. unfold kernel_handler_irq in E.
      rewrite Eid in E. unfold irq_source in E. cbn [Z.eqb Pos.eqb GIC_SOURCE_UART0 GIC_SOURCE_TIMER0 devices with_devices] in E. by rewrite Ec in E.
    + exists [], []. apply key_other_irq; [by rewrite Eid|done].
Qed.

Lemma svc_stdin id place garbage c (k : kernel) c' k' :
  ~ reads_stdin id c -> kernel_handler_svc turns depth limit id place garbage c k = Ok (c', k') -> stdin k' = stdin k.
Proof.
  unfold reads_stdin, kernel_handler_svc. intros Hr. destruct (decide (id ∈ process_calls)) as [Hid|_]; [|destruct (decide (id ∈ file_calls)) as [Hid|_]].
  - unfold svc_process. intros E. repeat case_match; try (by injection E as _ <-);
      repeat (apply bind_Ok in E as (? & _ & E)); repeat case_match; by injection E as _ <-.
  - unfold file_calls in Hid. rewrite !elem_of_cons, elem_of_nil in Hid.
    destruct Hid as [->|[->|[->|[->|[->|[->|[->|[->|[->|[->|[->|[->|[]]]]]]]]]]]]]; cbn [svc_file]; intros E.
    + apply bind_Ok in E as ([[[r b] f1] d1] & E1 & [= _ <-]). apply read_file_stdin in E1; [done|]. intros E0. by apply Hr.
    + apply bind_Ok in E as ([[[r b] f1] d1] & E1 & [= _ <-]). by apply write_stdin in E1.
    + apply bind_Ok in E as ([[r f1] d1] & E1 & [= _ <-]). by apply open_stdin in E1.
    + destruct (sys_close _ _) as [r f1] eqn:E1. injection E as _ <-. by apply close_stdin in E1.
    + by apply bind_Ok in E as ([r d1] & _ & [= _ <-]).
    + apply bind_Ok in E as ([[r f1] d1] & E1 & [= _ <-]). by apply chdir_stdin in E1.
    + by apply bind_Ok in E as ([[r [e|]] d1] & _ & [= _ <-]).
    + destruct (sys_lseek _ _ _ _) as [r f1] eqn:E1. injection E as _ <-. by apply lseek_stdin in E1.
    + by destruct (sys_fstat _ _) as [r [e|]]; injection E as _ <-.
    + by apply bind_Ok in E as ([r d1] & _ & [= _ <-]).
    + by apply bind_Ok in E as ([[l|] d1] & _ & [= _ <-]).
    + by apply bind_Ok in E as (b & _ & [= _ <-]).
  - unfold svc_message. intros E. repeat case_match; try (by injection E as _ <-);
      apply bind_Ok in E as (? & _ & E); repeat case_match; by injection E as _ <-.
Qed.

Lemma svc_read_stdin id place garbage c (k : kernel) :
  reads_stdin id c -> exists k', kernel_handler_svc turns depth limit id place garbage c k = Ok (return_value (i32 (wanted c)) c, k') /\
    peek (user k') (get_gpr 1 c) (wanted c) = first_chars (wanted c) (stdin k) /\ stdin k' = drop (Z.to_nat (wanted c)) (stdin k).
Proof.
  intros [-> Hfd]. unfold kernel_handler_svc. rewrite decide_False, decide_True by (apply (bool_decide_unpack _); by vm_compute).
  assert (Hw : 0 <= wanted c < 2 ^ 32) by (apply Z.mod_pos_bound; lia).
  cbn [svc_file]. unfold sys_read. rewrite Hfd, Z.eqb_refl. fold (wanted c). rewrite read_stdin_spec by (rewrite ?peek_length; lia).
  ok_bind. eexists. split; [done|]. split; [|done]. unfold user; cbn. set (b := first_chars _ _).
  assert (Hb : zlength b = wanted c) by (unfold b, first_chars; rewrite length_resize; lia). rewrite <- Hb.
  apply peek_holds, holds_poke. lia.
Qed.

Lemma svc_reads place garbage c (k : kernel) c' k' id :
  reads_stdin id c -> kernel_handler_svc turns depth limit id place garbage c k = Ok (c', k') ->
  peek (user k') (get_gpr 1 c) (wanted c) = first_chars (wanted c) (stdin k) /\ stdin k' = drop (Z.to_nat (wanted c)) (stdin k).
Proof. intros Hr. destruct (svc_read_stdin id place garbage c k Hr) as (k2 & -> & H2). by intros [= _ <-]. Qed.

(** C11 (refinement): from the keyboard to the processes is a queue. However
    interrupts, calls and processes interleave, the characters that reads from
    standard input leave in memory, less the [EOF]s of an empty queue, and then
    those still waiting are the characters the UART delivered, in order: none
    is lost, repeated or overtaken. *)
Theorem keyboard_fifo typed got c (k : kernel) c' k' :
  key_run typed got (c, k) (c', k') -> EOF ∉ stdin k ++ typed ->
  stdin k ++ typed = filter (fun ch => ch <> EOF) got ++ stdin k'.
Proof.
  intros Hrun. remember (c, k) as st eqn:E. remember (c', k') as st' eqn:E'. revert c k E c' k' E'.
  induction Hrun as [st|typed got typed' got' st [c1 k1] st' Hst _ IH]; intros c k -> c' k' E'; [injection E' as -> ->; by rewrite app_nil_r|].
  intros Hne. specialize (IH c1 k1 eq_refl c' k' E'). rewrite filter_app, <- app_assoc.
  assert (Hk : stdin k ++ typed = filter (fun ch => ch <> EOF) got ++ stdin k1).
  { clear IH. inversion Hst as [? ? ? ? u ch u' Eid Ec E|? ? ? ? ? ? ? Hr E|? ? ? ? ? ? ? Hr E|? ? ? ? Hid E| |]; subst; cbn; rewrite ?app_nil_r; try done.
    - rewrite (key_eq _ _ _ _ _ Eid Ec) in E. by injection E as _ <-.
    - destruct (svc_reads _ _ _ _ _ _ _ Hr E) as [-> ->]. rewrite first_chars_filter by set_solver. by rewrite take_drop.
    - by rewrite (svc_stdin _ _ _ _ _ _ _ Hr E).
    - unfold kernel_handler_irq in E. destruct (reg_read _ _) as [id u]. apply bind_Ok in E as ([c2 k2] & E & [= _ <-]).
      unfold irq_source in E. destruct (Z.eqb_spec id GIC_SOURCE_TIMER0); [by apply bind_Ok in E as ([c3 s3] & _ & [= _ <-])|].
      destruct (Z.eqb_spec id GIC_SOURCE_UART0); [done|]. by injection E as _ <-. }
  rewrite (app_assoc (stdin k)), Hk, <- app_assoc, IH; [done|]. rewrite app_assoc, Hk in Hne. set_solver.
Qed.
End Keyboard.

(** ** The theorems at work *)
Lemma reset_configures_witness :
  exists c k, kernel_handler_rst 1 1 64 32768 100 demo_ctx demo_boot = Ok (c, k) /\
    reg (Timer1Load TIMER0) k = 2 ^ 20 /\
    (forall i, Z.testbit (reg (Timer1Ctrl TIMER0) k) i = true <-> i = 1 \/ i = 5 \/ i = 6 \/ i = 7) /\
    (forall i, 0 <= i -> Z.testbit (reg (IMSC UART0) k) i = true <-> i = 4 \/ Z.testbit (reg (IMSC UART0) demo_boot) i = true) /\
    reg (CR UART0) k = 0x301 /\ reg (CR UART1) k = 0x301 /\
    reg (PMR GICC0) k = 0xF0 /\ reg (GICC_CTLR GICC0) k = 1 /\ reg (GICD_CTLR GICD0) k = 1 /\
    (forall id, 32 <= id < 64 -> passes id k = true <-> id = GIC_SOURCE_TIMER0 \/ id = GIC_SOURCE_UART0 \/ passes id demo_boot = true).
Proof.
  destruct demo_reset as (c & k & E). exists c, k. split; [exact E|].
  exact (reset_configures 1 1 64 32768 100 demo_ctx demo_boot c k E).
Defined.

Lemma irq_served_once_witness :
  exists c' k', kernel_handler_irq demo_ctx (with_devices ticking demo_kernel) = Ok (c', k') /\
    handled GIC_SOURCE_TIMER0 demo_ctx (with_devices ticking demo_kernel) c' k' /\ served (devices k') ∖ {[spurious]} = ∅ /\
    lines (devices k') = {[GIC_SOURCE_TIMER0]} ∖ {[GIC_SOURCE_TIMER0]}.
Proof.
  assert (exists c' k', kernel_handler_irq demo_ctx (with_devices ticking demo_kernel) = Ok (c', k')) as (c' & k' & E)
    by (eexists _, _; vm_compute; reflexivity).
  exists c', k'. split; [exact E|].
  destruct (irq_served_once demo_ctx (with_devices ticking demo_kernel) c' k' GIC_SOURCE_TIMER0 (with_served ({[GIC_SOURCE_TIMER0]} ∪ ∅) ticking)
    ltac:(by vm_compute) E) as (Hh & _ & _ & _ & Hs & Hk & _).
  split; [exact Hh|]. split; [etransitivity; [exact Hs|]; by apply (bool_decide_unpack _); vm_compute|]. by apply Hk; left.
Defined.

(** Two keys, and then a read of three characters to address 5000. *)
Definition key_pressed (keys : list Z) : board := with_lines {[GIC_SOURCE_UART0]} (with_line (Uart.Terminal [] keys) quiet).
Definition demo_read_ctx : ctx_t := set_gpr 0 STDIN_FILEDESC (set_gpr 1 5000 (set_gpr 2 3 demo_ctx)).

Lemma keyboard_fifo_witness :
  exists c k c' k', key_run 1 1 64 [104; 105] [104; 105; EOF] (c, k) (c', k') /\
    stdin_buffer (file_system k) ++ [104; 105] = filter (fun ch => ch <> EOF) [104; 105; EOF] ++ stdin_buffer (file_system (U := board) (D := ram_disk) k').
Proof.
  set (k0 := with_devices (key_pressed [104; 105]) demo_kernel).
  set (k1 := received 104 (with_served {[GIC_SOURCE_UART0]} (key_pressed [105])) k0).
  set (k2 := with_devices (key_pressed [105]) k1).
  set (k3 := received 105 (with_served {[GIC_SOURCE_UART0]} (key_pressed [])) k2).
  destruct (svc_read_stdin 1 1 64 3 0 0 demo_read_ctx k3) as (k' & E & Em & _); [by split; vm_compute|].
  assert (Em' : peek (user k') (get_gpr 1 demo_read_ctx) (wanted demo_read_ctx) = [104; 105; EOF]) by (rewrite Em; by vm_compute). clear Em.
  assert (Hack : forall keys, reg_read (IAR GICC0) (key_pressed keys) = (GIC_SOURCE_UART0, with_served {[GIC_SOURCE_UART0]} (key_pressed keys)))
    by (intros keys; by vm_compute).
  assert (Hkey : forall k ch keys, devices k = key_pressed (ch :: keys) ->
    key_step (D := ram_disk) 1 1 64 [ch] [] (demo_ctx, k) (demo_ctx, received ch (with_served {[GIC_SOURCE_UART0]} (key_pressed keys)) k)).
  { intros k ch keys Ek. assert (Ea := Hack (ch :: keys)). rewrite <- Ek in Ea at 1. by eapply key_irq; [exact Ea|..|apply (key_eq _ _ _ _ _ Ea)]. }
  assert (Hrun : key_run 1 1 64 [104; 105] [104; 105; EOF] (demo_ctx, k0) (return_value (i32 (wanted demo_read_ctx)) demo_read_ctx, k')).
  { apply (key_more 1 1 64 [104] [] [105] [104; 105; EOF] _ (demo_ctx, k1)); [by apply Hkey|].
    apply (key_more 1 1 64 [] [] [105] [104; 105; EOF] _ (demo_ctx, k2)); [apply key_devices|].
    apply (key_more 1 1 64 [105] [] [] [104; 105; EOF] _ (demo_ctx, k3)); [by apply Hkey|].
    apply (key_more 1 1 64 [] [] [] [104; 105; EOF] _ (demo_read_ctx, with_user (user k3) k3)); [apply key_user|].
    apply (key_more 1 1 64 [] [104; 105; EOF] [] [] _ (return_value (i32 (wanted demo_read_ctx)) demo_read_ctx, k')); [|apply key_done].
    rewrite <- Em'. by apply (key_read 1 1 64 3 0 0). }
  exists demo_ctx, k0, (return_value (i32 (wanted demo_read_ctx)) demo_read_ctx), k'. split; [exact Hrun|].
  apply (keyboard_fifo 1 1 64 [104; 105] [104; 105; EOF] demo_ctx k0 _ k' Hrun). apply (bool_decide_unpack _). by vm_compute.
Defined.
