(* ===== verification/Startup.v ===== *)
(** * Start-up and the exception vectors

    startup.s and irq.s: the table of vectors and its copy to address 0, and the
    routines that save the context of the user, call a handler of kernel.c and
    return into the context it leaves. The instructions are those of the ARM
    that these files use, on registers banked by mode. *)
From S2P Require Import Prelude Scheduler Disk Uart Devices Kernel Machine.

(** ** The processor *)
Definition USR : Z := 0x10.
Definition IRQ : Z := 0x12.
Definition SVC : Z := 0x13.

Definition set_at (a v : Z) (f : Z -> Z) : Z -> Z := fun x => if decide (x = a) then v else f x.

(** [r0] to [r12]; stack pointer, link register and saved status by mode; the
    status register; memory by the addresses of its words. *)
Record cpu := Cpu {
  regs : list Z;
  sps : Z -> Z;
  lrs : Z -> Z;
  spsrs : Z -> Z;
  status_word : Z;
  words : Z -> Z
}.

Definition with_regs (l : list Z) (s : cpu) : cpu := Cpu l (sps s) (lrs s) (spsrs s) (status_word s) (words s).
Definition with_sp (m v : Z) (s : cpu) : cpu := Cpu (regs s) (set_at m v (sps s)) (lrs s) (spsrs s) (status_word s) (words s).
Definition with_lr (m v : Z) (s : cpu) : cpu := Cpu (regs s) (sps s) (set_at m v (lrs s)) (spsrs s) (status_word s) (words s).
Definition with_spsr (m v : Z) (s : cpu) : cpu := Cpu (regs s) (sps s) (lrs s) (set_at m v (spsrs s)) (status_word s) (words s).
Definition with_status_word (v : Z) (s : cpu) : cpu := Cpu (regs s) (sps s) (lrs s) (spsrs s) v (words s).
Definition with_words (f : Z -> Z) (s : cpu) : cpu := Cpu (regs s) (sps s) (lrs s) (spsrs s) (status_word s) f.

Definition mode_of (psr : Z) : Z := Z.land psr 0x1F.
Definition mode (s : cpu) : Z := mode_of (status_word s).

Inductive reg := R (n : nat) | SP | LR.

Definition get (r : reg) (s : cpu) : Z :=
  match r with R n => default 0 (regs s !! n) | SP => sps s (mode s) | LR => lrs s (mode s) end.
Definition put (r : reg) (v : Z) (s : cpu) : cpu :=
  match r with R n => with_regs (<[n := v]> (regs s)) s | SP => with_sp (mode s) v s | LR => with_lr (mode s) v s end.

(** Runs of words from an address up. *)
Fixpoint load_words (a : Z) (n : nat) (f : Z -> Z) : list Z :=
  match n with O => [] | S n => f a :: load_words (a + 4) n f end.
Fixpoint store_words (a : Z) (l : list Z) (f : Z -> Z) : Z -> Z :=
  match l with [] => f | v :: l => store_words (a + 4) l (set_at a v f) end.

(** ** Instructions

    [{r0-r12, sp, lr}^] are the registers of the user, whatever the mode. *)
Inductive instr :=
| MOV (d : reg) (n : reg) | MOVI (d : reg) (v : Z) | ADD (d n : reg) (v : Z) | SUB (d n : reg) (v : Z)
| BIC (d n : reg) (v : Z) | ORR (d n : reg) (v : Z) | CMP (n m : reg)
| MRS_CPSR (d : reg) | MRS_SPSR (d : reg) | MSR_CPSR (v : Z) | MSR_CPSR_c (n : reg) | MSR_SPSR (n : reg)
| LDR (d n : reg) (offset : Z) | LDR_post (d n : reg) (v : Z) | STR_post (d n : reg) (v : Z)
| STM_user (n : reg) | LDM_user (n : reg) | STMDB2 (n a b : reg) | LDMIA2 (n a b : reg)
| B (target : nat) | BNE (target : nat) | BL (f : string) | MOV_PC_LR | MOVS_PC_LR.

Definition flags (a b : Z) : Z :=
  let r := u32 (a - b) in
  Z.lor (if 2 ^ 31 <=? r then 2 ^ 31 else 0) (Z.lor (if r =? 0 then 2 ^ 30 else 0)
    (Z.lor (if b <=? a then 2 ^ 29 else 0) (if i32 a - i32 b =? i32 r then 0 else 2 ^ 28))).
Definition zero_flag (s : cpu) : bool := Z.testbit (status_word s) 30.

Definition exec (i : instr) (s : cpu) : cpu :=
  match i with
  | MOV d n => put d (get n s) s
  | MOVI d v => put d v s
  | ADD d n v => put d (u32 (get n s + v)) s
  | SUB d n v => put d (u32 (get n s - v)) s
  | BIC d n v => put d (Z.ldiff (get n s) v) s
  | ORR d n v => put d (Z.lor (get n s) v) s
  | CMP n m => with_status_word (Z.lor (Z.land (status_word s) 0x0FFFFFFF) (flags (get n s) (get m s))) s
  | MRS_CPSR d => put d (status_word s) s
  | MRS_SPSR d => put d (spsrs s (mode s)) s
  | MSR_CPSR v => with_status_word v s
  | MSR_CPSR_c n => with_status_word (Z.lor (Z.ldiff (status_word s) 0xFF) (Z.land (get n s) 0xFF)) s
  | MSR_SPSR n => with_spsr (mode s) (get n s) s
  | LDR d n v => put d (words s (u32 (get n s + v))) s
  | LDR_post d n v => let a := get n s in put d (words s a) (put n (u32 (a + v)) s)
  | STR_post d n v => let a := get n s in put n (u32 (a + v)) (with_words (set_at a (get d s) (words s)) s)
  | STM_user n => with_words (store_words (get n s) (regs s ++ [sps s USR; lrs s USR]) (words s)) s
  | LDM_user n =>
      let l := load_words (get n s) 15 (words s) in
      with_regs (take 13 l) (with_sp USR (default 0 (l !! 13%nat)) (with_lr USR (default 0 (l !! 14%nat)) s))
  | STMDB2 n a b =>
      let base := u32 (get n s - 8) in
      put n base (with_words (store_words base [get a s; get b s] (words s)) s)
  | LDMIA2 n a b =>
      let base := get n s in
      put b (words s (base + 4)) (put a (words s base) (put n (u32 (base + 8)) s))
  | B _ | BNE _ | BL _ | MOV_PC_LR | MOVS_PC_LR => s
  end.

(** Running the routine [code], which lies at the address [base], from its
    [i]-th instruction to the one that leaves it, with the address it goes on
    at. [call] runs the routines it branches to; [K] is the state those have. *)
Section Run.
Context {K : Type} (call : string -> cpu * K -> outcome (cpu * K)).

Fixpoint run (fuel : nat) (base : Z) (code : list instr) (i : nat) (s : cpu) (k : K) : outcome (Z * cpu * K) :=
  match fuel with
  | O => Err OutOfFuel
  | S fuel =>
      match code !! i with
      | None => Err Indeterminate
      | Some (B t) => run fuel base code t s k
      | Some (BNE t) => run fuel base code (if zero_flag s then S i else t) s k
      | Some (BL f) =>
          '(s, k) ← call f (put LR (base + 4 * Z.of_nat (S i)) s, k);
          run fuel base code (S i) s k
      | Some MOV_PC_LR => Ok (get LR s, s, k)
      | Some MOVS_PC_LR => Ok (get LR s, with_status_word (spsrs s (mode s)) s, k)
      | Some i' => run fuel base code (S i) (exec i' s) k
      end
  end.
End Run.

(** ** irq.s *)
Definition irq_enable : list instr := [MRS_CPSR (R 0); BIC (R 0) (R 0) 0x80; MSR_CPSR_c (R 0); MOV_PC_LR].
Definition irq_unable : list instr := [MRS_CPSR (R 0); ORR (R 0) (R 0) 0x80; MSR_CPSR_c (R 0); MOV_PC_LR].

(** ** startup.s

    [ldr rd, =label] is a move: the addresses of the labels come from the
    linker. *)
Section Startup.
Context (stack_top_irq stack_top_svc interrupt_vector_table_start interrupt_vector_table_end : Z).

Definition handler_rst : list instr :=
  [BL "table_copy"; MSR_CPSR 0xD2; MOVI SP stack_top_irq; MSR_CPSR 0xD3; MOVI SP stack_top_svc; SUB SP SP 68;
   MOV (R 0) SP; BL "kernel_handler_rst";
   LDMIA2 SP (R 0) LR; MSR_SPSR (R 0); LDM_user SP; ADD SP SP 60; MOVS_PC_LR; B 13].

Definition handler_irq : list instr :=
  [SUB LR LR 4; SUB SP SP 60; STM_user SP; MRS_SPSR (R 0); STMDB2 SP (R 0) LR; MOV (R 0) SP;
   BL "kernel_handler_irq";
   LDMIA2 SP (R 0) LR; MSR_SPSR (R 0); LDM_user SP; ADD SP SP 60; MOVS_PC_LR].

Definition handler_svc : list instr :=
  [SUB LR LR 0; SUB SP SP 60; STM_user SP; MRS_SPSR (R 0); STMDB2 SP (R 0) LR; MOV (R 0) SP;
   LDR (R 1) LR (-4); BIC (R 1) (R 1) 0xFF000000; BL "kernel_handler_svc";
   LDMIA2 SP (R 0) LR; MSR_SPSR (R 0); LDM_user SP; ADD SP SP 60; MOVS_PC_LR].

Definition table_copy : list instr :=
  [MOVI (R 0) 0; MOVI (R 1) interrupt_vector_table_start; MOVI (R 2) interrupt_vector_table_end;
   LDR_post (R 3) (R 1) 4; STR_post (R 3) (R 0) 4; CMP (R 1) (R 2); BNE 3; MOV_PC_LR].

(** The vectors: [None] is a branch to itself. *)
Definition interrupt_vector_table : list (option (list instr)) :=
  [Some handler_rst; None; Some handler_svc; None; None; None; Some handler_irq; None].

(** An exception: the processor enters the mode [mode_of p] with the status [p],
    saves the status it had and the return address [ret], and goes to the
    [n]-th vector. *)
Definition enter (p ret : Z) (s : cpu) : cpu := with_status_word p (with_spsr (mode_of p) (status_word s) (with_lr (mode_of p) ret s)).

Definition take_exception {K} (call : string -> cpu * K -> outcome (cpu * K)) (fuel : nat) (base : Z) (n : nat) (p ret : Z) (s : cpu) (k : K)
  : outcome (Z * cpu * K) :=
  match interrupt_vector_table !! n with
  | Some (Some code) => run call fuel base code 0 (enter p ret s) k
  | _ => Err OutOfFuel
  end.
End Startup.

(** ** Lemmas *)
Lemma set_at_eq a v f : set_at a v f a = v.
Proof. unfold set_at. by rewrite decide_True. Qed.

Lemma set_at_ne a v f x : x <> a -> set_at a v f x = f x.
Proof. intros Hx. unfold set_at. by rewrite decide_False. Qed.

Lemma store_words_other l : forall a f x, x < a \/ a + 4 * zlength l <= x -> store_words a l f x = f x.
Proof.
  induction l as [|v l IH]; intros a f x Hx; [done|]. cbn [store_words length] in *. rewrite IH by lia. apply set_at_ne. lia.
Qed.

Lemma load_store l : forall a f, load_words a (length l) (store_words a l f) = l.
Proof.
  induction l as [|v l IH]; intros a f; [done|]. cbn [store_words load_words length]. f_equal; [|apply IH].
  rewrite store_words_other by lia. apply set_at_eq.
Qed.

Lemma load_words_same n : forall a f g, (forall x, a <= x < a + 4 * Z.of_nat n -> f x = g x) -> load_words a n f = load_words a n g.
Proof. induction n as [|n IH]; intros a f g Hfg; [done|]. cbn. f_equal; [apply Hfg; lia|]. apply IH. intros x Hx. apply Hfg. lia. Qed.

Lemma load_words_app n m : forall a f, load_words a (n + m) f = load_words a n f ++ load_words (a + 4 * Z.of_nat n) m f.
Proof.
  induction n as [|n IH]; intros a f; [by replace (a + 4 * Z.of_nat 0) with a by lia|]. cbn [load_words Nat.add app]. f_equal. rewrite IH. do 2 f_equal. lia.
Qed.

Lemma load_words_length n : forall a f, length (load_words a n f) = n.
Proof. induction n as [|n IH]; intros a f; [done|]. cbn. by rewrite IH. Qed.

Lemma load_words_lookup n : forall a f i, (i < n)%nat -> load_words a n f !! i = Some (f (a + 4 * Z.of_nat i)).
Proof.
  induction n as [|n IH]; intros a f i Hi; [lia|]. destruct i as [|i]; cbn [load_words lookup list_lookup]; [do 2 f_equal; lia|].
  rewrite IH by lia. do 2 f_equal. lia.
Qed.

Ltac banks := repeat first [rewrite set_at_eq | rewrite set_at_ne by congruence].

Lemma run_BL {K} (call : string -> cpu * K -> outcome (cpu * K)) base code i fuel f s k :
  code !! i = Some (BL f) ->
  run call (S fuel) base code i s k = ('(s, k) ← call f (put LR (base + 4 * Z.of_nat (S i)) s, k); run call fuel base code (S i) s k).
Proof. intros Hi. cbn [run]. by rewrite Hi. Qed.

(** *** Straight lines *)
Definition plain (i : instr) : bool := match i with B _ | BNE _ | BL _ | MOV_PC_LR | MOVS_PC_LR => false | _ => true end.
Definition execs (l : list instr) (s : cpu) : cpu := foldl (fun s i => exec i s) s l.

Lemma run_plain {K} (call : string -> cpu * K -> outcome (cpu * K)) base code l : forall fuel i s k,
  forallb plain l = true -> (forall j x, l !! j = Some x -> code !! (i + j)%nat = Some x) ->
  run call (length l + fuel) base code i s k = run call fuel base code (i + length l) (execs l s) k.
Proof.
  induction l as [|x l IH]; intros fuel i s k Hp Hc; [by rewrite Nat.add_0_r|]. cbn in Hp. apply andb_true_iff in Hp as [Hx Hp].
  pose proof (Hc O x eq_refl) as Hi. rewrite Nat.add_0_r in Hi. cbn [length Nat.add run]. rewrite Hi.
  replace (i + S (length l))%nat with (S i + length l)%nat by lia. change (execs (x :: l) s) with (execs l (exec x s)).
  rewrite <- IH; [by destruct x| done|]. intros j y Hj. rewrite <- (Hc (S j) y Hj). f_equal. lia.
Qed.

(** The words of a [ctx_t], in the order of its members. *)
Definition ctx_words (c : ctx_t) : list Z := [cpsr c; pc c] ++ gpr c ++ [sp c; lr c].

(** The context of the user whose next instruction is at [next]. *)
Definition user_ctx (next : Z) (s : cpu) : ctx_t := Ctx (status_word s) next (regs s) (sps s USR) (lrs s USR).

Definition save : list instr := [SUB SP SP 60; STM_user SP; MRS_SPSR (R 0); STMDB2 SP (R 0) LR; MOV (R 0) SP].
Definition restore : list instr := [LDMIA2 SP (R 0) LR; MSR_SPSR (R 0); LDM_user SP; ADD SP SP 60].

Lemma thirteen (l : list Z) : length l = 13%nat -> exists r0 l', l = r0 :: l' /\ length l' = 12%nat.
Proof. destruct l as [|r0 l]; [done|]. intros [= Hl]. by exists r0, l. Qed.

Lemma save_spec m s :
  mode s = m -> m <> USR -> length (regs s) = 13%nat -> 68 <= sps s m < 2 ^ 32 ->
  let s' := execs save s in let a := sps s m - 68 in
  get (R 0) s' = a /\ mode s' = m /\ sps s' m = a /\ (forall b, b <> m -> sps s' b = sps s b) /\ (forall b, lrs s' b = lrs s b) /\
  load_words a 17 (words s') = ctx_words (Ctx (spsrs s m) (lrs s m) (regs s) (sps s USR) (lrs s USR)) /\
  (forall x, x < a \/ a + 68 <= x -> words s' x = words s x).
Proof.
  intros Hm Hu Hl Hsp. destruct (thirteen _ Hl) as (r0 & l & El & Hl'). unfold mode in Hm.
  cbn -[store_words load_words Z.sub Z.add u32]. unfold mode. cbn -[store_words load_words Z.sub Z.add u32]. rewrite ?Hm.
  banks. remember (sps s m - 68) as a eqn:Ea. assert (E60 : sps s m - 60 = a + 8) by lia. rewrite !E60, (u32_small (a + 8)) by lia. replace (a + 8 - 8) with a by lia. rewrite !(u32_small a) by lia.
  rewrite !El. cbn [lookup list_lookup insert list_insert from_option default id]. rewrite <- !El.
  assert (Hlen : length (regs s ++ [sps s USR; lrs s USR]) = 15%nat) by (rewrite length_app, Hl; done).
  split_and!; try done.
  - intros b Hb. by rewrite !set_at_ne.
  - change 17%nat with (2 + 15)%nat. rewrite load_words_app. change (spsrs s m :: lrs s m :: ?r) with ([spsrs s m; lrs s m] ++ r). apply (f_equal2 app).
    + exact (load_store [spsrs s m; lrs s m] a _).
    + replace (a + 4 * Z.of_nat 2) with (a + 8) by lia. rewrite (load_words_same _ _ _ (store_words (a + 8) (regs s ++ [sps s USR; lrs s USR]) (words s))).
      * rewrite <- Hlen. apply load_store.
      * intros x Hx. apply store_words_other. cbn [length app]. lia.
  - intros x Hx. rewrite store_words_other by (cbn [length]; lia). apply store_words_other. lia.
Qed.

Lemma restore_spec m c s :
  mode s = m -> m <> USR -> length (regs s) = 13%nat -> length (gpr c) = 13%nat -> load_words (sps s m) 17 (words s) = ctx_words c -> 0 <= sps s m < 2 ^ 32 - 68 ->
  let s' := execs restore s in
  regs s' = gpr c /\ sps s' USR = sp c /\ lrs s' USR = lr c /\ mode s' = m /\ lrs s' m = pc c /\ spsrs s' m = cpsr c /\
  sps s' m = sps s m + 68 /\ (forall b, b <> m -> b <> USR -> sps s' b = sps s b).
Proof.
  intros Hm Hu Hr Hl Hw Hsp. unfold mode in Hm. change 17%nat with (2 + 15)%nat in Hw. rewrite load_words_app in Hw. unfold ctx_words in Hw.
  apply (app_inj_1 _ [cpsr c; pc c]) in Hw as [H2 H15]; [|done]. injection H2 as Hcpsr Hpc. replace (sps s m + 4 * Z.of_nat 2) with (sps s m + 8) in H15 by lia.
  cbn -[load_words Z.sub Z.add u32]. unfold mode. cbn -[load_words Z.sub Z.add u32]. rewrite ?Hm. banks. rewrite !(u32_small (sps s m + 8)) by lia.
  rewrite H15. assert (Hi : forall i, (gpr c ++ [sp c; lr c]) !! (13 + i)%nat = [sp c; lr c] !! i).
  { intros i. rewrite <- Hl, lookup_app_r by lia. f_equal. lia. }
  pose proof (Hi 0%nat) as E13. pose proof (Hi 1%nat) as E14. cbn [Nat.add lookup list_lookup] in E13, E14. cbn [lookup list_lookup]. rewrite E13, E14.
  cbn [from_option default id]. replace (sps s m + 8 + 60) with (sps s m + 68) by lia. rewrite u32_small by lia.
  split_and!; try done.
  - rewrite <- Hl. by rewrite take_app_length.
  - destruct (thirteen _ Hr) as (r0 & l & -> & _). exact Hcpsr.
  - intros b Hb Hb'. by banks.
Qed.

(** *** Handlers of kernel.c

    [f] is compiled from the handler [h], which gets the context at the address
    in [r0], and [r1]: it leaves there the context [h] gives, keeps the mode and
    gives the stack back. *)
Definition compiled {K} (call : string -> cpu * K -> outcome (cpu * K)) (f : string) (h : Z -> ctx_t -> K -> outcome (ctx_t * K)) : Prop :=
  forall s k c c' k',
    length (regs s) = 13%nat -> load_words (get (R 0) s) 17 (words s) = ctx_words c -> length (gpr c) = 13%nat ->
    h (get (R 1) s) c k = Ok (c', k') -> length (gpr c') = 13%nat ->
    exists s', call f (s, k) = Ok (s', k') /\ mode s' = mode s /\ length (regs s') = 13%nat /\ (forall m, sps s' m = sps s m) /\
      load_words (get (R 0) s) 17 (words s') = ctx_words c'.

Section Handlers.
Context {K : Type} (call : string -> cpu * K -> outcome (cpu * K)).

(** From the call of a handler to the user. *)
Lemma call_and_restore f h base code fuel i s k m c c' k' :
  compiled call f h -> code !! i = Some (BL f) -> (forall j x, (restore ++ [MOVS_PC_LR]) !! j = Some x -> code !! (S i + j)%nat = Some x) ->
  mode s = m -> m <> USR -> length (regs s) = 13%nat -> 0 <= sps s m < 2 ^ 32 - 68 -> get (R 0) s = sps s m ->
  load_words (sps s m) 17 (words s) = ctx_words c -> length (gpr c) = 13%nat -> h (get (R 1) s) c k = Ok (c', k') -> length (gpr c') = 13%nat ->
  exists s', run call (6 + fuel) base code i s k = Ok (pc c', s', k') /\ user_ctx (pc c') s' = c' /\
    sps s' m = sps s m + 68 /\ (forall b, b <> m -> b <> USR -> sps s' b = sps s b).
Proof.
  intros Hf Hi Hc Hm Hu Hr Hsp H0 Hw Hg E Hg'. change (6 + fuel)%nat with (S (length restore + S fuel)). rewrite (run_BL _ _ _ _ _ f) by done. set (s1 := put LR _ s).
  assert (H0' : get (R 0) s1 = sps s m) by exact H0.
  destruct (Hf s1 k c c' k') as (s2 & -> & Hm2 & Hr2 & Hs2 & Hw2); [exact Hr|rewrite H0'; exact Hw|exact Hg|exact E|exact Hg'|]. ok_bind.
  rewrite H0' in Hw2. change (mode s1) with (mode s) in Hm2. change (sps s1) with (sps s) in Hs2. rewrite Hm in Hm2.
  destruct (restore_spec m c' s2) as (E1 & E2 & E3 & E4 & E5 & E6 & E7 & E8); [done|done|done|done|by rewrite Hs2|by rewrite Hs2|].
  exists (with_status_word (spsrs (execs restore s2) (mode (execs restore s2))) (execs restore s2)). split.
  - rewrite run_plain; [|done|].
    + change (length restore) with 4%nat. cbn [run]. rewrite (Hc 4%nat MOVS_PC_LR) by done. unfold get. by rewrite E4, E5.
    + intros j x Hj. apply Hc. by apply lookup_app_l_Some.
  - unfold user_ctx, with_status_word. cbn [status_word regs sps lrs]. rewrite E1, E2, E3, E4, E6, E7, Hs2. split; [by destruct c'|].
    split; [done|]. intros b Hb Hb'. by rewrite E8, Hs2.
Qed.
End Handlers.

(** *** The copy of the vectors *)
Lemma flags_bit a b i : 0 <= i -> i <> 31 -> i <> 29 -> i <> 28 -> Z.testbit (flags a b) i = (i =? 30) && (u32 (a - b) =? 0).
Proof.
  intros Hi H31 H29 H28. unfold flags. rewrite !Z.lor_spec.
  assert (Hp : forall (x : bool) n, 0 <= n -> Z.testbit (if x then 2 ^ n else 0) i = x && (i =? n)).
  { intros x n Hn. destruct x; [|by rewrite Z.bits_0]. rewrite Z.pow2_bits_eqb by lia. lia. }
  assert (Hq : forall (x : bool) n, 0 <= n -> Z.testbit (if x then 0 else 2 ^ n) i = negb x && (i =? n)).
  { intros x n Hn. rewrite <- (Hp (negb x) n Hn). by destruct x. }
  rewrite !Hp, Hq by lia. destruct (Z.eqb_spec i 31), (Z.eqb_spec i 29), (Z.eqb_spec i 28); lia.
Qed.

Lemma compare_zero n m s : zero_flag (exec (CMP n m) s) = (u32 (get n s - get m s) =? 0).
Proof. unfold zero_flag. cbn [exec with_status_word status_word]. rewrite Z.lor_spec, Z.land_spec, flags_bit by lia. cbn. by rewrite andb_false_r. Qed.

Lemma compare_mode n m s : mode (exec (CMP n m) s) = mode s.
Proof.
  unfold mode, mode_of. cbn [exec with_status_word status_word]. apply Z.bits_inj'. intros i Hi. rewrite !Z.land_spec, Z.lor_spec, Z.land_spec.
  destruct (decide (i < 5)) as [H5|H5].
  - rewrite flags_bit by lia. rewrite (proj2 (Z.eqb_neq i 30)) by lia. change 0x0FFFFFFF with (Z.ones 28). rewrite Z.ones_spec_low by lia.
    by rewrite andb_true_r, orb_false_r.
  - change 0x1F with (Z.ones 5). rewrite Z.ones_spec_high by lia. by rewrite !andb_false_r.
Qed.

Section Table.
Context {K : Type} (call : string -> cpu * K -> outcome (cpu * K)) (table_start : Z) (n : nat).
Context (Hstart : 4 * Z.of_nat n <= table_start) (Hend : table_start + 4 * Z.of_nat n < 2 ^ 32).
Abbreviation code := (table_copy table_start (table_start + 4 * Z.of_nat n)).

(** Everything but the low registers, the flags and memory. *)
Record same_frame (s s' : cpu) : Prop := {
  sf_mode : mode s' = mode s;
  sf_regs : length (regs s') = length (regs s);
  sf_sps b : sps s' b = sps s b;
  sf_lrs b : lrs s' b = lrs s b
}.

Lemma table_turn base fuel j s k r3 l :
  regs s = 4 * j :: table_start + 4 * j :: table_start + 4 * Z.of_nat n :: r3 :: l -> 0 <= j < Z.of_nat n ->
  exists s', run call (4 + fuel) base code 3 s k = run call fuel base code (if j + 1 =? Z.of_nat n then 7 else 3) s' k /\ same_frame s s' /\
    regs s' = 4 * (j + 1) :: table_start + 4 * (j + 1) :: table_start + 4 * Z.of_nat n :: words s (table_start + 4 * j) :: l /\
    words s' = set_at (4 * j) (words s (table_start + 4 * j)) (words s).
Proof.
  intros Hr Hj. set (s1 := execs [LDR_post (R 3) (R 1) 4; STR_post (R 3) (R 0) 4] s).
  assert (Hr1 : regs s1 = 4 * (j + 1) :: table_start + 4 * (j + 1) :: table_start + 4 * Z.of_nat n :: words s (table_start + 4 * j) :: l).
  { unfold s1. cbn -[Z.mul Z.add u32]. rewrite Hr. cbn -[Z.mul Z.add u32]. rewrite !u32_small by lia. repeat (apply (f_equal2 cons); [lia|]). done. }
  assert (Hw1 : words s1 = set_at (4 * j) (words s (table_start + 4 * j)) (words s)).
  { unfold s1. cbn -[Z.mul Z.add u32]. rewrite Hr. done. }
  exists (exec (CMP (R 1) (R 2)) s1). split; [|split; [|split; [exact Hr1|exact Hw1]]].
  - change (4 + fuel)%nat with (length [LDR_post (R 3) (R 1) 4; STR_post (R 3) (R 0) 4; CMP (R 1) (R 2)] + S fuel)%nat. rewrite run_plain; [|done|].
    + change (execs _ s) with (exec (CMP (R 1) (R 2)) s1). set (s2 := exec _ s1). change (3 + length _)%nat with 6%nat. cbn [run].
      change (code !! 6%nat) with (Some (BNE 3)). cbv iota beta. unfold s2 at 1. rewrite compare_zero. unfold get. rewrite Hr1. cbn [lookup list_lookup default from_option id].
      destruct (Z.eqb_spec (j + 1) (Z.of_nat n)) as [E|E].
      * rewrite E, Z.sub_diag. done.
      * rewrite (proj2 (Z.eqb_neq _ 0)); [done|]. unfold u32. intros Hm. apply Z.mod_divide in Hm as [q Hq]; lia.
    + by intros [|[|[|i]]] x [= <-].
  - assert (Hlen : length (regs s1) = length (regs s)) by by rewrite Hr1, Hr. constructor; [by rewrite compare_mode|exact Hlen|done|done].
Qed.

Lemma table_loop base fuel k m : forall j s r3 l,
  regs s = 4 * j :: table_start + 4 * j :: table_start + 4 * Z.of_nat n :: r3 :: l -> 0 <= j -> j + Z.of_nat (S m) = Z.of_nat n ->
  exists s', run call (4 * S m + fuel) base code 3 s k = run call fuel base code 7 s' k /\ same_frame s s' /\
    (forall i, j <= i < Z.of_nat n -> words s' (4 * i) = words s (table_start + 4 * i)) /\
    (forall x, x < 4 * j \/ 4 * Z.of_nat n <= x -> words s' x = words s x).
Proof.
  induction m as [|m IH]; intros j s r3 l Hr Hj Hn.
  - destruct (table_turn base fuel j s k r3 l Hr) as (s1 & E & Hf & _ & Hw); [lia|]. exists s1. rewrite (proj2 (Z.eqb_eq _ _)) in E by lia.
    split; [exact E|]. split; [exact Hf|]. rewrite Hw. split.
    + intros i Hi. replace i with j by lia. apply set_at_eq.
    + intros x Hx. apply set_at_ne. lia.
  - destruct (table_turn base (4 * S m + fuel)%nat j s k r3 l Hr) as (s1 & E & [Hf1 Hf2 Hf3 Hf4] & Hr1 & Hw); [lia|]. rewrite (proj2 (Z.eqb_neq _ _)) in E by lia.
    destruct (IH (j + 1) s1 _ _ Hr1) as (s' & E' & [Hg1 Hg2 Hg3 Hg4] & Hc & Ho); [lia..|]. exists s'. split.
    { replace (4 * S (S m) + fuel)%nat with (4 + (4 * S m + fuel))%nat by lia. by rewrite E. }
    split; [constructor; [congruence|congruence|intros b; by rewrite Hg3|intros b; by rewrite Hg4]|]. split.
    + intros i Hi. destruct (decide (i = j)) as [->|Hne].
      * rewrite Ho, Hw by lia. apply set_at_eq.
      * rewrite Hc, Hw by lia. apply set_at_ne. lia.
    + intros x Hx. rewrite Ho, Hw by lia. apply set_at_ne. lia.
Qed.

Lemma table_copy_spec base fuel s k :
  length (regs s) = 13%nat -> (0 < n)%nat ->
  exists s', run call (4 + 4 * n + fuel) base code 0 s k = Ok (get LR s, s', k) /\ same_frame s s' /\
    (forall i, 0 <= i < Z.of_nat n -> words s' (4 * i) = words s (table_start + 4 * i)) /\
    (forall x, x < 0 \/ 4 * Z.of_nat n <= x -> words s' x = words s x).
Proof.
  intros Hl Hn. destruct (regs s) as [|r0 [|r1 [|r2 [|r3 l]]]] eqn:Er; [done..|].
  set (s1 := execs [MOVI (R 0) 0; MOVI (R 1) table_start; MOVI (R 2) (table_start + 4 * Z.of_nat n)] s).
  assert (Hr1 : regs s1 = 4 * 0 :: table_start + 4 * 0 :: table_start + 4 * Z.of_nat n :: r3 :: l).
  { unfold s1. cbn -[Z.mul Z.add]. rewrite Er. cbn -[Z.mul Z.add]. by rewrite Z.mul_0_r, Z.add_0_r. }
  destruct (table_loop base (S fuel) k (pred n) 0 s1 r3 l Hr1) as (s' & E & [H1 H2 H3 H4] & Hc & Ho); [lia|lia|].
  exists s'. split; [|split; [|done]].
  - replace (4 + 4 * n + fuel)%nat with (3 + (4 * S (pred n) + S fuel))%nat by lia. change (3 + ?x)%nat with (length [MOVI (R 0) 0; MOVI (R 1) table_start; MOVI (R 2) (table_start + 4 * Z.of_nat n)] + x)%nat.
    rewrite run_plain; [|done|by intros [|[|[|]]] x [= <-]]. change (0 + length _)%nat with 3%nat. fold s1. rewrite E. cbn [run].
    change (code !! 7%nat) with (Some MOV_PC_LR). cbv iota beta. unfold get. by rewrite H1, H4.
  - constructor; [exact H1|by rewrite H2, Hr1, Er|exact H3|exact H4].
Qed.
End Table.

(** ** Exceptions *)
Lemma u32_back n v : 0 <= n < 2 ^ 32 -> u32 (u32 (n + v) - v) = n.
Proof. intros Hn. unfold u32. rewrite Zminus_mod_idemp_l. replace (n + v - v) with n by lia. by apply Z.mod_small. Qed.

(** The number of a call is in the [svc] instruction, below its code. *)
Lemma svc_number id : 0 <= id < 2 ^ 24 -> Z.ldiff (0xEF000000 + id) 0xFF000000 = id.
Proof.
  intros Hid. replace (0xEF000000 + id) with (Z.lor id (Z.shiftl 0xEF 24)).
  - apply Z.bits_inj'. intros i Hi. rewrite Z.ldiff_spec, Z.lor_spec.
    destruct (decide (i < 24)) as [H24|H24].
    + rewrite Z.shiftl_spec_low by lia. change 0xFF000000 with (Z.shiftl 0xFF 24). rewrite Z.shiftl_spec_low by lia. by rewrite orb_false_r, andb_true_r.
    + rewrite <- (Z.mod_small id (2 ^ 24)) by lia. rewrite Z.mod_pow2_bits_high by lia.
      change 0xFF000000 with (Z.shiftl 0xFF 24). rewrite !Z.shiftl_spec by lia. cbn [orb].
      destruct (decide (i < 32)) as [H32|H32].
      * change 0xFF with (Z.ones 8). rewrite (Z.ones_spec_low 8) by lia. by rewrite andb_false_r.
      * rewrite Z.bits_above_log2; [done|lia|]. change (Z.log2 0xEF) with 7. lia.
  - rewrite lor_shift by lia. lia.
Qed.

Section Exceptions.
Context `{BlockDevice D} `{Board U} (turns depth limit : nat).
Abbreviation kernel := (kernel D U).
Context (call : string -> cpu * kernel -> outcome (cpu * kernel)).
Context (irq_top svc_top : Z).
Abbreviation exception := (take_exception irq_top svc_top call).

(** From the vector to the call, for a routine whose code goes on with [save]. *)
Lemma entry_and_save code l base fuel s k m :
  (forall j x, (l ++ save) !! j = Some x -> code !! j = Some x) -> forallb plain l = true ->
  mode (execs l s) = m -> m <> USR -> length (regs (execs l s)) = 13%nat -> 68 <= sps (execs l s) m < 2 ^ 32 ->
  exists s', run call (length l + (5 + fuel)) base code 0 s k = run call fuel base code (length l + 5) s' k /\
    get (R 0) s' = sps s' m /\ mode s' = m /\ sps s' m = sps (execs l s) m - 68 /\ (forall b, b <> m -> sps s' b = sps (execs l s) b) /\
    (forall b, lrs s' b = lrs (execs l s) b) /\ length (regs s') = 13%nat /\
    load_words (sps s' m) 17 (words s') =
      ctx_words (Ctx (spsrs (execs l s) m) (lrs (execs l s) m) (regs (execs l s)) (sps (execs l s) USR) (lrs (execs l s) USR)) /\
    (forall x, x < sps s' m \/ sps s' m + 68 <= x -> words s' x = words (execs l s) x).
Proof.
  intros Hc Hp Hm Hu Hr Hsp. destruct (save_spec m (execs l s) Hm Hu Hr Hsp) as (E0 & E1 & E2 & E3 & E4 & E5 & E6).
  exists (execs save (execs l s)). rewrite E0, E2. split; [|split_and!; try done].
  - replace (length l + (5 + fuel))%nat with (length (l ++ save) + fuel)%nat by (rewrite length_app; simpl; lia).
    rewrite run_plain; [|by rewrite forallb_app, Hp|exact Hc]. rewrite length_app. unfold execs. by rewrite foldl_app.
  - unfold save. cbn [execs foldl]. cbn [exec put with_regs with_sp with_words regs]. by rewrite !length_insert.
Qed.

(** What the user's state is in when an exception is taken in the mode [m]: the
    stack of that mode has room for a context. *)
Record interruptible (m next : Z) (s : cpu) : Prop := {
  in_regs : length (regs s) = 13%nat;
  in_stack : 68 <= sps s m < 2 ^ 32;
  in_next : 0 <= next < 2 ^ 32
}.

(** The user goes on in [c'], and the stacks are as before. *)
Definition resumes (c' : ctx_t) (k' : kernel) (s : cpu) (r : outcome (Z * cpu * kernel)) : Prop :=
  exists s', r = Ok (pc c', s', k') /\ user_ctx (pc c') s' = c' /\ (forall m, m <> USR -> sps s' m = sps s m).

Lemma irq_exception base fuel p s k next c' k' :
  compiled call "kernel_handler_irq" (fun _ => kernel_handler_irq) -> mode_of p = IRQ -> interruptible IRQ next s ->
  kernel_handler_irq (user_ctx next s) k = Ok (c', k') -> length (gpr c') = 13%nat ->
  resumes c' k' s (exception (12 + fuel) base 6 p (u32 (next + 4)) s k).
Proof.
  intros Hcall Hp [Hr Hsp Hn] E Hg. set (s0 := enter p (u32 (next + 4)) s).
  destruct (entry_and_save handler_irq [SUB LR LR 4] base (6 + fuel) s0 k IRQ) as (s1 & E1 & E2 & E3 & E4 & E5 & _ & E7 & E8 & _); [|done|exact Hp|done|exact Hr|exact Hsp|].
  { intros j x. by do 6 (destruct j as [|j]; [by intros [= <-]|]). }
  change (sps (execs [SUB LR LR 4] s0)) with (sps s) in *.
  match type of E8 with _ = ctx_words ?c => assert (c = user_ctx next s) as Ec end.
  { unfold s0, user_ctx. cbn -[Z.sub Z.add u32]. unfold mode. cbn -[Z.sub Z.add u32]. rewrite Hp. banks. by rewrite u32_back. }
  rewrite Ec in E8.
  destruct (call_and_restore call "kernel_handler_irq" _ base handler_irq fuel 6 s1 k IRQ (user_ctx next s) c' k' Hcall) as (s' & R1 & R2 & R3 & R4);
    [done|by intros [|[|[|[|[|j]]]]] x [= <-]|done|done|done|rewrite E4; lia|done|exact E8|exact Hr|exact E|exact Hg|].
  exists s'. split; [|split; [exact R2|]].
  - unfold take_exception. cbn [interrupt_vector_table lookup list_lookup]. fold s0. change (12 + fuel)%nat with (length [SUB LR LR 4] + (5 + (6 + fuel)))%nat.
    rewrite E1. exact R1.
  - intros m Hm. destruct (decide (m = IRQ)) as [->|Hne]; [rewrite R3, E4; lia|]. by rewrite R4, E5.
Qed.

Lemma svc_exception base fuel p s k next id place garbage c' k' :
  compiled call "kernel_handler_svc" (fun id => kernel_handler_svc turns depth limit id place garbage) -> mode_of p = SVC -> interruptible SVC next s ->
  0 <= id < 2 ^ 24 -> words s (u32 (next - 4)) = 0xEF000000 + id -> u32 (next - 4) < sps s SVC - 68 \/ sps s SVC <= u32 (next - 4) ->
  kernel_handler_svc turns depth limit id place garbage (user_ctx next s) k = Ok (c', k') -> length (gpr c') = 13%nat ->
  resumes c' k' s (exception (14 + fuel) base 2 p next s k).
Proof.
  intros Hcall Hp [Hr Hsp Hn] Hid Hw Hout E Hg. set (s0 := enter p next s).
  destruct (entry_and_save handler_svc [SUB LR LR 0] base (8 + fuel) s0 k SVC) as (s1 & E1 & E2 & E3 & E4 & E5 & E6 & E7 & E8 & E9); [|done|exact Hp|done|exact Hr|exact Hsp|].
  { intros j x. by do 6 (destruct j as [|j]; [by intros [= <-]|]). }
  change (sps (execs [SUB LR LR 0] s0)) with (sps s) in *.
  match type of E8 with _ = ctx_words ?c => assert (c = user_ctx next s) as Ec end.
  { unfold s0, user_ctx. cbn -[Z.sub Z.add u32]. unfold mode. cbn -[Z.sub Z.add u32]. rewrite Hp. banks. by rewrite Z.sub_0_r, u32_small. }
  rewrite Ec in E8. set (s2 := execs [LDR (R 1) LR (-4); BIC (R 1) (R 1) 0xFF000000] s1).
  assert (Hlr : lrs s1 SVC = next) by (rewrite E6; exact (f_equal pc Ec)).
  assert (Hid2 : get (R 1) s2 = id).
  { destruct (regs s1) as [|r0 [|r1 l]] eqn:Er; [done..|]. unfold s2. cbn -[Z.sub Z.add u32 Z.ldiff]. rewrite Er. cbn -[Z.sub Z.add u32 Z.ldiff].
    rewrite E3, Hlr. replace (next + -4) with (next - 4) by lia. rewrite E9 by (rewrite E4; lia). change (words (execs [SUB LR LR 0] s0)) with (words s).
    rewrite Hw. by apply svc_number. }
  destruct (call_and_restore call "kernel_handler_svc" _ base handler_svc fuel 8 s2 k SVC (user_ctx next s) c' k' Hcall) as (s' & R1 & R2 & R3 & R4);
    [done|by intros [|[|[|[|[|j]]]]] x [= <-]|exact E3|done| |change (sps s2) with (sps s1); rewrite E4; lia| |exact E8|exact Hr|rewrite Hid2; exact E|exact Hg|].
  { unfold s2. cbn [execs foldl]. cbn [exec put with_regs regs]. by rewrite !length_insert. }
  { change (sps s2) with (sps s1). rewrite <- E2. destruct (regs s1) as [|r0 l] eqn:Er; [done|]. unfold s2, get. cbn -[Z.sub Z.add u32 Z.ldiff]. by rewrite Er. }
  change (sps s2) with (sps s1) in *. exists s'. split; [|split; [exact R2|]].
  - unfold take_exception. cbn [interrupt_vector_table lookup list_lookup]. fold s0. change (14 + fuel)%nat with (length [SUB LR LR 0] + (5 + (8 + fuel)))%nat.
    rewrite E1. change (8 + fuel)%nat with (length [LDR (R 1) LR (-4); BIC (R 1) (R 1) 0xFF000000] + (6 + fuel))%nat.
    rewrite run_plain; [exact R1|done|by intros [|[|j]] x [= <-]].
  - intros m Hm. destruct (decide (m = SVC)) as [->|Hne]; [rewrite R3, E4; lia|]. by rewrite R4, E5.
Qed.

(** C13 (refinement): the assembly runs the handlers. An interrupt, or an [svc]
    instruction, in a user whose registers, status and next instruction are the
    context [c] leads through the vector and the code of startup.s to the
    handler of kernel.c with [c], for an [svc] with the number in the
    instruction; and from there to a user in the context the handler leaves,
    every stack of the kernel as it was. *)
Theorem exceptions_run_handlers base fuel p s k next :
  (compiled call "kernel_handler_irq" (fun _ => kernel_handler_irq) -> mode_of p = IRQ -> interruptible IRQ next s ->
   forall c' k', kernel_handler_irq (user_ctx next s) k = Ok (c', k') -> length (gpr c') = 13%nat ->
   resumes c' k' s (exception (12 + fuel) base 6 p (u32 (next + 4)) s k)) /\
  (forall id place garbage,
   compiled call "kernel_handler_svc" (fun id => kernel_handler_svc turns depth limit id place garbage) -> mode_of p = SVC -> interruptible SVC next s ->
   0 <= id < 2 ^ 24 -> words s (u32 (next - 4)) = 0xEF000000 + id -> u32 (next - 4) < sps s SVC - 68 \/ sps s SVC <= u32 (next - 4) ->
   forall c' k', kernel_handler_svc turns depth limit id place garbage (user_ctx next s) k = Ok (c', k') -> length (gpr c') = 13%nat ->
   resumes c' k' s (exception (14 + fuel) base 2 p next s k)).
Proof. split; [|intros id place garbage]; intros; [by apply irq_exception|by eapply svc_exception]. Qed.

(** *** Reset *)
Context (table_start : Z) (n : nat).

(** The routine that startup.s itself has, and the others. *)
Definition boot (fuel : nat) (at_ : Z) (f : string) (st : cpu * kernel) : outcome (cpu * kernel) :=
  if bool_decide (f = "table_copy"%string) then
    '(a, s, k) ← run call fuel at_ (table_copy table_start (table_start + 4 * Z.of_nat n)) 0 st.1 st.2;
    if a =? get LR st.1 then Ok (s, k) else Err Indeterminate
  else call f st.

Lemma boot_copy fuel at_ s k s' :
  run call fuel at_ (table_copy table_start (table_start + 4 * Z.of_nat n)) 0 s k = Ok (get LR s, s', k) ->
  boot fuel at_ "table_copy" (s, k) = Ok (s', k).
Proof. intros E. unfold boot. rewrite bool_decide_true by done. cbn [fst snd]. rewrite E. ok_bind. by rewrite Z.eqb_refl. Qed.

Definition ctx_at (a : Z) (f : Z -> Z) : ctx_t := Ctx (f a) (f (a + 4)) (load_words (a + 8) 13 f) (f (a + 60)) (f (a + 64)).

Lemma ctx_at_words a f : load_words a 17 f = ctx_words (ctx_at a f).
Proof.
  change 17%nat with (2 + (13 + 2))%nat. rewrite !load_words_app. unfold ctx_words, ctx_at. cbn [cpsr pc gpr sp lr]. cbn [load_words app].
  repeat (f_equal; try lia).
Qed.

(** C32 (functional): reset. The vectors are copied to address 0; the handler of
    kernel.c gets the context below the top of the stack for calls; and the
    processor goes on as the user in the context the handler leaves, with the
    stacks of the two modes at the places the linker gives them. *)
Theorem reset_runs_handler base at_ fuel entry_sh root_path s k c' k' :
  compiled call "kernel_handler_rst" (fun _ => kernel_handler_rst turns depth limit entry_sh root_path) ->
  length (regs s) = 13%nat -> (0 < n)%nat -> 4 * Z.of_nat n <= table_start -> table_start + 4 * Z.of_nat n < 2 ^ 32 ->
  4 * Z.of_nat n + 68 <= svc_top < 2 ^ 32 ->
  kernel_handler_rst turns depth limit entry_sh root_path (ctx_at (svc_top - 68) (words s)) k = Ok (c', k') -> length (gpr c') = 13%nat ->
  (exists s1, boot (4 + 4 * n + fuel) at_ "table_copy" (put LR (base + 4) s, k) = Ok (s1, k) /\
     forall i, 0 <= i < Z.of_nat n -> words s1 (4 * i) = words s (table_start + 4 * i)) /\
  exists s', run (boot (4 + 4 * n + fuel) at_) (13 + fuel) base (handler_rst irq_top svc_top) 0 s k = Ok (pc c', s', k') /\
    user_ctx (pc c') s' = c' /\ sps s' IRQ = irq_top /\ sps s' SVC = svc_top.
Proof.
  intros Hcall Hr Hn Hs1 Hs2 Hsvc E Hg. set (s0 := put LR (base + 4) s). set (code := handler_rst irq_top svc_top).
  destruct (table_copy_spec call table_start n Hs1 Hs2 at_ fuel s0 k Hr Hn) as (s1 & E1 & [_ Hr1 _ _] & Hc & Ho).
  pose proof (boot_copy _ _ _ _ _ E1) as Eb. split; [by exists s1|].
  set (mid := [MSR_CPSR 0xD2; MOVI SP irq_top; MSR_CPSR 0xD3; MOVI SP svc_top; SUB SP SP 68; MOV (R 0) SP]). set (s2 := execs mid s1).
  assert (Hw : words s2 = words s1) by done.
  assert (Hsp : sps s2 SVC = svc_top - 68) by (unfold s2; cbn -[Z.sub u32]; banks; by rewrite u32_small by lia).
  assert (Hirq : sps s2 IRQ = irq_top) by (unfold s2; cbn -[Z.sub u32]; by banks).
  assert (Hr2 : length (regs s2) = 13%nat) by (unfold s2, mid; cbn [execs foldl exec put with_regs with_sp with_status_word regs]; by rewrite length_insert, Hr1).
  assert (H0' : get (R 0) s2 = svc_top - 68).
  { change (length (regs s0)) with (length (regs s)) in Hr1. destruct (regs s1) as [|r0 l] eqn:Er; [by rewrite Hr in Hr1|]. unfold s2, get. cbn -[Z.sub u32]. rewrite Er. cbn -[Z.sub u32].
    banks. by rewrite u32_small by lia. }
  destruct (call_and_restore (boot (4 + 4 * n + fuel) at_) "kernel_handler_rst" _ base code fuel 7 s2 k SVC (ctx_at (svc_top - 68) (words s)) c' k' Hcall)
    as (s' & R1 & R2 & R3 & R4); [done|by intros [|[|[|[|[|j]]]]] x [= <-]|done|done|exact Hr2|rewrite Hsp; lia|by rewrite Hsp| |done|exact E|exact Hg|].
  { rewrite Hsp, <- ctx_at_words, Hw. apply load_words_same. intros x Hx. rewrite Ho by lia. done. }
  exists s'. split; [|split; [exact R2|split; [by rewrite R4|rewrite R3, Hsp; lia]]].
  change (13 + fuel)%nat with (S (length mid + (6 + fuel))). rewrite (run_BL _ _ _ _ _ "table_copy") by done.
  change (base + 4 * Z.of_nat 1) with (base + 4). fold s0. rewrite Eb. ok_bind.
  rewrite run_plain; [exact R1|done|by intros [|[|[|[|[|[|j]]]]]] x [= <-]].
Qed.
End Exceptions.

(** ** irq.s *)
Section Enable.
Context {K : Type} (call : string -> cpu * K -> outcome (cpu * K)).

Lemma control_byte a : Z.lor (Z.ldiff a 0xFF) (Z.land a 0xFF) = a.
Proof.
  apply Z.bits_inj'. intros i _. rewrite Z.lor_spec, Z.ldiff_spec, Z.land_spec. destruct (Z.testbit a i), (Z.testbit 0xFF i); done.
Qed.

Lemma control_mode st st' : (forall i, 0 <= i < 5 -> Z.testbit st' i = Z.testbit st i) -> mode_of st' = mode_of st.
Proof.
  intros Hi. unfold mode_of. apply Z.bits_inj'. intros i Hi0. rewrite !Z.land_spec. destruct (decide (i < 5)); [by rewrite Hi by lia|].
  change 0x1F with (Z.ones 5). rewrite Z.ones_spec_high by lia. by rewrite !andb_false_r.
Qed.

(** [irq_enable] clears the mask of interrupts and [irq_unable] sets it. *)
Lemma change_control (f : Z -> Z) (i : instr) fuel base r l s (k : K) :
  regs s = r :: l -> (forall r s, exec i (put (R 0) r s) = put (R 0) (f (get (R 0) (put (R 0) r s))) (put (R 0) r s)) -> plain i = true ->
  (forall a, Z.ldiff (f a) 0xFF = Z.ldiff a 0xFF) -> (forall a j, 0 <= j < 5 -> Z.testbit (f a) j = Z.testbit a j) ->
  exists s', run call (4 + fuel) base [MRS_CPSR (R 0); i; MSR_CPSR_c (R 0); MOV_PC_LR] 0 s k = Ok (get LR s, s', k) /\
    status_word s' = f (status_word s) /\ words s' = words s /\ (forall m, sps s' m = sps s m).
Proof.
  intros Hr Hi Hp Hhigh Hlow. set (s' := execs [MRS_CPSR (R 0); i; MSR_CPSR_c (R 0)] s).
  assert (Est : s' = with_status_word (f (status_word s)) (with_regs (f (status_word s) :: l) s)).
  { unfold s'. cbn [execs foldl]. cbn [exec]. rewrite Hi. unfold put, get. cbn. rewrite Hr. cbn. rewrite <- (Hhigh (status_word s)). by rewrite control_byte. }
  exists s'. split; [|by rewrite Est]. change (4 + fuel)%nat with (length [MRS_CPSR (R 0); i; MSR_CPSR_c (R 0)] + S fuel)%nat.
  rewrite run_plain; [|by cbn; rewrite Hp|by intros [|[|[|j]]] x [= <-]]. fold s'. clearbody s'. subst s'. cbn. unfold mode. cbn.
  rewrite (control_mode _ _ (Hlow (status_word s))). done.
Qed.

Lemma mask_bit i : Z.testbit 0x80 i = Z.testbit 0x80 i && Z.testbit 0xFF i.
Proof. by rewrite <- Z.land_spec. Qed.

Lemma mask_low i : 0 <= i < 5 -> Z.testbit 0x80 i = false.
Proof. intros Hi. change 0x80 with (2 ^ 7). rewrite Z.pow2_bits_eqb by lia. lia. Qed.

Lemma irq_enable_spec fuel base r l s (k : K) :
  regs s = r :: l ->
  exists s', run call (4 + fuel) base irq_enable 0 s k = Ok (get LR s, s', k) /\ status_word s' = Z.ldiff (status_word s) 0x80 /\
    words s' = words s /\ (forall m, sps s' m = sps s m).
Proof.
  intros Hr. apply (change_control (fun a => Z.ldiff a 0x80) (BIC (R 0) (R 0) 0x80) fuel base r l); [done|done|done|intros a|intros a j Hj].
  - apply Z.bits_inj'. intros i _. rewrite !Z.ldiff_spec, mask_bit. by destruct (Z.testbit a i), (Z.testbit 0x80 i), (Z.testbit 0xFF i).
  - rewrite Z.ldiff_spec, mask_low by done. by rewrite andb_true_r.
Qed.

Lemma irq_unable_spec fuel base r l s (k : K) :
  regs s = r :: l ->
  exists s', run call (4 + fuel) base irq_unable 0 s k = Ok (get LR s, s', k) /\ status_word s' = Z.lor (status_word s) 0x80 /\
    words s' = words s /\ (forall m, sps s' m = sps s m).
Proof.
  intros Hr. apply (change_control (fun a => Z.lor a 0x80) (ORR (R 0) (R 0) 0x80) fuel base r l); [done|done|done|intros a|intros a j Hj].
  - apply Z.bits_inj'. intros i _. rewrite !Z.ldiff_spec, Z.lor_spec, mask_bit. by destruct (Z.testbit a i), (Z.testbit 0x80 i), (Z.testbit 0xFF i).
  - rewrite Z.lor_spec, mask_low by done. by rewrite orb_false_r.
Qed.
End Enable.

(** ** The theorems at work

    Handlers that do what their models do. *)
Section Model.
Context {K : Type} (h : string -> Z -> ctx_t -> K -> outcome (ctx_t * K)).

Definition model_call (f : string) (st : cpu * K) : outcome (cpu * K) :=
  let '(s, k) := st in
  let a := get (R 0) s in
  '(c, k) ← h f (get (R 1) s) (ctx_at a (words s)) k;
  Ok (with_words (store_words a (ctx_words c) (words s)) s, k).

Lemma ctx_words_inj c c' : length (gpr c) = length (gpr c') -> ctx_words c = ctx_words c' -> c = c'.
Proof.
  destruct c, c'. unfold ctx_words. cbn. intros Hl [= -> -> E]. apply app_inj_1 in E as [-> [= -> ->]]; [done|exact Hl].
Qed.

Lemma model_compiled f g : (forall id c k, h f id c k = g id c k) -> compiled model_call f g.
Proof.
  intros Hfg s k c c' k' Hr Hw Hg E Hg'. rewrite <- Hfg in E. rewrite ctx_at_words in Hw. apply ctx_words_inj in Hw; [|by rewrite Hg].
  cbn [model_call]. rewrite Hw, E. ok_bind. eexists. split; [done|]. split; [done|]. split; [exact Hr|]. split; [done|].
  cbn [with_words words]. rewrite <- (load_store (ctx_words c') (get (R 0) s) (words s)) at 2. f_equal.
  unfold ctx_words. rewrite !length_app, Hg'. done.
Qed.
End Model.

Definition demo_handlers (f : string) (id : Z) (c : ctx_t) (k : kernel ram_disk board) : outcome (ctx_t * kernel ram_disk board) :=
  if bool_decide (f = "kernel_handler_irq"%string) then kernel_handler_irq c k
  else if bool_decide (f = "kernel_handler_svc"%string) then kernel_handler_svc 1 1 64 id 0 0 c k
  else kernel_handler_rst 1 1 64 32768 100 c k.

Lemma demo_irq_compiled : compiled (model_call demo_handlers) "kernel_handler_irq" (fun _ => kernel_handler_irq).
Proof. apply model_compiled. intros id c k. unfold demo_handlers. by rewrite bool_decide_true. Qed.

Lemma demo_svc_compiled : compiled (model_call demo_handlers) "kernel_handler_svc" (fun id => kernel_handler_svc 1 1 64 id 0 0).
Proof. apply model_compiled. intros id c k. unfold demo_handlers. by rewrite bool_decide_false, bool_decide_true. Qed.

Lemma demo_rst_compiled : compiled (model_call demo_handlers) "kernel_handler_rst" (fun _ => kernel_handler_rst 1 1 64 32768 100).
Proof. apply model_compiled. intros id c k. unfold demo_handlers. by rewrite !bool_decide_false. Qed.

(** A user about to go on at 32768, after an [svc] instruction with the number 20. *)
Definition demo_user : cpu :=
  Cpu (replicate 13 0) (fun m => if m =? USR then 458752 else if m =? IRQ then 0x20000 else 0x10000) (fun _ => 0) (fun _ => 0) 80
    (fun a => if a =? 32764 then 0xEF000014 else 0).

Lemma demo_interruptible m : m = IRQ \/ m = SVC -> interruptible m 32768 demo_user.
Proof. by intros [-> | ->]. Qed.

Lemma exceptions_run_handlers_witness :
  (exists c' k', kernel_handler_irq demo_ctx (with_devices ticking demo_kernel) = Ok (c', k') /\
     resumes c' k' demo_user (take_exception 0x20000 0x10000 (model_call demo_handlers) 12 0 6 0x92 32772 demo_user (with_devices ticking demo_kernel))) /\
  (exists c' k', kernel_handler_svc 1 1 64 20 0 0 demo_ctx demo_kernel = Ok (c', k') /\
     resumes c' k' demo_user (take_exception 0x20000 0x10000 (model_call demo_handlers) 14 0 2 0x93 32768 demo_user demo_kernel)).
Proof.
  split.
  - assert (exists c' k', kernel_handler_irq demo_ctx (with_devices ticking demo_kernel) = Ok (c', k') /\ length (gpr c') = 13%nat) as (c' & k' & E & Hg)
      by (eexists _, _; split; [vm_compute; reflexivity|reflexivity]).
    exists c', k'. split; [exact E|].
    by apply (proj1 (exceptions_run_handlers 1 1 64 (model_call demo_handlers) 0x20000 0x10000 0 0 0x92 demo_user (with_devices ticking demo_kernel) 32768)
      demo_irq_compiled eq_refl (demo_interruptible IRQ (or_introl eq_refl)) c' k' E).
  - assert (exists c' k', kernel_handler_svc 1 1 64 20 0 0 demo_ctx demo_kernel = Ok (c', k') /\ length (gpr c') = 13%nat) as (c' & k' & E & Hg)
      by (eexists _, _; split; [vm_compute; reflexivity|reflexivity]).
    exists c', k'. split; [exact E|].
    apply (proj2 (exceptions_run_handlers 1 1 64 (model_call demo_handlers) 0x20000 0x10000 0 0 0x93 demo_user demo_kernel 32768) 20 0 0
      demo_svc_compiled eq_refl (demo_interruptible SVC (or_intror eq_refl))); [lia|done| |exact E|exact Hg].
    left. by vm_compute.
Defined.

Lemma demo_rst_result : exists c' k',
  kernel_handler_rst 1 1 64 32768 100 (ctx_at (0x10000 - 68) (words demo_user)) demo_boot = Ok (c', k') /\ length (gpr c') = 13%nat.
Proof. eexists _, _; split; [vm_compute; reflexivity|reflexivity]. Qed.

(** Eleven words of vectors and addresses at 0x8000, and the handler of reset. *)
Lemma reset_runs_handler_witness :
  exists c' k', kernel_handler_rst 1 1 64 32768 100 (ctx_at (0x10000 - 68) (words demo_user)) demo_boot = Ok (c', k') /\
  (exists s1, boot (model_call demo_handlers) 0x8000 11 (4 + 4 * 11 + 0) 0x7000 "table_copy" (put LR (0 + 4) demo_user, demo_boot) = Ok (s1, demo_boot) /\
     forall i, 0 <= i < Z.of_nat 11 -> words s1 (4 * i) = words demo_user (0x8000 + 4 * i)) /\
  exists s', run (boot (model_call demo_handlers) 0x8000 11 (4 + 4 * 11 + 0) 0x7000) (13 + 0) 0 (handler_rst 0x20000 0x10000) 0 demo_user demo_boot = Ok (pc c', s', k') /\
    user_ctx (pc c') s' = c' /\ sps s' IRQ = 0x20000 /\ sps s' SVC = 0x10000.
Proof.
  destruct demo_rst_result as (c' & k' & E & Hg).
  exists c', k'. split; [exact E|].
  apply (reset_runs_handler 1 1 64 (model_call demo_handlers) 0x20000 0x10000 0x8000 11 0 0x7000 0 32768 100 demo_user demo_boot c' k'
    demo_rst_compiled); [done|lia|lia|lia|lia|exact E|exact Hg].
Defined.
