(* ===== verification/Commands.v ===== *)
(** * Commands

    What the programs of the shell do to the files of a volume: the whole way
    from the user's command through the supervisor calls, the file system and
    the allocation table to the sectors, and back to the console. *)
From S2P Require Import Prelude Mem Strings Scheduler Uart Devices Disk Fat16 Volume Files Directory Slots Root Paths FileSys Descriptors FileCalls Names Create NamedFiles Kernel Syscalls Process.
From S2P Require Programs.

Section Cat.
Context `{BlockDeviceLaws D} `{Board U} (v : fat16_t) (N : Z) (Hlay : layout v N).
Context (depth limit : nat) (slack : Z) (Hslack : 0 <= slack) (lit : list Z -> Z).
Abbreviation turns := (Z.to_nat 65536).
Abbreviation ustate := (ustate D U).
Abbreviation wp := (wp turns depth limit slack).

(** A string literal in its place. *)
Definition literal (s : ustate) (t : list Z) : Prop := lasting s (lit t) (cstr t []) /\ nonul t /\ (length t < limit)%nat.

(** Nothing but a call of [exit]. *)
Definition no_return : unit -> ustate -> Prop := fun _ _ => False.

Lemma wp_print_literal (Q : unit -> ustate -> Prop) X t (s : ustate) :
  ctx_ok (uctx s) -> literal s t ->
  (forall c, ctx_ok c -> Q tt (UState c (with_console (uconsole s ++ t) (ukernel s)) (uheap s))) -> wp Q X (stdio_print (lit t)) s.
Proof.
  intros Hc ((Ha & Hl & Hb & Hm) & Hn & Hlim) HQ. unfold cstr in Hl. rewrite length_app in Hl. simpl in Hl.
  apply (wp_print _ _ _ _ _ _ _ t); try done; [unfold is_word; lia|unfold own; lia|lia].
Qed.

(** The end of [cat]: the bytes read to [buf] are printed. *)
Lemma cat_prints Q buf t (s : ustate) :
  ctx_ok (uctx s) -> 0 <= buf -> buf + zlength t + 1 < 2 ^ 31 -> holds (umemory s) buf t -> nonul t -> (length t < limit)%nat ->
  lasting s (lit [10]) (cstr [10] []) -> (1 < limit)%nat -> brk (uheap s) = buf + zlength t + 1 -> lit [10] + 2 <= buf ->
  wp Q (fun status s' => status = EXIT_SUCCESS /\ uconsole s' = uconsole s ++ t ++ [10] /\ uheap s' = uheap s /\
      ufiles s' = ufiles s /\ udisk s' = udisk s /\ forall a, 0 <= a < buf -> umemory s' a = umemory s a)
    (_ ← store (u32 (buf + zlength t)) [0]; _ ← stdio_print buf; _ ← Programs.newline lit; stdproc_exit EXIT_SUCCESS) s.
Proof.
  intros Hc Hb0 Hb Hm Hn Hl (Hl0 & Hl1 & Hl2 & Hnl) Hlim Hbrk Hlow. rewrite u32_small by lia. apply wp_bind, wp_store; [unfold own; simpl; lia|]; state.
  assert (Hm2 : holds (poke (umemory s) (buf + zlength t) [0]) buf (cstr t [])) by (apply holds_terminate; [split; lia|done]).
  assert (Hnl2 : holds (poke (umemory s) (buf + zlength t) [0]) (lit [10]) (cstr [10] [])).
  { apply holds_poke_other; [split; cbn; lia|split; cbn; lia|left; cbn; lia|done]. }
  apply wp_bind, (wp_print _ _ _ _ _ _ buf t); [done|unfold is_word; lia|unfold own; state; lia|exact Hm2|done|done|lia|]. intros c1 Hc1; state.
  apply wp_bind, (wp_print _ _ _ _ _ _ (lit [10]) [10]); [done|unfold is_word; lia|unfold own; state; simpl; lia|exact Hnl2|by repeat constructor|simpl; lia|done|].
  intros c2 Hc2; state. apply wp_exit_last. split; [done|]. split; [unfold uconsole; cbn; by rewrite app_assoc|].
  split; [done|]. split; [done|]. split; [done|]. intros a Ha. change (poke (umemory s) (buf + zlength t) [0] a = umemory s a).
  apply poke_below; [split; cbn; lia|lia].
Qed.

(** What the file of a descriptor holds, read from its start. *)
Lemma read_whole n f d i o ns b :
  file_at v N n f d i o ns -> vol v N d -> ns <> [] -> zlength b = file_size_bytes (directory_entry o) ->
  sys_read turns n b (file_size_bytes (directory_entry o)) (update_open i (with_offset 0) f) d =
    Ok (file_size_bytes (directory_entry o), contents v d o ns, update_open i (with_offset (file_size_bytes (directory_entry o))) f, d) /\
  zlength (contents v d o ns) = file_size_bytes (directory_entry o).
Proof.
  intros Hf Hv Hne Hb. pose proof (fa_size _ _ _ _ _ _ _ _ Hf) as Hsize. pose proof (csize_pos v N Hlay).
  pose proof (chain_size v N Hlay d _ _ Hv (fa_chain _ _ _ _ _ _ _ _ Hf)) as Hcs.
  assert (0 < zlength ns) by (destruct ns; [done|simpl; lia]).
  assert (Hl : length (contents v d o ns) = Z.to_nat (file_size_bytes (directory_entry o))) by (apply slice_length; lia).
  split; [|lia].
  pose proof (file_at_moved v N n f d i o ns (with_offset 0) d Hf (fa_chain _ _ _ _ _ _ _ _ Hf) (fun _ => eq_refl) eq_refl) as Hf2.
  etrans; [apply (read_at_spec v N Hlay n _ d i _ ns b (file_size_bytes (directory_entry o)) Hf2 Hv)|];
    cbn [offset with_offset directory_entry]; [nia|lia|lia|lia|].
  rewrite Z.add_0_l, update_offsets. fold (contents v d o ns). rewrite splice_all; [done|lia].
Qed.

(** [cat] on a file that can be opened. *)
Lemma cat_opened argv name p n f d i o ns (s : ustate) :
  ctx_ok (uctx s) -> fds_left s -> heap_ok (uheap s) -> literal s [10] -> argument s argv 0 name p ->
  own_paths limit s name (open_files (ufiles s)) ->
  sys_open turns depth (ustrings limit s) name 0 (ufiles s) (udisk s) = Ok (n, f, d) -> is_int n ->
  file_at v N n f d i o ns -> vol v N d -> ns <> [] -> entry_shape (directory_entry o) ->
  nonul (contents v d o ns) -> (length (contents v d o ns) < limit)%nat ->
  brk (uheap s) + 2 * slack + 21 + file_size_bytes (directory_entry o) <= heap_top (uheap s) ->
  wp no_return (fun status s' => status = EXIT_SUCCESS /\ uconsole s' = uconsole s ++ contents v d o ns ++ [10] /\
    ufiles s' = update_open i (with_offset (file_size_bytes (directory_entry o))) f /\ udisk s' = d /\ keeps s s' /\ heap_ok (uheap s'))
    (Programs.cat lit 1 argv) s.
Proof.
  intros Hc Hleft Hh (Hlit & _ & Hlim) Harg Hpaths Hopen Hn Hf Hv Hne Hshape Hnul Hlen Hroom.
  pose proof (es_size _ Hshape) as Hsize. pose proof (brk_bounds _ Hh) as Hbrk. pose proof Hh as (Hlow & Htop & _).
  destruct (ag_text _ _ _ _ _ Harg) as (Hname & Hname' & _). unfold cstr in Hname'. rewrite length_app in Hname'. simpl in Hname'.
  unfold Programs.cat. apply wp_bind. cbn [Z.eqb Pos.eqb Programs.when].
  apply wp_bind, (wp_arg _ _ _ _ _ _ _ _ name p); [done|].
  apply wp_bind, (wp_open _ _ _ _ _ _ _ _ _ n f d); [done|done|eapply lasting_string, Harg|done|unfold is_word; lia|done|done|done|]. intros c1 Hc1; state.
  destruct (lseek_set n 0 f i o (fa_open _ _ _ _ _ _ _ _ Hf) (fa_find _ _ _ _ _ _ _ _ Hf)) as (El & Ho2 & Hfind2).
  apply wp_bind, (wp_lseek _ _ _ _ _ _ _ _ _ _ 0 (update_open i (with_offset 0) f)); [exact Hc1|done..|exact El|]. intros c2 Hc2; state.
  apply wp_bind, wp_allocate; [done|done|done|unfold Programs.sizeof_dir_entry; state; lia|]. state. intros p1 h1 Hp1 Hh1 Hb1 El1 Et1.
  unfold Programs.sizeof_dir_entry in Hb1.
  apply wp_bind, (wp_fstat _ _ _ _ _ _ _ _ _ 0 (directory_entry o)); [done|done|unfold is_word; lia|unfold own; state; lia|done| |].
  { unfold sys_fstat, ufiles; cbn [ukernel with_uheap file_system with_files]. by rewrite Hfind2, Ho2. }
  intros c3 Hc3; state. set (e := directory_entry o) in *. set (m1 := poke _ p1 (entry_bytes e)).
  assert (Hm1 : holds m1 p1 (entry_bytes e)) by (apply holds_poke; rewrite entry_bytes_length by done; lia).
  destruct (entry_fields m1 p1 e Hshape) as [Hattr Hsz]; [split; lia|done|].
  apply wp_bind. cbn [negb Z.eqb Programs.when]. apply wp_mret.
  apply wp_bind, (wp_char_at _ _ _ _ _ _ _ (attributes e)); [unfold own; state; rewrite u32_small; lia|exact Hattr|].
  pose proof (fa_regular _ _ _ _ _ _ _ _ Hf) as Hreg. fold e in Hreg. apply wp_bind. rewrite Hreg. apply wp_mret.
  apply wp_bind, (wp_load32 _ _ _ _ _ _ _ (file_size_bytes e)); [unfold is_word; lia|unfold own; state; rewrite u32_small; lia|exact Hsz|]. rewrite (u32_small (file_size_bytes e + 1)) by lia.
  apply wp_bind, wp_allocate; [done|done|lia|state; lia|]. state. intros p2 h2 Hp2 Hh2 Hb2 El2 Et2.
  apply wp_bind, (wp_load32 _ _ _ _ _ _ _ (file_size_bytes e)); [unfold is_word; lia|unfold own; state; rewrite u32_small; lia|exact Hsz|].
  destruct (read_whole n f d i o ns (peek m1 p2 (file_size_bytes e)) Hf Hv Hne) as [Er Hl]; [rewrite peek_length by lia; done|].
  fold e in Er, Hl.
  apply wp_bind, (wp_read _ _ _ _ _ _ _ _ _ _ (file_size_bytes e) (contents v d o ns) (update_open i (with_offset (file_size_bytes e)) f) d);
    [exact Hc3|done|pose proof (fa_number _ _ _ _ _ _ _ _ Hf); unfold STDIN_FILEDESC; lia|unfold is_word; lia|unfold is_word; lia|unfold own; state; lia|unfold is_int; lia|exact Er|].
  intros c4 Hc4; state. rewrite <- Hl at 1.
  set (m2 := poke m1 p2 (contents v d o ns)). destruct Hlit as (Hl0 & Hl1 & Hl2 & Hlm).
  unfold cstr in Hl1; simpl in Hl1.
  assert (Hold : forall a, 0 <= a < brk (uheap s) -> m2 a = umemory s a).
  { intros a Ha. unfold m2, m1. rewrite !poke_below; [done|..]; rewrite ?entry_bytes_length by done; (lia || (split; lia)). }
  pose proof (brk_bounds _ Hh2).
  eapply (wp_mono _ _ _ _ no_return); [apply (cat_prints no_return p2 (contents v d o ns)); try done; try lia|by intros ? ? []|].
  - apply holds_poke. lia.
  - split; [done|]. split; [cbn; lia|]. split; [cbn; lia|]. intros j x Hj. pose proof (lookup_lt_Some _ _ _ Hj) as Hjl. simpl in Hjl.
    change (m2 (u32 (lit [10] + Z.of_nat j)) = x). rewrite Hold by (rewrite u32_small; lia). by apply Hlm.
  - cbn. lia.
  - cbn. intros st s' (-> & Hcon & Hheap & Hfl & Hdk & Hmem). split; [done|]. split; [done|]. split; [done|]. split; [done|].
    rewrite Hheap. split; [|exact Hh2]. split; rewrite ?Hheap; cbn; try lia. intros a Ha. rewrite Hmem by lia. by apply Hold.
Qed.
End Cat.

Section Named.
Context `{BlockDeviceLaws D} `{Board U} (v : fat16_t) (N : Z) (Hroot : root_layout v N).
Context (depth limit : nat) (slack : Z) (Hslack : 0 <= slack) (lit : list Z -> Z).
Context (nm ex : list Z) (Hg : good_name nm ex) (H3 : zlength ex = 3) (H229 : byte nm 0 <> 229).
Abbreviation turns := (Z.to_nat 65536).
Abbreviation ustate := (ustate D U).
Abbreviation wp := (wp turns (S depth) limit slack).
Abbreviation literal := (literal limit lit).
Abbreviation Hlay := (rl_lay _ _ Hroot).

(** The path of the file, below the root. *)
Definition file_path : list Z := SLASH :: nm ++ DOT :: ex.

(** What [write] puts in a file. *)
Definition words_text (ws : list (list Z)) : list Z := ws ≫= (fun w => w ++ [32]).

Lemma words_text_snoc ws w : words_text (ws ++ [w]) = words_text ws ++ w ++ [32].
Proof. unfold words_text. rewrite bind_app. cbn. by rewrite app_nil_r. Qed.

(** The arguments after the first. *)
Definition word_arguments (s : ustate) (argv : Z) (ws : list (list Z)) : Prop :=
  forall k w, ws !! k = Some w -> is_bytes w /\ (length w < limit)%nat /\ exists p, argument s argv (Z.of_nat k + 1) p w.

(** Two writes in a row at the start of a text. *)
Lemma splice_more b s1 s2 : splice (splice b 0 s1) (zlength s1) s2 = splice b 0 (s1 ++ s2).
Proof.
  unfold splice. change (Z.to_nat 0) with 0%nat. rewrite !take_0. cbn [app]. rewrite Nat2Z.id, take_app_length.
  rewrite drop_app_ge by lia. rewrite drop_drop, length_app, <- app_assoc. do 3 f_equal. lia.
Qed.

(** The state while [write] works: [t] is in the file, and nothing else of the
    process has changed. *)
Record writing (s s' : ustate) (n : Z) (f0 : files) (d0 : D) (i : nat) (o0 : open_file_t) (ns : list Z) (t : list Z) : Prop := {
  wg_ctx : ctx_ok (uctx s');
  wg_heap : uheap s' = uheap s;
  wg_memory : umemory s' = umemory s;
  wg_console : uconsole s' = uconsole s;
  wg_file : exists o, ufiles s' = update_open i (fun _ => o) f0 /\
    named_open v N (ustrings limit s) nm ex [] n (ufiles s') (udisk s') i o ns /\ path o = path o0 /\ fd o = fd o0 /\
    filename (directory_entry o) = filename (directory_entry o0) /\ extension (directory_entry o) = extension (directory_entry o0) /\
    offset o = zlength t /\ zlength t <= file_size_bytes (directory_entry o) /\
    contents v (udisk s') o ns = splice (contents v d0 o0 ns) 0 t;
  wg_others : forall first ms, chain v N d0 first ms -> (forall m, m ∈ ms -> m ∉ ns) ->
    chain v N (udisk s') first ms /\ chain_bytes v (udisk s') ms = chain_bytes v d0 ms
}.

Lemma update_const i o o' f : update_open i (fun _ => o') (update_open i (fun _ => o) f) = update_open i (fun _ => o') f.
Proof.
  unfold update_open, with_open_files; cbn. f_equal. revert i. induction (open_files f) as [|x l IH]; intros [|i]; cbn; [done..|]. by f_equal.
Qed.

Lemma own_string_same (s s' : ustate) a : uheap s' = uheap s -> umemory s' = umemory s -> own_string s a -> own_string s' a.
Proof. unfold own_string, own. by intros -> ->. Qed.

(** One call of [write] in the loop. *)
Lemma wp_write_more (Q : Z -> ustate -> Prop) X s s' n f0 d0 i o0 ns t p w :
  writing s s' n f0 d0 i o0 ns t -> is_int n -> is_word p -> own s p (zlength w) -> own_string s (path o0) -> holds (umemory s) p w -> is_bytes w ->
  zlength (t ++ w) < cluster_size v * zlength ns -> zlength (t ++ w) < 2 ^ 31 ->
  (forall s'', writing s s'' n f0 d0 i o0 ns (t ++ w) -> Q (zlength w) s'') -> wp Q X (_write n p (zlength w)) s'.
Proof.
  intros [Hc Hh Hm Hcon (o & Ef & Hno & Hpath & Hfd & Hfn & Hfe & Hoff & Hsz & Hcont) Hoth] Hn Hp Ho Ho0 Hw Hby Hfit Hint HQ. rewrite length_app, Nat2Z.inj_add in Hfit, Hint.
  destruct (write_named v N Hroot depth (ustrings limit s) nm ex [] Hg H3 H229 n (ufiles s') (udisk s') i o ns w (zlength w) (uconsole s') Hno)
    as (o' & d' & E & Hwr & Hno' & Hoth' & Hcont'); try done; try lia.
  destruct Hwr as (k & Eo & Hk).
  assert (Em : ustrings limit s' = ustrings limit s) by (unfold ustrings, strings; by rewrite (Hm : user (ukernel s') = user (ukernel s))).
  apply (wp_write _ _ _ _ _ _ _ _ _ _ (zlength w) (uconsole s') (update_open i (fun _ => o') (ufiles s')) d'); try done;
    [unfold is_word; lia|unfold own; by rewrite Hh|right|unfold is_word; lia| |].
  { intros j x Hj Hx. pose proof (no_at _ _ _ _ _ _ _ _ _ _ _ _ Hno) as Hat. rewrite (fa_find _ _ _ _ _ _ _ _ Hat) in Hj. injection Hj as <-.
    rewrite (fa_open _ _ _ _ _ _ _ _ Hat) in Hx. injection Hx as <-. rewrite Hpath. by apply (own_string_same s). }
  { rewrite i32_small by lia. rewrite Em, peek_holds by by rewrite Hm. exact E. }
  intros c Hc'. apply HQ. split; try done.
  - exists o'. split; [cbn; by rewrite Ef, update_const|]. split; [exact Hno'|]. rewrite Eo; cbn.
    split; [done|]. split; [done|]. split; [done|]. split; [done|]. rewrite length_app. split; [lia|]. split; [lia|].
    cbn. rewrite <- Eo, Hcont', Hcont, Hoff. rewrite slice_0 by lia. apply splice_more.
  - intros first ms Hms Hd. destruct (Hoth first ms Hms Hd) as [Hc1 Hb1]. destruct (Hoth' first ms Hc1 Hd) as [Hc2 Hb2].
    split; [exact Hc2|]. cbn. by rewrite Hb2.
Qed.

Lemma argument_writing s s' n f0 d0 i o0 ns t argv k p w :
  writing s s' n f0 d0 i o0 ns t -> argument s argv k p w -> argument s' argv k p w.
Proof.
  intros Hw [H1' H2' H3']. unfold lasting in *. by split; unfold lasting; rewrite ?(wg_heap _ _ _ _ _ _ _ _ _ Hw), ?(wg_memory _ _ _ _ _ _ _ _ _ Hw).
Qed.

Lemma argument_word (s : ustate) argv k p w : argument s argv k p w -> is_word p /\ zlength w < 2 ^ 31 /\ own s p (zlength w) /\ holds (umemory s) p w.
Proof.
  intros [_ (Hp & Hl & Hb & Hm) _]. unfold cstr in *. rewrite length_app in Hl. simpl in Hl. unfold is_word, own.
  split; [lia|]. split; [lia|]. split; [lia|]. by destruct (holds_app _ _ _ _ Hm).
Qed.

(** A turn of the loop over the words. *)
Lemma write_word_spec (Q : unit -> ustate -> Prop) X s s' n f0 d0 i o0 ns argv pre k p w :
  writing s s' n f0 d0 i o0 ns (words_text pre) -> is_int n -> literal s [32] -> argument s argv k p w -> own_string s (path o0) -> is_bytes w -> (length w < limit)%nat ->
  zlength (words_text (pre ++ [w])) < cluster_size v * zlength ns -> zlength (words_text (pre ++ [w])) < 2 ^ 31 ->
  (forall s'', writing s s'' n f0 d0 i o0 ns (words_text (pre ++ [w])) -> Q tt s'') ->
  wp Q X (Programs.write_word lit n argv k) s'.
Proof.
  intros Hw Hn (Hsp & _ & Hlim) Harg Ho0 Hby Hl Hfit Hint HQ. rewrite words_text_snoc in *.
  destruct (argument_word s argv k p w Harg) as (Hp & Hlw & Ho & Hm). pose proof (argument_writing _ _ _ _ _ _ _ _ _ _ _ _ _ Hw Harg) as Harg'.
  unfold Programs.write_word. apply wp_bind, (wp_arg _ _ _ _ _ _ _ _ p w); [done|].
  apply wp_bind, (wp_text_of _ _ _ _ _ _ _ w); [apply Harg'|apply Harg'|done|].
  apply wp_bind, (wp_lift _ _ _ _ _ _ _ (zlength w)); [apply stdstring_length_spec; [apply Harg'|done]|].
  apply wp_bind, (wp_arg _ _ _ _ _ _ _ _ p w); [done|].
  rewrite !length_app, !Nat2Z.inj_add in Hfit, Hint. change (zlength [32]) with 1 in *.
  apply wp_bind, (wp_write_more _ _ _ _ _ _ _ _ _ _ _ _ _ Hw); [done|done|done|done|done|done|rewrite length_app; lia|rewrite length_app; lia|]. intros s1 Hw1.
  destruct Hsp as (Ha & Hsl & Hsb & Hsm). unfold cstr in Hsl; simpl in Hsl.
  apply wp_bind, (wp_write_more _ _ _ _ _ _ _ _ _ _ _ (lit [32]) [32] Hw1); [done|unfold is_word; lia|unfold own; simpl; lia|done|by destruct (holds_app _ _ [32] [0] Hsm)|by repeat constructor|
    rewrite !length_app; simpl; lia|rewrite !length_app; simpl; lia|].
  intros s2 Hw2. rewrite !i32_small, !Z.eqb_refl by (simpl; lia). apply wp_mret. apply HQ. by rewrite app_assoc.
Qed.

(** The loop over the words. *)
Lemma write_words_spec (Q : unit -> ustate -> Prop) X s s' n f0 d0 i o0 ns argv ws :
  is_int n -> literal s [32] -> word_arguments s argv ws -> own_string s (path o0) ->
  zlength (words_text ws) < cluster_size v * zlength ns -> zlength (words_text ws) < 2 ^ 31 ->
  writing s s' n f0 d0 i o0 ns [] -> (forall s'', writing s s'' n f0 d0 i o0 ns (words_text ws) -> Q tt s'') ->
  wp Q X (Programs.write_words lit n (zlength ws + 1) argv) s'.
Proof.
  intros Hn Hlit Hargs Ho0 Hfit Hint Hw HQ. unfold Programs.write_words. rewrite Z.add_simpl_r, Nat2Z.id.
  assert (Hloop : forall rest pre s', ws = pre ++ rest -> writing s s' n f0 d0 i o0 ns (words_text pre) ->
    wp Q X (Programs.count_code (length rest) (zlength pre + 1) (Programs.write_word lit n argv)) s'); [|by apply (Hloop ws [])].
  clear s' Hw. intros rest. induction rest as [|w rest IH]; intros pre s' E Hw; cbn [Programs.count_code length].
  - apply wp_mret, HQ. by rewrite E, app_nil_r.
  - destruct (Hargs (length pre) w) as (Hby & Hl & p & Harg); [rewrite E; by apply list_lookup_middle|].
    assert (E' : ws = (pre ++ [w]) ++ rest) by by rewrite <- app_assoc.
    assert (Hle : zlength (words_text (pre ++ [w])) <= zlength (words_text ws)).
    { rewrite E'. unfold words_text. rewrite (bind_app _ (pre ++ [w])), (length_app (_ ≫= _)). lia. }
    apply wp_bind, (write_word_spec _ _ s s' n f0 d0 i o0 ns argv pre _ p w); try done; [lia|lia|]. intros s1 Hw1.
    replace (zlength pre + 1 + 1) with (zlength (pre ++ [w]) + 1) by (rewrite length_app; simpl; lia). by apply IH.
Qed.

(** [write] on a file that can be opened, when the text fits in its clusters. *)
Lemma write_opened argv name p ws n f d i o ns (s : ustate) :
  ctx_ok (uctx s) -> fds_left s -> literal s [32] -> argument s argv 0 name p -> word_arguments s argv ws -> ws <> [] ->
  own_paths limit s name (open_files (ufiles s)) -> own_string s (path o) ->
  sys_open turns (S depth) (ustrings limit s) name 0 (ufiles s) (udisk s) = Ok (n, f, d) -> is_int n ->
  named_open v N (ustrings limit s) nm ex [] n f d i o ns ->
  zlength (words_text ws) < cluster_size v * zlength ns -> zlength (words_text ws) < 2 ^ 31 ->
  wp no_return (fun status s' => status = EXIT_SUCCESS /\ writing s s' n f d i o ns (words_text ws))
    (Programs.write lit (zlength ws + 1) argv) s.
Proof.
  intros Hc Hleft Hlit Harg Hargs Hws Hpaths Ho0 Hopen Hn Hno Hfit Hint. pose proof Hno as [Hat Hp He Hl Hsane Ha].
  destruct (argument_word s argv 0 name p Harg) as (Hw & _ & _). pose proof (fa_number _ _ _ _ _ _ _ _ Hat).
  assert (0 < zlength ws) by (destruct ws; [done|simpl; lia]).
  unfold Programs.write. apply wp_bind. destruct (Z.gtb_spec (zlength ws + 1) 1); [|lia]. cbn [Programs.when].
  apply wp_bind, (wp_arg _ _ _ _ _ _ _ _ name p); [done|].
  apply wp_bind, (wp_open _ _ _ _ _ _ _ _ _ n f d); [done|done|eapply lasting_string, Harg|done|done|done|done|done|]. intros c1 Hc1; state.
  destruct (lseek_set n 0 f i o (fa_open _ _ _ _ _ _ _ _ Hat) (fa_find _ _ _ _ _ _ _ _ Hat)) as (El & Ho2 & Hfind2).
  apply wp_bind, (wp_lseek _ _ _ _ _ _ _ _ _ _ 0 (update_open i (with_offset 0) f)); [exact Hc1|done..|exact El|]. intros c2 Hc2; state.
  apply wp_bind. destruct (Z.ltb_spec n 0); [lia|]. apply wp_mret.
  apply wp_bind, (write_words_spec _ _ s _ n f d i o ns argv ws); try done.
  - split; try done. exists (with_offset 0 o). split_and!; try done.
    + cbn. by rewrite (update_open_const i (with_offset 0) o) by apply Hat.
    + split; try done. by apply (file_at_moved v N n f d i o ns (with_offset 0)); [|apply Hat|..].
    + apply (fa_size _ _ _ _ _ _ _ _ Hat).
  - intros s'' Hw''. by apply wp_exit_last.
Qed.
End Named.
