(* ===== verification/Session.v ===== *)
(** * A session

    What a user sees of a file: it is there, under its name, with its bytes,
    whichever program opens it and however often, and the commands [touch],
    [write] and [cat] make it, change it and print it. *)
From S2P Require Import Prelude Mem Strings Scheduler Uart Devices Disk Fat16 Volume Files Directory Slots Root Paths FileSys Descriptors FileCalls Names Create NamedFiles Kernel Machine Syscalls Process Commands.
From S2P Require Programs.

(** ** Finding an open file by its path *)
Lemma find_open_at mem p t l : forall i o,
  nonul t -> mem p = cstr t [] -> l !! i = Some o -> mem (path o) = cstr t [] ->
  Forall (fun o' => exists t', mem (path o') = cstr t' [] /\ nonul t' /\ t' <> t) (take i l) -> find_open_file mem p l = Ok (Some i).
Proof.
  induction l as [|o' l IH]; intros i o Ht Hp Hi Ho Hb; [done|]. cbn [find_open_file]. destruct i as [|i]; cbn in Hi, Hb.
  - injection Hi as ->. rewrite Ho, Hp, compare_lex by done. ok_bind. by rewrite (proj2 (lex_eq t t)).
  - apply Forall_cons in Hb as [(t' & Ht' & Hn & Hne) Hb]. rewrite Ht', Hp, compare_lex by done. ok_bind.
    destruct (Z.eqb_spec (lex t' t) 0) as [E|_]; [by apply lex_eq in E|]. by rewrite (IH i o).
Qed.

Lemma find_open_none mem p t l :
  nonul t -> mem p = cstr t [] -> Forall (fun o' => exists t', mem (path o') = cstr t' [] /\ nonul t' /\ t' <> t) l -> find_open_file mem p l = Ok None.
Proof.
  intros Ht Hp. induction 1 as [|o' l (t' & Ht' & Hn & Hne) _ IH]; [done|]. cbn [find_open_file]. rewrite Ht', Hp, compare_lex by done. ok_bind.
  destruct (Z.eqb_spec (lex t' t) 0) as [E|_]; [by apply lex_eq in E|]. by rewrite IH.
Qed.

Lemma update_fixed i o f g : open_files f !! i = Some o -> g o = o -> update_open i g f = f.
Proof.
  intros Hi Hg. destruct f as [v n l c si so se]. unfold update_open, with_open_files; cbn in *. f_equal. apply list_eq. intros j.
  destruct (decide (i = j)) as [<-|Hne]; [|by rewrite list_lookup_alter_ne]. rewrite list_lookup_alter_eq, Hi. cbn. by rewrite Hg.
Qed.

Lemma find_fd_next f o : fds_ok f -> fd o = next_fd f -> find_open_file_by_fd (next_fd f) (open_files f ++ [o]) = Some (length (open_files f)).
Proof.
  intros [Hnd Hr _] E. rewrite <- E. apply find_fd_lookup; [|by apply list_lookup_middle].
  rewrite fmap_app. apply NoDup_app. split; [done|]. split; [|apply NoDup_singleton]. intros n Hn ->%list_elem_of_singleton. apply Hr in Hn. lia.
Qed.

Section Session.
Context `{BlockDeviceLaws D} `{Board U} (v : fat16_t) (N : Z) (Hroot : root_layout v N).
Context (depth limit : nat) (slack : Z) (Hslack : 0 <= slack) (lit : list Z -> Z).
Context (nm ex : list Z) (Hg : good_name nm ex) (H3 : zlength ex = 3) (H229 : byte nm 0 <> 229).
Context (Hlimit : (12 < limit)%nat).
Abbreviation turns := (Z.to_nat 65536).
Abbreviation ustate := (ustate D U).
Abbreviation wp := (wp turns (S depth) limit slack).
Abbreviation literal := (literal limit lit).
Abbreviation file_path := (file_path nm ex).
Abbreviation Hlay := (rl_lay _ _ Hroot).

Lemma file_path_nonul : nonul file_path.
Proof.
  constructor; [done|]. apply Forall_app. split; [by apply plain_nonul, Hg|]. constructor; [done|]. by apply plain_nonul, Hg.
Qed.

Lemma file_path_length : (length file_path < limit)%nat.
Proof. clear Hslack H229. destruct Hg as [_ _ Hl _ _]. unfold Commands.file_path. simpl. rewrite length_app. simpl. lia. Qed.

(** The path of another open file. *)
Definition other_path (s : ustate) (o : open_file_t) : Prop :=
  exists t, lasting s (path o) (cstr t []) /\ nonul t /\ (length t < limit)%nat /\ t <> file_path.

Lemma other_path_string s o : other_path s o -> exists t', ustrings limit s (path o) = cstr t' [] /\ nonul t' /\ t' <> file_path.
Proof. intros (t & Hl & Hn & Hlen & Hne). exists t. split; [by apply string_at|done]. Qed.

(** A later state, when another program starts: the kernel's view of files is
    what the last program left, and memory below the old end of the heap too. *)
Record resumes (s s' : ustate) : Prop := {
  rs_ctx : ctx_ok (uctx s');
  rs_heap : heap_ok (uheap s');
  rs_files : ufiles s' = ufiles s;
  rs_disk : udisk s' = udisk s;
  rs_left : fds_left s';
  rs_keeps : keeps s s'
}.

(** An open file with its path and its entry in memory and on the disk. *)
Record file_in (s : ustate) (n : Z) (i : nat) (o : open_file_t) (ns : list Z) : Prop := {
  fi_named : named_open v N (ustrings limit s) nm ex [] n (ufiles s) (udisk s) i o ns;
  fi_int : is_int n;
  fi_path : lasting s (path o) (cstr file_path []);
  fi_before : Forall (other_path s) (take i (open_files (ufiles s)));
  fi_shape : entry_shape (directory_entry o);
  fi_chain : ns <> []
}.

(** The file is there, in the clusters [ns], and holds [b]. *)
Definition file_holds (s : ustate) (ns b : list Z) : Prop :=
  exists n i o, file_in s n i o ns /\ contents v (udisk s) o ns = b.

(** The files in other clusters are in [s'] what they are in [s]. *)
Definition others_kept (ns : list Z) (s s' : ustate) : Prop :=
  forall first ms, chain v N (udisk s) first ms -> (forall m, m ∈ ms -> m ∉ ns) ->
    chain v N (udisk s') first ms /\ chain_bytes v (udisk s') ms = chain_bytes v (udisk s) ms.

Lemma file_strings s n i o ns p :
  file_in s n i o ns -> lasting s p (cstr file_path []) -> find_open_file (ustrings limit s) p (open_files (ufiles s)) = Ok (Some i).
Proof.
  intros Hf Hp. pose proof file_path_nonul. pose proof file_path_length.
  apply (find_open_at _ _ file_path _ _ o); try done; [by apply string_at|apply (fi_named _ _ _ _ _ Hf)|apply string_at; [apply (fi_path _ _ _ _ _ Hf)|done|done]|].
  eapply Forall_impl; [apply (fi_before _ _ _ _ _ Hf)|]. intros o'. apply other_path_string.
Qed.

Lemma others_lasting s l : Forall (other_path s) l -> Forall (lasting_path s) l.
Proof. apply known_paths. Qed.

Lemma file_paths s n i o ns p : file_in s n i o ns -> lasting s p (cstr file_path []) -> own_paths limit s p (open_files (ufiles s)).
Proof.
  intros Hf Hp. pose proof file_path_nonul. pose proof file_path_length.
  apply (own_paths_at limit s p _ i o file_path); try done; [apply (fi_named _ _ _ _ _ Hf)|apply (fi_path _ _ _ _ _ Hf)|by apply string_at|].
  apply others_lasting, (fi_before _ _ _ _ _ Hf).
Qed.

(** Opening it again finds it. *)
Lemma reopen s n i o ns p :
  file_in s n i o ns -> lasting s p (cstr file_path []) ->
  sys_open turns (S depth) (ustrings limit s) p 0 (ufiles s) (udisk s) = Ok (n, ufiles s, udisk s).
Proof.
  intros Hf Hp. unfold sys_open. rewrite (file_strings s n i o ns p) by done. ok_bind. change (negb (Z.land 0 O_APPEND =? 0)) with false.
  pose proof (fi_named _ _ _ _ _ Hf) as Hno. pose proof (fa_open _ _ _ _ _ _ _ _ (no_at _ _ _ _ _ _ _ _ _ _ _ _ Hno)) as Ho.
  rewrite (update_fixed i o) by (done || by rewrite <- (no_append _ _ _ _ _ _ _ _ _ _ _ _ Hno); destruct o). rewrite Ho. cbn [deref_opt]. ok_bind.
  destruct (find_fd_Some n _ i (fa_find _ _ _ _ _ _ _ _ (no_at _ _ _ _ _ _ _ _ _ _ _ _ Hno))) as (o' & Ho' & <-). congruence.
Qed.

(** What is there stays there. *)
Lemma lasting_after (s s' : ustate) a l : keeps s s' -> heap_ok (uheap s') -> lasting s a l -> lasting s' a l.
Proof. intros Hk Hh. apply lasting_keeps; [done|]. by apply brk_bounds. Qed.

Lemma other_path_after (s s' : ustate) o o' : keeps s s' -> heap_ok (uheap s') -> path o' = path o -> other_path s o -> other_path s' o'.
Proof. intros Hk Hh E (t & Hl & Ht). exists t. rewrite E. split; [by eapply lasting_after|done]. Qed.

(** The file is there after a step that changes its entry of the table and
    nothing else there, and keeps memory. *)
Lemma file_in_after s s' n i o o' ns :
  file_in s n i o ns -> keeps s s' -> heap_ok (uheap s') -> (forall j, j <> i -> open_files (ufiles s') !! j = open_files (ufiles s) !! j) ->
  named_open v N (ustrings limit s') nm ex [] n (ufiles s') (udisk s') i o' ns -> path o' = path o -> entry_shape (directory_entry o') ->
  file_in s' n i o' ns.
Proof.
  intros [Hno Hi Hp Hb Hs Hns] Hk Hh Hj Hno' Ep Hs'. split; try done.
  - rewrite Ep. by eapply lasting_after.
  - apply Forall_forall. intros o1 (j & Ho1)%list_elem_of_lookup. apply lookup_take_Some in Ho1 as [Ho1 Hji].
    rewrite Hj in Ho1 by lia. rewrite Forall_lookup in Hb. eapply other_path_after; [done|done|done|]. apply (Hb j). by apply lookup_take_Some.
Qed.

Lemma named_open_strings (s s' : ustate) n f d i o ns :
  ustrings limit s' (path o) = ustrings limit s (path o) -> named_open v N (ustrings limit s) nm ex [] n f d i o ns ->
  named_open v N (ustrings limit s') nm ex [] n f d i o ns.
Proof. intros E []. split; try done. by rewrite E. Qed.

Lemma file_path_strings s n i o ns s' :
  file_in s n i o ns -> keeps s s' -> heap_ok (uheap s') -> ustrings limit s' (path o) = ustrings limit s (path o).
Proof.
  intros Hf Hk Hh. pose proof file_path_nonul. pose proof file_path_length. pose proof (fi_path _ _ _ _ _ Hf) as Hp.
  rewrite !(string_at limit _ (path o) file_path) by (done || by eapply lasting_after). done.
Qed.

Lemma file_holds_resumes s s' ns b : file_holds s ns b -> resumes s s' -> file_holds s' ns b.
Proof.
  intros (n & i & o & Hf & Eb) [_ Hh Ef Ed _ Hk]. exists n, i, o. split; [|by rewrite Ed].
  eapply file_in_after; [exact Hf|done|done|by rewrite Ef|rewrite Ef, Ed|done|apply (fi_shape _ _ _ _ _ Hf)].
  eapply named_open_strings; [by eapply file_path_strings|apply (fi_named _ _ _ _ _ Hf)].
Qed.

(** A command that ends well. *)
Definition command (t : code unit) (s : ustate) (Q : ustate -> Prop) : Prop :=
  wp no_return (fun status s' => status = EXIT_SUCCESS /\ Q s') t s.

Lemma file_contents_length s n i o ns :
  file_in s n i o ns -> zlength (contents v (udisk s) o ns) = file_size_bytes (directory_entry o).
Proof.
  intros Hf. pose proof (fi_named _ _ _ _ _ Hf) as [Hat _ _ Hl _ _]. pose proof (fa_size _ _ _ _ _ _ _ _ Hat) as Hs.
  pose proof (chain_size v N Hlay (udisk s) _ _ (lf_vol _ _ _ _ _ _ Hl) (fa_chain _ _ _ _ _ _ _ _ Hat)) as Hc.
  unfold contents. rewrite slice_length; lia.
Qed.

(** [cat] prints the file. *)
Lemma cat_command_spec argv name ns b s :
  file_holds s ns b -> ctx_ok (uctx s) -> fds_left s -> heap_ok (uheap s) -> literal s [10] -> argument s argv 0 name file_path ->
  nonul b -> (length b < limit)%nat -> brk (uheap s) + 2 * slack + 21 + zlength b <= heap_top (uheap s) ->
  command (Programs.cat lit 1 argv) s (fun s' => uconsole s' = uconsole s ++ b ++ [10] /\
    keeps s s' /\ heap_ok (uheap s') /\ udisk s' = udisk s /\ file_holds s' ns b).
Proof.
  intros (n & i & o & Hf & Eb) Hc Hleft Hh Hlit Harg Hnul Hlen Hroom. pose proof (file_contents_length s n i o ns Hf) as Hl. rewrite Eb in Hl.
  pose proof (fi_named _ _ _ _ _ Hf) as Hno. pose proof Hno as [Hat _ _ Hls _ _]. pose proof (fi_shape _ _ _ _ _ Hf) as Hshape.
  eapply wp_mono; [eapply (cat_opened v N Hlay (S depth) limit slack Hslack lit argv name file_path n (ufiles s) (udisk s) i o ns s)|done|];
    try done; try apply Hf; try (rewrite Eb; done).
  - apply (file_paths s n i o ns); [done|apply Harg].
  - apply (reopen s n i o ns); [done|apply Harg].
  - lia.
  - intros st s' (-> & Hcon & Efl & Ed & Hk & Hh'). rewrite Eb in Hcon. split; [done|]. split; [done|]. split; [done|]. split; [done|]. split; [done|].
    set (k := file_size_bytes (directory_entry o)) in *. pose proof (fa_size _ _ _ _ _ _ _ _ Hat).
    exists n, i, (with_offset k o). split; [|by rewrite Ed]. eapply file_in_after; [exact Hf|done|done| | |done|done].
    + intros j Hj. rewrite Efl. cbn. by rewrite list_lookup_alter_ne.
    + rewrite Efl, Ed. apply (named_open_strings s); [by apply (file_path_strings s n i o ns)|]. destruct Hno as [_ Hp He Hl' Hsane Ha]. split; try done.
      by apply (file_at_moved v N n (ufiles s) (udisk s) i o ns (with_offset k)); [|apply Hat|..].
Qed.

(** [write] overwrites the start of the file. *)
Lemma write_command_spec argv name ns b ws s :
  file_holds s ns b -> ctx_ok (uctx s) -> fds_left s -> heap_ok (uheap s) -> literal s [32] -> argument s argv 0 name file_path ->
  word_arguments limit s argv ws -> ws <> [] -> zlength (words_text ws) < cluster_size v * zlength ns -> zlength (words_text ws) < 2 ^ 31 ->
  command (Programs.write lit (zlength ws + 1) argv) s (fun s' =>
    uconsole s' = uconsole s /\ keeps s s' /\ heap_ok (uheap s') /\ others_kept ns s s' /\ file_holds s' ns (splice b 0 (words_text ws))).
Proof.
  intros (n & i & o & Hf & Eb) Hc Hleft Hh Hlit Harg Hargs Hws Hfit Hint. pose proof (fi_named _ _ _ _ _ Hf) as Hno.
  eapply wp_mono; [eapply (write_opened v N Hroot depth limit slack lit nm ex Hg H3 H229 argv name file_path ws n (ufiles s) (udisk s) i o ns s)|done|];
    try done; try apply Hf.
  - apply (file_paths s n i o ns); [done|apply Harg].
  - eapply lasting_string, (fi_path _ _ _ _ _ Hf).
  - apply (reopen s n i o ns); [done|apply Harg].
  - intros st s' (-> & [_ Hheap Hmem Hcon (o' & Efl & Hno' & Ep & _ & Efn & Efe & _ & _ & Hcont) Hoth]). rewrite Eb in Hcont.
    assert (Hk : keeps s s') by (split; rewrite ?Hheap; (done || lia || by intros; rewrite Hmem)).
    split; [done|]. split; [done|]. split; [done|]. split; [by rewrite Hheap|]. split; [exact Hoth|]. exists n, i, o'. split; [|done].
    eapply file_in_after; [exact Hf|done|by rewrite Hheap| | |done|].
    + intros j Hj. rewrite Efl. cbn. by rewrite list_lookup_alter_ne.
    + apply (named_open_strings s); [by rewrite Ep; apply (file_path_strings s n i o ns); [..|rewrite Hheap]|exact Hno'].
    + destruct (fi_shape _ _ _ _ _ Hf) as [S1 S2 _]. pose proof (no_at _ _ _ _ _ _ _ _ _ _ _ _ Hno') as Hat'.
      split; rewrite ?Efn, ?Efe; [done|done|]. split; [apply (fa_size _ _ _ _ _ _ _ _ Hat')|apply (fa_int _ _ _ _ _ _ _ _ Hat')].
Qed.

(** A volume with room for a file that is not there yet. *)
Record can_create (s : ustate) : Prop := {
  cc_volume : fs (ufiles s) = v;
  cc_vol : vol v N (udisk s);
  cc_sane : table_sane v N (udisk s);
  cc_fds : fds_ok (ufiles s);
  cc_next : next_fd (ufiles s) + 1 < 2 ^ 31;
  cc_others : Forall (other_path s) (open_files (ufiles s));
  cc_cluster : exists m, in_table v m /\ fat v (udisk s) m = 0;
  cc_slot : exists pre x post, root_slots v (udisk s) = pre ++ x :: post /\ all_taken pre /\ slot_free x = true;
  cc_absent : Forall (fun entry => called nm ex entry = false) (entries_of (root_slots v (udisk s)))
}.

Lemma listed_shape c : entry_shape (listed_entry nm ex 0 c).
Proof.
  pose proof (new_entry_storable nm ex Hg 0 0 ltac:(done) ltac:(lia)) as [[Hf He] _ _ _ _ _ _]. cbn in Hf, He.
  split; cbn; [| |lia]; rewrite length_app, length_fmap; simpl; rewrite slice_length; lia.
Qed.

(** [open] with [O_CREAT] puts the file there, empty. *)
Lemma create_file_in s p :
  can_create s -> lasting s p (cstr file_path []) ->
  exists f' d', sys_open turns (S depth) (ustrings limit s) p O_CREAT (ufiles s) (udisk s) = Ok (next_fd (ufiles s), f', d') /\
    exists c, fat v (udisk s) c = 0 /\ in_table v c /\
    (forall s', keeps s s' -> heap_ok (uheap s') -> ufiles s' = f' -> udisk s' = d' -> file_holds s' [c] [] /\ others_kept [] s s').
Proof.
  intros [Hfs Hv Hsane Hfds Hnext Hoth Hfree (pre & x & post & Hsl & Hpre & Hx) Habs] Hp. pose proof file_path_nonul. pose proof file_path_length.
  assert (Hmem : ustrings limit s p = cstr file_path []) by by apply string_at.
  destruct (open_creates v N Hroot depth (ustrings limit s) nm ex [] O_CREAT (ufiles s) (udisk s) pre x post p)
    as (c & d1 & d' & E & Hc & Hc0 & Hchain & Hu & Hsame & Hf & Hsl' & Hx32); try done.
  { apply (find_open_none _ _ file_path); [done|done|]. eapply Forall_impl; [exact Hoth|]. apply other_path_string. }
  destruct (Hsane c Hc Hc0) as [Hval Huse]. pose proof (proj1 (in_use_range c) Huse) as Hcr.
  exists (opened (listed_entry nm ex 0 c) p false (ufiles s)), d'. split; [exact E|]. exists c. split; [done|]. split; [done|].
  intros s' Hk Hh Ef Ed. split; [|intros first ms Hms _; rewrite Ed; by apply (chains_after_creation v N Hroot (udisk s) d1 d' c)]. set (o := OpenFile (next_fd (ufiles s)) (listed_entry nm ex 0 c) p 0 false).
  exists (next_fd (ufiles s)), (length (open_files (ufiles s))), o. split; [|done].
  pose proof (only_root_same v N Hroot _ _ Hv Hu) as Hdata. destruct (fds_next _ Hfds) as [Hn3 _].
  assert (Hp' : lasting s' p (cstr file_path [])) by by eapply lasting_after.
  rewrite Hsl, entries_app in Habs by by apply taken_no_end. apply Forall_app in Habs as [Habs _].
  split; rewrite ?Ef, ?Ed; [|unfold is_int; lia|done| |apply listed_shape|done].
  - split; [|apply string_at; done|apply listed_named; (done || lia)|eapply created_listed; (done || apply Hsame || lia)| |done].
    + constructor; cbn; try done; try lia.
      * by apply find_fd_next.
      * by apply list_lookup_middle.
      * pose proof (csize_pos v N Hlay). lia.
    + intros m Hm Hm0. destruct (decide (m = c)) as [->|Hne]; [congruence|]. apply Hsane; [done|].
      rewrite <- (proj1 Hdata) by done. rewrite <- (sb_fat _ _ _ _ _ _ Hsame m) by set_solver. done.
  - cbn. rewrite take_app_length. eapply Forall_impl; [exact Hoth|]. intros o' Ho'. by eapply other_path_after.
Qed.

(** [touch] makes an empty file, in a cluster that was free. *)
Lemma touch_command_spec argv name s :
  can_create s -> ctx_ok (uctx s) -> heap_ok (uheap s) -> argument s argv 0 name file_path ->
  command (Programs.touch lit 1 argv) s (fun s' => uconsole s' = uconsole s /\ keeps s s' /\ heap_ok (uheap s') /\
    exists c, fat v (udisk s) c = 0 /\ in_table v c /\ others_kept [] s s' /\ file_holds s' [c] []).
Proof.
  intros Hcc Hc Hh Harg. pose proof (fds_next _ (cc_fds _ Hcc)) as Hn. pose proof (cc_next _ Hcc).
  destruct (create_file_in s name Hcc (ag_text _ _ _ _ _ Harg)) as (f' & d' & E & c & Hc0 & Hct & Hholds).
  destruct (argument_word nm s argv 0 name file_path Harg) as (Hw & _ & _).
  unfold Programs.touch. apply wp_bind. cbn [Z.eqb Pos.eqb Programs.when].
  apply wp_bind, (wp_arg _ _ _ _ _ _ _ _ name file_path); [done|].
  apply wp_bind, (wp_open _ _ _ _ _ _ _ _ _ (next_fd (ufiles s)) f' d'); [done|exact (cc_next _ Hcc)|eapply lasting_string, Harg|apply own_paths_all, others_lasting, Hcc|done|done|unfold is_int; lia|done|]. intros c1 Hc1; state.
  apply wp_bind. destruct (Z.ltb_spec (next_fd (ufiles s)) 0); [lia|]. apply wp_mret. apply wp_exit_last. split; [done|].
  set (s' := UState _ _ _). assert (Hk : keeps s s') by (split; (done || cbn; lia)). destruct (Hholds s') as [H1' H2']; try done. by eauto 10.
Qed.

(** [s'] starts a program after [s], with [args] in [argv]. *)
Definition started (s s' : ustate) (argv : Z) (args : list (list Z)) : Prop :=
  resumes s s' /\ forall k w, args !! k = Some w -> is_bytes w /\ (length w < limit)%nat /\ exists p, argument s' argv (Z.of_nat k) p w.

Lemma started_first s s' argv w args : started s s' argv (w :: args) -> exists p, argument s' argv 0 p w.
Proof. intros [_ Ha]. destruct (Ha 0%nat w eq_refl) as (_ & _ & Hp). exact Hp. Qed.

Lemma started_words s s' argv w args : started s s' argv (w :: args) -> word_arguments limit s' argv args.
Proof.
  intros [_ Ha] k w' Hk. destruct (Ha (S k) w' Hk) as (Hb & Hl & p & Hp). split; [done|]. split; [done|]. exists p.
  by replace (Z.of_nat k + 1) with (Z.of_nat (S k)) by lia.
Qed.

Lemma literal_after (s s' : ustate) t : keeps s s' -> heap_ok (uheap s') -> literal s t -> literal s' t.
Proof. intros Hk Hh [Hl Ht]. split; [by eapply lasting_after|done]. Qed.

Lemma words_nonul s s' argv ws w0 : started s s' argv (w0 :: ws) -> nonul (words_text ws).
Proof.
  intros Hst. pose proof (started_words _ _ _ _ _ Hst) as Hw. unfold words_text. apply Forall_bind, Forall_lookup. intros k w Hk.
  destruct (Hw k w Hk) as (_ & _ & p & Hp). apply Forall_app. split; [apply Hp|by repeat constructor].
Qed.

(** [write] and then [cat]. The words, each followed by a
    space, are the start of what [cat] prints; what the file held beyond them
    is still there; every other file keeps its clusters and its bytes. *)
Lemma write_then_cat argv s0 s ns b ws :
  started s0 s argv (file_path :: ws) -> file_holds s0 ns b -> ws <> [] ->
  literal s0 [32] -> literal s0 [10] -> nonul b ->
  zlength (words_text ws) < cluster_size v * zlength ns -> zlength (words_text ws) < 2 ^ 31 ->
  command (Programs.write lit (zlength ws + 1) argv) s (fun s1 =>
    forall s2 argv2, started s1 s2 argv2 [file_path] ->
      let b' := splice b 0 (words_text ws) in
      (length b' < limit)%nat -> brk (uheap s2) + 2 * slack + 21 + zlength b' <= heap_top (uheap s2) ->
      command (Programs.cat lit 1 argv2) s2 (fun s3 =>
        uconsole s3 = uconsole s2 ++ b' ++ [10] /\ others_kept ns s0 s3)).
Proof.
  intros Hst Hholds Hws H32 H10 Hb Hfit Hint. pose proof Hst as [Hr _]. destruct (started_first _ _ _ _ _ Hst) as (p & Harg).
  pose proof (words_nonul _ _ _ _ _ Hst) as Hwn.
  eapply wp_mono; [apply (write_command_spec argv p ns b ws s)|done|]; try apply Hr; try done.
  - by eapply file_holds_resumes.
  - eapply literal_after; [apply Hr..|done].
  - by eapply started_words.
  - intros st s1 (-> & Hcon & Hk & Hh & Hoth & Hholds1). split; [done|]. intros s2 argv2 Hst2. cbv zeta. intros Hlen Hroom.
    pose proof Hst2 as [Hr2 _]. destruct (started_first _ _ _ _ _ Hst2) as (p2 & Harg2).
    eapply wp_mono; [apply (cat_command_spec argv2 p2 ns (splice b 0 (words_text ws)) s2)|done|]; try apply Hr2; try done.
    + by eapply file_holds_resumes.
    + eapply literal_after; [apply Hr2..|]. eapply literal_after; [exact Hk|done|]. eapply literal_after; [apply Hr..|done].
    + apply Forall_app. split; [by apply Forall_take|]. apply Forall_app. split; [done|by apply Forall_drop].
    + intros st s3 (-> & Hcon3 & _ & _ & Hd3 & _). split; [done|]. split; [done|]. intros first ms. rewrite Hd3, (rs_disk _ _ Hr2).
      rewrite <- (rs_disk _ _ Hr). apply Hoth.
Qed.

(** A whole session. In a volume with room, [touch] of a new
    name, [write] of some words to it and [cat] of it, started one after the
    other, all end well; [cat] prints the words, each followed by a space, and
    a new line, and every file that was there keeps its clusters and its
    bytes. *)
Lemma touch_write_cat argv s0 s :
  started s0 s argv [file_path] -> can_create s -> literal s [32] -> literal s [10] ->
  command (Programs.touch lit 1 argv) s (fun s1 =>
    forall s2 argv2 ws, started s1 s2 argv2 (file_path :: ws) -> ws <> [] ->
      zlength (words_text ws) < cluster_size v -> zlength (words_text ws) < 2 ^ 31 -> (length (words_text ws) < limit)%nat ->
      command (Programs.write lit (zlength ws + 1) argv2) s2 (fun s3 =>
        forall s4 argv4, started s3 s4 argv4 [file_path] ->
          brk (uheap s4) + 2 * slack + 21 + zlength (words_text ws) <= heap_top (uheap s4) ->
          command (Programs.cat lit 1 argv4) s4 (fun s5 =>
            uconsole s5 = uconsole s4 ++ words_text ws ++ [10] /\
            forall first ms, chain v N (udisk s) first ms ->
              chain v N (udisk s5) first ms /\ chain_bytes v (udisk s5) ms = chain_bytes v (udisk s) ms))).
Proof.
  intros Hst Hcc H32 H10. pose proof Hst as [Hr _]. destruct (started_first _ _ _ _ _ Hst) as (p & Harg).
  eapply wp_mono; [apply (touch_command_spec argv p s); (done || apply Hr)|done|].
  intros st s1 (-> & _ & Hk & Hh & c & Hc0 & Hct & Hoth & Hholds). split; [done|]. intros s2 argv2 ws Hst2 Hws Hfit Hint Hlen.
  pose proof Hst2 as [Hr2 _]. destruct (started_first _ _ _ _ _ Hst2) as (p2 & Harg2). pose proof (words_nonul _ _ _ _ _ Hst2) as Hwn.
  eapply wp_mono; [apply (write_command_spec argv2 p2 [c] [] ws s2)|done|]; try apply Hr2; try done.
  { by eapply file_holds_resumes. }
  { eapply literal_after; [apply Hr2..|]. by eapply literal_after. }
  { by eapply started_words. }
  { simpl. lia. }
  intros st s3 (-> & _ & Hk3 & Hh3 & Hoth3 & Hholds3). split; [done|]. intros s4 argv4 Hst4 Hroom.
  pose proof Hst4 as [Hr4 _]. destruct (started_first _ _ _ _ _ Hst4) as (p4 & Harg4).
  assert (splice [] 0 (words_text ws) = words_text ws) as Es by (unfold splice; by rewrite take_nil, drop_nil, app_nil_r). rewrite Es in Hholds3.
  eapply wp_mono; [apply (cat_command_spec argv4 p4 [c] (words_text ws) s4)|done|]; try apply Hr4; try done.
  { by eapply file_holds_resumes. }
  { eapply literal_after; [apply Hr4..|]. eapply literal_after; [exact Hk3|done|]. eapply literal_after; [apply Hr2..|]. by eapply literal_after. }
  intros st s5 (-> & Hcon5 & _ & _ & Hd5 & _). split; [done|]. split; [done|]. intros first ms Hms.
  destruct (Hoth first ms Hms) as [Hc1 Hb1]; [set_solver|]. rewrite Hd5, (rs_disk _ _ Hr4), <- Hb1, <- (rs_disk _ _ Hr2). rewrite <- (rs_disk _ _ Hr2) in Hc1.
  apply Hoth3; [done|]. intros m Hm ->%list_elem_of_singleton. by apply (chain_not_free v N Hlay (udisk s) first ms c Hms).
Qed.
End Session.

(** ** The theorems at work: the volume of [Root], with 128 KiB of heap *)
Definition demo_lit (t : list Z) : Z := if bool_decide (t = [32]) then 4096 else 4104.
Definition demo_words : list (list Z) := [bytes_of "good"; bytes_of "night"].
Fixpoint demo_bytes (l : list (Z * list Z)) (a : Z) : Z :=
  match l with
  | [] => 0
  | (p, b) :: l => if (p <=? a) && (a <? p + zlength b) then byte b (a - p) else demo_bytes l a
  end.
Definition demo_memory (file : string) : Z -> Z :=
  demo_bytes [(4096, [32; 0]); (4104, [10; 0]); (4112, word_bytes 4160 ++ word_bytes 4192 ++ word_bytes 4200);
    (4160, bytes_of file ++ [0]); (4192, bytes_of "good" ++ [0]); (4200, bytes_of "night" ++ [0])].
Definition demo_state (f : files) (m : Z -> Z) : ustate ram_disk board :=
  UState demo_ctx (with_user m (with_files f Root.demo_dir Machine.demo_kernel)) (Heap 65536 32768 196608).

Lemma demo_lasts f m a l : 0 <= a -> a + zlength l <= 65536 -> peek m a (zlength l) = l -> lasting (demo_state f m) a l.
Proof. intros Ha Hl Hm. split; [done|]. split; [done|]. split; [done|]. by apply holds_peek. Qed.

Lemma demo_resumes f m : next_fd f + 1 < 2 ^ 31 -> resumes (demo_state f m) (demo_state f m).
Proof. intros Hf. split; try done. apply heap_ok_Heap; lia. Qed.

Lemma demo_argument f m i p t :
  0 <= i < 16 -> 0 <= p < 65000 -> zlength t < 500 -> nonul t -> peek m (4112 + 4 * i) 4 = word_bytes p -> peek m p (zlength (cstr t [])) = cstr t [] ->
  argument (demo_state f m) 4112 i p t.
Proof.
  intros Hi Hp Ht Hn Hm Hs. split; [|apply demo_lasts; [lia| |done]|done].
  - apply demo_lasts; [lia|cbn; lia|done].
  - unfold cstr. rewrite length_app. simpl. lia.
Qed.

Lemma demo_literal f m t :
  t = [32] \/ t = [10] -> peek m (demo_lit t) (zlength (cstr t [])) = cstr t [] -> literal 2000 demo_lit (demo_state f m) t.
Proof. intros Ht Hm. split; [by apply demo_lasts; destruct Ht as [-> | ->]|]. destruct Ht as [-> | ->]; (split; [by repeat constructor|simpl; lia]). Qed.

Lemma demo_todo : good_name (bytes_of "TODO") (bytes_of "TXT").
Proof. constructor; [repeat constructor; done|repeat constructor; done|simpl; lia|simpl; lia|done]. Qed.

Lemma demo_can_create m :
  can_create demo_fs 8 2000 (bytes_of "TODO") (bytes_of "TXT") (demo_state Create.demo_files m).
Proof.
  constructor; try done.
  - exact demo_dir_ok.
  - exact demo_dir_sane.
  - constructor; unfold fds; cbn; [constructor|set_solver|lia].
  - exists 4. split; [unfold in_table; simpl; lia|by vm_compute].
  - exists [demo_slot "README  " "TXT"; demo_slot "NOTES   " "TXT"], (replicate 32 0), (replicate 13 (replicate 32 0)).
    split; [apply (bool_decide_unpack _); by vm_compute|]. split; [repeat constructor|done].
  - apply (bool_decide_unpack _). by vm_compute.
Qed.

Definition demo_readme_entry : fat16_dir_entry_t := decode (demo_slot "README  " "TXT") 0.
Definition demo_readme : files := Files demo_fs 4 [OpenFile 3 demo_readme_entry 4160 0 false] (replicate 100 0) [] [] [].

Lemma demo_good_readme : good_name (bytes_of "README") (bytes_of "TXT").
Proof. constructor; [repeat constructor; done|repeat constructor; done|simpl; lia|simpl; lia|done]. Qed.

Lemma demo_readme_chain : chain demo_fs 8 demo_dir 2 [2; 3].
Proof. apply (chain_by_value _ 2 3); [by vm_compute|lia|]. apply (chain_by_value _ 3 65535); [by vm_compute|lia|by constructor]. Qed.

Lemma demo_listed : listed_file demo_fs 8 (bytes_of "README") (bytes_of "TXT") demo_dir demo_readme_entry.
Proof.
  split; [exact demo_dir_ok|]. exists [], (demo_slot "README  " "TXT"), (demo_slot "NOTES   " "TXT" :: replicate 14 (replicate 32 0)).
  split; [apply (bool_decide_unpack _); by vm_compute|]. split; [constructor|]. split; [done|]. split; [constructor|]. by split; vm_compute.
Qed.

Lemma demo_named : named_entry (bytes_of "README") (bytes_of "TXT") demo_readme_entry.
Proof.
  split; [|by vm_compute|].
  - constructor; [split; vm_compute; discriminate|apply (bool_decide_unpack _); by vm_compute|apply (bool_decide_unpack _); by vm_compute|done..].
  - split; apply (bool_decide_unpack _); by vm_compute.
Qed.

Lemma demo_holds :
  file_holds demo_fs 8 2000 (bytes_of "README") (bytes_of "TXT") (demo_state demo_readme (demo_memory "/README.TXT")) [2; 3]
    (replicate 512 2 ++ replicate 512 3).
Proof.
  exists 3, 0%nat, (OpenFile 3 demo_readme_entry 4160 0 false). split; [|by vm_compute].
  split; [|done|apply demo_lasts; [cbn; lia|cbn; lia|by vm_compute]|constructor| |done].
  - split; [|by vm_compute|exact demo_named|exact demo_listed|exact demo_dir_sane|done].
    constructor; [done|lia|done|done|by vm_compute|exact demo_readme_chain|vm_compute; split; discriminate|done].
  - split; [vm_compute; discriminate|vm_compute; discriminate|vm_compute; split; [discriminate|done]].
Qed.

Lemma write_then_cat_witness :
  let s := demo_state demo_readme (demo_memory "/README.TXT") in
  let b := splice (replicate 512 2 ++ replicate 512 3) 0 (words_text demo_words) in
  command 0 2000 0 (Programs.write demo_lit 3 4112) s (fun s1 =>
    forall s2 argv2, started 2000 s1 s2 argv2 [file_path (bytes_of "README") (bytes_of "TXT")] ->
      (length b < 2000)%nat -> brk (uheap s2) + 2 * 0 + 21 + zlength b <= heap_top (uheap s2) ->
      command 0 2000 0 (Programs.cat demo_lit 1 argv2) s2 (fun s3 =>
        uconsole s3 = uconsole s2 ++ b ++ [10] /\ others_kept demo_fs 8 [2; 3] s s3)).
Proof.
  intros s b. apply (write_then_cat demo_fs 8 demo_root_layout 0 2000 0 ltac:(lia) demo_lit (bytes_of "README") (bytes_of "TXT") demo_good_readme eq_refl
    ltac:(done) ltac:(lia) 4112 s s [2; 3] (replicate 512 2 ++ replicate 512 3) demo_words).
  - split; [by apply demo_resumes|]. intros [|[|[|k]]] w Hk; [..|done]; injection Hk as <-;
      (split; [by repeat constructor|split; [cbn; lia|]]); [exists 4160|exists 4192|exists 4200];
      (apply demo_argument; [lia|lia|cbn; lia|by repeat constructor|by vm_compute|by vm_compute]).
  - exact demo_holds.
  - done.
  - apply demo_literal; [by left|by vm_compute].
  - apply demo_literal; [by right|by vm_compute].
  - apply Forall_app. split; by apply Forall_replicate.
  - vm_compute. done.
  - vm_compute. done.
Defined.
