(* ===== verification/Removal.v ===== *)
(** * Removing a file

    [rm], from the command down to the slot of the directory, and what [cat]
    makes of a file that is not there. *)
From S2P Require Import Prelude Mem Strings Scheduler Uart Devices Disk Fat16 Volume Files Directory Slots Root Paths FileSys Descriptors FileCalls Names Create NamedFiles Kernel Machine Syscalls Process Commands Session.
From S2P Require Programs.

(** ** Unlinking *)

Lemma filter_none nm ex (l : list fat16_dir_entry_t) :
  filter (fun entry => Is_true (called nm ex entry)) l = [] <-> Forall (fun entry => called nm ex entry = false) l.
Proof.
  induction l as [|e l IH]; [done|]. rewrite filter_cons, Forall_cons. destruct (called nm ex e) eqn:E; cbn.
  - split; [done|]. by intros [? _].
  - rewrite IH. tauto.
Qed.

Section Unlink.
Context `{BlockDeviceLaws D} (v : fat16_t) (N : Z) (Hroot : root_layout v N).
Context (depth : nat) (mem : Z -> list Z) (nm ex t : list Z).
Context (Hg : good_name nm ex) (H3 : zlength ex = 3) (H229 : byte nm 0 <> 229).
Abbreviation turns := (Z.to_nat 65536).
Abbreviation root_slots := (root_slots v).

(** The slot of a file, in bytes. *)
Lemma named_slot_bytes e s :
  named_entry nm ex e -> slot_matches (filename e) (extension e) s = true -> byte s 8 <> 32 /\ byte s 9 <> 32 /\ byte s 10 <> 32.
Proof.
  intros He [_ Ht]%andb_true_iff. destruct (named_texts nm ex e He) as (x & y & _ & Ey). rewrite Ey in Ht.
  pose proof (plain_nospace _ (gn_ext _ _ Hg)) as Hsp. destruct ex as [|a [|b [|c [|]]]]; try (simpl in H3; lia).
  unfold ext_test in Ht. rewrite !andb_true_iff, !Z.eqb_eq in Ht. destruct Ht as (E8 & E9 & E10). rewrite E8, E9, E10.
  apply Forall_cons in Hsp as [Ha [Hb [Hc _]%Forall_cons]%Forall_cons]. by repeat split.
Qed.

(** The file is the one entry of its name. *)
Definition alone (d : D) : Prop :=
  exists x, filter (fun entry => Is_true (called nm ex entry)) (entries_of (root_slots d)) = [x].

Lemma alone_split d e pre s post :
  alone d -> root_slots d = pre ++ s :: post -> no_end pre -> byte s 0 = byte nm 0 -> called nm ex (decode s 0) = true -> e = decode s 0 ->
  entries_of (root_slots d) = entries_of pre ++ e :: entries_of post /\
  Forall (fun entry => called nm ex entry = false) (entries_of pre ++ entries_of post).
Proof.
  intros (x & Hx) E Hpre Hs Hc ->. destruct (byte_nm nm ex Hg) as [Hn0 _].
  assert (El : entries_of (root_slots d) = entries_of pre ++ decode s 0 :: entries_of post) by (rewrite E, entries_app, entries_cons by (done || congruence); done).
  split; [done|]. rewrite El, filter_app, filter_cons_True in Hx by by rewrite Hc.
  apply (filter_none nm ex). rewrite filter_app. destruct (filter _ (entries_of pre)) as [|y l]; [|by destruct l].
  cbn [app] in Hx |- *. by injection Hx as _ ->.
Qed.

(** A listed entry of the name. *)
Lemma decode_named s : is_bytes s -> zlength s = 32 -> called nm ex (decode s 0) = true -> named_entry nm ex (decode s 0).
Proof.
  intros Hb Hs Hc. pose proof (decode_fields s Hb Hs) as (Hok & Hn & He & Ha).
  assert (Ht : terminated (decode s 0)) by (split; unfold decode; cbn; apply elem_of_app; right; set_solver).
  assert (Hby : forall i, 0 <= i < 32 -> 0 <= byte s i < 256) by (intros i _; by apply byte_bytes).
  pose proof (Hby 26). pose proof (Hby 27). pose proof (Hby 28). pose proof (Hby 29). pose proof (Hby 30). pose proof (Hby 31).
  split; [|done|done]. constructor; try done; [unfold decode; cbn [first_cluster]; change (0 + 26) with 26; change (0 + 27) with 27; lia|
    unfold decode; cbn [file_size_bytes]; change (0 + 28) with 28; change (0 + 29) with 29; change (0 + 30) with 30; change (0 + 31) with 31; lia|].
  destruct (byte_nm nm ex Hg) as [_ Hn5]. destruct Ht as [(x & Ex & _)%cstr_text _]. apply bool_decide_eq_true in Hc as [En _].
  rewrite Ex, En. unfold cstr. rewrite byte_app_l by (pose proof (gn_length _ _ Hg); lia). done.
Qed.

Lemma decode_filename s : zlength s = 32 -> zlength (filename (decode s 0)) = 9.
Proof.
  clear. intros Hs. unfold decode. cbn [filename]. rewrite length_app. pose proof (slice_length s 0 8).
  destruct (byte s 0 =? 5); rewrite ?length_insert, length_fmap; cbn [length]; lia.
Qed.

(** No slot before the file's matches its names. *)
Lemma before_unmatched x pre :
  named_entry nm ex x -> no_end pre -> Forall (fun s => zlength s = 32) pre ->
  Forall (fun entry => called nm ex entry = false) (entries_of pre) ->
  Forall (fun s' => slot_matches (filename x) (extension x) s' = false) pre.
Proof.
  intros Hx Hpre H32 Hno. apply Forall_forall. intros s Hs. destruct (slot_matches _ _ s) eqn:Em; [|done]. exfalso.
  apply list_elem_of_split in Hs as (l1 & l2 & ->). apply Forall_app in Hpre as [Hp1 [Hp _]%Forall_cons]. apply Forall_app in H32 as [_ [Hs _]%Forall_cons].
  pose proof (matched_called nm ex Hg H3 H229 x s Hx Hs Em) as Hc.
  assert (H229s : byte s 0 <> 229).
  { intros E. apply andb_true_iff in Em as [Em _]. cbn [name_test] in Em. rewrite (named_byte nm ex Hg x Hx), E in Em.
    destruct (byte_nm nm ex Hg) as [Hn0 _]. rewrite (proj2 (Z.eqb_neq (byte nm 0) 0)), andb_false_r in Em by done. apply andb_true_iff in Em as [Em%Z.eqb_eq _]. done. }
  rewrite entries_app, entries_cons in Hno by done. apply Forall_app in Hno as [_ [Hno _]%Forall_cons]. congruence.
Qed.

(** The update of the directory that unlinking does. *)
Lemma delete_slot d e pre s post :
  vol v N d -> root_slots d = pre ++ s :: post -> no_end pre -> byte s 0 = byte nm 0 -> named_entry nm ex e ->
  slot_matches (filename e) (extension e) s = true -> called nm ex (decode s 0) = true ->
  Forall (fun entry => called nm ex entry = false) (entries_of pre) ->
  let x := decode s 0 in
  exists d', update_root_directory_entry turns v (deleted x) (filename x) (extension x) d = Ok (0, d') /\ vol v N d' /\ same_data v N d d' /\
    entries_of (root_slots d') = entries_of pre ++ entries_of post.
Proof.
  intros Hv E Hpre Hs0 He Hm Hc Hno x.
  assert (Hsok : forall s', s' ∈ pre ++ s :: post -> is_bytes s' /\ zlength s' = 32) by (intros s' Hs'; apply (root_slots_ok v N Hroot d); [done|by rewrite E]).
  destruct (Hsok s ltac:(set_solver)) as [Hb H32]. pose proof (decode_named s Hb H32 Hc) as Hx. fold x in Hx.
  destruct (named_slot_bytes e s He Hm) as (B8 & B9 & B10). destruct (byte_nm nm ex Hg) as [Hn0 Hn5].
  pose proof (storable_fields x (ne_storable _ _ _ Hx)) as ([L8 L3] & B1 & B2 & B3).
  assert (Hdel : field_bytes (deleted x)).
  { split; [split; [unfold deleted; cbn [filename]; by rewrite length_insert|done]|]. split; [by apply Forall_insert|done]. }
  assert (Hbefore : Forall (fun s' => slot_matches (filename x) (extension x) s' = false) pre).
  { apply before_unmatched; [done|done| |done]. apply Forall_forall. intros s' Hs'. apply Hsok. set_solver. }
  pose proof (root_size_eq v N Hroot) as (_ & Hrs & _).
  destruct (update_root_directory_entry_spec v N Hroot d (deleted x) (filename x) (extension x) pre s post turns Hv)
    as (d' & E' & Hv' & Hsl & Hdata); try done; [by apply listed_matches; (done || congruence)|lia|].
  exists d'. split; [done|]. split; [done|]. split; [done|]. rewrite Hsl. assert (byte (filename (deleted x)) 0 = 229) as ->.
  { unfold deleted, byte. cbn [filename]. rewrite list_lookup_insert_eq; [done|lia]. }
  rewrite entries_app, listed_deleted; [done|done|apply Hdel|done].
Qed.

Lemma unlink_named d f p e :
  fs f = v -> mem p = cstr (SLASH :: nm ++ DOT :: ex) t -> listed_file v N nm ex d e -> named_entry nm ex e -> alone d ->
  find_open_file mem p (open_files f) = Ok None ->
  exists d' l1 x l2, sys_unlink turns (S depth) mem p f d = Ok (0, d') /\ vol v N d' /\ same_data v N d d' /\
    entries_of (root_slots d) = l1 ++ x :: l2 /\ entries_of (root_slots d') = l1 ++ l2 /\
    called nm ex x = true /\ Forall (fun entry => called nm ex entry = false) (l1 ++ l2).
Proof.
  intros Hfs Hp [Hv (pre & s & post & E & Hpre & Hs0 & Hbefore & Hm & Hc)] He Hal Hopen.
  destruct (root_slots_ok v N Hroot d s Hv) as [_ H32]; [rewrite E; set_solver|]. set (x := decode s 0) in *.
  destruct (alone_split d x pre s post Hal E Hpre Hs0 Hc eq_refl) as [El Hno]. pose proof Hno as [Hno1 _]%Forall_app.
  destruct (delete_slot d e pre s post Hv E Hpre Hs0 He Hm Hc Hno1) as (d' & E' & Hv' & Hdata & El'). fold x in E'.
  assert (Hfind : find_file turns v (S depth) (cstr (nm ++ DOT :: ex) t) (entries_of (root_slots d)) d = Ok (Some x, d)).
  { rewrite find_file_single by (done || apply entries_terminated). do 2 f_equal.
    rewrite El, filter_app, (proj2 (filter_none _ _ _) Hno1). cbn [app]. rewrite filter_cons_True by by rewrite Hc. done. }
  exists d', (entries_of pre), x, (entries_of post). split_and!; try done.
  pose proof (decode_filename s H32) as L9. fold x in L9. unfold sys_unlink. rewrite Hopen. ok_bind. rewrite Hp.
  change (cstr (SLASH :: nm ++ DOT :: ex) t) with (SLASH :: cstr (nm ++ DOT :: ex) t). rewrite (buf_get_lookup _ 0 SLASH) by done. ok_bind.
  change (negb (SLASH =? SLASH)) with false. cbv beta iota. rewrite Hfs, (get_root_dir_eq v N Hroot) by done. ok_bind.
  change (drop 1 (SLASH :: ?l)) with l. rewrite Hfind. ok_bind.
  rewrite stdmem_copy_spec by (rewrite ?length_replicate; lia). ok_bind. rewrite slice_0 by lia.
  assert (splice (replicate 9 0) 0 (filename x) = filename x) as -> by (unfold splice; rewrite drop_ge by (rewrite length_replicate; lia); by rewrite app_nil_r).
  rewrite buf_set_Ok by lia. ok_bind. unfold update_file_details. rewrite Hfs, (get_root_dir_eq v N Hroot) by done. ok_bind. rewrite Hp.
  change (cstr (SLASH :: nm ++ DOT :: ex) t) with (SLASH :: cstr (nm ++ DOT :: ex) t). rewrite (buf_get_lookup _ 0 SLASH) by done. ok_bind.
  change (negb (SLASH =? SLASH)) with false. cbv beta iota. cbv zeta. change (drop 1 (SLASH :: ?l)) with l.
  rewrite (to_directory_bare ex (nm ++ DOT :: ex) t) by (by apply gn_part). ok_bind. rewrite Hfind. ok_bind. rewrite (buf_get_lookup [0] 0 0) by done. ok_bind.
  change (with_filename _ x) with (deleted x). cbn [Z.eqb]. by rewrite E'.
Qed.
End Unlink.

(** ** The commands *)
Section Commands.
Context `{BlockDeviceLaws D} `{Board U} (v : fat16_t) (N : Z) (Hroot : root_layout v N).
Context (depth limit : nat) (slack : Z) (Hslack : 0 <= slack) (lit : list Z -> Z).
Context (nm ex : list Z) (Hg : good_name nm ex) (H3 : zlength ex = 3) (H229 : byte nm 0 <> 229).
Context (Hlimit : (12 < limit)%nat).
Abbreviation turns := (Z.to_nat 65536).
Abbreviation ustate := (ustate D U).
Abbreviation wp := (wp turns (S depth) limit slack).
Abbreviation literal := (literal limit lit).
Abbreviation file_path := (file_path nm ex).
Abbreviation other_path := (other_path limit nm ex).

(** The file is neither in the directory nor open. *)
Record absent (s : ustate) : Prop := {
  ab_volume : fs (ufiles s) = v;
  ab_vol : vol v N (udisk s);
  ab_fds : fds_ok (ufiles s);
  ab_others : Forall (other_path s) (open_files (ufiles s));
  ab_listing : Forall (fun entry => called nm ex entry = false) (entries_of (root_slots v (udisk s)))
}.

Lemma path_string (s : ustate) p : lasting s p (cstr file_path []) -> ustrings limit s p = cstr file_path [].
Proof. intros Hp. apply string_at; [done|by apply file_path_nonul|by apply (file_path_length limit nm ex)]. Qed.

Lemma absent_not_open (s : ustate) p :
  Forall (other_path s) (open_files (ufiles s)) -> lasting s p (cstr file_path []) ->
  find_open_file (ustrings limit s) p (open_files (ufiles s)) = Ok None.
Proof.
  intros Ho Hp. apply (find_open_none _ _ file_path); [by apply file_path_nonul|by apply path_string|].
  eapply Forall_impl; [exact Ho|]. intros o. apply other_path_string.
Qed.

Lemma open_absent (s : ustate) p :
  absent s -> lasting s p (cstr file_path []) ->
  sys_open turns (S depth) (ustrings limit s) p 0 (ufiles s) (udisk s) = Ok (-1, ufiles s, udisk s).
Proof.
  intros [Hfs Hv _ Ho Hl] Hp. unfold sys_open. rewrite (absent_not_open s p) by done. ok_bind.
  rewrite (open_named v N Hroot depth (ustrings limit s) nm ex [] (ufiles s) (udisk s) p) by (done || by apply path_string).
  rewrite (proj2 (filter_none nm ex _) Hl). done.
Qed.

Lemma absent_resumes (s s' : ustate) : absent s -> resumes s s' -> absent s'.
Proof.
  intros [Hfs Hv Hf Ho Hl] [_ Hh Ef Ed _ Hk]. split; rewrite ?Ef, ?Ed; try done. eapply Forall_impl; [exact Ho|]. intros o Hoo.
  by eapply (other_path_after limit nm ex).
Qed.

Definition not_found : list Z := bytes_of "File not found." ++ [10].

(** [cat] of a file that is not there says so, and ends with [-1]. *)
Lemma cat_absent argv name (s : ustate) :
  absent s -> ctx_ok (uctx s) -> fds_left s -> heap_ok (uheap s) -> literal s not_found -> argument s argv 0 name file_path ->
  brk (uheap s) + slack + 20 <= heap_top (uheap s) ->
  wp no_return (fun status s' => status = u32 (-1) /\ uconsole s' = uconsole s ++ not_found /\ udisk s' = udisk s) (Programs.cat lit 1 argv) s.
Proof.
  intros Hab Hc Hleft Hh Hlit Harg Hroom. pose proof (open_absent s name Hab (ag_text _ _ _ _ _ Harg)) as Eo.
  assert (Hnone : find_open_file_by_fd (-1) (open_files (ufiles s)) = None).
  { apply find_fd_None. intros Hin. pose proof (fds_range _ (ab_fds _ Hab) _ Hin). lia. }
  destruct (argument_word nm s argv 0 name file_path Harg) as (Hw & _ & _).
  unfold Programs.cat. apply wp_bind. cbn [Z.eqb Pos.eqb Programs.when].
  apply wp_bind, (wp_arg _ _ _ _ _ _ _ _ name file_path); [done|].
  apply wp_bind, (wp_open _ _ _ _ _ _ _ _ _ (-1) (ufiles s) (udisk s)); [done|done|eapply lasting_string, Harg|eapply own_paths_all, others_lasting, (ab_others _ Hab)|done|done|done|exact Eo|]. intros c1 Hc1; state.
  apply wp_bind, (wp_lseek _ _ _ _ _ _ _ _ _ _ (-1) (ufiles s)); [exact Hc1|done..|unfold sys_lseek; change (open_files (ufiles _)) with (open_files (ufiles s)); by rewrite Hnone|]. intros c2 Hc2; state.
  apply wp_bind, wp_allocate; [done|done|done|unfold Programs.sizeof_dir_entry; state; lia|]. state. intros p1 h1 Hp1 Hh1 Hb1 El1 Et1.
  unfold Programs.sizeof_dir_entry in Hb1. pose proof (brk_bounds _ Hh). pose proof (brk_bounds _ Hh1). pose proof Hh as (Hlow & Htop & _).
  apply wp_bind, (wp_fstat_none _ _ _ _ _ _ _ _ _ (-1)); [exact Hc2|done|unfold is_word; lia|unfold own; state; lia|done|unfold sys_fstat; change (open_files (ufiles _)) with (open_files (ufiles s)); by rewrite Hnone|]. intros c3 Hc3; state.
  cbn [negb Z.eqb Programs.when]. apply wp_bind. unfold Programs.say_line. apply wp_bind. apply (wp_print_literal (S depth) limit slack lit _ _ not_found); [done| |].
  - apply (literal_after limit lit s); [|done|done]. split; cbn; try done.
    lia.
  - intros c4 Hc4. apply wp_exit_last. split; [done|]. split; [done|done].
Qed.

(** The file is there, open once, and the one entry of its name. *)
Definition removable (s : ustate) : Prop :=
  exists n i o ns, file_in v N limit nm ex s n i o ns /\ fds_ok (ufiles s) /\
    Forall (other_path s) (drop (S i) (open_files (ufiles s))) /\ alone v nm ex (udisk s).

(** What [rm] leaves: the file is gone, from the table of open files too; the
    directory lists the others, in their order; every chain and every cluster
    is as before, the file's own included. *)
Record removed (s s' : ustate) : Prop := {
  rd_absent : absent s';
  rd_listing : entries_of (root_slots v (udisk s')) =
    filter (fun entry => Is_true (negb (called nm ex entry))) (entries_of (root_slots v (udisk s)));
  rd_chains : others_kept v N [] s s'
}.

Lemma others_filter l1 x l2 :
  called nm ex x = true -> Forall (fun entry => called nm ex entry = false) (l1 ++ l2) ->
  filter (fun entry => Is_true (negb (called nm ex entry))) (l1 ++ x :: l2) = l1 ++ l2.
Proof.
  clear. intros Hx [H1 H2]%Forall_app. rewrite filter_app, filter_cons_False by (rewrite Hx; by intros []).
  assert (Hk : forall l, Forall (fun entry => called nm ex entry = false) l -> filter (fun entry => Is_true (negb (called nm ex entry))) l = l).
  { intros l Hl. induction Hl as [|e l He _ IH]; [done|]. rewrite filter_cons_True by by rewrite He. by rewrite IH. }
  by rewrite !Hk.
Qed.

Lemma close_named (s : ustate) n i o ns :
  file_in v N limit nm ex s n i o ns -> sys_close n (ufiles s) = (0, with_open_files (delete i (open_files (ufiles s))) (ufiles s)).
Proof. intros Hf. unfold sys_close. by rewrite (fa_find _ _ _ _ _ _ _ _ (no_at _ _ _ _ _ _ _ _ _ _ _ _ (fi_named _ _ _ _ _ _ _ _ _ _ Hf))). Qed.

Lemma rm_command_spec argv name (s : ustate) :
  removable s -> ctx_ok (uctx s) -> fds_left s -> heap_ok (uheap s) -> argument s argv 0 name file_path ->
  command depth limit slack (Programs.rm lit 1 argv) s (fun s' => uconsole s' = uconsole s /\ keeps s s' /\ heap_ok (uheap s') /\ removed s s').
Proof.
  intros (n & i & o & ns & Hf & Hfds & Hafter & Hal) Hc Hleft Hh Harg. pose proof (fi_named _ _ _ _ _ _ _ _ _ _ Hf) as Hno.
  pose proof (no_at _ _ _ _ _ _ _ _ _ _ _ _ Hno) as Hat. pose proof (fi_int _ _ _ _ _ _ _ _ _ _ Hf) as Hint.
  destruct (argument_word nm s argv 0 name file_path Harg) as (Hw & _ & _). pose proof (ag_text _ _ _ _ _ Harg) as Htext.
  pose proof (close_named s n i o ns Hf) as Ec. set (f' := with_open_files (delete i (open_files (ufiles s))) (ufiles s)) in *.
  assert (Hrest : Forall (other_path s) (delete i (open_files (ufiles s)))).
  { rewrite delete_take_drop. apply Forall_app. split; [apply Hf|done]. }
  pose proof (close_spec n (ufiles s) 0 f' Hfds Ec) as (Hfds' & _).
  destruct (unlink_named v N Hroot depth (ustrings limit s) nm ex [] Hg H3 H229 (udisk s) f' name (directory_entry o))
    as (d' & l1 & x & l2 & Eu & Hv' & Hdata & El & El' & Hx & Hothers); [apply Hat|by apply path_string|apply Hno|apply Hno|done| |].
  { apply (find_open_none _ _ file_path); [by apply file_path_nonul|by apply path_string|]. eapply Forall_impl; [exact Hrest|]. intros o'. apply other_path_string. }
  unfold Programs.rm. apply wp_bind. cbn [Z.eqb Pos.eqb Programs.when].
  apply wp_bind, (wp_arg _ _ _ _ _ _ _ _ name file_path); [done|].
  apply wp_bind, (wp_open _ _ _ _ _ _ _ _ _ n (ufiles s) (udisk s)); [done|done|eapply lasting_string, Htext|by apply (file_paths v N limit nm ex Hg H3 Hlimit s n i o ns)|done|done|done| |]; [by apply (reopen v N depth limit nm ex Hg H3 Hlimit s n i o ns)|].
  intros c1 Hc1; state. apply wp_bind, (wp_close _ _ _ _ _ _ _ _ 0 f'); [exact Hc1|done|done|exact Ec|]. intros c2 Hc2; state.
  apply wp_bind, (wp_arg _ _ _ _ _ _ _ _ name file_path); [by destruct Harg; split|].
  apply wp_bind, (wp_unlink _ _ _ _ _ _ _ _ 0 d'); [exact Hc2|eapply lasting_string, Htext|by eapply own_paths_all, others_lasting|done|done|exact Eu|]. intros c3 Hc3; state.
  apply wp_bind. cbn [Z.ltb Z.compare Programs.when]. apply wp_mret. apply wp_exit_last. split; [done|].
  set (s' := UState _ _ _). assert (Hk : keeps s s') by (split; (done || cbn; lia)). split; [done|]. split; [done|]. split; [done|]. split.
  - split; [apply Hat|done|done| |].
    + change (open_files (ufiles s')) with (delete i (open_files (ufiles s))). eapply Forall_impl; [exact Hrest|]. intros o' Ho'.
      by apply (other_path_after limit nm ex s s' o' o').
    + change (udisk s') with d'. by rewrite El'.
  - change (udisk s') with d'. rewrite El, El'. symmetry. by apply others_filter.
  - intros first ms Hms _. change (udisk s') with d'.
    split; [by apply (chain_data v N (udisk s) d')|by apply (chain_bytes_data v N (rl_lay _ _ Hroot) (udisk s) d' first)].
Qed.

Lemma removable_resumes (s s' : ustate) : removable s -> resumes s s' -> removable s'.
Proof.
  intros (n & i & o & ns & Hf & Hfds & Hafter & Hal) Hr. pose proof Hr as [_ Hh Ef Ed _ Hk]. exists n, i, o, ns. rewrite Ef, Ed. split_and!; try done.
  - eapply (file_in_after v N limit nm ex Hlimit s s'); [exact Hf|done|done|by rewrite Ef|rewrite Ef, Ed|done|apply (fi_shape _ _ _ _ _ _ _ _ _ _ Hf)].
    eapply named_open_strings; [by eapply (file_path_strings v N limit nm ex Hg H3)|apply (fi_named _ _ _ _ _ _ _ _ _ _ Hf)].
  - eapply Forall_impl; [exact Hafter|]. intros o' Ho'. by apply (other_path_after limit nm ex s s' o' o').
Qed.

(** [rm] and then [cat]. [rm] prints nothing and takes the
    file out of the directory and of the table of open files; the directory
    lists the others in their order, and every chain and every cluster is as
    before, those of the removed file included, which stay allocated. A [cat]
    of it started afterwards finds nothing: it says so and ends with [-1]. *)
Lemma rm_then_cat argv s0 s :
  started limit s0 s argv [file_path] -> removable s0 -> literal s0 not_found ->
  command depth limit slack (Programs.rm lit 1 argv) s (fun s1 =>
    uconsole s1 = uconsole s /\ removed s0 s1 /\
    forall s2 argv2, started limit s1 s2 argv2 [file_path] -> brk (uheap s2) + slack + 20 <= heap_top (uheap s2) ->
      wp no_return (fun status s3 => status = u32 (-1) /\ uconsole s3 = uconsole s2 ++ not_found /\ udisk s3 = udisk s1)
        (Programs.cat lit 1 argv2) s2).
Proof.
  intros Hst Hrm Hlit. pose proof Hst as [Hr _]. destruct (started_first _ _ _ _ _ _ Hst) as (p & Harg).
  eapply wp_mono; [apply (rm_command_spec argv p s); [by eapply removable_resumes|apply Hr|apply Hr|apply Hr|done]|done|].
  intros st s1 (-> & Hcon & Hk & Hh & [Hab Hls Hch]). split; [done|]. split; [done|]. split.
  { split; [done| |]; unfold others_kept in *; rewrite <- (rs_disk _ _ Hr); done. }
  intros s2 argv2 Hst2 Hroom. pose proof Hst2 as [Hr2 _]. destruct (started_first _ _ _ _ _ _ Hst2) as (p2 & Harg2).
  eapply wp_mono; [apply (cat_absent argv2 p2 s2)|done|]; try apply Hr2; try done.
  - by eapply absent_resumes.
  - eapply (literal_after limit lit); [apply Hr2..|]. eapply (literal_after limit lit); [exact Hk|done|].
    eapply (literal_after limit lit); [apply Hr..|done].
  - intros st s3 (-> & Hcon3 & Hd3). by rewrite Hd3, (rs_disk _ _ Hr2).
Qed.
End Commands.

(** ** The theorem at work: the file of [Session], removed *)
Definition demo_rm_lit (t : list Z) : Z := 4300.
Definition demo_rm_memory : Z -> Z :=
  demo_bytes [(4112, word_bytes 4160); (4160, bytes_of "/README.TXT" ++ [0]); (4300, not_found ++ [0])].

Lemma demo_removable :
  removable demo_fs 8 2000 (bytes_of "README") (bytes_of "TXT") (demo_state demo_readme demo_rm_memory).
Proof.
  exists 3, 0%nat, (OpenFile 3 demo_readme_entry 4160 0 false), [2; 3]. split_and!.
  - split; [|done|apply demo_lasts; [cbn; lia|cbn; lia|by vm_compute]|constructor| |done].
    + split; [|by vm_compute|exact demo_named|exact demo_listed|exact demo_dir_sane|done].
      constructor; [done|lia|done|done|by vm_compute|exact demo_readme_chain|vm_compute; split; discriminate|done].
    + split; [vm_compute; discriminate|vm_compute; discriminate|vm_compute; split; [discriminate|done]].
  - constructor; unfold fds; cbn; [repeat constructor; set_solver|intros n ->%list_elem_of_singleton; lia|lia].
  - constructor.
  - eexists. by vm_compute.
Qed.

