(* ===== verification/Shell.v ===== *)
(** * The shell

    [sh.c]: the line editor, the parser of command lines and the table of
    commands. The characters the shell has read ahead and those still to be
    typed are the state its reads consume; what it prints is a list of
    characters. *)
From S2P Require Import Prelude Mem Strings Stream.

(** ** Reading characters ([sh.c], [stdio.c]) *)
Record keyboard := Keyboard {
  sh_stdin_buffer : list Z;
  typed : list Z
}.

(** [stdio_readchar] asks again as long as there is nothing; when nothing more
    is typed it waits for ever. *)
Fixpoint stdio_readchar (input : list Z) : outcome (Z * list Z) :=
  match input with
  | [] => Err Blocked
  | c :: input => if c =? EOF then stdio_readchar input else Ok (c, input)
  end.

Definition get_next_char (kb : keyboard) : outcome (Z * keyboard) :=
  let '(c, buffer) := stdstream_pop_char (sh_stdin_buffer kb) in
  if c =? EOF then
    '(c, input) ← stdio_readchar (typed kb);
    Ok (c, Keyboard buffer input)
  else Ok (c, Keyboard buffer (typed kb)).

(** ** The line editor *)
Record shell_line_t := Line {
  prompt : list Z;
  contents : list Z;
  contents_bytes : Z;
  cursor_position : Z
}.

Definition with_contents (b : list Z) (line : shell_line_t) : shell_line_t :=
  Line (prompt line) b (contents_bytes line) (cursor_position line).
Definition with_cursor (n : Z) (line : shell_line_t) : shell_line_t :=
  Line (prompt line) (contents line) (contents_bytes line) n.

Definition make_line (prompt contents : list Z) (contents_bytes : Z) : outcome shell_line_t :=
  contents ← buf_set contents contents_bytes 0;
  Ok (Line prompt contents contents_bytes 0).

Definition line_insert (line : shell_line_t) (c : Z) : outcome shell_line_t :=
  let cursor := cursor_position line in
  let n := contents_bytes line in
  if (0 <=? cursor) && (cursor <? n) then
    '(b, _) ← for_loop (Z.to_nat (n - cursor)) cursor (fun i '(b, prev) =>
      current ← buf_get b i;
      b ← buf_set b i prev;
      Ok (b, current)) (contents line, 32);
    b ← buf_set b cursor c;
    Ok (with_cursor (cursor + 1) (with_contents b line))
  else Ok line.

(** [for (i = from; i < contents_bytes; i++) contents[i] = contents[i+1];] *)
Definition shift_left (from : Z) (line : shell_line_t) : outcome shell_line_t :=
  b ← for_loop (Z.to_nat (contents_bytes line - from)) from (fun i b => c ← buf_get b (i + 1); buf_set b i c) (contents line);
  Ok (with_contents b line).

Definition line_delete (line : shell_line_t) : outcome shell_line_t :=
  let cursor := cursor_position line in
  line ← (if (0 <=? cursor) && (cursor <? contents_bytes line - 1) then shift_left cursor line else Ok line);
  b ← buf_set (contents line) (contents_bytes line) 0;
  Ok (with_contents b line).

Definition line_backspace (line : shell_line_t) : outcome shell_line_t :=
  let cursor := cursor_position line in
  line ← (if (0 <? cursor) && (cursor <=? contents_bytes line) then
            line ← shift_left (cursor - 1) line;
            Ok (with_cursor (cursor - 1) line)
          else Ok line);
  b ← buf_set (contents line) (contents_bytes line) 0;
  Ok (with_contents b line).

Definition line_control_seq (line : shell_line_t) (kb : keyboard) : outcome (shell_line_t * keyboard) :=
  '(next, kb) ← get_next_char kb;
  '(after_next, kb) ← get_next_char kb;
  if negb (next =? 91) then
    line ← line_insert line 94;
    line ← line_insert line next;
    Ok (line, kb)
  else if after_next =? 68 then
    Ok (if cursor_position line >? 0 then with_cursor (cursor_position line - 1) line else line, kb)
  else if after_next =? 67 then
    len ← stdstring_length (contents line);
    Ok (if cursor_position line <? len then with_cursor (cursor_position line + 1) line else line, kb)
  else Ok (line, kb).

(** What [stdio_print] writes of a string. *)
Definition printed (str : list Z) : outcome (list Z) :=
  len ← stdstring_length str; Ok (slice str 0 len).

Definition clear_line : list Z := [27; 91; 50; 75; 13].

Definition line_print (line : shell_line_t) : outcome (list Z) :=
  p ← printed (prompt line);
  text ← printed (contents line);
  line_length ← stdstring_length (contents line);
  Ok (clear_line ++ p ++ text ++ replicate (Z.to_nat (line_length - cursor_position line)) 8).

Definition line_print_with_newline (line : shell_line_t) : outcome (list Z) :=
  p ← printed (prompt line);
  text ← printed (contents line);
  Ok (clear_line ++ p ++ text ++ [10]).

(** One key of [get_line], which is neither Ctrl+C nor Return. *)
Definition line_key (c : Z) (line : shell_line_t) (kb : keyboard) : outcome (shell_line_t * keyboard) :=
  if c =? 127 then line ← line_backspace line; Ok (line, kb)
  else if c =? 27 then line_control_seq line kb
  else line ← line_insert line c; Ok (line, kb).

(** The loop of [get_line]: [None] for Ctrl+C. *)
Definition line_turn (st : Z * shell_line_t * keyboard * list Z)
  : outcome ((Z * shell_line_t * keyboard * list Z) + (option shell_line_t * keyboard * list Z)) :=
  let '(c, line, kb, out) := st in
  if c =? 13 then Ok (inr (Some line, kb, out))
  else if c =? 3 then Ok (inr (None, kb, out))
  else
    '(line, kb) ← line_key c line kb;
    o ← line_print line;
    '(c, kb) ← get_next_char kb;
    Ok (inl (c, line, kb, out ++ o)).

Definition mush_prompt : list Z := cstr (bytes_of "mush> ") [].

Definition get_line (fuel : nat) (buf : list Z) (nbytes : Z) (kb : keyboard) : outcome (list Z * keyboard * list Z) :=
  line ← make_line mush_prompt (replicate 101 0) 100;
  o ← line_print line;
  '(c, kb) ← get_next_char kb;
  '(line, kb, out) ← while_loop fuel line_turn (c, line, kb, o);
  match line with
  | None => buf ← buf_set buf 0 0; Ok (buf, kb, out)
  | Some line =>
      o ← line_print_with_newline line;
      buf ← stdmem_copy buf 0 (contents line) 0 101;
      buf ← buf_set buf (nbytes - 1) 0;
      Ok (buf, kb, out ++ o)
  end.

(** [handle_input]: what arrives while a command runs is kept for the shell;
    each Ctrl+C also kills the command. The loop ends when nothing is there. *)
Fixpoint handle_input (input buffer : list Z) (kills : Z) : list Z * list Z * Z :=
  match input with
  | [] => (input, buffer, kills)
  | c :: input =>
      let kills := if c =? 3 then kills + 1 else kills in
      if c =? EOF then (input, buffer, kills)
      else handle_input input (stdstream_push_char buffer c) kills
  end.

(** ** Commands *)
Record shell_command_t := Command {
  name : list Z;
  argv : list (list Z);
  priority : Z;
  background : bool
}.

(** [stdmem_allocate] and [stdmem_copy] of a string and its terminator. *)
Definition copy_string (line : list Z) (start : Z) : outcome (list Z) :=
  len ← stdstring_length (drop (Z.to_nat start) line);
  stdmem_copy (replicate (Z.to_nat (len + 1)) 0) 0 line start (len + 1).

(** A turn of the loop over the arguments; [argc] is the length of [argv]. The
    line comes out with the terminators put into it. *)
Definition parse_turn (st : list Z * option Z * shell_command_t)
  : outcome ((list Z * option Z * shell_command_t) + (shell_command_t * list Z)) :=
  let '(line, after_token, result) := st in
  match after_token with
  | None => Ok (inr (result, line))
  | Some after =>
      if zlength (argv result) <? 10 then
        '(line, token_start, after_token) ← stdstring_next_token line after [32; 0];
        let token := drop (Z.to_nat token_start) line in
        token_length ← stdstring_length token;
        amp ← stdstring_compare token [38; 0];
        if amp =? 0 then Ok (inr (Command (name result) (argv result) (priority result) true, line))
        else
          bang ← stdstring_compare token [33; 0];
          if bang =? 0 then Ok (inr (Command (name result) (argv result) 0 (background result), line))
          else if token_length >? 0 then
            arg ← copy_string line token_start;
            Ok (inl (line, after_token, Command (name result) (argv result ++ [arg]) (priority result) (background result)))
          else Ok (inl (line, after_token, result))
      else Ok (inr (result, line))
  end.

Definition parse_shell_command (fuel : nat) (line : list Z) : outcome (shell_command_t * list Z) :=
  '(line, token_start, after_token) ← stdstring_next_token line 0 [32; 0];
  name ← copy_string line token_start;
  while_loop fuel parse_turn (line, after_token, Command name [] 1 false).

(** The programs of the shell. *)
Inductive program :=
| P0 | P1 | ls | cd | pwd | cat | mkdir | touch | write | rm | append | messenger | producer | pipeline | consumer
| writemany | proc | kill.

Definition commands : list (list Z * program) :=
  [(bytes_of "P0", P0); (bytes_of "P1", P1); (bytes_of "ls", ls); (bytes_of "cd", cd); (bytes_of "pwd", pwd); (bytes_of "cat", cat);
   (bytes_of "mkdir", mkdir); (bytes_of "touch", touch); (bytes_of "write", write); (bytes_of "rm", rm); (bytes_of "append", append);
   (bytes_of "messenger", messenger); (bytes_of "producer", producer); (bytes_of "pipeline", pipeline); (bytes_of "consumer", consumer);
   (bytes_of "writemany", writemany); (bytes_of "proc", proc); (bytes_of "kill", kill)].

Fixpoint choose_from (l : list (list Z * program)) (name : list Z) : outcome (option program) :=
  match l with
  | [] => Ok None
  | (n, p) :: l => r ← stdstring_compare (cstr n []) name; if r =? 0 then Ok (Some p) else choose_from l name
  end.
Definition choose_process (name : list Z) : outcome (option program) := choose_from commands name.
