(* ===== verification/Mush.v ===== *)
(** * The shell as a program

    The parts of [sh.c] that talk to the kernel: the loop of the shell, the
    editor at work on its buffer in memory, and the starting of programs. What
    the editor and the parser compute is in [Shell]. [lit] gives the addresses
    of string literals, [entry] those of the programs; the queue of characters
    read ahead is passed along.

    The parser works on the line in memory: what it changes is stored back, and
    what it allocates for the name and the arguments is allocated. *)
From S2P Require Import Prelude Mem Strings Stream Scheduler FileSys Kernel Syscalls Shell.
From S2P Require Programs.

Section Mush.
Context (lit : list Z -> Z) (entry : program -> Z).

(** ** Reading *)
Definition next_char (buffer : list Z) : code (Z * list Z) :=
  let '(c, buffer) := stdstream_pop_char buffer in
  if c =? EOF then c ← Syscalls.stdio_readchar; mret (c, buffer) else mret (c, buffer).

Definition take_input (child_pid : Z) (buffer : list Z) : code (list Z) :=
  ITree.iter (fun buffer : list Z =>
    c ← stdio_readchar_nonblocking;
    _ ← Programs.when (c =? 3) (_ ← _kill child_pid SIGKILL; mret tt);
    mret (if negb (c =? EOF) then inl (stdstream_push_char buffer c) else inr buffer)) buffer.

(** ** The line at [p], with the cursor at [cursor] *)
Definition on_line (p cursor : Z) (f : shell_line_t -> outcome shell_line_t) : code Z :=
  b ← load p 101;
  line ← lift (f (Line mush_prompt b 100 cursor));
  _ ← store p (contents line);
  mret (cursor_position line).

Definition print_line (p cursor : Z) : code unit :=
  _ ← stdio_print (lit clear_line);
  _ ← stdio_print (lit (bytes_of "mush> "));
  _ ← stdio_print p;
  s ← text_of p;
  len ← lift (stdstring_length s);
  Programs.count_code (Z.to_nat (len - cursor)) 0 (fun _ => stdio_printchar 8).

Definition print_line_with_newline (p : Z) : code unit :=
  _ ← stdio_print (lit clear_line);
  _ ← stdio_print (lit (bytes_of "mush> "));
  _ ← stdio_print p;
  Programs.newline lit.

Definition control_seq (p cursor : Z) (buffer : list Z) : code (Z * list Z) :=
  '(next, buffer) ← next_char buffer;
  '(after_next, buffer) ← next_char buffer;
  if negb (next =? 91) then
    cursor ← on_line p cursor (fun line => line_insert line 94);
    cursor ← on_line p cursor (fun line => line_insert line next);
    mret (cursor, buffer)
  else if after_next =? 68 then mret (if cursor >? 0 then cursor - 1 else cursor, buffer)
  else if after_next =? 67 then
    s ← text_of p;
    len ← lift (stdstring_length s);
    mret (if cursor <? len then cursor + 1 else cursor, buffer)
  else mret (cursor, buffer).

(** The loop of [get_line]; [None] for Ctrl+C. *)
Definition get_line_turn (p : Z) (st : Z * Z * list Z) : code ((Z * Z * list Z) + (bool * list Z)) :=
  let '(c, cursor, buffer) := st in
  if c =? 13 then mret (inr (true, buffer))
  else if c =? 3 then mret (inr (false, buffer))
  else
    '(cursor, buffer) ← (
      if c =? 127 then cursor ← on_line p cursor line_backspace; mret (cursor, buffer)
      else if c =? 27 then control_seq p cursor buffer
      else cursor ← on_line p cursor (fun line => line_insert line c); mret (cursor, buffer));
    _ ← print_line p cursor;
    '(c, buffer) ← next_char buffer;
    mret (inl (c, cursor, buffer)).

Definition get_line_at (buf nbytes : Z) (buffer : list Z) : code (list Z) :=
  p ← allocate 101;
  cursor ← on_line p 0 (fun line => make_line (prompt line) (contents line) 100);
  _ ← print_line p cursor;
  '(c, buffer) ← next_char buffer;
  '(complete, buffer) ← ITree.iter (get_line_turn p) (c, cursor, buffer);
  if complete : bool then
    _ ← print_line_with_newline p;
    b ← load p 101;
    _ ← store buf b;
    _ ← store (u32 (buf + (nbytes - 1))) [0];
    mret buffer
  else _ ← store buf [0]; mret buffer.

(** ** Starting programs *)
Definition launch_turn (stored_pid : Z) (buffer : list Z) : code (list Z + list Z) :=
  pid ← load32 stored_pid;
  result ← _waitpid PROCESS_EVENT_EXITED (i32 pid) WAITPID_NOHANG;
  if result =? 0 then
    pid ← load32 stored_pid;
    buffer ← take_input (i32 pid) buffer;
    _ ← _yield;
    mret (inl buffer)
  else mret (inr buffer).

Definition launch_process (function argc argv priority : Z) (buffer : list Z) : code (list Z) :=
  stored_pid ← allocate 4;
  fp ← ITree.trigger FramePointer;
  fork_pid ← _fork fp;
  if fork_pid =? 0 then _ ← _exec function argc argv; mret buffer
  else
    _ ← store32 stored_pid (u32 fork_pid);
    pid ← load32 stored_pid;
    _ ← _setpriority (i32 pid) 1 priority;
    ITree.iter (launch_turn stored_pid) buffer.

Definition launch_process_bg (function argc argv : Z) : code unit :=
  fp ← ITree.trigger FramePointer;
  fork_pid ← _fork fp;
  if fork_pid =? 0 then _exec function argc argv else _yield.

(** ** Commands in memory *)
Fixpoint place_args (argv i : Z) (l : list (list Z)) : code unit :=
  match l with
  | [] => mret tt
  | a :: l =>
      p ← allocate (zlength a);
      _ ← store p a;
      _ ← store32 (u32 (argv + 4 * i)) p;
      place_args argv (i + 1) l
  end.

(** The command on the line at [p], with its arguments in an array. *)
Definition command_at (p : Z) : code (shell_command_t * Z) :=
  _ ← allocate 20;
  args ← allocate 40;
  line ← load p 101;
  '(command, line) ← lift (parse_shell_command 12 line);
  _ ← store p line;
  name_at ← allocate (zlength (name command));
  _ ← store name_at (name command);
  _ ← place_args args 0 (argv command);
  mret (command, args).

Definition mush_turn (last_line : Z) (buffer : list Z) : code (list Z) :=
  buffer ← get_line_at last_line 101 buffer;
  '(command, args) ← command_at last_line;
  function ← lift (choose_process (name command));
  match function with
  | None => _ ← Programs.say_line lit "Command not recognised."; mret buffer
  | Some function =>
      if background command then _ ← launch_process_bg (entry function) (zlength (argv command)) args; mret buffer
      else launch_process (entry function) (zlength (argv command)) args (priority command) buffer
  end.

Definition mush : code unit :=
  last_line ← allocate 101;
  _ ← Programs.say_line lit "Welcome to the mu shell";
  ITree.iter (fun buffer => buffer ← mush_turn last_line buffer; mret (inl buffer)) stdstream_initialise_buffer.

(** The code at the entry point of a program. *)
Definition program_code (p : program) : Z -> Z -> code unit :=
  match p with
  | P0 => Programs.P0 lit | P1 => Programs.P1 lit | ls => Programs.ls lit | cd => Programs.cd lit | pwd => Programs.pwd lit
  | cat => Programs.cat lit | mkdir => Programs.mkdir lit | touch => Programs.touch lit | write => Programs.write lit
  | rm => Programs.rm lit | append => Programs.append lit | messenger => Programs.messenger lit | producer => Programs.producer lit
  | pipeline => Programs.pipeline lit | consumer => Programs.consumer lit | writemany => Programs.writemany lit
  | proc => Programs.proc lit | kill => Programs.kill
  end.
End Mush.
