(* ===== verification/System.v ===== *)
(** * The system

    Processes at work side by side: the kernel of [Kernel], and for every
    process the user code it has still to run. One step runs the current
    process up to its next request, serves a supervisor call, lets the process
    take the result of its call from [r0], or takes an interrupt; the kernel
    decides who runs next. *)
From S2P Require Import Prelude Mem Tailq Strings Scheduler Stream Ipc Uart Devices Disk Fat16 Directory Paths FileSys Descriptors Kernel Machine Syscalls Process Shell Mush.

(** ** What the scheduler keeps

    Processes stay in the list and events stay recorded. *)
Record evolves (s s' : sched) : Prop := {
  ev_pids : pids s' = pids s;
  ev_events : events_head s `prefix_of` events_head s'
}.

#[export] Instance evolves_preorder : PreOrder evolves.
Proof.
  split; [by split|]. intros s1 s2 s3 [P1 E1] [P2 E2]. split; [congruence|by etrans].
Qed.

Lemma update_evolves ptr f s s' : (forall p, pid (f p) = pid p) -> update_pcb ptr f s = Ok s' -> evolves s s'.
Proof.
  intros Hf. destruct ptr as [i|]; [|done]. intros [= <-]. split; [|done]. unfold pids; cbn. apply list_eq. intros j.
  rewrite !list_lookup_fmap. destruct (decide (i = j)) as [<-|Hne]; [|by rewrite list_lookup_alter_ne].
  rewrite list_lookup_alter_eq. by destruct (process_list s !! i); cbn; rewrite ?Hf.
Qed.

Lemma save_evolves c s s' : save_current_process c s = Ok s' -> evolves s s'.
Proof. by apply update_evolves. Qed.

Lemma remove_evolves p priority s : evolves s (remove_pid p priority s).
Proof. unfold remove_pid. by destruct (priority =? 0), (priority =? 1). Qed.

Lemma add_evolves p priority s : evolves s (add_pid p priority s).
Proof. unfold add_pid. by destruct (priority =? 0), (priority =? 1). Qed.

Lemma next_evolves priority s : evolves s (get_next_process priority s).2.
Proof.
  unfold get_next_process. destruct (priority =? 0); [by destruct (high_priority_queue s)|]. destruct (priority =? 1); [|done].
  by destruct (low_priority_queue s).
Qed.

Lemma run_evolves c s c' s' : scheduler_run c s = Ok (c', s') -> evolves s s'.
Proof.
  unfold scheduler_run. pose proof (next_evolves 0 s) as H0. destruct (get_next_process 0 s) as [p s0]. cbn in H0. intros E. etrans; [exact H0|].
  assert (exists q s1, (if p =? -1 then get_next_process 1 s0 else (p, s0)) = (q, s1) /\ evolves s0 s1) as (q & s1 & E1 & H1).
  { destruct (p =? -1); [|by exists p, s0]. pose proof (next_evolves 1 s0). destruct (get_next_process 1 s0) as [q s1]. by eauto. }
  rewrite E1 in E. apply bind_Ok in E as (s2 & E2 & E). etrans; [exact H1|]. etrans; [by eapply save_evolves|].
  unfold run_process in E. by apply bind_Ok in E as (item & _ & [= _ <-]).
Qed.

Lemma emit_evolves ev s : evolves s (scheduler_emit_event ev s).
Proof.
  split; [apply emit_pids|]. rewrite emit_event_eq; cbn. destruct (recorded ev); [by apply prefix_app_r|done].
Qed.

Lemma exit_evolves c s c' s' : scheduler_exit c s = Ok (c', s') -> evolves s s'.
Proof.
  unfold scheduler_exit. intros E. apply bind_Ok in E as ([c1 s1] & E1 & E).
  assert (H1 : evolves s s1).
  { etrans; [apply (remove_evolves (current_pid s) 0)|]. etrans; [apply (remove_evolves (current_pid s) 1)|]. by eapply run_evolves. }
  etrans; [exact H1|]. destruct (negb _); [|by injection E as _ <-]. apply bind_Ok in E as (s2 & E2 & [= _ <-]).
  apply update_evolves in E2; [|done]. etrans; [exact E2|apply emit_evolves].
Qed.

Lemma kill_evolves c p s r c' s' : scheduler_kill c p s = Ok (r, c', s') -> evolves s s'.
Proof.
  unfold scheduler_kill. intros E. apply bind_Ok in E as ([c1 s1] & E1 & E). apply bind_Ok in E as (s2 & E2 & [= _ _ <-]).
  etrans; [apply (remove_evolves p 0)|]. etrans; [apply (remove_evolves p 1)|]. etrans; [by eapply run_evolves|].
  apply update_evolves in E2; [|done]. etrans; [exact E2|apply emit_evolves].
Qed.

Lemma block_evolves c ev s r c' s' : scheduler_block_process c ev s = Ok (r, c', s') -> evolves s s'.
Proof.
  unfold scheduler_block_process. intros E. apply bind_Ok in E as (s1 & E1 & E). apply bind_Ok in E as (s2 & E2 & E).
  apply bind_Ok in E as (s3 & E3 & E). apply bind_Ok in E as ([c4 s4] & E4 & [= _ _ <-]).
  etrans; [by eapply save_evolves|]. apply update_evolves in E2; [|done]. apply update_evolves in E3; [|done].
  etrans; [exact E2|]. etrans; [exact E3|].
  etrans; [apply (remove_evolves (current_pid s3) 0)|]. etrans; [apply (remove_evolves (current_pid s3) 1)|].
  etrans; [apply emit_evolves|]. by eapply run_evolves.
Qed.

Lemma setpriority_evolves c p priority s : evolves s (scheduler_setpriority c p priority s).2.
Proof. cbn. unfold set_priority. etrans; [apply remove_evolves|apply add_evolves]. Qed.

Lemma exec_evolves c function argc argv s r c' s' : scheduler_exec c function argc argv s = Ok (r, c', s') -> evolves s s'.
Proof.
  unfold scheduler_exec. intros E. apply bind_Ok in E as (s1 & E1 & E). apply bind_Ok in E as (s2 & E2 & [= _ _ <-]).
  apply update_evolves in E2; [|done]. etrans; [by eapply save_evolves|exact E2].
Qed.

Lemma fork_events c stack_pointer fp s r s' : scheduler_fork c stack_pointer fp s = Ok (r, s') -> events_head s `prefix_of` events_head s'.
Proof.
  unfold scheduler_fork. destruct (_ <? 1); [by intros [= _ <-]|]. cbn [get_new_pid set_stack_break]. intros E.
  apply bind_Ok in E as (parent & _ & [= _ <-]). etrans; [|apply emit_evolves].
  unfold set_priority. etrans; [|apply add_evolves]. etrans; [|apply remove_evolves]. done.
Qed.

Lemma fork_current c stack_pointer fp s r s' : scheduler_fork c stack_pointer fp s = Ok (r, s') -> current_pid s' = current_pid s.
Proof.
  unfold scheduler_fork. destruct (_ <? 1); [by intros [= _ <-]|]. cbn [get_new_pid set_stack_break]. intros E.
  apply bind_Ok in E as (parent & _ & [= _ <-]). by rewrite emit_event_eq.
Qed.

Section Calls.
Context `{BlockDevice D} `{Board U} (turns depth limit : nat).
Abbreviation kernel := (kernel D U).

Lemma svc_process_evolves id garbage c (k : kernel) c' k' :
  id <> 2 -> id ∈ process_calls -> svc_process id garbage c k = Ok (c', k') -> evolves (scheduler k) (scheduler k').
Proof.
  intros H2 Hid E. unfold process_calls in Hid. rewrite !elem_of_cons, elem_of_nil in Hid.
  destruct Hid as [-> |[->|[->|[->|[->|[->|[->|[->|[]]]]]]]]]; cbn [svc_process] in E.
  - apply bind_Ok in E as ([c1 s1] & E1 & [= _ <-]). by eapply exit_evolves.
  - done.
  - destruct (negb _); [by injection E as _ <-|]. apply bind_Ok in E as ([[r c1] s1] & E1 & [= _ <-]). by eapply block_evolves.
  - by injection E as _ <-.
  - destruct (_ =? SIGKILL); [|by injection E as _ <-]. apply bind_Ok in E as ([[r c1] s1] & E1 & [= _ <-]). by eapply kill_evolves.
  - injection E as _ <-. apply (setpriority_evolves c).
  - apply bind_Ok in E as ([c1 s1] & E1 & [= _ <-]). by eapply run_evolves.
  - apply bind_Ok in E as ([[r c1] s1] & E1 & [= _ <-]). by eapply exec_evolves.
Qed.

(** Calls of the file system and messages leave the processes alone and give at
    most a result. *)
Definition apart (c : ctx_t) (k : kernel) (c' : ctx_t) (k' : kernel) : Prop :=
  (c' = c \/ exists r, c' = return_value r c) /\
  process_list (scheduler k') = process_list (scheduler k) /\ events_head (scheduler k') = events_head (scheduler k) /\
  current_pid (scheduler k') = current_pid (scheduler k).

Lemma svc_file_apart id place c (k : kernel) c' k' :
  id ∈ file_calls -> svc_file turns depth limit id place c k = Ok (c', k') -> apart c k c' k'.
Proof.
  assert (Hr : forall r (k' : kernel), process_list (scheduler k') = process_list (scheduler k) ->
    events_head (scheduler k') = events_head (scheduler k) -> current_pid (scheduler k') = current_pid (scheduler k) ->
    apart c k (return_value r c) k') by (split; eauto).
  intros Hid E. unfold file_calls in Hid. rewrite !elem_of_cons, elem_of_nil in Hid.
  destruct Hid as [->|[->|[->|[->|[->|[->|[->|[->|[->|[->|[->|[->|[]]]]]]]]]]]]]; cbn [svc_file] in E.
  - apply bind_Ok in E as ([[[r b] f1] d1] & _ & [= <- <-]). by apply Hr.
  - apply bind_Ok in E as ([[[r b] f1] d1] & _ & [= <- <-]). by apply Hr.
  - apply bind_Ok in E as ([[r f1] d1] & _ & [= <- <-]). by apply Hr.
  - destruct (sys_close _ _). injection E as <- <-. by apply Hr.
  - apply bind_Ok in E as ([r d1] & _ & [= <- <-]). by apply Hr.
  - apply bind_Ok in E as ([[r f1] d1] & _ & [= <- <-]). by apply Hr.
  - apply bind_Ok in E as ([[r [e|]] d1] & _ & [= <- <-]); by apply Hr.
  - destruct (sys_lseek _ _ _ _). injection E as <- <-. by apply Hr.
  - destruct (sys_fstat _ _) as [r [e|]]; injection E as <- <-; by apply Hr.
  - apply bind_Ok in E as ([r d1] & _ & [= <- <-]). by apply Hr.
  - apply bind_Ok in E as ([[l|] d1] & _ & [= <- <-]); by apply Hr.
  - apply bind_Ok in E as (b & _ & [= <- <-]). by apply Hr.
Qed.

Lemma svc_message_apart id place garbage c (k : kernel) c' k' :
  svc_message id place garbage c k = Ok (c', k') -> apart c k c' k'.
Proof.
  assert (Hr : forall r (k' : kernel), process_list (scheduler k') = process_list (scheduler k) ->
    events_head (scheduler k') = events_head (scheduler k) -> current_pid (scheduler k') = current_pid (scheduler k) ->
    apart c k (return_value r c) k') by (split; eauto).
  intros E. destruct (decide (id ∈ [1001; 1002; 1003; 1004])) as [Hid|Hid]; rewrite !elem_of_cons, elem_of_nil in Hid.
  - destruct Hid as [->|[->|[->|[->|[]]]]]; cbn [svc_message] in E.
    + apply bind_Ok in E as (l & _ & [= <- <-]). by apply Hr.
    + apply bind_Ok in E as ([[r b] l] & _ & [= <- <-]). by apply Hr.
    + apply bind_Ok in E as ([[r b] l] & _ & [= <- <-]). by apply Hr.
    + injection E as <- <-. by apply Hr.
  - assert (svc_message id place garbage c k = Ok (c, k)) as E2; [|rewrite E2 in E; injection E as <- <-; by split; [left|]].
    unfold svc_message. repeat (case_match; subst; try done; try tauto).
Qed.

Lemma apart_evolves c k c' k' : apart c k c' k' -> evolves (scheduler k) (scheduler k').
Proof. intros (_ & Ep & Ee & _). split; [unfold pids; by rewrite Ep|by rewrite Ee]. Qed.

Lemma svc_evolves id place garbage c (k : kernel) c' k' :
  id <> 2 -> kernel_handler_svc turns depth limit id place garbage c k = Ok (c', k') -> evolves (scheduler k) (scheduler k').
Proof.
  intros H2. unfold kernel_handler_svc. destruct (decide _); [by apply svc_process_evolves|]. intros E. apply apart_evolves with c c'. destruct (decide _); [by eapply svc_file_apart|by eapply svc_message_apart].
Qed.

Lemma irq_evolves c (k : kernel) c' k' : kernel_handler_irq c k = Ok (c', k') -> evolves (scheduler k) (scheduler k').
Proof.
  unfold kernel_handler_irq. destruct (reg_read _ _) as [id u]. intros E. apply bind_Ok in E as ([c1 k1] & E & [= _ <-]).
  unfold irq_source in E. destruct (id =? GIC_SOURCE_TIMER0).
  - apply bind_Ok in E as ([c2 s2] & E2 & [= _ <-]). by eapply run_evolves in E2.
  - destruct (id =? GIC_SOURCE_UART0); [|by injection E as _ <-]. by apply bind_Ok in E as ([ch v] & _ & [= _ <-]).
Qed.

Lemma svc_fork place garbage c (k : kernel) c' k' :
  kernel_ok k -> next_pid (scheduler k) + 1 < 2 ^ 31 -> kernel_handler_svc turns depth limit 2 place garbage c k = Ok (c', k') ->
  pids (scheduler k') = pids (scheduler k) ++ [next_pid (scheduler k)] /\ current_pid (scheduler k') = current_pid (scheduler k) /\
  events_head (scheduler k) `prefix_of` events_head (scheduler k').
Proof.
  intros Hk Hn E. unfold kernel_handler_svc in E. rewrite decide_True in E by by apply (bool_decide_unpack _). cbn [svc_process] in E.
  apply bind_Ok in E as ([r s1] & E1 & [= _ <-]). pose proof (fork_events _ _ _ _ _ _ E1) as He.
  destruct (fork_full c (get_gpr 0 c) (get_gpr 1 c) _ (ko_sched k Hk) Hn) as (s2 & parent & E2 & _ & _ & Hp & Hc & _).
  rewrite E2 in E1. by injection E1 as _ ->.
Qed.

Lemma svc_events id place garbage c (k : kernel) c' k' :
  kernel_handler_svc turns depth limit id place garbage c k = Ok (c', k') -> events_head (scheduler k) `prefix_of` events_head (scheduler k').
Proof.
  intros E. destruct (decide (id = 2)) as [->|Hne]; [|by apply (svc_evolves _ _ _ _ _ _ _ Hne E)].
  unfold kernel_handler_svc in E. rewrite decide_True in E by by apply (bool_decide_unpack _). cbn [svc_process] in E.
  apply bind_Ok in E as ([r s1] & E1 & [= _ <-]). by eapply fork_events.
Qed.
End Calls.

(** ** The system *)

(** What a process has still to do: code to run, or, once it has made a
    supervisor call, what follows the instruction [mov %0, r0] after the [svc]
    (syscall.c): until it has the processor again and gets to it, [r0] can
    change. *)
Inductive thread :=
| Running (t : code unit)
| Awaiting (k : Z -> code unit).

(** The kinds of step. *)
Ltac step_cases Hst :=
  destruct Hst as [S S' [s ths t t' Ht Ho|s ths t X e k b s' Ht Ho Hs|s ths k Ht|s ths t id args k place garbage c ker ths1 ths' Ht Ho Hpl Ha He Hc Hh]|s ths u|s ths c ker He]; cbn in *.

Section System.
Context `{BlockDevice D} `{Board U} (turns depth limit : nat) (slack : Z).
Context (code_at : Z -> option (Z -> Z -> code unit)).
Abbreviation ustate := (ustate D U).
Abbreviation current s := (current_pid (scheduler (ukernel s))).

Record system := Sys {
  machine : ustate;
  threads : gmap Z thread
}.

(** The answers to the requests that are not supervisor calls. *)
Definition serves {X} (e : userE X) (s : ustate) : X -> ustate -> Prop :=
  match e in userE X return X -> ustate -> Prop with
  | Svc _ _ => fun _ _ => False
  | Load p n => fun b s' => b = peek (umemory s) p n /\ s' = s
  | Text p => fun b s' => b = c_string limit (umemory s) p /\ s' = s
  | Store p l => fun _ s' => s' = with_umemory (poke (umemory s) p l) s
  | Allocate n => fun p s' => exists h, grown slack (uheap s) h /\ p = (stdmem_allocate n h).1 /\ s' = with_uheap (stdmem_allocate n h).2 s
  | Local n => fun a s' => on_stack (uheap s) a n /\ s' = s
  | Garbage => fun _ s' => s' = s
  | FramePointer => fun v s' => v = get_gpr 11 (uctx s) /\ s' = s
  | StackPointer => fun v s' => v = sp (uctx s) /\ s' = s
  | Nodes p => fun l s' => snd <$> list_find (fun x => x.1 = p) (lists (ukernel s)) = Some (p, l) /\ s' = s
  | NodeAt e => fun p s' => exists h, grown slack (uheap s) h /\ p = (stdmem_allocate sizeof_node h).1 /\
      s' = with_uheap (stdmem_allocate sizeof_node h).2 (with_umemory (poke (umemory s) p (entry_bytes e)) s)
  | Fault _ => fun _ _ => False
  end.

(** The threads once the current process has made the call [id]: a child is a
    copy of its parent, and [exec] puts other code in the place of the caller's. *)
Definition called (id : Z) (args : list Z) (s : ustate) (k : Z -> code unit) (ths : gmap Z thread) : option (gmap Z thread) :=
  if id =? 2 then Some (<[next_pid (scheduler (ukernel s)) := Awaiting k]> (<[current s := Awaiting k]> ths))
  else if id =? 1000 then
    program ← code_at (default 0 (args !! 0%nat));
    Some (<[current s := Running (program (i32 (default 0 (args !! 1%nat))) (default 0 (args !! 2%nat)))]> ths)
  else Some (<[current s := Awaiting k]> ths).

(** The calls that put their result in [r0] after a switch: [waitpid], which
    blocks, and [kill] (kernel.c, [case 7] and [case 37]). *)
Definition late_results : list Z := [7; 37].

(** A call of these that hands the processor to another process writes to that
    process's [r0]. If it was stopped between two instructions of its code, and
    not at the [mov] after an [svc], the code may have lost a value: nothing is
    known of how it goes on. *)
Definition handed (id : Z) (s : ustate) (ker : kernel D U) (ths ths' : gmap Z thread) : Prop :=
  ths' = ths \/
  id ∈ late_results /\ current_pid (scheduler ker) <> current s /\
  exists t t', ths !! current_pid (scheduler ker) = Some (Running t) /\ ths' = <[current_pid (scheduler ker) := Running t']> ths.

(** A step of the process that has the processor. *)
Inductive own_step : system -> system -> Prop :=
| sys_tau s ths t t' :
    ths !! current s = Some (Running t) -> observe t = TauF t' -> own_step (Sys s ths) (Sys s (<[current s := Running t']> ths))
| sys_local s ths t X (e : userE X) k b s' :
    ths !! current s = Some (Running t) -> observe t = VisF e k -> serves e s b s' ->
    own_step (Sys s ths) (Sys s' (<[current s := Running (k b)]> ths))
| sys_take s ths k :
    ths !! current s = Some (Awaiting k) -> own_step (Sys s ths) (Sys s (<[current s := Running (k (get_gpr 0 (uctx s)))]> ths))
| sys_svc s ths t id args k place garbage c ker ths1 ths' :
    ths !! current s = Some (Running t) -> observe t = VisF (Svc id args) k -> is_word place ->
    allowed id (load_args 0 args (uctx s)) (ukernel s) ->
    kernel_handler_svc turns depth limit id place garbage (load_args 0 args (uctx s)) (ukernel s) = Ok (c, ker) ->
    called id args s k ths = Some ths1 -> handed id s ker ths1 ths' ->
    own_step (Sys s ths) (Sys (UState c ker (uheap s)) ths').

(** The devices and the interrupts do not wait for it. *)
Inductive sys_step : system -> system -> Prop :=
| sys_own S S' : own_step S S' -> sys_step S S'
| sys_devices s ths u :
    sys_step (Sys s ths) (Sys (UState (uctx s) (with_devices u (ukernel s)) (uheap s)) ths)
| sys_irq s ths c ker :
    kernel_handler_irq (uctx s) (ukernel s) = Ok (c, ker) -> sys_step (Sys s ths) (Sys (UState c ker (uheap s)) ths).

(** From reset on: the shell is the first process. *)
Inductive sys_reachable (sh : code unit) : system -> Prop :=
| sys_reset entry_sh root_path c k c' k' h :
    powered_on k -> kernel_handler_rst turns depth limit entry_sh root_path c k = Ok (c', k') ->
    sys_reachable sh (Sys (UState c' k' h) {[current_pid (scheduler k') := Running sh]})
| sys_more S S' : sys_reachable sh S -> sys_step S S' -> sys_reachable sh S'.

(** The kernel's invariant, and every process has code. *)
Record sys_ok (S : system) : Prop := {
  so_kernel : kernel_ok (ukernel (machine S));
  so_threads : forall p, p ∈ pids (scheduler (ukernel (machine S))) -> is_Some (threads S !! p)
}.

Lemma serves_kernel {X} (e : userE X) s b s' :
  serves e s b s' -> uctx s' = uctx s /\ exists m, ukernel s' = with_user m (ukernel s).
Proof.
  assert (Hid : forall k : kernel D U, exists m, k = with_user m k).
  { intros [[] ? ? ? ? ?]. by eexists. }
  destruct e; cbn; try done; intros Hs;
    repeat match goal with Hs : _ /\ _ |- _ => destruct Hs | Hs : exists _, _ |- _ => destruct Hs end; subst; cbn; (split; [done|]);
    try by apply Hid. all: by eexists.
Qed.

Lemma called_dom id args s k ths ths' p :
  called id args s k ths = Some ths' -> is_Some (ths !! p) \/ (id = 2 /\ p = next_pid (scheduler (ukernel s))) -> is_Some (ths' !! p).
Proof.
  unfold called. destruct (Z.eqb_spec id 2) as [->|Hid].
  - intros [= <-] Hp. destruct (decide (next_pid (scheduler (ukernel s)) = p)) as [<-|Hne]; [by rewrite lookup_insert_eq; eexists|].
    rewrite lookup_insert_ne by done. destruct Hp as [Hp|[_ ->]]; [|done]. by apply lookup_insert_is_Some'; right.
  - intros E [Hp|[-> _]]; [|done]. destruct (id =? 1000); [apply bind_Some in E as (program & _ & [= <-])|injection E as <-];
      by apply lookup_insert_is_Some'; right.
Qed.

Lemma handed_dom id s ker ths ths' p : handed id s ker ths ths' -> is_Some (ths !! p) -> is_Some (ths' !! p).
Proof. intros [-> |(_ & _ & t & t' & _ & ->)] Hp; [done|]. by apply lookup_insert_is_Some'; right. Qed.

(** A call that is neither, or does not switch, leaves the threads alone. *)
Lemma handed_same id s ker ths ths' : id ∉ late_results \/ current_pid (scheduler ker) = current s -> handed id s ker ths ths' -> ths' = ths.
Proof. intros Hno [-> |(Hid & Hc & _)]; [done|]. by destruct Hno. Qed.

Lemma handed_other id s ker ths ths' p :
  handed id s ker ths ths' -> ths' !! p = ths !! p \/ id ∈ late_results /\ current_pid (scheduler ker) = p /\ current s <> p.
Proof.
  intros [-> |(Hid & Hc & t & t' & _ & ->)]; [by left|]. destruct (decide (current_pid (scheduler ker) = p)) as [<-|Hne]; [right|left; by apply lookup_insert_ne].
  split; [done|]. split; [done|congruence].
Qed.

Lemma step_ok S S' : sys_ok S -> sys_step S S' -> sys_ok S'.
Proof.
  intros [Hk Hth] Hst. step_cases Hst.
  - split; [done|intros p Hp; by apply lookup_insert_is_Some'; right; apply Hth].
  - destruct (serves_kernel e s b s' Hs) as (_ & m & Em). split; cbn; rewrite ?Em.
    + by apply ok_with_user.
    + intros p Hp. apply lookup_insert_is_Some'. right. by apply Hth.
  - split; [done|intros p Hp; by apply lookup_insert_is_Some'; right; apply Hth].
  - split; cbn; [by eapply svc_ok|]. intros p Hp. eapply handed_dom; [exact Hh|]. eapply called_dom; [exact Hc|].
    destruct (decide (id = 2)) as [->|Hne].
    + destruct (svc_fork turns depth limit place garbage _ _ _ _ Hk (proj1 Ha eq_refl) He) as (Ep & _). rewrite Ep in Hp.
      apply elem_of_app in Hp as [Hp|Hp]; [left; by apply Hth|right; by apply list_elem_of_singleton in Hp].
    + left. apply Hth. by rewrite <- (ev_pids _ _ (svc_evolves turns depth limit _ _ _ _ _ _ _ Hne He)).
  - split; [by apply ok_with_devices|done].
  - split; cbn; [by eapply irq_ok|]. intros p Hp. apply Hth. by rewrite <- (ev_pids _ _ (irq_evolves _ _ _ _ He)).
Qed.

(** The system is a machine whose user code is that of the processes. *)
Lemma step_machine S S' : sys_step S S' ->
  rtc (step turns depth limit) (uctx (machine S), ukernel (machine S)) (uctx (machine S'), ukernel (machine S')).
Proof.
  intros Hst. step_cases Hst.
  - done.
  - destruct (serves_kernel e s b s' Hs) as (-> & m & ->). apply rtc_once, step_user.
  - done.
  - eapply rtc_l; [apply (step_user _ _ _ _ (load_args 0 args (uctx s)) (user (ukernel s)))|].
    assert (with_user (user (ukernel s)) (ukernel s) = ukernel s) as -> by by destruct (ukernel s) as [[] ? ? ? ? ?].
    by apply rtc_once; eapply step_svc.
  - apply rtc_once, step_devices.
  - by apply rtc_once; eapply step_irq.
Qed.

Lemma initialise_pids entry_sh c s c' s' : scheduler_initialise entry_sh c s = Ok (c', s') -> pids s' = [current_pid s'].
Proof.
  unfold scheduler_initialise. cbn [get_new_pid set_stack_break]. unfold run_process. intros E. by apply bind_Ok in E as (item & _ & [= _ <-]).
Qed.

Lemma reset_pids entry_sh root_path c (k : kernel D U) c' k' :
  kernel_handler_rst turns depth limit entry_sh root_path c k = Ok (c', k') -> pids (scheduler k') = [current_pid (scheduler k')].
Proof.
  intros (c1 & s1 & k1 & E1 & E2 & ->)%rst_inv. apply initialise_pids in E1. apply bind_Ok in E2 as ([f1 d1] & _ & [= <-]).
  exact E1.
Qed.

Lemma reachable_sys_ok sh S : sys_reachable sh S -> sys_ok S.
Proof.
  induction 1 as [entry_sh root_path c k c' k' h Hp E|S S' _ IH Hst]; [|by eapply step_ok]. split; cbn.
  - by eapply rst_ok.
  - intros p Hin. rewrite (reset_pids _ _ _ _ _ _ E) in Hin. apply list_elem_of_singleton in Hin as ->. rewrite lookup_singleton_eq. by eexists.
Qed.

Lemma sys_machine sh S : sys_reachable sh S -> reachable turns depth limit (uctx (machine S), ukernel (machine S)).
Proof.
  induction 1 as [entry_sh root_path c k c' k' h Hp E|S S' HS IH Hst]; [by eapply reach_reset|].
  pose proof (step_machine S S' Hst) as Hr. remember (uctx (machine S), ukernel (machine S)) as st. clear Heqst Hst.
  remember (uctx (machine S'), ukernel (machine S')) as st'. clear Heqst'. induction Hr as [st|st1 st2 st3 H12 _ IH2]; [done|].
  apply IH2. by eapply reach_step.
Qed.
End System.
