(* ===== verification/Sharing.v ===== *)
(** * Sharing the machine

    A process among others: interrupts take the processor from it, keys are
    typed, and other processes take quiet steps: they compute, read keys, write
    to their stacks, fork, exit, send messages and so on. What such a process
    sees, its context, its memory, the files, the console, stays as it is, and
    its own calls of the file system do what they would do alone. *)
From S2P Require Import Prelude Mem Tailq Strings Scheduler Stream Ipc Uart Devices Disk Fat16 Directory Paths FileSys Descriptors Kernel Machine Syscalls Process System Bystander.

(** ** Memory below the stacks *)
Lemma peek_agree top m m' p n : agree top m m' -> 0 <= p -> p + n <= top < 2 ^ 32 -> peek m' p n = peek m p n.
Proof.
  intros Hm Hp Hn. unfold peek. apply list_fmap_ext. intros i x Hx. apply lookup_seqZ in Hx as [-> Hi]. rewrite u32_small by lia. apply Hm. lia.
Qed.

Lemma c_string_agree top m m' a n : agree top m m' -> 0 <= n -> 0 <= a -> a + n + 1 <= top < 2 ^ 32 -> m (a + n) = 0 ->
  forall limit, c_string limit m' a = c_string limit m a.
Proof.
  intros Hm Hn Ha Htop Hz limit. revert a n Hn Ha Htop Hz. induction limit as [|limit IH]; intros a n Hn Ha Htop Hz; [done|]. cbn [c_string].
  rewrite u32_small, Hm by lia. destruct (Z.eqb_spec (m a) 0) as [|Hne]; [done|]. f_equal. apply (IH _ (n - 1)); [|lia..|by replace (a + 1 + (n - 1)) with (a + n) by lia].
  destruct (decide (n = 0)) as [->|]; [by rewrite Z.add_0_r in Hz|lia].
Qed.

Lemma poke_agree top m m' p l : agree top m m' -> agree top (poke m p l) (poke m' p l).
Proof. intros Hm a Ha. unfold poke. by rewrite Hm. Qed.

Lemma poke_above top m m' p l : agree top m m' -> top <= p -> p + zlength l <= 2 ^ 32 -> 0 <= top -> agree top m (poke m' p l).
Proof. intros Hm Hp Hl Htop a Ha. rewrite poke_below; [by apply Hm|split; lia|lia]. Qed.

(** ** Calls of the file system with other characters on standard input *)
Section Calls.
Context `{BlockDevice D} (turns depth : nat) (mem mem' : Z -> list Z).

Definition with_keys {A} (b : list Z) (m : outcome (A * files * D)) : outcome (A * files * D) :=
  '(r, f, d) ← m; Ok (r, with_stdin b f, d).

Lemma open_file_keys a f d b : mem' a = mem a -> open_file turns depth mem' a (with_stdin b f) d = with_keys b (open_file turns depth mem a f d).
Proof.
  intros E. unfold open_file, with_keys. rewrite E. cbn [fs with_stdin]. destruct (get_root_dir (fs f) d) as [[root d1]|]; [|done]; ok_bind.
  destruct (buf_get (mem a) 0) as [c|]; [|done]; ok_bind. destruct (negb (c =? SLASH)); [done|].
  destruct (buf_get (mem a) 1) as [c1|]; [|done]; ok_bind. destruct (c1 =? 0); [done|].
  destruct (find_file turns (fs f) depth (drop 1 (mem a)) root d1) as [[[file|] d2]|]; done.
Qed.

Lemma create_new_file_keys a attr f d b : mem' a = mem a -> create_new_file turns depth mem' a attr (with_stdin b f) d = create_new_file turns depth mem a attr f d.
Proof. intros E. unfold create_new_file. by rewrite E. Qed.

Lemma update_file_details_keys a e n x f d b :
  mem' a = mem a -> update_file_details turns depth mem' a e n x (with_stdin b f) d = update_file_details turns depth mem a e n x f d.
Proof. intros E. unfold update_file_details. by rewrite E. Qed.

Lemma sys_open_keys a flags f d b :
  mem' a = mem a -> find_open_file mem' a (open_files f) = find_open_file mem a (open_files f) ->
  sys_open turns depth mem' a flags (with_stdin b f) d = with_keys b (sys_open turns depth mem a flags f d).
Proof.
  intros Ea El. unfold sys_open. cbn [open_files with_stdin]. rewrite El. destruct (find_open_file mem a (open_files f)) as [[i|]|]; [| |done]; ok_bind.
  - unfold with_keys. cbn [open_files with_stdin update_open with_open_files]. by destruct (deref_opt _).
  - rewrite open_file_keys by done. destruct (open_file turns depth mem a f d) as [[[[i|] f1] d1]|]; [| |done]; unfold with_keys; ok_bind.
    + cbn [open_files with_stdin update_open with_open_files]. by destruct (deref_opt _).
    + destruct (negb (Z.land flags O_CREAT =? 0)); [|done]. rewrite create_new_file_keys by done.
      destruct (create_new_file turns depth mem a 0 f1 d1) as [[r d2]|]; [|done]; ok_bind. destruct (r =? -1); [done|].
      rewrite open_file_keys by done. destruct (open_file turns depth mem a f1 d2) as [[[[i|] f2] d3]|]; [|done..]. unfold with_keys; ok_bind.
      cbn [open_files with_stdin update_open with_open_files]. by destruct (deref_opt _).
Qed.

Lemma sys_unlink_keys a f d b :
  mem' a = mem a -> find_open_file mem' a (open_files f) = find_open_file mem a (open_files f) ->
  sys_unlink turns depth mem' a (with_stdin b f) d = sys_unlink turns depth mem a f d.
Proof.
  intros Ea El. unfold sys_unlink. cbn [open_files with_stdin fs]. rewrite El, Ea. destruct (find_open_file mem a (open_files f)) as [[i|]|]; [done| |done]; ok_bind.
  destruct (buf_get (mem a) 0) as [c|]; [|done]; ok_bind. destruct (negb _); [done|].
  destruct (get_root_dir (fs f) d) as [[root d1]|]; [|done]; ok_bind.
  destruct (find_file turns (fs f) depth (drop 1 (mem a)) root d1) as [[[file|] d2]|]; [|done..]; ok_bind.
  destruct (stdmem_copy _ _ _ _ _) as [old|]; [|done]; ok_bind. destruct (buf_set _ _ _) as [name|]; [|done]; ok_bind.
  by rewrite update_file_details_keys.
Qed.

Lemma sys_mkdir_keys a f d b : mem' a = mem a -> sys_mkdir turns depth mem' a (with_stdin b f) d = sys_mkdir turns depth mem a f d.
Proof. intros E. unfold sys_mkdir, create_new_file. by rewrite E. Qed.

Lemma sys_write_keys n buf nbytes con f d b :
  (n = STDOUT_FILEDESC \/ forall i o, find_open_file_by_fd n (open_files f) = Some i -> open_files f !! i = Some o -> mem' (path o) = mem (path o)) ->
  sys_write turns depth mem' n buf nbytes con (with_stdin b f) d =
    '(r, con, f, d) ← sys_write turns depth mem n buf nbytes con f d; Ok (r, con, with_stdin b f, d).
Proof.
  intros Hn. unfold sys_write. cbn [open_files with_stdin fs]. destruct (Z.eqb_spec n STDOUT_FILEDESC) as [->|Hne].
  - by destruct (for_loop _ _ _ _).
  - destruct Hn as [|Hn]; [done|]. destruct (find_open_file_by_fd n (open_files f)) as [i|]; [|done].
    destruct (open_files f !! i) as [o|] eqn:Ei; [|done]. specialize (Hn i o eq_refl Ei). cbn [deref_opt]. ok_bind.
    destruct (is_subdirectory _); [done|]. set (o1 := if append o then _ else o).
    assert (Ho1 : path o1 = path o) by (unfold o1; by destruct (append o)).
    destruct (write_to_file turns (fs f) (directory_entry o1) (u32 (offset o1)) buf nbytes d) as [[r d1]|]; [|done]; ok_bind.
    destruct (i32 r <? 0); [done|]. destruct (_ >? _); [|done].
    set (o2 := with_entry _ o1). change (update_open i (fun _ => o2) (with_stdin b f)) with (with_stdin b (update_open i (fun _ => o2) f)).
    rewrite update_file_details_keys by (cbn; by rewrite Ho1). by destruct (update_file_details _ _ _ _ _ _ _ _ _) as [[r2 d2]|].
Qed.
End Calls.

Section Streams.
Context `{BlockDevice D} (turns : nat).

Lemma sys_read_keys n buf nbytes f d b : n <> STDIN_FILEDESC ->
  sys_read turns n buf nbytes (with_stdin b f) d = '(r, buf, f, d) ← sys_read turns n buf nbytes f d; Ok (r, buf, with_stdin b f, d).
Proof.
  intros Hn. unfold sys_read. destruct (Z.eqb_spec n STDIN_FILEDESC); [done|]. cbn [open_files with_stdin fs].
  destruct (find_open_file_by_fd n (open_files f)) as [i|]; [|done]. destruct (deref_opt _) as [o|]; [|done]; ok_bind.
  destruct (_ <? 2); [done|]. destruct (read_from_file _ _ _ _ _ _ _) as [[[x r] d1]|]; [|done]; ok_bind. by destruct (_ <? 0).
Qed.

Lemma sys_close_keys n f b : sys_close n (with_stdin b f) = let '(r, f) := sys_close n f in (r, with_stdin b f).
Proof. unfold sys_close. cbn [open_files with_stdin]. by destruct (find_open_file_by_fd n (open_files f)). Qed.

Lemma sys_lseek_keys n off whence f b : sys_lseek n off whence (with_stdin b f) = let '(r, f) := sys_lseek n off whence f in (r, with_stdin b f).
Proof.
  unfold sys_lseek. cbn [open_files with_stdin]. destruct (find_open_file_by_fd n (open_files f)); [|done].
  destruct (whence =? SEEK_SET); [done|]. destruct (whence =? SEEK_CUR); [done|]. by destruct (whence =? SEEK_END).
Qed.
End Streams.

(** ** Two kernels that look the same to a process *)
Section Alike.
Context `{BlockDevice D} `{Board U} (turns depth limit : nat).
Abbreviation kernel := (kernel D U).
Abbreviation ustate := (ustate D U).

(** The scheduler, the devices and the messages may differ, and so may the
    characters that wait on standard input and the stacks, from [top] on. *)
Record alike (top : Z) (k k' : kernel) : Prop := {
  al_memory : agree top (user k) (user k');
  al_console : console (scheduler k') = console (scheduler k);
  al_files : exists b, file_system k' = with_stdin b (file_system k);
  al_disk : disk k' = disk k;
  al_lists : lists k' = lists k
}.

(** The processes are the same. *)
Definition same_processes (k k' : kernel) : Prop :=
  process_list (scheduler k') = process_list (scheduler k) /\ current_pid (scheduler k') = current_pid (scheduler k) /\
  low_priority_queue (scheduler k') = low_priority_queue (scheduler k) /\ events_head (scheduler k') = events_head (scheduler k).

Lemma same_keys f : exists b, f = with_stdin b f.
Proof. exists (stdin_buffer f). by destruct f. Qed.

Lemma alike_refl top k : alike top k k.
Proof. split; try done. apply same_keys. Qed.

Lemma alike_trans top k1 k2 k3 : alike top k1 k2 -> alike top k2 k3 -> alike top k1 k3.
Proof.
  intros [M1 C1 [b1 F1] D1 L1] [M2 C2 [b2 F2] D2 L2]. split; [by etrans|congruence|exists b2; by rewrite F2, F1|congruence|congruence].
Qed.

Lemma alike_files top k k' f d b : alike top k k' -> alike top (with_files f d k) (with_files (with_stdin b f) d k').
Proof. intros [Hm Hc _ _ Hl]. split; try done. by exists b. Qed.

Lemma alike_user top k k' p l : alike top k k' -> alike top (with_user (poke (user k) p l) k) (with_user (poke (user k') p l) k').
Proof. intros [Hm Hc Hf Hd Hl]. split; try done. by apply poke_agree. Qed.

Lemma alike_console top k k' c : alike top k k' -> alike top (with_console c k) (with_console c k').
Proof. intros [Hm Hc Hf Hd Hl]. by split. Qed.

Lemma alike_list top k k' p l : alike top k k' -> alike top (with_list p l k) (with_list p l k').
Proof. intros [Hm Hc Hf Hd Hl]. split; try done. cbn. by rewrite Hl. Qed.

Lemma alike_string (s : ustate) k' a : alike (heap_top (uheap s)) (ukernel s) k' -> own_string s a -> strings limit k' a = strings limit (ukernel s) a.
Proof.
  intros [Hm _ _ _ _] (n & Hn & [Ha Htop] & Hz). eapply (c_string_agree _ _ _ a n Hm); [done|done|lia|done].
Qed.

Lemma alike_peek (s : ustate) k' p n : alike (heap_top (uheap s)) (ukernel s) k' -> own s p n -> peek (user k') p n = peek (user (ukernel s)) p n.
Proof. intros [Hm _ _ _ _] [Hp Htop]. by apply (peek_agree (heap_top (uheap s))). Qed.

Lemma alike_find (s : ustate) k' a l : alike (heap_top (uheap s)) (ukernel s) k' -> own_string s a -> own_paths limit s a l ->
  find_open_file (strings limit k') a l = find_open_file (strings limit (ukernel s)) a l.
Proof.
  intros Hk Ha. induction l as [|o l IH]; [done|]. intros [Ho Hl]. cbn [find_open_file]. rewrite !(alike_string s k') by done.
  destruct Hl as [Hc|Hl]; [unfold ustrings in Hc; by rewrite Hc|]. by rewrite IH.
Qed.

Lemma own_call_ids id c (s : ustate) : own_call limit id c s -> id ∈ [3; 4; 5; 6; 10; 19; 28; 39; 141].
Proof.
  destruct (decide (id ∈ [3; 4; 5; 6; 10; 19; 28; 39; 141])) as [|Hid]; [done|]. rewrite !not_elem_of_cons in Hid. unfold own_call.
  repeat (case_match; subst; try done; try tauto).
Qed.

(** The call gives the same, and what it leaves looks the same. *)
Lemma own_call_alike (s : ustate) id place c k' c1 k1 :
  own_call limit id c s -> alike (heap_top (uheap s)) (ukernel s) k' ->
  svc_file turns depth limit id place c (ukernel s) = Ok (c1, k1) ->
  exists k1', svc_file turns depth limit id place c k' = Ok (c1, k1') /\ alike (heap_top (uheap s)) k1 k1' /\ same_processes k' k1'.
Proof.
  intros Hown Hk E. pose proof (own_call_ids _ _ _ Hown) as Hid. pose proof Hk as [_ Hcon [b Hf] Hd Hl]. rewrite !elem_of_cons, elem_of_nil in Hid.
  destruct Hid as [->|[->|[->|[->|[->|[->|[->|[->|[->|[]]]]]]]]]]; cbn [svc_file own_call] in *; rewrite ?Hf, ?Hd, ?Hcon.
  - destruct Hown as [Hn Hb]. rewrite sys_read_keys, (alike_peek s k') by done. apply bind_Ok in E as ([[[r buf] f1] d1] & -> & [= <- <-]); ok_bind.
    eexists. split; [done|]. split; [|done]. by apply (alike_user _ (with_files f1 d1 (ukernel s)) (with_files (with_stdin b f1) d1 k')), alike_files.
  - destruct Hown as [Hb Hn]. rewrite (alike_peek s k') by done. rewrite (sys_write_keys turns depth (strings limit (ukernel s))).
    + apply bind_Ok in E as ([[[r con] f1] d1] & -> & [= <- <-]); ok_bind. eexists. split; [done|]. split; [|done]. by apply alike_console, alike_files.
    + destruct Hn as [|Hn]; [by left|right]. intros i o Hi Ho. apply (alike_string s k'); [done|by eapply Hn].
  - destruct Hown as [Ha Hl']. rewrite (sys_open_keys turns depth (strings limit (ukernel s))) by (by apply (alike_string s k') || by apply (alike_find s k')).
    apply bind_Ok in E as ([[r f1] d1] & -> & [= <- <-]). unfold with_keys; ok_bind. eexists. split; [done|]. split; [|done]. by apply alike_files.
  - rewrite sys_close_keys. destruct (sys_close _ _) as [r f1]. injection E as <- <-. eexists. split; [done|]. split; [|done]. by apply alike_files.
  - destruct Hown as [Ha Hl']. rewrite (sys_unlink_keys turns depth (strings limit (ukernel s))) by (by apply (alike_string s k') || by apply (alike_find s k')).
    apply bind_Ok in E as ([r d1] & -> & [= <- <-]); ok_bind. eexists. split; [done|]. split; [|done]. by apply alike_files.
  - rewrite sys_lseek_keys. destruct (sys_lseek _ _ _ _) as [r f1]. injection E as <- <-. eexists. split; [done|]. split; [|done]. by apply alike_files.
  - change (sys_fstat (i32 (get_gpr 0 c)) (with_stdin b (file_system (ukernel s)))) with (sys_fstat (i32 (get_gpr 0 c)) (file_system (ukernel s))).
    destruct (sys_fstat _ _) as [r [e|]]; injection E as <- <-; (eexists; split; [done|]; split; [|done]); [by apply alike_user|done].
  - rewrite (sys_mkdir_keys turns depth (strings limit (ukernel s))) by by apply (alike_string s k').
    apply bind_Ok in E as ([r d1] & -> & [= <- <-]); ok_bind. eexists. split; [done|]. split; [|done]. by apply alike_files.
  - change (sys_getdents turns (i32 (get_gpr 0 c)) (i32 (get_gpr 1 c)) (with_stdin b (file_system (ukernel s))) (disk (ukernel s)))
      with (sys_getdents turns (i32 (get_gpr 0 c)) (i32 (get_gpr 1 c)) (file_system (ukernel s)) (disk (ukernel s))).
    apply bind_Ok in E as ([[l|] d1] & -> & [= <- <-]); ok_bind; (eexists; split; [done|]; split; [|done]); [by apply alike_list, alike_files|by apply alike_files].
Qed.
End Alike.

(** ** What [p] does not notice *)
Section Unseen.
Context `{BlockDevice D} `{Board U} (p top : Z).
Abbreviation kernel := (kernel D U).

(** It has a place in the queue of the processes that can run. *)
Definition queued (k : kernel) : Prop := p ∈ low_priority_queue (scheduler k).

Definition unseen (st st' : ctx_t * kernel) : Prop :=
  queued st'.2 /\ context_in p st'.1 (scheduler st'.2) = context_in p st.1 (scheduler st.2) /\ alike top st.2 st'.2 /\
  (gone p (scheduler st'.2) -> gone p (scheduler st.2)).

Lemma queued_ready (k : kernel) : kernel_ok k -> queued k -> ready p (scheduler k).
Proof. intros Hk Hq. split; [done|]. by apply (wf_exact _ (ko_sched _ Hk)). Qed.

(** What the scheduler spares, in the kernel. *)
Lemma spared_unseen c (k : kernel) c' s' :
  kernel_ok k -> queued k -> spared p top (scheduler k) s' -> steady p (c, scheduler k) (c', s') -> unseen (c, k) (c', with_scheduler s' k).
Proof.
  intros Hk Hq Hs Hst. pose proof (queued_ready k Hk Hq) as Hr. destruct (Hs Hr) as ([Hl _] & Hn & Hm & Hg).
  destruct (Hst (ready_awake p _ Hr)) as [_ Hc]. split; [done|]. split; [done|]. split; [|exact Hg].
  split; [exact Hm|exact Hn|apply same_keys|done|done].
Qed.

Lemma unseen_alike st c' (k k' : kernel) :
  unseen st (c', k) -> scheduler k' = scheduler k -> alike top k k' -> unseen st (c', k').
Proof.
  intros (Hq & Hc & Ha & Hg) Es Hk. unfold unseen, queued. cbn in *. rewrite Es. split; [done|]. split; [done|]. split; [by eapply alike_trans|done].
Qed.

(** A call that leaves the processes alone. *)
Lemma same_unseen c c' (k k' : kernel) :
  queued k -> current_pid (scheduler k) <> p -> same_processes k k' -> alike top k k' -> unseen (c, k) (c', k').
Proof.
  intros Hq Hne (Ep & Ec & El & Ee) Ha. unfold unseen, queued, gone, context_in, proc, find_process. cbn. rewrite Ep, Ec, El, Ee, !decide_False by done. done.
Qed.

(** An interrupt. *)
Lemma irq_unseen c (k : kernel) c' k' : kernel_ok k -> queued k -> kernel_handler_irq c k = Ok (c', k') -> unseen (c, k) (c', k').
Proof.
  intros Hk Hq. unfold kernel_handler_irq. destruct (reg_read _ _) as [id u]. intros E. apply bind_Ok in E as ([c1 k1] & E & [= <- <-]).
  assert (Hu : forall (k : kernel) u, alike top k (with_devices u k)) by (intros k0 u0; split; try done; apply same_keys).
  unfold irq_source in E. destruct (id =? GIC_SOURCE_TIMER0).
  - apply bind_Ok in E as ([c2 s2] & E2 & [= <- <-]). eapply (unseen_alike _ _ (with_scheduler s2 k)); [|done|].
    { apply spared_unseen; [done|done|by eapply run_spared|by eapply run_steady]. } exact (Hu (with_scheduler s2 k) _).
  - assert (Hkeep : forall k', scheduler k' = scheduler k -> alike top k k' -> unseen (c, k) (c, k')).
    { intros k2 E2 Ha. eapply (unseen_alike _ _ k); [|done..]. split; [done|]. split; [done|]. split; [apply alike_refl|done]. }
    destruct (id =? GIC_SOURCE_UART0); [|injection E as <- <-; apply Hkeep; [done|exact (Hu k _)]].
    apply bind_Ok in E as ([ch v] & _ & [= <- <-]). apply Hkeep; [done|]. split; try done. by eexists.
Qed.
End Unseen.

(** ** What the kernel writes to a buffer has its length *)
Lemma for_loop_keeps {S} (P : S -> Prop) body : (forall j s s', P s -> body j s = Ok s' -> P s') ->
  forall n i s s', P s -> for_loop n i body s = Ok s' -> P s'.
Proof.
  intros Hb n. induction n as [|n IH]; intros i s s' Hs; cbn [for_loop]; [by intros [= <-]|].
  intros (s1 & E & E')%bind_Ok. eapply IH; [|exact E']. by eapply Hb.
Qed.

Lemma buf_set_length b i v b' : buf_set b i v = Ok b' -> length b' = length b.
Proof. unfold buf_set. case_decide; [|done]. intros [= <-]. apply length_insert. Qed.

Lemma copy_length dest doff src soff n b : stdmem_copy dest doff src soff n = Ok b -> length b = length dest.
Proof.
  apply (for_loop_keeps (fun b => length b = length dest)); [|done]. intros j s s' Hs (c & _ & E)%bind_Ok. by rewrite (buf_set_length _ _ _ _ E).
Qed.

Lemma read_stdin_length buf n stream b st : read_stdin buf n stream = Ok (b, st) -> length b = length buf.
Proof.
  intros E. change (length (b, st).1 = length buf). revert E. apply (for_loop_keeps (fun x : list Z * list Z => length x.1 = length buf)); [|done].
  intros j [b1 st1] [b2 st2] Hs. destruct (stdstream_pop_char st1) as [ch st3]. intros (b3 & E & [= <- _])%bind_Ok. cbn in *. by rewrite (buf_set_length _ _ _ _ E).
Qed.

Lemma receive_from_length buf n f t l r b l' : ipc_receive_message_from buf n f t l = Ok (r, b, l') -> length b = length buf.
Proof.
  revert r b l'. induction l as [|m l IH]; intros r b l'; cbn [ipc_receive_message_from]; [by intros [= _ <- _]|]. destruct (_ && _).
  - intros (b1 & E & [= _ <- _])%bind_Ok. by eapply copy_length.
  - intros ([[r1 b1] l1] & E & [= _ <- _])%bind_Ok. by eapply IH.
Qed.

Lemma receive_any_length buf n t l r b l' : ipc_receive_any_message buf n t l = Ok (r, b, l') -> length b = length buf.
Proof.
  revert r b l'. induction l as [|m l IH]; intros r b l'; cbn [ipc_receive_any_message]; [by intros [= _ <- _]|]. destruct (_ =? t).
  - intros (b1 & E & [= _ <- _])%bind_Ok. by eapply copy_length.
  - intros ([[r1 b1] l1] & E & [= _ <- _])%bind_Ok. by eapply IH.
Qed.

(** ** The others *)
Section Others.
Context `{BlockDevice D} `{Board U} (turns depth limit : nat) (slack : Z).
Context (code_at : Z -> option (Z -> Z -> code unit)) (p : Z).
Abbreviation kernel := (kernel D U).
Abbreviation ustate := (ustate D U).
Abbreviation system := (system (D := D) (U := U)).
Abbreviation own_step := (own_step (D := D) (U := U) turns depth limit slack code_at).
Abbreviation sys_step := (sys_step (D := D) (U := U) turns depth limit slack code_at).
Abbreviation current s := (current_pid (scheduler (ukernel s))).

(** A buffer on a stack. *)
Definition stacked (s : ustate) (a n : Z) : Prop := heap_top (uheap s) <= a /\ a + n <= 2 ^ 32.

(** What another process may ask for: it computes, reads memory, writes to its
    stack, reads standard input, asks whether an event has occurred, forks, sets
    a priority, executes a program, gives up the processor, sends and receives
    messages, and exits. A call that blocks, or that kills, is not among these:
    it puts its result in [r0] of whoever runs next. *)
Definition quiet_call (id : Z) (c : ctx_t) (s : ustate) : Prop :=
  let r i := get_gpr i c in
  match id with
  | 2 => stack_apart (heap_top (uheap s)) c (r 0%nat) (r 1%nat) (scheduler (ukernel s))
  | 3 => i32 (r 0%nat) = STDIN_FILEDESC /\ stacked s (r 1%nat) (u32 (i32 (r 2%nat)))
  | 7 => Z.land (i32 (r 2%nat)) WAITPID_NOHANG <> 0
  | 37 => i32 (r 1%nat) <> SIGKILL
  | 0 | 20 | 97 | 158 | 1000 | 1001 => True
  | 1002 | 1003 => 0 <= r 1%nat /\ stacked s (r 0%nat) (r 1%nat)
  | _ => False
  end.
Definition quiet_ids : list Z := [0; 2; 3; 7; 20; 37; 97; 158; 1000; 1001; 1002; 1003].

Definition quiet {X} (e : userE X) (s : ustate) : Prop :=
  match e with
  | Svc id args => quiet_call id (load_args 0 args (uctx s)) s
  | Store a l => stacked s a (zlength l)
  | Allocate _ | NodeAt _ => False
  | _ => True
  end.

(** The steps [p] does not make itself: of the devices, of interrupts, and the
    quiet steps of other processes. *)
Inductive quiet_step : system -> system -> Prop :=
| quiet_devices s ths u :
    quiet_step (Sys s ths) (Sys (UState (uctx s) (with_devices u (ukernel s)) (uheap s)) ths)
| quiet_irq s ths c ker :
    kernel_handler_irq (uctx s) (ukernel s) = Ok (c, ker) -> quiet_step (Sys s ths) (Sys (UState c ker (uheap s)) ths)
| quiet_own S S' :
    own_step S S' -> current (machine S) <> p ->
    (forall t X (e : userE X) k, threads S !! current (machine S) = Some (Running t) -> observe t = VisF e k -> quiet e (machine S)) ->
    quiet_step S S'.

Lemma quiet_sys_step S S' : quiet_step S S' -> sys_step S S'.
Proof. intros [s ths u|s ths c ker E|S1 S2 E _ _]; [apply sys_devices|by apply sys_irq|by apply sys_own]. Qed.

Lemma quiet_call_ids id c s : quiet_call id c s -> id ∈ quiet_ids.
Proof.
  unfold quiet_ids. destruct (decide (id ∈ quiet_ids)) as [|Hid]; [done|]. unfold quiet_ids in Hid. rewrite !not_elem_of_cons in Hid. unfold quiet_call.
  repeat (case_match; subst; try done; try tauto).
Qed.

Lemma stacked_write (s : ustate) (k : kernel) a n l :
  0 <= heap_top (uheap s) -> 0 <= n -> stacked s a n -> length l = length (peek (user k) a n) -> alike (heap_top (uheap s)) k (with_user (poke (user k) a l) k).
Proof.
  intros Htop Hn [Ha Hl] El. split; try done; [|apply same_keys]. apply poke_above; [by intros ? ?|done| |done]. rewrite El, peek_length; lia.
Qed.

(** A message taken off the list is written to a stack. *)
Lemma received_alike (s : ustate) l a n b :
  0 <= heap_top (uheap s) -> 0 <= n -> stacked s a n -> length b = length (peek (user (ukernel s)) a n) ->
  alike (heap_top (uheap s)) (ukernel s) (with_user (poke (user (ukernel s)) a b) (with_messages l (ukernel s))).
Proof.
  intros Htop Hn Hb E. eapply alike_trans; [|by apply (stacked_write s (with_messages l (ukernel s)) a n)]. split; try done. apply same_keys.
Qed.

(** [p] does not notice such a call. *)
Lemma quiet_process_unseen id garbage (s : ustate) c c' ker :
  kernel_ok (ukernel s) -> queued p (ukernel s) -> 0 <= heap_top (uheap s) -> current s <> p -> quiet_call id c s -> id ∈ process_calls ->
  svc_process id garbage c (ukernel s) = Ok (c', ker) -> unseen p (heap_top (uheap s)) (c, ukernel s) (c', ker).
Proof.
  intros Hk Hq Htop Hne Hc Hid E. unfold process_calls in Hid. rewrite !elem_of_cons, elem_of_nil in Hid.
  assert (Hspared : forall c' s', spared p (heap_top (uheap s)) (scheduler (ukernel s)) s' -> steady p (c, scheduler (ukernel s)) (c', s') ->
    unseen p (heap_top (uheap s)) (c, ukernel s) (c', with_scheduler s' (ukernel s))) by (intros; by apply spared_unseen).
  assert (Hsame : forall c', unseen p (heap_top (uheap s)) (c, ukernel s) (c', ukernel s)) by (intros; by apply same_unseen, alike_refl).
  assert (Hresult : forall r c1 s1, current_pid s1 <> p -> spared p (heap_top (uheap s)) (scheduler (ukernel s)) s1 ->
    steady p (c, scheduler (ukernel s)) (c1, s1) -> unseen p (heap_top (uheap s)) (c, ukernel s) (return_value r c1, with_scheduler s1 (ukernel s))).
  { intros r c1 s1 Hne1 H1 H2. apply Hspared; [exact H1|]. etrans; [exact H2|by apply own_steady]. }
  pose proof (wf_core _ (ko_sched _ Hk)) as Hcore.
  destruct Hid as [-> |[->|[->|[->|[->|[->|[->|[->|[]]]]]]]]]; cbn [svc_process quiet_call] in E, Hc.
  - apply bind_Ok in E as ([c1 s1] & E1 & [= <- <-]). apply Hspared; [by eapply exit_spared|by eapply exit_steady].
  - apply bind_Ok in E as ([r s1] & E1 & [= <- <-]). pose proof (fork_spared p _ _ _ _ _ _ _ Hcore Htop Hc E1) as Hs. apply Hresult; [|exact Hs|by eapply fork_steady].
    destruct (proj2 (proc_known (current s) (scheduler (ukernel s))) (core_current _ Hcore)) as [parent Hp]. pose proof (core_range _ Hcore _ (core_current _ Hcore)).
    rewrite (fork_eq _ _ _ _ parent) in E1 by (lia || done). injection E1 as _ <-. by rewrite emit_event_eq.
  - rewrite (proj2 (Z.eqb_neq _ _) Hc) in E. by injection E as <- <-.
  - by injection E as <- <-.
  - rewrite (proj2 (Z.eqb_neq _ _) Hc) in E. by injection E as <- <-.
  - injection E as <- <-. apply Hresult; [|by apply set_priority_spared|by apply set_priority_steady]. unfold set_priority, add_pid, remove_pid. by repeat case_match.
  - apply bind_Ok in E as ([c1 s1] & E1 & [= <- <-]). apply Hspared; [by eapply run_spared|by eapply run_steady].
  - apply bind_Ok in E as ([[r c1] s1] & E1 & [= <- <-]). apply Hspared; [by eapply exec_spared|by eapply exec_steady].
Qed.

Lemma quiet_call_unseen id place garbage (s : ustate) c c' ker :
  kernel_ok (ukernel s) -> queued p (ukernel s) -> 0 <= heap_top (uheap s) -> current s <> p -> quiet_call id c s ->
  kernel_handler_svc turns depth limit id place garbage c (ukernel s) = Ok (c', ker) -> unseen p (heap_top (uheap s)) (c, ukernel s) (c', ker).
Proof.
  intros Hk Hq Htop Hne Hc E. destruct (decide (id ∈ process_calls)) as [Hid|Hid].
  { rewrite handler_process in E by done. by eapply quiet_process_unseen. }
  pose proof (quiet_call_ids _ _ _ Hc) as Hids. unfold quiet_ids in Hids. rewrite !elem_of_cons, elem_of_nil in Hids.
  assert (Hsame : forall k', same_processes (ukernel s) k' -> alike (heap_top (uheap s)) (ukernel s) k' -> unseen p (heap_top (uheap s)) (c, ukernel s) (c', k'))
    by (intros; by apply same_unseen).
  destruct Hids as [->|[->|[->|[->|[->|[->|[->|[->|[->|[->|[->|[->|[]]]]]]]]]]]]]; try by destruct Hid; in_calls.
  - rewrite handler_file in E by in_calls. cbn [svc_file quiet_call] in *. destruct Hc as [H0' Hb]. rewrite H0' in E. unfold sys_read in E.
    change (STDIN_FILEDESC =? STDIN_FILEDESC) with true in E. cbv beta iota zeta in E.
    apply bind_Ok in E as ([[[r b] f1] d1] & E1 & [= <- <-]). apply bind_Ok in E1 as ([b1 st] & E1 & [= <- <- <- <-]). apply read_stdin_length in E1.
    apply Hsame; [done|]. eapply alike_trans; [|apply (stacked_write s (with_files (with_stdin st (file_system (ukernel s))) (disk (ukernel s)) (ukernel s)) _ (u32 (i32 (get_gpr 2 c)))); [done|apply u32_range|exact Hb|exact E1]].
    split; try done. by eexists.
  - cbn in E. apply bind_Ok in E as (l & _ & [= <- <-]). apply Hsame; [done|]. split; try done. apply same_keys.
  - destruct Hc as [Hn Hb]. cbn in E. apply bind_Ok in E as ([[r b] l] & E1 & [= <- <-]). apply receive_from_length in E1. apply Hsame; [done|]. by eapply received_alike.
  - destruct Hc as [Hn Hb]. cbn in E. apply bind_Ok in E as ([[r b] l] & E1 & [= <- <-]). apply receive_any_length in E1. apply Hsame; [done|]. by eapply received_alike.
Qed.

(** A call of these has its result written before any switch. *)
Lemma quiet_call_keeps id place garbage (s : ustate) c c' ker :
  quiet_call id c s -> kernel_handler_svc turns depth limit id place garbage c (ukernel s) = Ok (c', ker) ->
  id ∉ late_results \/ current_pid (scheduler ker) = current s.
Proof.
  intros Hc E. destruct (decide (id ∈ late_results)) as [Hid|]; [right|by left]. rewrite handler_process in E by (unfold late_results in Hid; unfold process_calls; set_solver).
  unfold late_results in Hid. rewrite !elem_of_cons, elem_of_nil in Hid. destruct Hid as [-> |[->|[]]]; cbn [svc_process quiet_call] in E, Hc;
    rewrite (proj2 (Z.eqb_neq _ _) Hc) in E; by injection E as <- <-.
Qed.

(** ** What [p] sees

    The system shows [p], at [th], the state [s]: its own context, the heap, the
    memory below the stacks, files, disk, console and lists. *)
Record shows (s : ustate) (th : thread) (S : system) : Prop := {
  sh_ok : sys_ok S;
  sh_queued : queued p (ukernel (machine S));
  sh_present : ~ gone p (scheduler (ukernel (machine S)));
  sh_context : context_in p (uctx (machine S)) (scheduler (ukernel (machine S))) = Some (uctx s);
  sh_heap : uheap (machine S) = uheap s;
  sh_low : 0 <= heap_top (uheap s);
  sh_alike : alike (heap_top (uheap s)) (ukernel s) (ukernel (machine S));
  sh_code : threads S !! p = Some th
}.

Lemma other_called id args (s : ustate) k ths ths' :
  next_pid (scheduler (ukernel s)) <> p -> current s <> p -> called code_at id args s k ths = Some ths' -> ths' !! p = ths !! p.
Proof.
  intros Hn Hne. unfold called. destruct (id =? 2); [intros [= <-]; by rewrite !lookup_insert_ne|].
  destruct (id =? 1000); [intros (program & _ & [= <-])%bind_Some|intros [= <-]]; by rewrite lookup_insert_ne.
Qed.

(** What the others do does not change it. *)
Lemma quiet_shows s th S S' : shows s th S -> quiet_step S S' -> shows s th S'.
Proof.
  intros [Hok Hqd Hgone Hc Hh Hlow Ha Ht] Hq. pose proof (step_ok turns depth limit slack code_at S S' Hok (quiet_sys_step S S' Hq)) as Hok'.
  pose proof (so_kernel _ Hok) as Hk. pose proof (wf_core _ (ko_sched _ Hk)) as Hcore. pose proof (core_known _ Hcore p Hqd) as Hp.
  destruct Hq as [m ths u|m ths c ker E|S S' Hst Hne Hq]; cbn in *.
  - split; try done. eapply alike_trans; [exact Ha|]. split; try done. apply same_keys.
  - destruct (irq_unseen p (heap_top (uheap s)) (uctx m) (ukernel m) c ker Hk Hqd E) as (Hq' & Hc' & Ha' & Hg'). split; cbn in *; try done.
    + by intros Hx%Hg'.
    + by rewrite Hc'.
    + by eapply alike_trans.
  - destruct Hst as [m ths t1 t' Ht1 Ho|m ths t1 X e k b m' Ht1 Ho Hs|m ths k Ht1|m ths t1 id args k place garbage c ker ths1 ths' Ht1 Ho Hpl Hal He Hcd Hh']; cbn in *.
    + split; cbn; try done. by rewrite lookup_insert_ne.
    + destruct (serves_kernel limit slack e m b m' Hs) as (Ec & mem & Ek). pose proof (Hq _ _ _ _ Ht1 Ho) as Hquiet.
      assert (Hsame : uheap m' = uheap m /\ alike (heap_top (uheap s)) (ukernel s) (ukernel m')).
      { destruct e; cbn in Hs, Hquiet; try done; try (by subst m'); try (by destruct Hs; subst m').
        subst m'. split; [done|]. eapply alike_trans; [exact Ha|]. split; try done; [|apply same_keys].
        destruct Hquiet as [Hlo Hhi]. rewrite Hh in Hlo. by apply poke_above. }
      destruct Hsame as [Eh Ha']. split; cbn; try done.
      * unfold queued. by rewrite Ek.
      * by rewrite Ek.
      * rewrite <- Hc. unfold context_in. by rewrite Ec, Ek.
      * by rewrite Eh.
      * by rewrite lookup_insert_ne.
    + split; cbn; try done. by rewrite lookup_insert_ne.
    + assert (Hquiet : quiet_call id (load_args 0 args (uctx m)) m) by exact (Hq _ _ _ _ Ht1 Ho). rewrite <- Hh in Hlow.
      destruct (quiet_call_unseen id place garbage m (load_args 0 args (uctx m)) c ker Hk Hqd Hlow Hne Hquiet He) as (Hq' & Hc' & Ha' & Hg').
      cbn in Hq', Hc', Ha', Hg'. split; cbn; try done.
      * by intros Hx%Hg'.
      * rewrite Hc', <- Hc. unfold context_in. by rewrite !decide_False.
      * by rewrite <- Hh.
      * eapply alike_trans; [exact Ha|]. by rewrite <- Hh.
      * rewrite (handed_same id m ker ths1 ths'); [|by eapply quiet_call_keeps|exact Hh'].
        rewrite <- Ht. eapply other_called; [|exact Hne|exact Hcd]. pose proof (core_range _ Hcore p Hp). lia.
Qed.

Lemma quiets_show s th S S' : shows s th S -> rtc quiet_step S S' -> shows s th S'.
Proof. intros Hs Hr. induction Hr as [|S S1 S' Hq _ IH]; [done|]. by eapply IH, quiet_shows. Qed.
End Others.
