(* ===== verification/Runs.v ===== *)
(** * Runs of programs

    What [Process] says of a program by its weakest precondition happens in the
    system of [System], among other processes: whatever interrupts, keys and
    quiet steps of the others come in between, the process keeps its place in
    the queue, is never stuck when it has the processor, and comes from its
    start to its call of [exit]. The sessions of [Session] and [Removal] as runs
    of the system. *)
From S2P Require Import Prelude Mem Strings Scheduler Uart Devices Disk Fat16 Volume Files Directory Slots Root Paths FileSys Descriptors FileCalls Names Create NamedFiles Kernel Machine Syscalls Process Commands Session Removal System Bystander Sharing.
From S2P Require Programs.

Section Runs.
Context `{BlockDevice D} `{Board U} (turns depth limit : nat) (slack : Z).
Context (code_at : Z -> option (Z -> Z -> code unit)).
Abbreviation ustate := (ustate D U).
Abbreviation system := (system (D := D) (U := U)).
Abbreviation wp := (wp (D := D) (U := U) turns depth limit slack).
Abbreviation own_step := (own_step (D := D) (U := U) turns depth limit slack code_at).
Abbreviation current s := (current_pid (scheduler (ukernel s))).
Abbreviation quiet_step := (quiet_step (D := D) (U := U) turns depth limit slack code_at).
Abbreviation shows := (shows (D := D) (U := U)).

(** What [p] does leads to [P], whatever steps of the others, in [O], come in
    between: until then it has its place in the queue, and is never stuck when
    it has the processor. Of its own steps only those count that leave [kept]
    true. *)
Inductive ends (O : system -> system -> Prop) (kept : system -> Prop) (p : Z) (P : system -> Prop) (S : system) : Prop :=
| ends_now : P S -> ends O kept p P S
| ends_later :
    (forall S1, rtc O S S1 -> queued p (ukernel (machine S1))) ->
    (forall S1, rtc O S S1 -> current (machine S1) = p -> exists S2, own_step S1 S2) ->
    (forall S1 S2, rtc O S S1 -> current (machine S1) = p -> own_step S1 S2 -> kept S2 -> ends O kept p P S2) ->
    ends O kept p P S.

(** The process [p] asks to exit, with a status and in a state that satisfy
    [X]. *)
Definition exits (p : Z) (X : Z -> ustate -> Prop) (S : system) : Prop :=
  exists s t status k, shows p s (Running t) S /\ observe t = VisF (Svc 0 [status]) k /\ X status s.

(** A process that sees the state [s], at [t], exits like that, whatever quiet
    steps the others make. *)
Definition runs (t : code unit) (s : ustate) (X : Z -> ustate -> Prop) : Prop :=
  forall p S, shows p s (Running t) S -> ends (quiet_step p) (fun _ => True) p (exits p X) S.

(** The steps a process at [th] can make. *)
Definition next (s : ustate) (ths : gmap Z thread) (th : thread) (S' : system) : Prop :=
  match th with
  | Awaiting k => S' = Sys s (<[current s := Running (k (get_gpr 0 (uctx s)))]> ths)
  | Running t =>
      match observe t with
      | RetF _ => False
      | TauF t' => S' = Sys s (<[current s := Running t']> ths)
      | @VisF _ _ _ X e k =>
          match e in userE X return (X -> code unit) -> Prop with
          | Svc id args => fun k => exists place garbage c ker ths1 ths', is_word place /\ allowed id (load_args 0 args (uctx s)) (ukernel s) /\
              kernel_handler_svc turns depth limit id place garbage (load_args 0 args (uctx s)) (ukernel s) = Ok (c, ker) /\
              System.called code_at id args s k ths = Some ths1 /\ handed id s ker ths1 ths' /\ S' = Sys (UState c ker (uheap s)) ths'
          | e => fun k => exists b s', serves limit slack e s b s' /\ S' = Sys s' (<[current s := Running (k b)]> ths)
          end k
      end
  end.

Lemma own_step_next s ths th S' : ths !! current s = Some th -> own_step (Sys s ths) S' <-> next s ths th S'.
Proof.
  intros Ht. unfold next. split.
  - intros Hst. remember (Sys s ths) as S eqn:ES.
    destruct Hst as [s1 ths1 t1 t' Ht1 Ho|s1 ths1 t1 X e k b s' Ht1 Ho Hs|s1 ths1 k Ht1|s1 ths1 t1 id args k place garbage c ker ths2 ths' Ht1 Ho Hpl Ha He Hc Hh];
      injection ES as -> ->; rewrite Ht in Ht1; injection Ht1 as ->; cbv beta iota; rewrite ?Ho; [done| |done|by eauto 15].
    destruct e; by eauto.
  - destruct th as [t|k]; [|intros ->; by apply sys_take]. destruct (observe t) as [r|t'|X e k] eqn:Ho; [done|intros ->; by eapply sys_tau|]. destruct e;
      [intros (place & garbage & c & ker & ths1 & ths' & Hpl & Ha & He & Hc & Hh & ->); by eapply sys_svc|..];
      intros (b & s' & Hs & ->); by eapply sys_local.
Qed.

(** A call that is nothing special leaves the caller where it takes its
    result. *)
Lemma plain_called id args (s : ustate) k ths : id ∉ special_calls -> called code_at id args s k ths = Some (<[current s := Awaiting k]> ths).
Proof.
  unfold special_calls. rewrite !not_elem_of_cons. intros (_ & H2 & _ & H1000 & _). unfold called.
  by rewrite (proj2 (Z.eqb_neq _ _) H2), (proj2 (Z.eqb_neq _ _) H1000).
Qed.

(** It takes it from [r0]. *)
Definition pending (s : ustate) (th : thread) (t : code unit) : Prop :=
  th = Running t \/ exists k, th = Awaiting k /\ t = k (get_gpr 0 (uctx s)).

Lemma plain_allowed id c (s : ustate) : id ∉ special_calls -> (id = 5 -> fds_left s) -> allowed id c (ukernel s).
Proof. unfold special_calls. rewrite !not_elem_of_cons. intros (_ & H2 & H97 & _) Hfd. by split; [|split]. Qed.

Lemma shows_current p s t S : shows p s t S -> current (machine S) = p -> uctx (machine S) = uctx s.
Proof. intros Hs Hp. pose proof (sh_context _ _ _ _ Hs) as Hc. unfold context_in in Hc. rewrite decide_True in Hc by done. by injection Hc. Qed.

(** Its own step takes [p] from one state it sees to another. *)
Lemma own_shows p s th s' th' m' S :
  shows p s th S -> current (machine S) = p -> own_step S (Sys m' (<[p := th']> (threads S))) ->
  queued p (ukernel m') -> ~ gone p (scheduler (ukernel m')) -> current m' = p -> uctx m' = uctx s' -> uheap m' = uheap s' -> heap_top (uheap s') = heap_top (uheap s) ->
  alike (heap_top (uheap s)) (ukernel s') (ukernel m') -> shows p s' th' (Sys m' (<[p := th']> (threads S))).
Proof.
  intros [Hok _ _ _ _ Hlow _ _] Hp Hst Hq Hg Hp' Hc Hh Ht Ha. split; cbn; try done; try congruence.
  - exact (step_ok turns depth limit slack code_at _ _ Hok (sys_own _ _ _ _ _ _ _ Hst)).
  - unfold context_in. rewrite decide_True by done. by rewrite Hc.
  - by rewrite lookup_insert_eq.
Qed.

(** The machine of the system answers a request that is not a call as the one
    [p] sees does. *)
Lemma served_alike {X} (e : userE X) mid (s m : ustate) b m' :
  owns limit slack e s -> answers turns depth limit slack e s mid -> serves limit slack e m b m' ->
  uctx m = uctx s -> uheap m = uheap s -> alike (heap_top (uheap s)) (ukernel s) (ukernel m) ->
  exists s', mid b s' /\ uctx m' = uctx s' /\ uheap m' = uheap s' /\ heap_top (uheap s') = heap_top (uheap s) /\
    alike (heap_top (uheap s)) (ukernel s') (ukernel m').
Proof.
  intros Ho Ha Hs Ec Eh Hal. destruct e; cbn in Ho, Ha, Hs.
  - done.
  - destruct Hs as [-> ->]. exists s. by rewrite (alike_peek s (ukernel m)).
  - destruct Hs as [-> ->]. exists s. by rewrite (alike_string limit s (ukernel m) p Hal Ho : c_string limit (umemory m) p = _).
  - subst m'. exists (with_umemory (poke (umemory s) p l) s). destruct b. repeat (split; [done|]). by apply alike_user.
  - destruct Hs as (h & Hh & -> & ->), Ha as [_ Ha]. rewrite Eh in Hh. specialize (Ha h Hh). destruct (stdmem_allocate n h) as [q h'] eqn:E.
    exists (with_uheap h' s). repeat (split; [done|]). split; [|done]. destruct Hh as (_ & <- & _). by rewrite <- (allocate_top n h), E.
  - done.
  - subst m'. by exists s.
  - destruct Hs as [-> ->]. exists s. by rewrite Ec.
  - destruct Hs as [-> ->]. exists s. by rewrite Ec.
  - destruct Hs as [Hl ->], Ha as ([q l] & Hl' & Hm). rewrite (al_lists _ _ _ Hal), Hl' in Hl. injection Hl as -> ->. by exists s.
  - destruct Hs as (h & Hh & -> & ->), Ha as [_ Ha]. rewrite Eh in Hh. specialize (Ha h Hh). destruct (stdmem_allocate sizeof_node h) as [q h'] eqn:E.
    eexists. split; [exact Ha|]. repeat (split; [done|]). split; [|by apply alike_user]. destruct Hh as (_ & <- & _). by rewrite <- (allocate_top sizeof_node h), E.
  - done.
Qed.

Lemma can_serve {X} (e : userE X) mid (s m : ustate) :
  owns limit slack e s -> answers turns depth limit slack e s mid -> uheap m = uheap s -> lists (ukernel m) = lists (ukernel s) ->
  match e with Svc _ _ => True | _ => exists b m', serves limit slack e m b m' end.
Proof.
  intros Ho Ha Eh El. destruct e; cbn in Ho, Ha |- *; try by eauto.
  - exists tt. by eexists.
  - destruct Ha as [[h Hh] _]. rewrite Eh. by eauto 10.
  - destruct Ha as ([q l] & Hl & _). rewrite El, Hl. assert (q = p) as ->.
    { destruct (list_find _ _) as [[i x]|] eqn:E in Hl; [|done]. injection Hl as ->. by apply list_find_Some in E as (_ & <- & _). }
    by eauto.
  - destruct Ha as [[h Hh] _]. rewrite Eh. by eauto 10.
Qed.

(** The call has the result the logic allows for. *)
Lemma call_alike id args mid (s m : ustate) place garbage :
  owns limit slack (Svc id args) s -> answers turns depth limit slack (Svc id args) s mid -> is_word place ->
  uctx m = uctx s -> alike (heap_top (uheap s)) (ukernel s) (ukernel m) ->
  exists c k k', kernel_handler_svc turns depth limit id place garbage (load_args 0 args (uctx m)) (ukernel m) = Ok (c, k') /\
    mid (get_gpr 0 c) (UState c k (uheap s)) /\ alike (heap_top (uheap s)) k k' /\ same_processes (ukernel m) k'.
Proof.
  intros Ho (_ & _ & Ha) Hpl Ec Hal. destruct (Ha place garbage Hpl) as (c & k & He & _ & Hm). cbn in Ho.
  assert (Hid : id ∈ file_calls).
  { pose proof (own_call_ids _ _ _ _ Ho) as Hid. rewrite !elem_of_cons, elem_of_nil in Hid.
    destruct Hid as [->|[->|[->|[->|[->|[->|[->|[->|[->|[]]]]]]]]]]; in_calls. }
  rewrite handler_file in He by done. destruct (own_call_alike turns depth limit s id place _ (ukernel m) c k Ho Hal He) as (k' & He' & Hal' & Hs).
  exists c, k, k'. rewrite Ec, handler_file by done. done.
Qed.

(** Whenever [p] has the processor it can go on, and it goes where the logic
    says. *)
Lemma call_shows p id args k mid s t S :
  shows p s (Running t) S -> current (machine S) = p -> observe t = VisF (Svc id args) k ->
  owns limit slack (Svc id args) s -> answers turns depth limit slack (Svc id args) s mid ->
  (exists S', own_step S S') /\ forall S', own_step S S' -> exists s', mid (get_gpr 0 (uctx s')) s' /\ shows p s' (Awaiting k) S' /\ current (machine S') = p.
Proof.
  intros Hs Hp Ho Hown Ha. pose proof (shows_current _ _ _ _ Hs Hp) as Ec. pose proof Hs as [_ Hq Hg _ Eh _ Hal Ht]. destruct S as [m ths]. cbn in *. subst p.
  pose proof Ha as (Hid & Hfd & _). assert (Hal' : allowed id (load_args 0 args (uctx m)) (ukernel m)).
  { apply plain_allowed; [done|]. intros E. destruct (al_files _ _ _ Hal) as [b Hf]. unfold fds_left. rewrite Hf. by apply Hfd. }
  assert (Hcall : forall place garbage, is_word place -> exists c ker s',
    own_step (Sys m ths) (Sys (UState c ker (uheap m)) (<[current m := Awaiting k]> ths)) /\
    kernel_handler_svc turns depth limit id place garbage (load_args 0 args (uctx m)) (ukernel m) = Ok (c, ker) /\
    current_pid (scheduler ker) = current m /\ mid (get_gpr 0 (uctx s')) s' /\
    shows (current m) s' (Awaiting k) (Sys (UState c ker (uheap m)) (<[current m := Awaiting k]> ths))).
  { intros place garbage Hpl. destruct (call_alike id args mid s m place garbage Hown Ha Hpl Ec Hal) as (c & k1 & ker & He & Hm & Hal1 & Hsame).
    destruct Hsame as (Hps & Hcur & Hlow & Hev).
    assert (Hst : own_step (Sys m ths) (Sys (UState c ker (uheap m)) (<[current m := Awaiting k]> ths)))
      by (eapply sys_svc; [done..|by apply plain_called|by left]).
    exists c, ker, (UState c k1 (uheap s)). repeat (split; [done|]).
    eapply (own_shows (current m) s (Running t) _ _ _ (Sys m ths)); try done; [unfold queued; cbn; by rewrite Hlow|unfold gone; cbn; by rewrite Hev]. }
  split; [destruct (Hcall 0 0 ltac:(done)) as (c & ker & s' & Hst & _); by eauto|].
  intros S' HS. apply (own_step_next m ths (Running t) S' Ht) in HS. unfold next in HS. rewrite Ho in HS.
  destruct HS as (place & garbage & c & ker & ths1 & ths' & Hpl & _ & He & Hc & Hh & ->).
  destruct (Hcall place garbage Hpl) as (c1 & ker1 & s' & _ & He1 & Hcur & Hm & Hs1). rewrite He in He1. injection He1 as <- <-.
  rewrite plain_called in Hc by done. injection Hc as <-. apply handed_same in Hh as ->; [|by right]. exists s'. split; [done|]. by split.
Qed.

(** It takes its result. *)
Lemma take_shows p k s S :
  shows p s (Awaiting k) S -> current (machine S) = p ->
  (exists S', own_step S S') /\ forall S', own_step S S' -> shows p s (Running (k (get_gpr 0 (uctx s)))) S' /\ current (machine S') = p.
Proof.
  intros Hs Hp. pose proof (shows_current _ _ _ _ Hs Hp) as Ec. pose proof Hs as [_ Hq Hg _ Eh _ Hal Ht].
  assert (Hnext : forall S', own_step S S' <-> S' = Sys (machine S) (<[p := Running (k (get_gpr 0 (uctx s)))]> (threads S))).
  { intros S'. destruct S as [m ths]. cbn in *. subst p. rewrite (own_step_next m ths _ S' Ht). unfold next. by rewrite Ec. }
  split; [eexists; by apply Hnext|]. intros S' Hst. pose proof (proj1 (Hnext S') Hst) as ->.
  split; [by eapply (own_shows p s (Awaiting k))|done].
Qed.

Lemma tau_shows p t' s t S :
  shows p s (Running t) S -> current (machine S) = p -> observe t = TauF t' ->
  (exists S', own_step S S') /\ forall S', own_step S S' -> shows p s (Running t') S' /\ current (machine S') = p.
Proof.
  intros Hs Hp Ho. pose proof Hs as [_ Hq Hg _ Eh _ Hal Ht].
  assert (Hnext : forall S', own_step S S' <-> S' = Sys (machine S) (<[p := Running t']> (threads S))).
  { intros S'. destruct S as [m ths]. cbn in *. subst p. rewrite (own_step_next m ths (Running t) S' Ht). unfold next. by rewrite Ho. }
  split; [eexists; by apply Hnext|]. intros S' Hst. pose proof (proj1 (Hnext S') Hst) as ->.
  split; [|done]. eapply (own_shows p s (Running t)); try done. by eapply shows_current.
Qed.

Lemma event_shows p {X} (e : userE X) k mid s t S :
  shows p s (Running t) S -> current (machine S) = p -> observe t = VisF e k -> owns limit slack e s -> answers turns depth limit slack e s mid ->
  (exists S', own_step S S') /\ forall S', own_step S S' -> exists b s' th, mid b s' /\ shows p s' th S' /\ current (machine S') = p /\ pending s' th (k b).
Proof.
  intros Hs Hp Ho Hown Ha. destruct e as [id args| | | | | | | | | | |].
  { destruct (call_shows p id args k mid s t S Hs Hp Ho Hown Ha) as [Hex Hall]. split; [done|]. intros S' Hst. destruct (Hall S' Hst) as (s' & Hm & Hs' & Hc').
    exists (get_gpr 0 (uctx s')), s', (Awaiting k). split; [done|]. split; [done|]. split; [done|]. right. by exists k. }
  all: pose proof (shows_current _ _ _ _ Hs Hp) as Ec; pose proof Hs as [_ Hq Hg _ Eh _ Hal Ht]; destruct S as [m ths]; cbn [machine threads] in *; subst p.
  all: pose proof (can_serve _ mid s m Hown Ha Eh (al_lists _ _ _ Hal)) as (b0 & m0 & Hb0).
  all: split; [eexists; by eapply sys_local|].
  all: intros S' HS; pose proof HS as Hst; apply (own_step_next m ths (Running t) S' Ht) in HS; unfold next in HS; rewrite Ho in HS; destruct HS as (b & m' & Hb & ->);
    destruct (served_alike _ mid s m b m' Hown Ha Hb Ec Eh Hal) as (s' & Hm & Ec' & Eh' & Htop & Hal');
    destruct (serves_kernel limit slack _ m b m' Hb) as (_ & mem & Ek); exists b, s', (Running (k b)); (split; [exact Hm|]); (split; [|split; [cbn; by rewrite Ek|by left]]);
    eapply (own_shows (current m) s (Running t) _ _ _ (Sys m ths)); try done; try unfold queued; by rewrite Ek.
Qed.

(** Others whose steps are quiet, as long as an invariant holds. *)
Section Ends.
Context (O : system -> system -> Prop) (kept Inv : system -> Prop) (p : Z).
Context (HO : forall s th S S', shows p s th S -> Inv S -> O S S' -> quiet_step p S S' /\ Inv S').
Context (Hkept : forall s th s' th' S S', shows p s th S -> Inv S -> current (machine S) = p ->
  own_step S S' -> shows p s' th' S' -> current (machine S') = p -> kept S' -> Inv S').

Lemma others_stay s th S S1 : shows p s th S -> Inv S -> rtc O S S1 -> shows p s th S1 /\ Inv S1.
Proof.
  intros Hs Hi Hr. induction Hr as [|S S1 S2 H1 _ IH]; [done|]. destruct (HO _ _ _ _ Hs Hi H1). apply IH; [by eapply quiet_shows|done].
Qed.

(** One more step of [p]. *)
Lemma ends_step P s th S :
  shows p s th S -> Inv S ->
  (forall S1, shows p s th S1 -> current (machine S1) = p ->
    (exists S2, own_step S1 S2) /\ forall S2, own_step S1 S2 -> exists s' th', shows p s' th' S2 /\ current (machine S2) = p /\ (Inv S2 -> ends O kept p P S2)) ->
  ends O kept p P S.
Proof.
  intros Hs Hi Hstep. assert (Hgo : forall S1, rtc O S S1 -> shows p s th S1 /\ Inv S1) by (intros S1; by apply others_stay).
  apply ends_later; [intros S1 H1; eapply sh_queued, (Hgo S1 H1)|intros S1 H1 Hp; by apply (Hstep S1); [apply Hgo|]|].
  intros S1 S2 H1 Hp Hst Hk. destruct (Hgo S1 H1) as [Hs1 Hi1]. destruct (Hstep S1 Hs1 Hp) as [_ Hall].
  destruct (Hall S2 Hst) as (s' & th' & Hs' & Hp2 & Hends). apply Hends. by apply (Hkept s th s' th' S1 S2).
Qed.

Lemma wp_ends X t (s : ustate) S :
  wp (fun _ _ => False) X t s -> shows p s (Running t) S -> Inv S -> ends O kept p (exits p X) S.
Proof.
  intros Hwp. revert S. induction Hwp as [t s a _ []|t s t' Ho _ IH|t s B e k mid Ho Hown Ha _ IH|t s status k Ho HX]; intros S Hs Hi.
  - apply (ends_step _ s (Running t)); [done..|]. intros S1 Hs1 Hp. destruct (tau_shows p t' s t S1 Hs1 Hp Ho) as [Hex Hall].
    split; [done|]. intros S2 Hst. exists s, (Running t'). split; [by apply Hall|]. split; [by apply Hall|]. intros Hi2. apply IH; [by apply Hall|done].
  - apply (ends_step _ s (Running t)); [done..|]. intros S1 Hs1 Hp. destruct (event_shows p e k mid s t S1 Hs1 Hp Ho Hown Ha) as [Hex Hall].
    split; [done|]. intros S2 Hst. destruct (Hall S2 Hst) as (b & s' & th & Hm & Hs2 & Hp2 & Hpend). exists s', th. split; [done|]. split; [done|]. intros Hi2.
    destruct Hpend as [-> |(k' & -> & E)]; [by apply (IH b s')|]. apply (ends_step _ s' (Awaiting k')); [done..|]. intros S3 Hs3 Hp3.
    destruct (take_shows p k' s' S3 Hs3 Hp3) as [Hex3 Hall3]. split; [done|]. intros S4 Hst4. eexists _, _. split; [by apply Hall3|]. split; [by apply Hall3|].
    intros Hi4. apply (IH b s' Hm S4); [|done]. rewrite E. by apply Hall3.
  - apply ends_now. by exists s, t, status, k.
Qed.
End Ends.

Lemma wp_runs X t (s : ustate) : wp (fun _ _ => False) X t s -> runs t s X.
Proof. intros Hwp p S Hs. by apply (wp_ends _ _ (fun _ => True) p ltac:(done) ltac:(done) X t s). Qed.

Lemma runs_mono (X X' : Z -> ustate -> Prop) t (s : ustate) : runs t s X -> (forall status s', X status s' -> X' status s') -> runs t s X'.
Proof.
  intros Hr HX p S Hs. specialize (Hr p S Hs). clear Hs. induction Hr as [S1 (s' & t' & status & k & ? & ? & ?)|S1 Hq Hex _ IH].
  - apply ends_now. exists s', t', status, k. by auto.
  - by apply ends_later.
Qed.
End Runs.

(** ** Sessions *)
Section Sessions.
Context `{BlockDeviceLaws D} `{Board U} (v : fat16_t) (N : Z) (Hroot : root_layout v N).
Context (depth limit : nat) (slack : Z) (Hslack : 0 <= slack) (lit : list Z -> Z).
Context (code_at : Z -> option (Z -> Z -> code unit)).
Context (nm ex : list Z) (Hg : good_name nm ex) (H3 : zlength ex = 3) (H229 : byte nm 0 <> 229).
Context (Hlimit : (12 < limit)%nat).
Abbreviation turns := (Z.to_nat 65536).
Abbreviation ustate := (ustate D U).
Abbreviation runs := (runs (D := D) (U := U) turns (S depth) limit slack code_at).
Abbreviation file_path := (file_path nm ex).
Abbreviation literal := (literal limit lit).
Abbreviation started := (started limit).

(** It runs to an exit that reports success. *)
Definition succeeds (t : code unit) (s : ustate) (Q : ustate -> Prop) : Prop :=
  runs t s (fun status s' => status = EXIT_SUCCESS /\ Q s').

Lemma command_succeeds t (s : ustate) (Q Q' : ustate -> Prop) :
  command depth limit slack t s Q -> (forall s', Q s' -> Q' s') -> succeeds t s Q'.
Proof. intros Ht HQ. apply (runs_mono _ _ _ _ _ (fun status s' => status = EXIT_SUCCESS /\ Q s')); [by apply wp_runs|]. intros st s' [-> Hs]. auto. Qed.

(** C4 (functional): a whole session in the system of processes, with a file in
    the root directory whose name has one to seven plain characters
    ([plain_char], the first not 0x05 or 0xe5) and whose extension exactly
    three. In a volume with a free slot in the root directory and a free
    cluster, where no entry has the name and no descriptor is open on it
    ([can_create]), [touch] of it, [write] of some words to it, shorter than a
    cluster together with the spaces after them, and [cat] of it, on a heap with
    room for the text, started one after the other, each run to a successful
    exit whatever interrupts and quiet steps of others come in between, and are
    never stuck before; [cat] prints the words, each followed by a space, and a
    new line, and every file that was there keeps its clusters and its bytes. *)
Theorem touch_write_cat_runs argv s0 (s : ustate) :
  started s0 s argv [file_path] -> can_create v N limit nm ex s -> literal s [32] -> literal s [10] ->
  succeeds (Programs.touch lit 1 argv) s (fun s1 =>
    forall s2 argv2 ws, started s1 s2 argv2 (file_path :: ws) -> ws <> [] ->
      zlength (words_text ws) < cluster_size v -> zlength (words_text ws) < 2 ^ 31 -> (length (words_text ws) < limit)%nat ->
      succeeds (Programs.write lit (zlength ws + 1) argv2) s2 (fun s3 =>
        forall s4 argv4, started s3 s4 argv4 [file_path] ->
          brk (uheap s4) + 2 * slack + 21 + zlength (words_text ws) <= heap_top (uheap s4) ->
          succeeds (Programs.cat lit 1 argv4) s4 (fun s5 =>
            uconsole s5 = uconsole s4 ++ words_text ws ++ [10] /\
            forall first ms, chain v N (udisk s) first ms ->
              chain v N (udisk s5) first ms /\ chain_bytes v (udisk s5) ms = chain_bytes v (udisk s) ms))).
Proof.
  intros Hst Hcc H32 H10. eapply command_succeeds; [by eapply (touch_write_cat v N Hroot depth limit slack Hslack lit nm ex Hg H3 H229 Hlimit)|].
  intros s1 Hw s2 argv2 ws Hst2 Hws Hfit Hint Hlen. eapply command_succeeds; [by apply Hw|].
  intros s3 Hcat s4 argv4 Hst4 Hroom. eapply command_succeeds; [by apply Hcat|]. done.
Qed.

(** C18 (functional): [rm] and then [cat] of a file in the root directory whose
    name has one to seven plain characters, the first not 0x05 or 0xe5, and
    whose extension exactly three, which is open and the one entry of its name
    ([removable]), whatever quiet steps others make in between. [rm] runs to a
    successful exit, prints nothing and takes the file out of the directory and
    of the table of open files; the directory lists the others in their order,
    and every chain and every cluster is as before, those of the removed file
    included, which stay allocated. A [cat] of it started afterwards finds
    nothing: it says so and exits with [-1]. *)
Theorem rm_then_cat_runs argv s0 (s : ustate) :
  started s0 s argv [file_path] -> removable v N limit nm ex s0 -> literal s0 not_found ->
  succeeds (Programs.rm lit 1 argv) s (fun s1 =>
    uconsole s1 = uconsole s /\ removed v N limit nm ex s0 s1 /\
    forall s2 argv2, started s1 s2 argv2 [file_path] -> brk (uheap s2) + slack + 20 <= heap_top (uheap s2) ->
      runs (Programs.cat lit 1 argv2) s2 (fun status s3 => status = u32 (-1) /\ uconsole s3 = uconsole s2 ++ not_found /\ udisk s3 = udisk s1)).
Proof.
  intros Hst Hrm Hlit. eapply command_succeeds; [by eapply (rm_then_cat v N Hroot depth limit slack Hslack lit nm ex Hg H3 H229 Hlimit)|].
  intros s1 (Hcon & Hrd & Hcat). split; [done|]. split; [done|]. intros s2 argv2 Hst2 Hroom. apply wp_runs. by apply Hcat.
Qed.
End Sessions.

(** ** The theorems at work: the volumes of [Session] and of [Removal] *)
Definition demo_code_at (a : Z) : option (Z -> Z -> code unit) := None.

Abbreviation demo_view m f d := (UState demo_ctx (with_user m (with_files f d Machine.demo_kernel)) (Heap 65536 32768 196608)).

Lemma demo_shows f d m t other :
  fds_ok f -> shows 1 (demo_view m f d) (Running t) (Sys (demo_view m f d) {[1 := Running t; 2 := Running other]}).
Proof.
  intros Hf. split; try done; [|change (1 ∈ low_priority_queue demo2); by apply (bool_decide_unpack _); vm_compute
    |change (~ gone 1 demo2); unfold gone; by apply (bool_decide_unpack _); vm_compute|apply alike_refl]. split.
  - apply ok_with_user, ok_with_files; [exact Machine.demo_kernel_ok|done].
  - intros p Hp. cbn in Hp. change (p ∈ pids demo2) in Hp. assert (pids demo2 = [1; 2]) as E by by vm_compute. rewrite E in Hp.
    assert (p = 1 \/ p = 2) as [-> | ->] by set_solver; by eexists.
Qed.

(** There is a system of two processes that shows the state to process 1, at
    [t], and in which the timer gives the processor to process 2. *)
Definition contested (turns depth limit : nat) (s : ustate ram_disk board) (t : code unit) : Prop :=
  exists S S', shows 1 s (Running t) S /\ rtc (quiet_step turns depth limit 0 demo_code_at 1) S S' /\ current_pid (scheduler (ukernel (machine S'))) = 2.

Lemma demo_contested turns depth limit f d m t : fds_ok f -> contested turns depth limit (demo_view m f d) t.
Proof.
  intros Hf. set (k := with_user m (with_files f d Machine.demo_kernel)). set (h := Heap 65536 32768 196608).
  assert (exists c1 k1 c2 k2, kernel_handler_irq demo_ctx (with_devices ticking k) = Ok (c1, k1) /\
    kernel_handler_irq c1 (with_devices ticking k1) = Ok (c2, k2) /\ current_pid (scheduler k2) = 2) as (c1 & k1 & c2 & k2 & E1 & E2 & Hc)
    by (eexists _, _, _, _; split; [vm_compute; reflexivity|]; split; [vm_compute; reflexivity|done]).
  assert (Htick : forall c k c' k' ths, kernel_handler_irq c (with_devices ticking k) = Ok (c', k') ->
    rtc (quiet_step turns depth limit 0 demo_code_at 1) (Sys (UState c k h) ths) (Sys (UState c' k' h) ths)).
  { intros c0 k0 c' k' ths' E. eapply rtc_l; [apply (quiet_devices _ _ _ _ _ _ _ _ ticking)|]. apply rtc_once.
    by apply (quiet_irq _ _ _ _ _ 1 (UState c0 (with_devices ticking k0) h)). }
  set (ths := {[1 := Running t; 2 := Running ITree.spin]} : gmap Z thread).
  exists (Sys (demo_view m f d) ths), (Sys (UState c2 k2 h) ths). split; [by apply demo_shows|]. split; [|exact Hc].
  etrans; [exact (Htick _ _ _ _ _ E1)|exact (Htick _ _ _ _ _ E2)].
Qed.

Lemma touch_write_cat_runs_witness :
  let s := demo_state Create.demo_files (demo_memory "/TODO.TXT") in
  contested (Z.to_nat 65536) 1 2000 s (Programs.touch demo_lit 1 4112) /\
  succeeds 0 2000 0 demo_code_at (Programs.touch demo_lit 1 4112) s (fun s1 =>
    forall s2 argv2 ws, started 2000 s1 s2 argv2 (file_path (bytes_of "TODO") (bytes_of "TXT") :: ws) -> ws <> [] ->
      zlength (words_text ws) < cluster_size demo_fs -> zlength (words_text ws) < 2 ^ 31 -> (length (words_text ws) < 2000)%nat ->
      succeeds 0 2000 0 demo_code_at (Programs.write demo_lit (zlength ws + 1) argv2) s2 (fun s3 =>
        forall s4 argv4, started 2000 s3 s4 argv4 [file_path (bytes_of "TODO") (bytes_of "TXT")] ->
          brk (uheap s4) + 2 * 0 + 21 + zlength (words_text ws) <= heap_top (uheap s4) ->
          succeeds 0 2000 0 demo_code_at (Programs.cat demo_lit 1 argv4) s4 (fun s5 =>
            uconsole s5 = uconsole s4 ++ words_text ws ++ [10] /\
            forall first ms, chain demo_fs 8 (udisk s) first ms ->
              chain demo_fs 8 (udisk s5) first ms /\ chain_bytes demo_fs (udisk s5) ms = chain_bytes demo_fs (udisk s) ms))).
Proof.
  intros s. split; [apply demo_contested, (cc_fds _ _ _ _ _ _ (demo_can_create (demo_memory "/TODO.TXT")))|].
  apply (touch_write_cat_runs demo_fs 8 demo_root_layout 0 2000 0 ltac:(lia) demo_lit demo_code_at (bytes_of "TODO") (bytes_of "TXT") demo_todo eq_refl
    ltac:(done) ltac:(lia) 4112 s s).
  - split; [by apply demo_resumes|]. intros [|k] w Hk; [|done]. injection Hk as <-. split; [by repeat constructor|]. split; [cbn; lia|]. exists 4160.
    apply demo_argument; [lia|lia|cbn; lia|by repeat constructor|by vm_compute|by vm_compute].
  - apply demo_can_create.
  - apply demo_literal; [by left|by vm_compute].
  - apply demo_literal; [by right|by vm_compute].
Defined.

Lemma rm_then_cat_runs_witness :
  let s := demo_state demo_readme demo_rm_memory in
  contested (Z.to_nat 65536) 1 2000 s (Programs.rm demo_rm_lit 1 4112) /\
  succeeds 0 2000 0 demo_code_at (Programs.rm demo_rm_lit 1 4112) s (fun s1 =>
    uconsole s1 = uconsole s /\ removed demo_fs 8 2000 (bytes_of "README") (bytes_of "TXT") s s1 /\
    forall s2 argv2, started 2000 s1 s2 argv2 [file_path (bytes_of "README") (bytes_of "TXT")] -> brk (uheap s2) + 0 + 20 <= heap_top (uheap s2) ->
      runs (Z.to_nat 65536) 1 2000 0 demo_code_at (Programs.cat demo_rm_lit 1 argv2) s2
        (fun status s3 => status = u32 (-1) /\ uconsole s3 = uconsole s2 ++ not_found /\ udisk s3 = udisk s1)).
Proof.
  intros s. split; [apply demo_contested; by destruct demo_removable as (n & i & o & ns & _ & Hf & _)|].
  apply (rm_then_cat_runs demo_fs 8 demo_root_layout 0 2000 0 ltac:(lia) demo_rm_lit demo_code_at (bytes_of "README") (bytes_of "TXT") demo_good_readme eq_refl
    ltac:(done) ltac:(lia) 4112 s s).
  - split; [by apply demo_resumes|]. intros [|k] w Hk; [|done]. injection Hk as <-. split; [by repeat constructor|]. split; [cbn; lia|]. exists 4160.
    apply demo_argument; [lia|lia|cbn; lia|by repeat constructor|by vm_compute|by vm_compute].
  - exact demo_removable.
  - split; [apply demo_lasts; [done|vm_compute; discriminate|by vm_compute]|]. split; [by repeat constructor|simpl; lia].
Defined.
