(* ===== verification/Listing.v ===== *)
(** * Listings

    [ls] on a directory of the volume: a line for each of its entries, in their
    order, whatever the directory holds; and a session that makes a directory,
    puts a file in it and lists it. *)
From S2P Require Import Prelude Mem Strings Scheduler Uart Devices Disk Fat16 Volume Files Directory Slots Root Paths FileSys Descriptors FileCalls Names Tree Create Subdir NamedFiles Kernel Machine Syscalls Process Commands Session Removal System Runs.
From S2P Require Programs.

(** The line of an entry. *)
Definition ls_line (e : fat16_dir_entry_t) : list Z :=
  (if is_dir e then bytes_of "d  " else bytes_of "f  ") ++ text (filename e) ++
  (if bool_decide (text (extension e) = []) then [] else DOT :: text (extension e)) ++ [10].
Definition ls_text (es : list fat16_dir_entry_t) : list Z := es ≫= ls_line.

(** The fields an entry has when it is read from a slot. *)
Record node_shape (e : fat16_dir_entry_t) : Prop := {
  nsh_name : zlength (filename e) = 9;
  nsh_ext : zlength (extension e) = 4;
  nsh_terminated : terminated e
}.

Lemma text_length l : (length (text l) <= length l)%nat.
Proof. induction l as [|c l IH]; cbn; [done|]. destruct (c =? 0); simpl; lia. Qed.

Lemma entries_shape ss : Forall (fun s => zlength s = 32) ss -> Forall node_shape (entries_of ss).
Proof.
  unfold entries_of. induction 1 as [|s ss Hs _ IH]; cbn [listed]; [constructor|]. destruct (_ =? 0); [constructor|]. destruct (_ =? 229); [done|].
  destruct (listed ss) as [t es]. constructor; [|done]. split; [by apply decode_filename| |].
  - unfold decode. cbn [extension]. rewrite length_app, length_fmap. pose proof (slice_length s (0 + 8) 3). cbn [length]. lia.
  - unfold terminated, decode. cbn. split; apply elem_of_app; right; set_solver.
Qed.

Lemma node_bytes e : node_shape e -> zlength (entry_bytes e) = 20.
Proof. intros [H9 H4 _]. unfold entry_bytes. rewrite !length_app, !slice_length by lia. done. Qed.

(** The names of an entry in memory are strings. *)
Lemma entry_names m p e :
  node_shape e -> in_space p 20 -> holds m p (entry_bytes e) ->
  holds m p (cstr (text (filename e)) []) /\ holds m (u32 (p + 9)) (cstr (text (extension e)) []).
Proof.
  intros [H9 H4 [(x & Ex & _)%cstr_text (y & Ey & _)%cstr_text]] [Hp1 Hp2] Hm. unfold entry_bytes in Hm. rewrite u32_small by lia.
  apply holds_app in Hm as [Hf Hm]. rewrite slice_length in Hm by lia. apply holds_app in Hm as [He _].
  replace (p + _) with (p + 9) in He by lia. rewrite slice_0 in Hf, He by lia. rewrite Ex in Hf. rewrite Ey in He.
  assert (Hc : forall t z, cstr t z = cstr t [] ++ z) by (intros; unfold cstr; by rewrite <- app_assoc).
  rewrite (Hc _ x) in Hf. rewrite (Hc _ y) in He. apply holds_app in Hf as [Hf _]. by apply holds_app in He as [He _].
Qed.

Section Ls.
Context `{BlockDevice D} `{Board U} (depth limit : nat) (slack : Z) (Hslack : 0 <= slack) (lit : list Z -> Z).
Abbreviation turns := (Z.to_nat 65536).
Abbreviation ustate := (ustate D U).
Abbreviation wp := (wp (D := D) (U := U) turns depth limit slack).
Abbreviation literal := (literal limit lit).

(** What [ls] prints besides names. *)
Definition ls_literals (s : ustate) : Prop :=
  literal s (bytes_of "d  ") /\ literal s (bytes_of "f  ") /\ literal s (bytes_of ".") /\ literal s [10].

Lemma literals_keeps (s s' : ustate) : keeps s s' -> heap_ok (uheap s') -> ls_literals s -> ls_literals s'.
Proof.
  intros Hk Hh (H1 & H2 & H3 & H4). pose proof (brk_bounds _ Hh) as [_ Hb].
  assert (Hl : forall t, literal s t -> literal s' t) by (intros t [Ht Hn]; split; [by eapply lasting_keeps|done]). split_and!; auto.
Qed.

(** [s'] is [s] with [t] printed since. *)
Record printed (s s' : ustate) (t : list Z) : Prop := {
  pr_ctx : ctx_ok (uctx s');
  pr_heap : heap_ok (uheap s');
  pr_console : uconsole s' = uconsole s ++ t;
  pr_files : ufiles s' = ufiles s;
  pr_disk : udisk s' = udisk s;
  pr_keeps : keeps s s'
}.

Lemma printed_more (s1 s2 s3 : ustate) t1 t2 : printed s1 s2 t1 -> printed s2 s3 t2 -> printed s1 s3 (t1 ++ t2).
Proof. intros [_ _ C1 F1 D1 K1] [X H' C2 F2 D2 K2]. split; [done|done|by rewrite C2, C1, app_assoc|congruence|congruence|by etrans]. Qed.

Lemma printed_console (s : ustate) t c : ctx_ok c -> heap_ok (uheap s) -> printed s (UState c (with_console (uconsole s ++ t) (ukernel s)) (uheap s)) t.
Proof. intros Hc Hh. by split. Qed.

Lemma wp_say (Q : unit -> ustate -> Prop) X t (s : ustate) :
  ctx_ok (uctx s) -> heap_ok (uheap s) -> literal s t -> (forall s', printed s s' t -> uheap s' = uheap s -> umemory s' = umemory s -> Q tt s') -> wp Q X (stdio_print (lit t)) s.
Proof. intros Hc Hh Hl HQ. apply wp_print_literal; [done|done|]. intros c Hc'. by apply HQ; [apply printed_console|..]. Qed.

Lemma wp_print_here (Q : unit -> ustate -> Prop) X p t (s : ustate) :
  ctx_ok (uctx s) -> heap_ok (uheap s) -> is_word p -> own s p (zlength t + 1) -> holds (umemory s) p (cstr t []) -> nonul t -> (length t < limit)%nat -> zlength t < 2 ^ 31 ->
  (forall s', printed s s' t -> uheap s' = uheap s -> umemory s' = umemory s -> Q tt s') -> wp Q X (stdio_print p) s.
Proof. intros Hc Hh Hp Ho Ht Hn Hl Hi HQ. apply (wp_print _ _ _ _ _ _ _ t); try done. intros c Hc'. by apply HQ; [apply printed_console|..]. Qed.

Context (Hlimit : (12 < limit)%nat).

Lemma ls_kind (Q : unit -> ustate -> Prop) X e (s : ustate) :
  ctx_ok (uctx s) -> heap_ok (uheap s) -> ls_literals s ->
  (forall s', printed s s' (if is_dir e then bytes_of "d  " else bytes_of "f  ") -> uheap s' = uheap s -> Q tt s') ->
  wp Q X (if is_subdirectory (unpack_file_attributes (attributes e)) then Programs.say lit "d  " else Programs.say lit "f  ") s.
Proof. intros Hc Hh (Hd & Hf & _) HQ. unfold is_dir in HQ. destruct (is_subdirectory _); apply wp_say; auto. Qed.

Lemma extension_text e : terminated e -> buf_get (extension e) 0 = Ok (byte (extension e) 0) /\ (byte (extension e) 0 = 0 <-> text (extension e) = []).
Proof.
  intros [_ (y & Ey & Hn)%cstr_text]. rewrite Ey, text_cstr by done. destruct (text (extension e)) as [|c t]; [done|].
  apply Forall_cons in Hn as [Hc _]. split; [done|]. split; [|done]. intros E. by destruct (Hc E).
Qed.

(** A line of [ls]. *)
Lemma ls_entry_spec (Q : unit -> ustate -> Prop) X e (s : ustate) :
  ctx_ok (uctx s) -> heap_ok (uheap s) -> ls_literals s -> node_shape e -> brk (uheap s) + slack + sizeof_node <= heap_top (uheap s) ->
  (forall s', printed s s' (ls_line e) -> brk (uheap s') <= brk (uheap s) + slack + sizeof_node -> Q tt s') -> wp Q X (Programs.ls_entry lit e) s.
Proof.
  intros Hc Hh Hlits He Hroom HQ. unfold Programs.ls_entry. apply wp_bind, ls_kind; [done..|]. intros s1 Hp1 Eh1.
  apply wp_bind, wp_node_at; [done|by rewrite Eh1|by rewrite Eh1|]. rewrite Eh1. intros p h Hp Hh2 Hb Hlow Htop.
  set (s2 := with_uheap h _). unfold sizeof_node in *. pose proof (brk_bounds _ Hh2) as Hbb. pose proof Hh2 as (Hl0 & Ht2 & _). pose proof (brk_bounds _ Hh).
  destruct (entry_names (umemory s2) p e He) as [Hname Hext]; [split; lia|apply holds_poke; rewrite node_bytes by done; lia|].
  assert (Hp2 : printed s1 s2 []).
  { split; try done; [apply Hp1|by rewrite app_nil_r|]. split; cbn; rewrite ?Eh1; try done; [lia|].
    intros a Ha. apply poke_below; [rewrite node_bytes by done; split; lia|lia]. }
  destruct (nsh_terminated e He) as [(x & _ & Hnn)%cstr_text (y & _ & Hen)%cstr_text].
  pose proof (text_length (filename e)) as Hl1. pose proof (text_length (extension e)) as Hl2. destruct He as [H9 H4 Ht].
  apply wp_bind, (wp_print_here _ _ p (text (filename e))); [apply Hp2|apply Hp2|unfold is_word; lia|unfold own; cbn; lia|done|done|lia|lia|]. intros s3 Hp3 Eh3 Em3.
  destruct (extension_text e Ht) as [Ex Ee]. apply wp_bind; eapply wp_lift; [exact Ex|].
  pose proof (printed_more _ _ _ _ _ Hp1 (printed_more _ _ _ _ _ Hp2 Hp3)) as Hp13. rewrite app_nil_l in Hp13.
  assert (Hend : forall s4, printed s3 s4 (if bool_decide (text (extension e) = []) then [] else DOT :: text (extension e)) -> uheap s4 = h ->
    wp Q X (Programs.newline lit) s4).
  { intros s4 Hp4 Eh4. pose proof (printed_more _ _ _ _ _ Hp13 Hp4) as Hp14.
    apply wp_say; [apply Hp4|apply Hp4|by apply (literals_keeps s s4); [apply Hp14|apply Hp4|]|]. intros s5 Hp5 Eh5 _.
    pose proof (printed_more _ _ _ _ _ Hp14 Hp5) as Hp15. apply HQ; [by rewrite <- !app_assoc in Hp15|rewrite Eh5, Eh4; lia]. }
  apply wp_bind. destruct (Z.eqb_spec (byte (extension e) 0) 0) as [E0|E0]; cbn [negb Programs.when].
  - apply wp_mret, Hend; [|done]. rewrite bool_decide_true by by apply Ee. split; try done; [apply Hp3..|by rewrite app_nil_r].
  - apply wp_bind, wp_say; [apply Hp3|apply Hp3|by apply (literals_keeps s s3); [apply Hp13|apply Hp3|]|]. intros s4 Hp4 Eh4 Em4.
    apply (wp_print_here _ _ _ (text (extension e))); [apply Hp4|apply Hp4|unfold is_word; rewrite u32_small; lia|unfold own; rewrite Eh4, Eh3, u32_small; cbn; lia|by rewrite Em4, Em3|done|lia|lia|].
    intros s5 Hp5 Eh5 _. apply Hend; [|by rewrite Eh5, Eh4, Eh3]. rewrite bool_decide_false by (intros Ht0; by apply E0, Ee).
    exact (printed_more _ _ _ _ _ Hp4 Hp5).
Qed.

Lemma printed_nothing (s : ustate) : ctx_ok (uctx s) -> heap_ok (uheap s) -> printed s s [].
Proof. intros Hc Hh. split; try done. by rewrite app_nil_r. Qed.

(** Heap enough for [es]. *)
Definition ls_room (s : ustate) (es : list fat16_dir_entry_t) : Prop :=
  brk (uheap s) + (slack + sizeof_node) * zlength es <= heap_top (uheap s).

Lemma ls_lines (Q : unit -> ustate -> Prop) X es : forall (s : ustate),
  ctx_ok (uctx s) -> heap_ok (uheap s) -> ls_literals s -> Forall node_shape es -> ls_room s es ->
  (forall s', printed s s' (ls_text es) -> Q tt s') -> wp Q X (Programs.each es (Programs.ls_entry lit)) s.
Proof.
  unfold ls_room, sizeof_node. induction es as [|e es IH]; intros s Hc Hh Hlits Hes Hroom HQ; cbn [Programs.each].
  - apply wp_mret, HQ. by apply printed_nothing.
  - apply Forall_cons in Hes as [He Hes]. cbn [length] in Hroom. rewrite Nat2Z.inj_succ in Hroom.
    apply wp_bind, ls_entry_spec; [done..|unfold sizeof_node; nia|]. unfold sizeof_node. intros s1 Hp1 Hb1.
    apply IH; [apply Hp1|apply Hp1|apply (literals_keeps s s1); [apply Hp1|apply Hp1|done]|done| |].
    + rewrite (kp_top _ _ (pr_keeps _ _ _ Hp1)). nia.
    + intros s2 Hp2. apply HQ. exact (printed_more _ _ _ _ _ Hp1 Hp2).
Qed.

(** [ls] on a directory that can be opened. *)
Lemma ls_opened argc argv name t n f d es d' (s : ustate) :
  0 < argc -> ctx_ok (uctx s) -> fds_left s -> heap_ok (uheap s) -> ls_literals s -> argument s argv 0 name t ->
  own_paths limit s name (open_files (ufiles s)) ->
  sys_open turns depth (ustrings limit s) name 0 (ufiles s) (udisk s) = Ok (n, f, d) -> 0 <= n < 2 ^ 31 ->
  sys_getdents turns n 100 f d = Ok (Some es, d') -> Forall node_shape es -> ls_room s es ->
  wp no_return (fun status s' => status = EXIT_SUCCESS /\ uconsole s' = uconsole s ++ ls_text es /\
    ufiles s' = f /\ udisk s' = d' /\ keeps s s' /\ heap_ok (uheap s')) (Programs.ls lit argc argv) s.
Proof.
  intros Hargc Hc Hleft Hh Hlits Harg Hpaths Hopen Hn Hdents Hes Hroom. pose proof (brk_bounds _ Hh). pose proof Hh as (Hlow & Htop & _).
  destruct (ag_text _ _ _ _ _ Harg) as (Hname & Hname' & _). unfold cstr in Hname'. rewrite length_app in Hname'. simpl in Hname'.
  unfold Programs.ls. destruct (Z.gtb_spec argc 0); [|lia].
  apply wp_bind, wp_bind, (wp_arg _ _ _ _ _ _ _ _ name t); [done|].
  apply (wp_open _ _ _ _ _ _ _ _ _ n f d); [done|done|eapply lasting_string, Harg|done|unfold is_word; lia|done|unfold is_int; lia|done|]. intros c1 Hc1; state.
  apply wp_bind. destruct (Z.ltb_spec n 0); [lia|]. apply wp_mret.
  apply wp_bind, (wp_getdents _ _ _ _ _ _ _ _ _ es d'); [done|unfold is_int; lia|done|exact Hdents|]. intros place c2 Hplace Hc2; state.
  eapply wp_bind, wp_nodes; [done|]. apply wp_bind. set (s2 := UState _ _ _).
  apply (ls_lines _ _ es s2); [done|done|by apply (literals_keeps s s2)|done|done|].
  intros s3 [_ Hh3 C3 F3 D3 K3]. apply wp_exit_last. split; [done|]. split; [exact C3|]. split; [exact F3|]. split; [exact D3|]. split; [|done].
  transitivity s2; [by split|done].
Qed.
End Ls.

(** ** On a volume *)
Lemma slots_32 b : Forall (fun s => zlength s = 32) (slots b).
Proof.
  unfold slots. apply Forall_fmap, Forall_forall. intros j [Hj Hj']%elem_of_seqZ. cbn. unfold slot.
  assert (32 * (zlength b / 32) <= zlength b) by (apply Z.mul_div_le; lia). rewrite slice_length; lia.
Qed.

Section Volume.
Context `{BlockDeviceLaws D} `{Board U} (v : fat16_t) (N : Z) (Hroot : root_layout v N).
Context (depth limit : nat) (slack : Z) (Hslack : 0 <= slack) (lit : list Z -> Z) (Hlimit : (12 < limit)%nat).
Context (code_at : Z -> option (Z -> Z -> code unit)).
Abbreviation turns := (Z.to_nat 65536).
Abbreviation ustate := (ustate D U).
Abbreviation runs := (runs (D := D) (U := U) turns (S depth) limit slack code_at).
Abbreviation succeeds := (succeeds (D := D) (U := U) depth limit slack code_at).
Abbreviation root_entries d := (entries_of (root_slots v d)).

(** The absolute path [t] is that of a directory that lists [es]. *)
Inductive directory_at (d : D) : list Z -> list fat16_dir_entry_t -> Prop :=
| root_at : directory_at d [SLASH] (root_entries d)
| subdirectory_at c cs x es :
    Forall component_ok (c :: cs) -> 2 <= zlength (component_text (final c cs)) -> zlength (path_text c cs) < 2 ^ 31 -> (length cs <= depth)%nat ->
    leads v N d (root_entries d) c cs (Some x) -> holds_entries v N d x es -> 2 <= first_cluster x ->
    directory_at d (SLASH :: path_text c cs) es.

Lemma directory_shape d t es : vol v N d -> directory_at d t es -> Forall node_shape es.
Proof.
  intros Hv [|c cs x es' _ _ _ _ _ (_ & ns & _ & ->) _]; apply entries_shape; [|apply slots_32].
  apply Forall_forall. intros s Hs. by apply (root_slots_ok v N Hroot d).
Qed.

Lemma directory_nonul d t es : directory_at d t es -> nonul t.
Proof. intros [|c cs x es' Hok _ _ _ _ _ _]; [by repeat constructor|]. by apply dir_path_nonul. Qed.

(** Opening it, when it is not open, and asking for its entries. *)
Lemma open_directory mem p f (d : D) t es :
  fs f = v -> vol v N d -> fds_ok f -> mem p = cstr t [] -> find_open_file mem p (open_files f) = Ok None -> directory_at d t es ->
  exists e, sys_open turns (S depth) mem p 0 f d = Ok (next_fd f, opened_at e p f, d) /\
    sys_getdents turns (next_fd f) 100 (opened_at e p f) d = Ok (Some es, d).
Proof.
  intros Hfs Hv Hfds Hp Hopen Hdir.
  assert (Hgo : forall e, open_file turns (S depth) mem p f d = Ok (Some (length (open_files f)), opened_at e p f, d) ->
    (if first_cluster e <? 2 then '(dir, d) ← get_root_dir v d; Ok (Some dir, d) else get_dir turns v e d) = Ok (Some es, d) ->
    exists e, sys_open turns (S depth) mem p 0 f d = Ok (next_fd f, opened_at e p f, d) /\
      sys_getdents turns (next_fd f) 100 (opened_at e p f) d = Ok (Some es, d)).
  { intros e Eo Ed. exists e. split.
    - unfold sys_open. rewrite Hopen. ok_bind. rewrite Eo. ok_bind. change (negb (Z.land 0 O_APPEND =? 0)) with false.
      unfold opened_at, update_open. cbn [open_files with_open_files]. by rewrite update_last, list_lookup_middle by done.
    - unfold sys_getdents. cbn [opened_at open_files with_open_files]. rewrite find_fd_next by done. rewrite list_lookup_middle by done.
      cbn [deref_opt]. ok_bind. cbn [directory_entry]. by rewrite <- Ed, <- Hfs. }
  destruct Hdir as [|c cs x es Hok Hlast Hlen Hd Hl Hx Hfc].
  - eapply Hgo.
    + unfold open_file. rewrite Hfs, (get_root_dir_eq v N Hroot) by done. ok_bind. rewrite Hp. reflexivity.
    + cbn [first_cluster]. change (0 <? 2) with true. cbv iota. by rewrite (get_root_dir_eq v N Hroot).
  - apply (Hgo x).
    + rewrite (open_file_eq v N (rl_lay _ _ Hroot) f d mem p c cs (Some x) [] (S depth)); (done || lia).
    + destruct (Z.ltb_spec (first_cluster x) 2); [lia|]. by apply (get_dir_spec v N (rl_lay _ _ Hroot)).
Qed.

(** No descriptor is open on the path [t]. *)
Definition not_open (s : ustate) (t : list Z) : Prop :=
  Forall (fun o => exists t', lasting s (path o) (cstr t' []) /\ nonul t' /\ (length t' < limit)%nat /\ t' <> t) (open_files (ufiles s)).

Lemma not_open_find (s : ustate) p t :
  not_open s t -> nonul t -> ustrings limit s p = cstr t [] -> find_open_file (ustrings limit s) p (open_files (ufiles s)) = Ok None.
Proof.
  intros Ho Hn Hp. apply (find_open_none _ _ t); [done|done|]. eapply Forall_impl; [exact Ho|]. intros o (t' & Hl & Hn' & Hlen & Hne).
  exists t'. split; [by apply string_at|done].
Qed.

Lemma not_open_paths (s : ustate) p t : not_open s t -> own_paths limit s p (open_files (ufiles s)).
Proof. intros Ho. by eapply own_paths_all, known_paths. Qed.

(** A volume mounted in the kernel, with descriptors in order. *)
Record mounted (s : ustate) : Prop := {
  mt_volume : fs (ufiles s) = v;
  mt_vol : vol v N (udisk s);
  mt_fds : fds_ok (ufiles s)
}.

Lemma ls_directory argc argv name t es (s : ustate) :
  0 < argc -> mounted s -> ctx_ok (uctx s) -> fds_left s -> heap_ok (uheap s) -> ls_literals limit lit s -> argument s argv 0 name t ->
  (length t < limit)%nat -> not_open s t -> directory_at (udisk s) t es -> ls_room slack s es ->
  wp turns (S depth) limit slack no_return (fun status s' => status = EXIT_SUCCESS /\ uconsole s' = uconsole s ++ ls_text es /\ udisk s' = udisk s /\
    keeps s s' /\ exists e, ufiles s' = opened_at e name (ufiles s)) (Programs.ls lit argc argv) s.
Proof.
  intros Hargc [Hfs Hv Hfds] Hc Hleft Hh Hlits Harg Hlen Hno Hdir Hroom. pose proof (directory_nonul _ _ _ Hdir) as Hn.
  assert (Hp : ustrings limit s name = cstr t []) by by apply string_at; [apply Harg|..].
  destruct (open_directory (ustrings limit s) name (ufiles s) (udisk s) t es) as (e & Eo & Ed); try done; [by apply (not_open_find s name t)|].
  pose proof (fds_next _ Hfds). unfold fds_left in Hleft. change (next_fd (ufiles s) + 1 < 2 ^ 31) in Hleft.
  eapply wp_mono; [eapply (ls_opened (S depth) limit slack Hslack lit Hlimit argc argv name t (next_fd (ufiles s)) (opened_at e name (ufiles s)) (udisk s) es (udisk s) s)|done|];
    try done; [by eapply not_open_paths|lia|by eapply directory_shape|].
  intros st s' (-> & Hcon & Hf & Hd & Hk & _). split_and!; try done. by exists e.
Qed.

(** [touch] in a directory with room. *)
Record touched (s s' : ustate) (n e : list Z) (x : fat16_dir_entry_t) (c : component) (cs : list component) (ns : list Z) (before after : list fat16_dir_entry_t) (cl : Z) : Prop := {
  to_console : uconsole s' = uconsole s;
  to_keeps : keeps s s';
  to_heap : heap_ok (uheap s');
  to_mounted : mounted s';
  to_files : exists name, open_files (ufiles s') = open_files (ufiles s) ++ [OpenFile (next_fd (ufiles s)) (listed_entry n e 0 cl) name 0 false] /\
    lasting s name (cstr ((SLASH :: path_text c cs) ++ (SLASH :: n ++ DOT :: e)) []);
  to_free : fat v (udisk s) cl = 0;
  to_chain : chain v N (udisk s') cl [cl];
  to_listing : holds_entries v N (udisk s') x (before ++ listed_entry n e 0 cl :: after);
  to_path : exists ms, dir_path v N (udisk s') (root_entries (udisk s')) c cs x ms;
  to_root : root_slots v (udisk s') = root_slots v (udisk s);
  to_chains : forall first ms, chain v N (udisk s) first ms -> (forall a, a ∈ ms -> a ∉ ns) ->
    chain v N (udisk s') first ms /\ chain_bytes v (udisk s') ms = chain_bytes v (udisk s) ms
}.

Lemma touch_in_directory argv name n e c cs x ns pre sl post (s : ustate) :
  let t := (SLASH :: path_text c cs) ++ (SLASH :: n ++ DOT :: e) in
  good_name n e -> mounted s -> table_sane v N (udisk s) -> ctx_ok (uctx s) -> fds_left s -> heap_ok (uheap s) -> argument s argv 0 name t ->
  (length t < limit)%nat -> not_open s t -> (exists m, in_table v m /\ fat v (udisk s) m = 0) ->
  room_at v N (S depth) (udisk s) c cs x ns pre sl post ->
  Forall (fun entry => Names.called n e entry = false) (entries_of pre ++ entries_of (sl :: post)) ->
  command depth limit slack (Programs.touch lit 1 argv) s (fun s' => exists cl, touched s s' n e x c cs ns (entries_of pre) (entries_of post) cl).
Proof.
  intros t Hg [Hfs Hv Hfds] Hsane Hc Hleft Hh Harg Hlen Hno Hfree Hra Hnone. pose proof (ag_nonul _ _ _ _ _ Harg) as Hn.
  pose proof (fds_next _ Hfds). unfold fds_left in Hleft. change (next_fd (ufiles s) + 1 < 2 ^ 31) in Hleft.
  assert (Hp : ustrings limit s name = cstr t []) by by apply string_at; [apply Harg|..].
  destruct (create_in_dir v N Hroot (S depth) (ustrings limit s) n e [] O_CREAT (ufiles s) (udisk s) c cs x ns pre sl post name)
    as (cl & d' & Eo & _ & _ & _ & Hv' & Hcl & Hch & Hx & Hr & Hpath & Hkept); try done; [by apply (not_open_find s name t)|].
  destruct (argument_word n s argv 0 name t Harg) as (Hw & _ & _).
  unfold Programs.touch. apply wp_bind. cbn [Z.eqb Pos.eqb Programs.when].
  apply wp_bind, (wp_arg _ _ _ _ _ _ _ _ name t); [done|].
  eapply wp_bind, (wp_open _ _ _ _ _ _ _ _ _ (next_fd (ufiles s))); [done|done|eapply lasting_string, Harg|by eapply not_open_paths|done|done|unfold is_int; lia|exact Eo|]. intros c1 Hc1; state.
  apply wp_bind. destruct (Z.ltb_spec (next_fd (ufiles s)) 0); [lia|]. apply wp_mret. apply wp_exit_last. split; [done|].
  exists cl. split; try done.
  - split; [done|done|]. by apply (add_fds_ok (ufiles s)).
  - exists name. split; [done|apply Harg].
Qed.

(** C3 (functional): [ls] on the path of a directory that is not open: the root,
    or a path of any depth whose parts have one to seven characters and at most
    three after a dot, the last part at least two in all ([directory_at]), on a
    heap with room for the listing ([ls_room]). Whatever interrupts and quiet
    steps of others come in between, the process runs to a successful exit and
    prints a line for each entry of the directory, in their order, with its
    kind, its name and its extension if it has one, whatever the directory
    holds; the disk is as before. The directory stays open. *)
Theorem ls_runs argc argv name t es (s : ustate) :
  0 < argc -> mounted s -> ctx_ok (uctx s) -> fds_left s -> heap_ok (uheap s) -> ls_literals limit lit s -> argument s argv 0 name t ->
  (length t < limit)%nat -> not_open s t -> directory_at (udisk s) t es -> ls_room slack s es ->
  succeeds (Programs.ls lit argc argv) s (fun s' => uconsole s' = uconsole s ++ (es ≫= ls_line) /\ udisk s' = udisk s /\ keeps s s' /\
    exists e, ufiles s' = opened_at e name (ufiles s)).
Proof. intros. eapply command_succeeds; [by eapply ls_directory|]. done. Qed.
End Volume.

(** ** A directory, a file in it, and the listing *)
Section Session.
Context `{BlockDeviceLaws D} `{Board U} (v : fat16_t) (N : Z) (Hroot : root_layout v N).
Context (depth limit : nat) (slack : Z) (Hslack : 0 <= slack) (lit : list Z -> Z) (Hlimit : (12 < limit)%nat).
Context (code_at : Z -> option (Z -> Z -> code unit)).
Context (dn n e : list Z) (Hdn : good_name dn []) (H2 : 2 <= zlength dn) (Hg : good_name n e) (He : e <> []).
Abbreviation turns := (Z.to_nat 65536).
Abbreviation ustate := (ustate D U).
Abbreviation root_entries d := (entries_of (root_slots v d)).
Abbreviation command := (command (S depth) limit slack).
Abbreviation started := (started limit).
Abbreviation not_open := (not_open limit).
Abbreviation mounted := (mounted v N).
Abbreviation succeeds := (succeeds (D := D) (U := U) (S depth) limit slack code_at).
Abbreviation dir_component := (Component dn None).
Definition dir_text : list Z := SLASH :: dn.
Definition member_text : list Z := dir_text ++ (SLASH :: n ++ DOT :: e).

(** A volume with room for a directory and a file, whose free clusters are
    blank. *)
Record can_mkdir (s : ustate) : Prop := {
  cm_mounted : mounted s;
  cm_sane : table_sane v N (udisk s);
  cm_clusters : exists m1 m2, m1 <> m2 /\ in_table v m1 /\ fat v (udisk s) m1 = 0 /\ in_table v m2 /\ fat v (udisk s) m2 = 0;
  cm_blank : forall m, in_table v m -> fat v (udisk s) m = 0 -> blank (cluster v (udisk s) m);
  cm_slot : exists pre x post, root_slots v (udisk s) = pre ++ x :: post /\ all_taken pre /\ slot_free x = true /\
    Forall (fun entry => dir_named dir_component entry = false) (entries_of post);
  cm_absent : Forall (fun entry => Names.called dn [] entry = false /\ dir_named dir_component entry = false) (root_entries (udisk s));
  cm_dir : not_open s dir_text;
  cm_member : not_open s member_text
}.

Lemma ls_line_listed cl : ls_line (listed_entry n e 0 cl) = bytes_of "f  " ++ n ++ (DOT :: e) ++ [10].
Proof.
  pose proof (listed_entry_called n e Hg 0 cl) as [En Ee]%bool_decide_eq_true. unfold ls_line. by rewrite En, Ee, bool_decide_false.
Qed.

Lemma not_open_after (s s' : ustate) t :
  keeps s s' -> heap_ok (uheap s') -> open_files (ufiles s') = open_files (ufiles s) -> not_open s t -> not_open s' t.
Proof.
  intros Hk Hh E. unfold Listing.not_open. rewrite E. intros Ho. eapply Forall_impl; [exact Ho|]. intros o (t' & Hl & Ht).
  exists t'. split; [|done]. apply (lasting_keeps s); [done|by apply brk_bounds|done].
Qed.

Lemma mounted_resumes (s s' : ustate) : resumes s s' -> mounted s -> mounted s'.
Proof. intros [_ _ Ef Ed _ _] []. split; by rewrite ?Ef, ?Ed. Qed.

(** [mkdir] in the root directory. *)
Lemma mkdir_command argv name (s : ustate) :
  can_mkdir s -> ctx_ok (uctx s) -> heap_ok (uheap s) -> argument s argv 0 name dir_text -> (length dir_text < limit)%nat ->
  command (Programs.mkdir lit 1 argv) s (fun s' => uconsole s' = uconsole s /\ keeps s s' /\ heap_ok (uheap s') /\ ufiles s' = ufiles s /\
    exists cl before after, Forall (fun entry => Names.called dn [] entry = false) before /\ mkdir_left v N depth (udisk s) (udisk s') dn cl before after).
Proof.
  intros [[Hfs Hv Hfds] Hsane (m1 & m2 & Hm & Hm1 & Hf1 & _) Hblank (pre & x & post & Hsl & Hpre & Hx & Hpost) Hnone _ _] Hc Hh Harg Hlen.
  assert (Hp : ustrings limit s name = cstr (SLASH :: dn) []) by (apply string_at; [apply Harg|apply Harg|done]).
  destruct (mkdir_leaves v N Hroot depth (ustrings limit s) dn [] (ufiles s) (udisk s) pre x post name) as (cl & d1 & E & Hml); try done; [by exists m1|].
  destruct (argument_word dn s argv 0 name dir_text Harg) as (Hw & _ & _).
  unfold Programs.mkdir. apply wp_bind. cbn [Z.eqb Pos.eqb Programs.when].
  apply wp_bind, (wp_arg _ _ _ _ _ _ _ _ name dir_text); [done|].
  eapply wp_bind, (wp_mkdir _ _ _ _ _ _ _ _ 0); [done|eapply lasting_string, Harg|done|done|exact E|]. intros c1 Hc1; state.
  apply wp_bind. cbn [negb Z.eqb Programs.when]. apply wp_mret. apply wp_exit_last. split; [done|].
  set (s' := UState _ _ _). split; [done|]. split; [by split|]. split; [done|]. split; [done|].
  exists cl, (entries_of pre), (entries_of post). split; [|exact Hml].
  rewrite Hsl, entries_app in Hnone by by apply taken_no_end. apply Forall_app in Hnone as [Hnone _].
  eapply Forall_impl; [exact Hnone|]. by intros y [].
Qed.

(** The directory is where its path says, with the one file in it. *)
Lemma directory_of_one (d : D) cl before after es :
  root_entries d = before ++ listed_entry dn [] 16 cl :: after -> Forall (fun entry => Names.called dn [] entry = false) before ->
  2 <= cl -> holds_entries v N d (listed_entry dn [] 16 cl) es -> directory_at v N (S depth) d dir_text es.
Proof.
  intros Hr Hb Hcl Hx. pose proof (gn_length dn [] Hdn).
  apply (subdirectory_at v N (S depth) d dir_component [] (listed_entry dn [] 16 cl)); try done;
    [constructor; [by apply dir_component_ok|constructor]|cbn; lia|cbn; lia|].
  assert (head (filter (fun entry => Is_true (Names.called dn [] entry)) (root_entries d)) = Some (listed_entry dn [] 16 cl)) as <-; [|constructor].
  rewrite Hr, filter_app, none_called by done. cbn [app]. rewrite filter_cons_True; [done|]. by rewrite (listed_entry_called dn [] Hdn 16 cl).
Qed.

(** The directory is not open once a file in it is. *)
Lemma not_open_touched (s s' s'' : ustate) x ns before after cl :
  not_open s dir_text -> touched v N s s' n e x dir_component [] ns before after cl -> (length member_text < limit)%nat -> nonul member_text ->
  resumes s' s'' -> not_open s'' dir_text.
Proof.
  intros Hno Ht Hlen Hn Hr. apply (not_open_after s'); [apply Hr|apply Hr|by rewrite (rs_files _ _ Hr)|].
  destruct (to_files _ _ _ _ _ _ _ _ _ _ _ _ _ Ht) as (p & Eo & Hp). unfold Listing.not_open. rewrite Eo.
  pose proof (to_heap _ _ _ _ _ _ _ _ _ _ _ _ _ Ht) as Hh. pose proof (to_keeps _ _ _ _ _ _ _ _ _ _ _ _ _ Ht) as Hk.
  pose proof (brk_bounds _ Hh) as [_ Hb].
  apply Forall_app. split.
  - eapply Forall_impl; [exact Hno|]. intros o (t' & Hl & Ht'). exists t'. split; [by apply (lasting_keeps s)|done].
  - constructor; [|constructor]. exists member_text. split; [by apply (lasting_keeps s)|]. split; [done|]. split; [done|].
    intros E%(f_equal length). unfold member_text in E. rewrite length_app in E. cbn in E. lia.
Qed.

(** C8 (functional): a session with a directory whose name has two to seven
    plain characters and no extension, and a file in it whose name has one to
    seven and whose extension one to three, the first character of neither 0x05.
    In a volume whose free clusters are blank, with a free slot in the root
    directory and two free clusters ([can_mkdir]), where the name is new and no
    descriptor is open on either, [mkdir] of the directory, [touch] of the file
    and [ls] of the directory, started one after the other, each run to a
    successful exit, whatever interrupts and quiet steps of others come in
    between; [ls] prints the line of the file and nothing else, and every chain
    that was there keeps its clusters and its bytes. *)
Theorem mkdir_touch_ls_runs argv s0 (s : ustate) :
  started s0 s argv [dir_text] -> can_mkdir s -> ls_literals limit lit s ->
  succeeds (Programs.mkdir lit 1 argv) s (fun s1 =>
    forall s2 argv2, started s1 s2 argv2 [member_text] ->
      succeeds (Programs.touch lit 1 argv2) s2 (fun s3 =>
        forall s4 argv4, started s3 s4 argv4 [dir_text] -> brk (uheap s4) + slack + sizeof_node <= heap_top (uheap s4) ->
          succeeds (Programs.ls lit 1 argv4) s4 (fun s5 =>
            uconsole s5 = uconsole s4 ++ bytes_of "f  " ++ n ++ (DOT :: e) ++ [10] /\
            forall first ms, chain v N (udisk s) first ms ->
              chain v N (udisk s5) first ms /\ chain_bytes v (udisk s5) ms = chain_bytes v (udisk s) ms))).
Proof.
  intros Hst Hcm Hlits. pose proof Hst as [Hr _]. destruct (started_first _ _ _ _ _ _ Hst) as (p & Harg).
  assert (Hlen : (length dir_text < limit)%nat) by by apply (proj2 Hst 0%nat).
  eapply command_succeeds; [apply (mkdir_command argv p s); (done || apply Hr)|].
  intros s1 (_ & Hk1 & Hh1 & Hf1 & cl & before & after & Hbefore & [Hv1 Hsane1 Hcl0 Hcl1 Hoth Hroot1 (sl & rest & Hra & He1 & He2) Hch1]) s2 argv2 Hst2.
  pose proof Hst2 as [Hr2 _]. destruct (started_first _ _ _ _ _ _ Hst2) as (p2 & Harg2).
  destruct (cm_mounted _ Hcm) as [Hfs Hv Hfds].
  assert (Hm2 : mounted s2) by (apply (mounted_resumes s1); [done|]; by split; rewrite ?Hf1).
  rewrite <- (rs_disk _ _ Hr2) in Hv1, Hsane1, Hcl1, Hoth, Hroot1, Hra, Hch1.
  assert (Hno : forall t, not_open s t -> not_open s2 t).
  { intros t Ht. apply (not_open_after s1); [apply Hr2|apply Hr2|by rewrite (rs_files _ _ Hr2)|]. by apply (not_open_after s); rewrite ?Hf1. }
  destruct (cm_clusters _ Hcm) as (m1 & m2 & Hm12 & Hm1 & Hm10 & Hm2' & Hm20).
  eapply command_succeeds; [apply (touch_in_directory v N Hroot (S depth) limit slack lit Hlimit argv2 p2 n e dir_component [] (listed_entry dn [] 16 cl) [cl] [] sl rest s2);
    try done; try apply Hr2; [by apply (proj2 Hst2 0%nat)|by apply Hno, Hcm| |by rewrite He1]|].
  { destruct (decide (m1 = cl)) as [->|]; [exists m2|exists m1]; (split; [done|]); by rewrite Hoth. }
  intros s3 (cl2 & Ht). pose proof Ht as [_ Hk3 Hh3 Hm3 (p3 & Hof3 & Hp3) _ _ Hx3 _ Hroot3 Hch3]. rewrite He2 in Hx3. intros s4 argv4 Hst4 Hroom.
  pose proof Hst4 as [Hr4 _]. destruct (started_first _ _ _ _ _ _ Hst4) as (p4 & Harg4).
  assert (Hcl : 2 <= cl).
  { destruct Hra as [_ _ _ _ _ Hc _ _ _ _]. by apply (chain_nonempty v N (udisk s2) cl [cl]). }
  assert (Hnn : nonul member_text) by by destruct Harg2.
  assert (Hl4 : ls_literals limit lit s4).
  { apply (literals_keeps limit lit s3); [apply Hr4|apply Hr4|]. apply (literals_keeps limit lit s2); [done|done|].
    apply (literals_keeps limit lit s1); [apply Hr2|apply Hr2|]. by apply (literals_keeps limit lit s). }
  eapply command_succeeds; [apply (ls_directory v N Hroot (S depth) limit slack Hslack lit Hlimit 1 argv4 p4 dir_text [listed_entry n e 0 cl2] s4);
    try done; try apply Hr4|].
  - by apply (mounted_resumes s3).
  - eapply (not_open_touched s2 s3 s4); [apply Hno, Hcm|exact Ht|by apply (proj2 Hst2 0%nat)|done|done].
  - rewrite (rs_disk _ _ Hr4). apply (directory_of_one _ cl before after); [by rewrite Hroot3|done|done|exact Hx3].
  - unfold ls_room, sizeof_node in *. cbn [length]. lia.
  - intros s5 (Hcon5 & Hd5 & _). split; [rewrite Hcon5; cbn [ls_text mbind list_bind]; by rewrite app_nil_r, ls_line_listed|].
    intros first ms Hms. rewrite Hd5, (rs_disk _ _ Hr4). destruct (Hch1 first ms Hms) as [Hms1 Hb1]. destruct (Hch3 first ms Hms1) as [Hms3 Hb3]; [|by rewrite Hb3].
    intros a Ha ->%list_elem_of_singleton. by apply (chain_not_free v N (rl_lay _ _ Hroot) (udisk s) first ms cl Hms).
Qed.
End Session.

(** ** At work: the volume of [Subdir], with a directory and two blank clusters *)
Definition yard_lit (t : list Z) : Z :=
  if bool_decide (t = bytes_of "d  ") then 4096 else if bool_decide (t = bytes_of "f  ") then 4100
  else if bool_decide (t = bytes_of ".") then 4104 else 4106.
Definition yard_memory (file : string) : Z -> Z :=
  demo_bytes [(4096, bytes_of "d  " ++ [0]); (4100, bytes_of "f  " ++ [0]); (4104, bytes_of "." ++ [0]); (4106, [10; 0]);
    (4112, word_bytes 4160); (4160, bytes_of file ++ [0])].
Definition yard_state (m : Z -> Z) : ustate ram_disk board :=
  UState demo_ctx (with_user m (with_files Create.demo_files yard Machine.demo_kernel)) (Heap 65536 32768 196608).

Lemma yard_lasts m a l : 0 <= a -> a + zlength l <= 65536 -> peek m a (zlength l) = l -> lasting (yard_state m) a l.
Proof. intros Ha Hl Hm. split; [done|]. split; [done|]. split; [done|]. by apply holds_peek. Qed.

Lemma yard_argument m t : zlength t < 500 -> nonul t -> peek m 4112 4 = word_bytes 4160 -> peek m 4160 (zlength (cstr t [])) = cstr t [] ->
  argument (yard_state m) 4112 0 4160 t.
Proof.
  intros Ht Hn Hm Hs. split; [by apply yard_lasts|apply yard_lasts; [done| |done]|done]. unfold cstr. rewrite length_app. simpl. lia.
Qed.

Lemma yard_literals file : ls_literals 2000 yard_lit (yard_state (yard_memory file)).
Proof.
  repeat apply conj; try (apply yard_lasts; [by vm_compute|by vm_compute|by vm_compute]); try (by repeat constructor); by apply (bool_decide_unpack _); vm_compute.
Qed.

Lemma yard_mounted m : mounted demo_fs 8 (yard_state m).
Proof. split; [done|exact yard_ok|]. split; [constructor|intros n Hn; by apply elem_of_nil in Hn|done]. Qed.

Lemma yard_directory : directory_at demo_fs 8 0 yard (bytes_of "/SUBDIR") [decode story_slot 0].
Proof.
  apply (subdirectory_at demo_fs 8 0 yard subdir [] yard_dir [decode story_slot 0]); [repeat constructor; cbn; (lia || done)|simpl; lia|by vm_compute|done| | |done].
  - rewrite yard_root. apply (leads_here _ _ yard [yard_dir] subdir).
  - split; [done|]. exists [2]. split; [exact yard_chain|]. by vm_compute.
Qed.

Lemma ls_runs_witness :
  let s := yard_state (yard_memory "/SUBDIR") in
  contested (Z.to_nat 65536) 1 2000 s (Programs.ls yard_lit 1 4112) /\
  succeeds 0 2000 0 demo_code_at (Programs.ls yard_lit 1 4112) s (fun s' =>
    uconsole s' = uconsole s ++ ([decode story_slot 0] ≫= ls_line) /\ udisk s' = udisk s /\ keeps s s' /\
    exists e, ufiles s' = opened_at e 4160 (ufiles s)) /\ [decode story_slot 0] ≫= ls_line = bytes_of "f  ASTORY.TXT" ++ [10].
Proof.
  intros s. split; [apply demo_contested, (mt_fds _ _ _ (yard_mounted (yard_memory "/SUBDIR")))|]. split; [|by vm_compute].
  apply (ls_runs demo_fs 8 demo_root_layout 0 2000 0 ltac:(lia) yard_lit ltac:(lia) demo_code_at 1 4112 4160 (bytes_of "/SUBDIR") [decode story_slot 0] s).
  - lia.
  - apply yard_mounted.
  - done.
  - done.
  - apply heap_ok_Heap; lia.
  - apply yard_literals.
  - apply yard_argument; [cbn; lia|by repeat constructor|by vm_compute|by vm_compute].
  - apply (bool_decide_unpack _). by vm_compute.
  - constructor.
  - exact yard_directory.
  - unfold ls_room, sizeof_node. vm_compute. discriminate.
Defined.

Lemma yard_can_mkdir m : can_mkdir demo_fs 8 2000 (bytes_of "NEW") (bytes_of "TODO") (bytes_of "MD") (yard_state m).
Proof.
  split.
  - apply yard_mounted.
  - exact yard_sane.
  - exists 4, 6. unfold in_table. simpl. split_and!; (done || lia || by vm_compute).
  - intros c Hc H0. destruct (yard_free c Hc H0) as [->| ->]; apply (bool_decide_unpack _); by vm_compute.
  - exists [subdir_slot], (replicate 32 0), (replicate 14 (replicate 32 0)). split; [by vm_compute|]. split; [by repeat constructor|]. by split.
  - change (udisk (yard_state m)) with yard. rewrite yard_root. apply (bool_decide_unpack _). by vm_compute.
  - constructor.
  - constructor.
Qed.

Lemma mkdir_touch_ls_runs_witness :
  let s := yard_state (yard_memory "/NEW") in
  contested (Z.to_nat 65536) 2 2000 s (Programs.mkdir yard_lit 1 4112) /\
  succeeds 1 2000 0 demo_code_at (Programs.mkdir yard_lit 1 4112) s (fun s1 =>
    forall s2 argv2, started 2000 s1 s2 argv2 [member_text (bytes_of "NEW") (bytes_of "TODO") (bytes_of "MD")] ->
      succeeds 1 2000 0 demo_code_at (Programs.touch yard_lit 1 argv2) s2 (fun s3 =>
        forall s4 argv4, started 2000 s3 s4 argv4 [dir_text (bytes_of "NEW")] -> brk (uheap s4) + 0 + sizeof_node <= heap_top (uheap s4) ->
          succeeds 1 2000 0 demo_code_at (Programs.ls yard_lit 1 argv4) s4 (fun s5 =>
            uconsole s5 = uconsole s4 ++ bytes_of "f  " ++ bytes_of "TODO" ++ (DOT :: bytes_of "MD") ++ [10] /\
            forall first ms, chain demo_fs 8 (udisk s) first ms ->
              chain demo_fs 8 (udisk s5) first ms /\ chain_bytes demo_fs (udisk s5) ms = chain_bytes demo_fs (udisk s) ms))).
Proof.
  intros s. split; [apply demo_contested, (mt_fds _ _ _ (yard_mounted (yard_memory "/NEW")))|].
  apply (mkdir_touch_ls_runs demo_fs 8 demo_root_layout 0 2000 0 ltac:(lia) yard_lit ltac:(lia) demo_code_at (bytes_of "NEW") (bytes_of "TODO") (bytes_of "MD")
    new_good ltac:(simpl; lia) demo_good_name ltac:(done) 4112 s s).
  - split; [split; try done; apply heap_ok_Heap; lia|]. intros [|k] w Hk; [|done]. injection Hk as <-. split; [by repeat constructor|].
    split; [apply (bool_decide_unpack _); by vm_compute|]. exists 4160. apply yard_argument; [cbn; lia|by repeat constructor|by vm_compute|by vm_compute].
  - apply yard_can_mkdir.
  - apply yard_literals.
Defined.
