(* ===== verification/Unlink.v ===== *)
(** * Removing a file from a directory

    [unlink] and the program [rm] on a file at the end of a path of any depth:
    the directory then lists the others, in their order, and nothing else
    changes. *)
From S2P Require Import Prelude Mem Strings Stream Scheduler Uart Devices Disk Fat16 Volume Files Directory Slots Root Paths FileSys Descriptors FileCalls Names Tree Create Subdir NamedFiles Kernel Machine Syscalls Process Commands Session Removal System Runs Listing.
From S2P Require Programs.

(** A listed entry has its slot. *)
Lemma listed_slot ss x : x ∈ entries_of ss ->
  exists pre s post, ss = pre ++ s :: post /\ no_end pre /\ byte s 0 <> 0 /\ byte s 0 <> 229 /\ x = decode s 0.
Proof.
  induction ss as [|s ss IH]; [by intros ?%elem_of_nil|]. destruct (Z.eqb_spec (byte s 0) 0) as [E0|E0].
  { unfold entries_of. cbn [listed]. rewrite E0. by intros ?%elem_of_nil. }
  assert (Hrec : x ∈ entries_of ss -> exists pre s' post, s :: ss = pre ++ s' :: post /\ no_end pre /\ byte s' 0 <> 0 /\ byte s' 0 <> 229 /\ x = decode s' 0).
  { intros (pre & s' & post & -> & Hpre & Hs)%IH. exists (s :: pre), s', post. split; [done|]. split; [by constructor|done]. }
  destruct (Z.eqb_spec (byte s 0) 229) as [E9|E9].
  - unfold entries_of. cbn [listed]. rewrite E9. exact Hrec.
  - rewrite entries_cons by done. intros [->|Hx]%elem_of_cons; [|by apply Hrec]. exists [], s, ss. by repeat split; [constructor|..].
Qed.

Lemma text_full l : zlength (text (l ++ [0])) = zlength l -> nonul l.
Proof.
  induction l as [|c l IH]; [constructor|]. cbn. destruct (Z.eqb_spec c 0); [done|]. cbn. intros E. constructor; [done|]. apply IH. lia.
Qed.

(** The place of an element that is the only one of its kind. *)
Lemma only_split {A} (P : A -> bool) e : forall l1 l2 k1 k2,
  P e = true -> Forall (fun y => P y = false) (k1 ++ k2) -> l1 ++ e :: l2 = k1 ++ e :: k2 -> l1 = k1 /\ l2 = k2.
Proof.
  induction l1 as [|a l1 IH]; intros l2 [|b k1] k2 He Hk E; cbn in E.
  - by injection E as ->.
  - injection E as <- _. apply Forall_cons in Hk as [Hb _]. congruence.
  - injection E as -> E. assert (Hin : e ∈ k2) by (rewrite <- E; set_solver). apply (Forall_forall (fun y => P y = false) k2) in Hin; [congruence|done].
  - injection E as <- E. apply Forall_cons in Hk as [_ Hk]. by destruct (IH l2 k1 k2 He Hk E) as [-> ->].
Qed.

Section Unlink.
Context `{BlockDeviceLaws D} (v : fat16_t) (N : Z) (Hroot : root_layout v N).
Context (depth : nat) (mem : Z -> list Z) (nm ex : list Z).
Context (Hg : good_name nm ex) (H3 : zlength ex = 3) (H229 : byte nm 0 <> 229).
Abbreviation turns := (Z.to_nat 65536).
Abbreviation root_entries d := (entries_of (root_slots v d)).
Abbreviation Hlay := (rl_lay _ _ Hroot).

(** The bytes of a slot listed under the name. *)
Lemma called_slot s :
  zlength s = 32 -> Names.called nm ex (decode s 0) = true -> byte s 0 = byte nm 0 /\ byte s 8 <> 32 /\ byte s 9 <> 32 /\ byte s 10 <> 32.
Proof.
  intros Hs [En Ee]%bool_decide_eq_true. unfold decode in *. cbn [filename extension] in *. change (0 + 8) with 8 in Ee.
  pose proof (slice_length s 0 8) as L8. pose proof (slice_length s 8 3) as L3. destruct (byte_nm nm ex Hg) as [Hn0 _]. split.
  - set (name := if byte s 0 =? 5 then _ else _) in En.
    assert (Hname : zlength name = 8) by (unfold name; destruct (_ =? 5); rewrite ?length_insert, length_fmap; lia).
    destruct (cstr_text (name ++ [0])) as (x & Ex & _); [set_solver|]. rewrite En in Ex.
    assert (E0 : byte name 0 = byte nm 0).
    { pose proof (gn_length _ _ Hg). rewrite <- (byte_app_l name [0]) by lia. rewrite Ex. unfold cstr. apply byte_app_l. lia. }
    unfold name in E0. destruct (Z.eqb_spec (byte s 0) 5) as [E5|E5].
    + exfalso. apply H229. rewrite <- E0. unfold byte. rewrite list_lookup_insert_eq; [done|rewrite length_fmap; lia].
    + rewrite byte_unspace, byte_slice in E0 by lia. unfold unspace in E0. by destruct (Z.eqb_spec (byte s (0 + 0)) 32).
  - assert (Hn : nonul (unspace <$> slice s 8 3)) by (apply text_full; rewrite Ee, length_fmap; lia).
    rewrite slice_three in Hn by lia. apply Forall_cons in Hn as [Ha [Hb [Hc _]%Forall_cons]%Forall_cons].
    change (8 + 1) with 9 in Hb. change (8 + 2) with 10 in Hc. unfold unspace in *.
    destruct (Z.eqb_spec (byte s 8) 32), (Z.eqb_spec (byte s 9) 32), (Z.eqb_spec (byte s 10) 32); done.
Qed.

(** The directory [x] at the end of a path, in the clusters [ns], lists
    [es1 ++ e :: es2], and [e] alone has the name of the file. *)
Record member (d : D) (c : component) (cs : list component) (x : fat16_dir_entry_t) (ns : list Z) (es1 : list fat16_dir_entry_t) (e : fat16_dir_entry_t) (es2 : list fat16_dir_entry_t) : Prop := {
  mb_parts : Forall component_ok (c :: cs);
  mb_depth : (S (length cs) < depth)%nat;
  mb_last : 2 <= zlength (component_text (final c cs));
  mb_length : zlength (path_text c cs) < 2 ^ 30;
  mb_path : exists ms, dir_path v N d (root_entries d) c cs x ms /\ (forall m, m ∈ ns -> m ∉ ms);
  mb_chain : chain v N d (first_cluster x) ns;
  mb_reach : reachable_part ns;
  mb_lists : entries_of (dir_slots v d ns) = es1 ++ e :: es2;
  mb_called : Names.called nm ex e = true;
  mb_others : Forall (fun entry => Names.called nm ex entry = false) (es1 ++ es2)
}.

Definition member_path (c : component) (cs : list component) : list Z := (SLASH :: path_text c cs) ++ (SLASH :: nm ++ DOT :: ex).

(** The slots of such a directory. *)
Lemma member_slots d c cs x ns es1 e es2 :
  vol v N d -> member d c cs x ns es1 e es2 ->
  exists pre s post, dir_slots v d ns = pre ++ s :: post /\ no_end pre /\ e = decode s 0 /\ is_bytes s /\ zlength s = 32 /\
    byte s 0 <> 0 /\ byte s 0 <> 229 /\ es1 = entries_of pre /\ es2 = entries_of post.
Proof.
  intros Hv Hm. destruct (listed_slot (dir_slots v d ns) e) as (pre & s & post & E & Hpre & Hs0 & Hs9 & He).
  { rewrite (mb_lists _ _ _ _ _ _ _ _ Hm). set_solver. }
  pose proof (mb_lists _ _ _ _ _ _ _ _ Hm) as El. rewrite E, entries_app, entries_cons, <- He in El by done.
  destruct (only_split (Names.called nm ex) e _ _ _ _ (mb_called _ _ _ _ _ _ _ _ Hm) (mb_others _ _ _ _ _ _ _ _ Hm) El) as [E1 E2].
  destruct (dir_locate v N Hlay d _ ns pre s post Hv (mb_chain _ _ _ _ _ _ _ _ Hm) E) as (l1 & m & l2 & p & q & Hns & Hp & _ & _ & Hval & Hlt & Hs32).
  destruct (cluster_slots v N Hlay d m Hv Hval) as [Hb Hl]. destruct (slots_decomp _ _ _ _ _ Hl Hp) as [_ <-].
  exists pre, (slot (cluster v d m) (zlength p)), post. split_and!; try done. by apply slice_bytes.
Qed.

(** The update of the directory that unlinking does. *)
Lemma delete_member d c cs x ns es1 e es2 :
  vol v N d -> member d c cs x ns es1 e es2 ->
  exists m d', m ∈ ns /\ update_directory_entry turns v (first_cluster x) (deleted e) (filename e) (extension e) d = Ok (0, d') /\
    same_but v N [] [m] d d' /\ entries_of (dir_slots v d' ns) = es1 ++ es2.
Proof.
  intros Hv Hm. destruct (member_slots d c cs x ns es1 e es2 Hv Hm) as (pre & s & post & E & Hpre & He & Hb & H32 & Hs0 & Hs9 & -> & ->).
  destruct Hm as [_ _ _ _ _ Hc Hr _ Hcalled Hothers]. rewrite He in Hcalled.
  destruct (called_slot s H32 Hcalled) as (Bs & B8 & B9 & B10). destruct (byte_nm nm ex Hg) as [Hn0 Hn5].
  pose proof (decode_named v N Hroot mem nm ex Hg H3 H229 s Hb H32 Hcalled) as Hx. rewrite <- He in *. apply Forall_app in Hothers as [Hno _].
  pose proof (storable_fields e (ne_storable _ _ _ Hx)) as ([L8 L3] & B1 & B2 & B3).
  assert (Hdel : field_bytes (deleted e)).
  { split; [split; [unfold deleted; cbn [filename]; by rewrite length_insert|done]|]. split; [by apply Forall_insert|done]. }
  assert (Hbefore : Forall (fun s' => slot_matches (filename e) (extension e) s' = false) pre).
  { apply (before_unmatched nm ex Hg H3 H229); [done|done| |done]. apply Forall_forall. intros s' Hs'.
    assert (Hin : s' ∈ slots (chain_bytes v d ns)) by (rewrite <- (dir_slots_chain v N Hlay d _ ns Hv Hc), E; set_solver).
    by apply (proj1 (Forall_forall _ _) (slots_32 (chain_bytes v d ns))). }
  pose proof (chain_length v N Hlay d _ ns Hc).
  destruct (update_directory v N Hlay d (first_cluster x) ns (deleted e) (filename e) (extension e) pre s post turns Hv Hc Hr Hdel L8 L3 E Hbefore)
    as (m & d' & Hin & E' & Hsame & Hsl & _); [rewrite He; apply listed_matches; (done || congruence)|lia|].
  exists m, d'. split; [done|]. split; [done|]. split; [done|]. rewrite Hsl. assert (byte (filename (deleted e)) 0 = 229) as ->.
  { unfold deleted, byte. cbn [filename]. rewrite list_lookup_insert_eq; [done|lia]. }
  rewrite entries_app, listed_deleted; [done|done|apply Hdel|done].
Qed.

Lemma member_holds d c cs x ns es1 e es2 : vol v N d -> member d c cs x ns es1 e es2 -> holds_entries v N d x (es1 ++ e :: es2).
Proof.
  intros Hv [_ _ _ _ (ms & Hpath & _) Hc _ Hl _ _]. split; [by eapply dir_path_dir|]. exists ns. split; [done|].
  by rewrite <- (dir_slots_chain v N Hlay d _ ns Hv Hc).
Qed.

Lemma member_head d c cs x ns es1 e es2 : member d c cs x ns es1 e es2 ->
  head (filter (fun e' => Is_true (Names.called nm ex e')) (es1 ++ e :: es2)) = Some e.
Proof.
  intros [_ _ _ _ _ _ _ _ Hcalled [Hno _]%Forall_app]. rewrite filter_app, none_called by done. cbn [app].
  rewrite filter_cons_True; [done|by rewrite Hcalled].
Qed.

(** [find_file] finds it. *)
Lemma find_member d c cs x ns es1 e es2 t :
  vol v N d -> member d c cs x ns es1 e es2 ->
  find_file turns v depth (cstr (path_text c cs ++ SLASH :: nm ++ DOT :: ex) t) (root_entries d) d = Ok (Some e, d).
Proof.
  intros Hv Hm. pose proof (member_holds d c cs x ns es1 e es2 Hv Hm) as Hx. pose proof (member_head d c cs x ns es1 e es2 Hm) as Eh.
  destruct Hm as [Hok Hd Hlast Hlen (ms & Hpath & _) _ _ _ _ _]. set (fc := file_component nm ex).
  pose proof (gn_length nm ex Hg). pose proof (gn_ext_length nm ex Hg). assert (Ht : component_text fc = nm ++ DOT :: ex) by done.
  pose proof (dir_path_leads v N d _ c cs x ms fc _ Hpath Hx) as Hleads. change (cname fc) with nm in Hleads. change (extension_of fc) with ex in Hleads.
  rewrite Eh in Hleads.
  change (cstr (path_text c cs ++ SLASH :: nm ++ DOT :: ex) t) with (slash false ++ cstr (path_text c cs ++ SLASH :: component_text fc) t).
  rewrite <- path_text_snoc. apply (find_file_eq v N Hlay d false _ c (cs ++ [fc]) (Some e) t depth Hv); [|apply entries_terminated|exact Hleads|..].
  - rewrite app_comm_cons. apply Forall_app. split; [done|]. constructor; [by apply file_component_ok|constructor].
  - rewrite final_snoc, Ht, length_app. cbn [length]. lia.
  - rewrite path_text_snoc, Ht, !length_app. cbn [length]. rewrite length_app. cbn [length]. lia.
  - rewrite length_app. cbn [length]. lia.
Qed.

(** [unlink] of such a file, when it is not open. *)
Lemma unlink_member d f p c cs x ns es1 e es2 t :
  fs f = v -> vol v N d -> mem p = cstr (member_path c cs) t -> member d c cs x ns es1 e es2 ->
  find_open_file mem p (open_files f) = Ok None ->
  exists m d', m ∈ ns /\ sys_unlink turns depth mem p f d = Ok (0, d') /\ same_but v N [] [m] d d' /\ entries_of (dir_slots v d' ns) = es1 ++ es2.
Proof.
  intros Hfs Hv Hp Hm Hopen. destruct (delete_member d c cs x ns es1 e es2 Hv Hm) as (m & d' & Hin & E' & Hsame & El).
  destruct (member_slots d c cs x ns es1 e es2 Hv Hm) as (pre & s & post & _ & _ & He & _ & H32 & _).
  pose proof (decode_filename s H32) as L9. rewrite <- He in L9. pose proof (find_member d c cs x ns es1 e es2 t Hv Hm) as Ef.
  destruct Hm as [Hok Hd Hlast Hlen (ms & Hpath & _) _ _ _ _ _].
  assert (Hn : nonul (path_text c cs)) by by apply join_nonul, path_parts.
  exists m, d'. split_and!; try done. unfold sys_unlink. rewrite Hopen. ok_bind. rewrite Hp.
  change (cstr (member_path c cs) t) with (SLASH :: cstr (path_text c cs ++ SLASH :: nm ++ DOT :: ex) t). rewrite (buf_get_lookup _ 0 SLASH) by done. ok_bind.
  change (negb (SLASH =? SLASH)) with false. cbv beta iota. rewrite Hfs, (get_root_dir_eq v N Hroot) by done. ok_bind.
  change (drop 1 (SLASH :: ?l)) with l. rewrite Ef. ok_bind.
  rewrite stdmem_copy_spec by (rewrite ?length_replicate; lia). ok_bind. rewrite slice_0 by lia.
  assert (splice (replicate 9 0) 0 (filename e) = filename e) as -> by (unfold splice; rewrite drop_ge by (rewrite length_replicate; lia); by rewrite app_nil_r).
  rewrite buf_set_Ok by lia. ok_bind. unfold update_file_details. rewrite Hfs, (get_root_dir_eq v N Hroot) by done. ok_bind. rewrite Hp.
  change (cstr (member_path c cs) t) with (SLASH :: cstr (path_text c cs ++ SLASH :: nm ++ DOT :: ex) t). rewrite (buf_get_lookup _ 0 SLASH) by done. ok_bind.
  change (negb (SLASH =? SLASH)) with false. cbv beta iota. cbv zeta. change (drop 1 (SLASH :: ?l)) with l.
  rewrite to_directory_spec by (done || by apply gn_part). ok_bind. rewrite Ef. ok_bind.
  pose proof (path_length c cs Hok Hlast) as H2. destruct (path_text c cs) as [|a l] eqn:Ex; [simpl in H2; lia|].
  rewrite (buf_get_lookup _ 0 a) by done. ok_bind. apply Forall_cons in Hn as [Ha _]. destruct (Z.eqb_spec a 0); [done|]. rewrite <- Ex.
  change (path_text c cs ++ [0]) with (slash false ++ cstr (path_text c cs) []).
  rewrite (find_dir_eq v N Hlay d false (root_entries d) c cs x ms [] depth Hv Hok (entries_terminated _) Hpath Hlast) by (rewrite ?Ex; lia). ok_bind.
  change (with_filename _ e) with (deleted e). by rewrite E'.
Qed.
End Unlink.

(** ** The program *)
Section Rm.
Context `{BlockDeviceLaws D} `{Board U} (v : fat16_t) (N : Z) (Hroot : root_layout v N).
Context (depth limit : nat) (slack : Z) (lit : list Z -> Z) (Hlimit : (12 < limit)%nat).
Context (code_at : Z -> option (Z -> Z -> code unit)).
Context (nm ex : list Z) (Hg : good_name nm ex) (H3 : zlength ex = 3) (H229 : byte nm 0 <> 229).
Abbreviation turns := (Z.to_nat 65536).
Abbreviation ustate := (ustate D U).
Abbreviation succeeds := (succeeds (D := D) (U := U) depth limit slack code_at).
Abbreviation root_entries d := (entries_of (root_slots v d)).
Abbreviation mounted := (mounted v N).
Abbreviation not_open := (not_open limit).
Abbreviation Hlay := (rl_lay _ _ Hroot).

(** At most one descriptor is on the path [t]; without it [rest] is open. *)
Definition open_but (s : ustate) (t : list Z) (rest : list open_file_t) : Prop :=
  (open_files (ufiles s) = rest \/
   exists l1 o l2, open_files (ufiles s) = l1 ++ o :: l2 /\ rest = l1 ++ l2 /\ lasting s (path o) (cstr t [])) /\
  Forall (fun o => exists t', lasting s (path o) (cstr t' []) /\ nonul t' /\ (length t' < limit)%nat /\ t' <> t) rest.

Lemma find_others (s : ustate) p t l :
  nonul t -> (length t < limit)%nat -> ustrings limit s p = cstr t [] ->
  Forall (fun o => exists t', lasting s (path o) (cstr t' []) /\ nonul t' /\ (length t' < limit)%nat /\ t' <> t) l ->
  Forall (fun o => exists t', ustrings limit s (path o) = cstr t' [] /\ nonul t' /\ t' <> t) l.
Proof.
  intros Hn Hlen Hp Hl. eapply Forall_impl; [exact Hl|]. intros o (t' & Ht & Hn' & Hl' & Hne). exists t'. split; [by apply string_at|done].
Qed.

Lemma open_but_paths (s : ustate) p t rest : open_but s t rest -> own_paths limit s p (open_files (ufiles s)).
Proof.
  intros [Ho Hr%known_paths]. apply own_paths_all. destruct Ho as [->|(l1 & o & l2 & -> & -> & Hlo)]; [done|].
  apply Forall_app in Hr as [Hr1 Hr2]. apply Forall_app. split; [done|]. constructor; [by exists t|done].
Qed.

(** Opening the file and closing it leaves the rest. *)
Lemma open_close (s : ustate) p t rest c cs x ns es1 e es2 :
  mounted s -> fds_left s -> nonul t -> (length t < limit)%nat -> ustrings limit s p = cstr t [] -> open_but s t rest ->
  t = member_path nm ex c cs -> member v N (S depth) nm ex (udisk s) c cs x ns es1 e es2 ->
  exists n f1 f2, sys_open turns (S depth) (ustrings limit s) p 0 (ufiles s) (udisk s) = Ok (n, f1, udisk s) /\ 0 <= n < 2 ^ 31 /\
    sys_close n f1 = (0, f2) /\ open_files f2 = rest /\ fs f2 = v /\ fds_ok f2.
Proof.
  intros [Hfs Hv Hfds] Hleft Hn Hlen Hp [Hopen Hrest] -> Hm. pose proof (find_others s p _ rest Hn Hlen Hp Hrest) as Hoth.
  pose proof (fds_next _ Hfds) as Hnext. unfold fds_left in Hleft. change (next_fd (ufiles s) + 1 < 2 ^ 31) in Hleft. destruct Hopen as [Hopen|(l1 & o & l2 & Hopen & -> & Ho)].
  - set (f1 := opened_at e p (ufiles s)). assert (Hf1 : fds_ok f1) by by apply (add_fds_ok (ufiles s)).
    assert (Ef : find_open_file_by_fd (next_fd (ufiles s)) (open_files f1) = Some (length (open_files (ufiles s)))) by by apply find_fd_next.
    assert (Ec : sys_close (next_fd (ufiles s)) f1 = (0, with_open_files rest f1)).
    { unfold sys_close. rewrite Ef. do 2 f_equal. cbn. rewrite delete_middle, app_nil_r. done. }
    exists (next_fd (ufiles s)), f1, (with_open_files rest f1). split_and!; try done; [|lia..|by destruct (close_spec _ _ _ _ Hf1 Ec)].
    unfold sys_open. rewrite (find_open_none _ _ (member_path nm ex c cs)) by (done || by rewrite Hopen). ok_bind.
    pose proof (member_holds v N Hroot (S depth) nm ex _ c cs x ns es1 e es2 Hv Hm) as Hx. pose proof (member_head v N (S depth) nm ex _ c cs x ns es1 e es2 Hm) as Eh.
    destruct Hm as [Hok Hd _ Hlength (ms & Hpath & _) _ _ _ _ _].
    rewrite (open_in_dir v N Hroot (S depth) (ustrings limit s) nm ex [] (ufiles s) (udisk s) c cs x ms (es1 ++ e :: es2) p) by done.
    rewrite Eh. ok_bind. change (negb (Z.land 0 O_APPEND =? 0)) with false.
    unfold f1, opened_at, update_open. cbn [open_files with_open_files]. by rewrite update_last, list_lookup_middle by done.
  - set (g := with_append false). set (f1 := update_open (length l1) g (ufiles s)).
    assert (Hi : open_files (ufiles s) !! length l1 = Some o) by (rewrite Hopen; by apply list_lookup_middle).
    assert (Hf1 : fds_ok f1) by (by apply (same_fds_ok (ufiles s)); [apply update_open_same|]).
    assert (Hi1 : open_files f1 !! length l1 = Some (g o)) by (cbn; by rewrite list_lookup_alter_eq, Hi).
    assert (Ef : find_open_file_by_fd (fd o) (open_files f1) = Some (length l1)) by (apply (find_fd_lookup _ _ (g o)); [apply Hf1|exact Hi1]).
    assert (Hr : 3 <= fd o < next_fd (ufiles s)).
    { apply (fds_range _ Hfds), list_elem_of_fmap. exists o. split; [done|by eapply list_elem_of_lookup_2]. }
    assert (Ec : sys_close (fd o) f1 = (0, with_open_files (l1 ++ l2) f1)).
    { unfold sys_close. rewrite Ef. do 2 f_equal. cbn. rewrite Hopen, (alter_app_r_alt _ _ _ (length l1)), Nat.sub_diag by lia. cbn. by rewrite delete_middle. }
    exists (fd o), f1, (with_open_files (l1 ++ l2) f1). split_and!; try done; [|lia..|by destruct (close_spec _ _ _ _ Hf1 Ec)].
    unfold sys_open. rewrite (find_open_at _ _ (member_path nm ex c cs) _ (length l1) o); try done; [|by apply string_at|].
    + ok_bind. change (negb (Z.land 0 O_APPEND =? 0)) with false. fold g f1. rewrite Hi1. done.
    + rewrite Hopen, take_app_length. by apply Forall_app in Hoth as [Hoth _].
Qed.

(** What [rm] leaves of the directory and of the rest of the volume. *)
Record unlinked (s s' : ustate) (t : list Z) (c : component) (cs : list component) (x : fat16_dir_entry_t) (ns : list Z) (es : list fat16_dir_entry_t) : Prop := {
  ul_console : uconsole s' = uconsole s;
  ul_keeps : keeps s s';
  ul_heap : heap_ok (uheap s');
  ul_mounted : mounted s';
  ul_not_open : not_open s' t;
  ul_lists : holds_entries v N (udisk s') x es;
  ul_path : exists ms, dir_path v N (udisk s') (root_entries (udisk s')) c cs x ms;
  ul_root : root_slots v (udisk s') = root_slots v (udisk s);
  ul_chains : forall first ms, chain v N (udisk s) first ms -> chain v N (udisk s') first ms /\
    ((forall a, a ∈ ms -> a ∉ ns) -> chain_bytes v (udisk s') ms = chain_bytes v (udisk s) ms)
}.

Lemma rm_member argv name rest c cs x ns es1 e es2 (s : ustate) :
  let t := member_path nm ex c cs in
  mounted s -> ctx_ok (uctx s) -> fds_left s -> heap_ok (uheap s) -> argument s argv 0 name t -> (length t < limit)%nat -> open_but s t rest ->
  member v N (S depth) nm ex (udisk s) c cs x ns es1 e es2 ->
  command depth limit slack (Programs.rm lit 1 argv) s (fun s' => unlinked s s' t c cs x ns (es1 ++ es2)).
Proof.
  intros t Hmt Hc Hleft Hh Harg Hlen Hob Hm. pose proof (ag_nonul _ _ _ _ _ Harg) as Hn. pose proof Hmt as [Hfs Hv Hfds].
  assert (Hp : ustrings limit s name = cstr t []) by by apply string_at; [apply Harg|..].
  destruct (open_close s name t rest c cs x ns es1 e es2) as (n & f1 & f2 & Eo & Hnr & Ec & Ef2 & Hfs2 & Hfds2); try done.
  pose proof Hob as [_ Hrest]. pose proof (find_others s name t rest Hn Hlen Hp Hrest) as Hoth.
  destruct (unlink_member v N Hroot (S depth) (ustrings limit s) nm ex Hg H3 H229 (udisk s) f2 name c cs x ns es1 e es2 [])
    as (m & d' & Hin & Eu & Hsame & El); try done; [by apply (find_open_none _ _ t); rewrite ?Ef2|].
  destruct (argument_word nm s argv 0 name t Harg) as (Hw & _ & _).
  unfold Programs.rm. apply wp_bind. cbn [Z.eqb Pos.eqb Programs.when].
  apply wp_bind, (wp_arg _ _ _ _ _ _ _ _ name t); [done|].
  apply wp_bind, (wp_open _ _ _ _ _ _ _ _ _ n f1 (udisk s)); [done|done|eapply lasting_string, Harg|by eapply open_but_paths|done|done|unfold is_int; lia|exact Eo|]. intros c1 Hc1; state.
  apply wp_bind, (wp_close _ _ _ _ _ _ _ _ 0 f2); [exact Hc1|unfold is_int; lia|done|exact Ec|]. intros c2 Hc2; state.
  apply wp_bind, (wp_arg _ _ _ _ _ _ _ _ name t); [by destruct Harg; split|].
  apply wp_bind, (wp_unlink _ _ _ _ _ _ _ _ 0 d'); [exact Hc2|eapply lasting_string, Harg|apply own_paths_all; change (ufiles _) with f2; rewrite Ef2; exact (known_paths limit s t rest Hrest)|done|done|exact Eu|]. intros c3 Hc3; state.
  apply wp_bind. cbn [Z.ltb Z.compare Programs.when]. apply wp_mret. apply wp_exit_last. split; [done|].
  set (s' := UState _ _ _). assert (Hk : keeps s s') by (split; (done || cbn; lia)).
  destruct Hm as [_ _ _ _ (ms & Hpath & Hapart) Hch _ _ _ _].
  assert (Hr : root_slots v d' = root_slots v (udisk s)) by by apply (root_after_table v N Hroot (udisk s) d' [] [m]).
  assert (Hkept : forall first ms, chain v N (udisk s) first ms -> chain v N d' first ms).
  { intros first l Hl. apply (chain_same v N Hlay [] [m] (udisk s) d' first l Hsame Hl). set_solver. }
  split; try done.
  - split; [done|apply Hsame|done].
  - unfold Listing.not_open. change (ufiles s') with f2. rewrite Ef2. eapply Forall_impl; [exact Hrest|].
    intros o (t' & Hl & Ht'). exists t'. split; [|done]. apply (lasting_keeps s); [done|by apply brk_bounds|done].
  - change (udisk s') with d'. split; [by eapply dir_path_dir|]. exists ns. split; [by apply Hkept|].
    rewrite <- (dir_slots_chain v N Hlay d' (first_cluster x) ns); [by rewrite El|apply Hsame|by apply Hkept].
  - change (udisk s') with d'. rewrite Hr. exists ms. apply (dir_path_same v N Hlay [] [m] (udisk s) d' _ c cs x ms Hsame Hpath).
    intros a Ha. split; [set_solver|]. intros ->%list_elem_of_singleton. by apply (Hapart m).
  - intros first l Hl. change (udisk s') with d'. split; [by apply Hkept|]. intros Hd. apply (chain_bytes_same v N [] [m] (udisk s) d' l Hsame).
    intros a Ha. split; [by apply (chain_valid v N Hlay (udisk s) first l a Hl)|]. intros ->%list_elem_of_singleton. by apply (Hd m).
Qed.

(** C5 (functional): [rm] of a file at the end of a path of any depth. The
    file's name has one to seven plain characters, the first not 0x05 or 0xe5,
    and its extension exactly three; the parts of the path have one to seven and
    an extension of at most three, the last of them at least two in all, and the
    clusters of its directory after the first are not above 0xfef ([member]). It
    is open once or not, and the one entry of its name in its directory.
    Whatever interrupts and quiet steps of others come in between, the process
    runs to a successful exit and prints nothing; the directory lists the
    others, in their order, and is where it was; the file is open no more; every
    chain is as before, that of the file included, which stays allocated, and so
    are the bytes of every chain that does not run through the directory. *)
Theorem rm_in_directory_runs argv name rest c cs x ns es1 e es2 (s : ustate) :
  let t := member_path nm ex c cs in
  mounted s -> ctx_ok (uctx s) -> fds_left s -> heap_ok (uheap s) -> argument s argv 0 name t -> (length t < limit)%nat -> open_but s t rest ->
  member v N (S depth) nm ex (udisk s) c cs x ns es1 e es2 ->
  succeeds (Programs.rm lit 1 argv) s (fun s' => unlinked s s' t c cs x ns (es1 ++ es2)).
Proof. intros t Hmt Hc Hleft Hh Harg Hlen Hob Hm. eapply command_succeeds; [by eapply rm_member|]. done. Qed.
End Rm.

(** ** At work: the file in the directory of [Listing]'s volume *)
Lemma story_good : good_name (bytes_of "ASTORY") (bytes_of "TXT").
Proof. constructor; [repeat constructor; done|repeat constructor; done|simpl; lia|simpl; lia|done]. Qed.

Lemma story_member : member demo_fs 8 2 (bytes_of "ASTORY") (bytes_of "TXT") yard subdir [] yard_dir [2] [] (decode story_slot 0) [].
Proof.
  destruct yard_room as [Hok _ Hlast Hlen Hpath Hc Hr Hsl _ _]. constructor; try done. simpl. lia.
Qed.

Lemma rm_in_directory_runs_witness :
  let s := yard_state (yard_memory "/SUBDIR/ASTORY.TXT") in
  contested (Z.to_nat 65536) 2 2000 s (Programs.rm yard_lit 1 4112) /\
  succeeds 1 2000 0 demo_code_at (Programs.rm yard_lit 1 4112) s (fun s' =>
    unlinked demo_fs 8 2000 s s' (member_path (bytes_of "ASTORY") (bytes_of "TXT") subdir []) subdir [] yard_dir [2] []).
Proof.
  intros s. split; [apply demo_contested, (mt_fds _ _ _ (yard_mounted (yard_memory "/SUBDIR/ASTORY.TXT")))|].
  apply (rm_in_directory_runs demo_fs 8 demo_root_layout 1 2000 0 yard_lit ltac:(lia) demo_code_at (bytes_of "ASTORY") (bytes_of "TXT")
    story_good eq_refl ltac:(done) 4112 4160 [] subdir [] yard_dir [2] [] (decode story_slot 0) [] s).
  - apply yard_mounted.
  - done.
  - done.
  - apply heap_ok_Heap; lia.
  - apply yard_argument; [simpl; lia|by repeat constructor|by vm_compute|by vm_compute].
  - apply (bool_decide_unpack _). by vm_compute.
  - split; [by left|constructor].
  - exact story_member.
Defined.
