(* ===== verification/Interleaving.v ===== *)
(** * Processes side by side

    What a process can rely on while others run: that it keeps its code and its
    context, but for its [r0] when a call of another hands it the processor with
    a result still to write. And a small logic of partial correctness for the
    code of one process among the steps of all, which shows that the shell
    waits for the programs it starts and what it asks for meanwhile. *)
From S2P Require Import Prelude Mem Tailq Strings Scheduler Stream Ipc Uart Devices Disk Fat16 Directory Paths FileSys Descriptors Kernel Machine Syscalls Process Shell Mush System Bystander Sharing Runs.
From S2P Require Programs.

(** ** Registers *)
Definition typed_sched (s : sched) : Prop := Forall (fun item => ctx_ok (ctx item)) (process_list s).

Definition well_typed (c : ctx_t) (s : sched) : Prop := ctx_ok c /\ typed_sched s.

Lemma update_typed ptr f s s' :
  (forall p, ctx_ok (ctx p) -> ctx_ok (ctx (f p))) -> typed_sched s -> update_pcb ptr f s = Ok s' -> typed_sched s'.
Proof.
  intros Hf Hs. destruct ptr as [i|]; [|done]. intros [= <-]. unfold typed_sched in *; cbn. apply Forall_lookup. intros j item Hj.
  destruct (decide (i = j)) as [<-|Hne]; [|rewrite list_lookup_alter_ne in Hj by done; exact (Forall_lookup_1 _ _ _ _ Hs Hj)].
  rewrite list_lookup_alter_eq in Hj. apply fmap_Some in Hj as (x & Hx & ->). by apply Hf, (Forall_lookup_1 _ _ _ _ Hs Hx).
Qed.

Lemma save_typed c s s' : ctx_ok c -> typed_sched s -> save_current_process c s = Ok s' -> typed_sched s'.
Proof. intros Hc. by apply update_typed. Qed.

Lemma same_procs_typed s s' : process_list s' = process_list s -> typed_sched s -> typed_sched s'.
Proof. unfold typed_sched. by intros ->. Qed.

Lemma remove_typed p priority s : typed_sched s -> typed_sched (remove_pid p priority s).
Proof. unfold remove_pid. by destruct (priority =? 0), (priority =? 1). Qed.

Lemma add_typed p priority s : typed_sched s -> typed_sched (add_pid p priority s).
Proof. unfold add_pid. by destruct (priority =? 0), (priority =? 1). Qed.

Lemma next_typed priority s : typed_sched s -> typed_sched (get_next_process priority s).2.
Proof.
  unfold get_next_process. destruct (priority =? 0); [by destruct (high_priority_queue s)|]. destruct (priority =? 1); [|done].
  by destruct (low_priority_queue s).
Qed.

Lemma run_typed c s c' s' : well_typed c s -> scheduler_run c s = Ok (c', s') -> well_typed c' s'.
Proof.
  intros [Hc Hs]. unfold scheduler_run. pose proof (next_typed 0 s Hs) as H0. destruct (get_next_process 0 s) as [p s0]. cbn in H0. intros E.
  assert (exists q s1, (if p =? -1 then get_next_process 1 s0 else (p, s0)) = (q, s1) /\ typed_sched s1) as (q & s1 & E1 & H1).
  { destruct (p =? -1); [|by exists p, s0]. pose proof (next_typed 1 s0 H0). destruct (get_next_process 1 s0) as [q s1]. by eauto. }
  rewrite E1 in E. apply bind_Ok in E as (s2 & E2 & E). pose proof (save_typed c s1 s2 Hc H1 E2) as H2.
  unfold run_process in E. apply bind_Ok in E as (item & Ei & [= <- <-]). split; [|done].
  unfold read_pcb in Ei. apply bind_Ok in Ei as (i & _ & Ei). destruct (process_list s2 !! i) as [x|] eqn:Hx; [|done]. injection Ei as ->.
  exact (Forall_lookup_1 _ _ _ _ H2 Hx).
Qed.

Lemma wake_typed ev item : ctx_ok (ctx item) -> ctx_ok (ctx (wake ev item)).
Proof. unfold wake. destruct (should_wake ev item); [|done]. intros Hc. by apply set_gpr_ok. Qed.

Lemma emit_typed ev s : typed_sched s -> typed_sched (scheduler_emit_event ev s).
Proof.
  intros Hs. rewrite emit_event_eq. unfold typed_sched in *; cbn. apply Forall_fmap. eapply Forall_impl; [exact Hs|].
  intros item Hi. by apply wake_typed.
Qed.

Lemma exit_typed c s c' s' : well_typed c s -> scheduler_exit c s = Ok (c', s') -> well_typed c' s'.
Proof.
  intros [Hc Hs]. unfold scheduler_exit. intros E. apply bind_Ok in E as ([c1 s1] & E1 & E).
  destruct (run_typed _ _ _ _ (conj Hc (remove_typed _ 1 _ (remove_typed (current_pid s) 0 s Hs))) E1) as [Hc1 Hs1].
  destruct (negb _); [|by injection E as <- <-]. apply bind_Ok in E as (s2 & E2 & [= <- <-]). split; [done|].
  apply emit_typed. by eapply update_typed; [|exact Hs1|exact E2].
Qed.

Lemma kill_typed c p s r c' s' : well_typed c s -> scheduler_kill c p s = Ok (r, c', s') -> well_typed c' s'.
Proof.
  intros [Hc Hs]. unfold scheduler_kill. intros E. apply bind_Ok in E as ([c1 s1] & E1 & E). apply bind_Ok in E as (s2 & E2 & [= _ <- <-]).
  destruct (run_typed _ _ _ _ (conj Hc (remove_typed p 1 _ (remove_typed p 0 s Hs))) E1) as [Hc1 Hs1]. split; [done|].
  apply emit_typed. by eapply update_typed; [|exact Hs1|exact E2].
Qed.

Lemma block_typed c ev s r c' s' : well_typed c s -> scheduler_block_process c ev s = Ok (r, c', s') -> well_typed c' s'.
Proof.
  intros [Hc Hs]. unfold scheduler_block_process. intros E. apply bind_Ok in E as (s1 & E1 & E). apply bind_Ok in E as (s2 & E2 & E).
  apply bind_Ok in E as (s3 & E3 & E). apply bind_Ok in E as ([c4 s4] & E4 & [= _ <- <-]).
  pose proof (save_typed _ _ _ Hc Hs E1) as H1. assert (H2 : typed_sched s2) by (by eapply update_typed; [|exact H1|exact E2]).
  assert (H3 : typed_sched s3) by (by eapply update_typed; [|exact H2|exact E3]).
  eapply run_typed; [|exact E4]. split; [done|]. by apply emit_typed, remove_typed, remove_typed.
Qed.

Lemma setpriority_typed c p priority s : typed_sched s -> typed_sched (scheduler_setpriority c p priority s).2.
Proof. intros Hs. by apply add_typed, remove_typed. Qed.

Lemma exec_typed c function argc argv s r c' s' : well_typed c s -> scheduler_exec c function argc argv s = Ok (r, c', s') -> well_typed c' s'.
Proof.
  intros [Hc Hs]. unfold scheduler_exec. intros E. apply bind_Ok in E as (s1 & E1 & E). apply bind_Ok in E as (s2 & E2 & [= _ <- <-]).
  assert (Hc' : ctx_ok (set_gpr 1 argv (set_gpr 0 (u32 argc) (Ctx (cpsr c) function (gpr c) (sp c) (lr c))))) by by apply set_gpr_ok, set_gpr_ok.
  split; [done|]. by eapply update_typed; [|by eapply save_typed|exact E2].
Qed.

Lemma fork_typed c stack_pointer fp s r s' : well_typed c s -> scheduler_fork c stack_pointer fp s = Ok (r, s') -> typed_sched s'.
Proof.
  intros [Hc Hs]. unfold scheduler_fork. destruct (_ <? 1); [by intros [= _ <-]|]. cbn [get_new_pid set_stack_break]. intros E.
  apply bind_Ok in E as (parent & _ & [= _ <-]). apply emit_typed. unfold set_priority. apply add_typed, remove_typed. unfold typed_sched; cbn.
  apply Forall_app. split; [done|]. constructor; [|done]. unfold child_ctx, ctx_ok; cbn. by rewrite !length_insert.
Qed.

Section Typed.
Context `{BlockDevice D} `{Board U} (turns depth limit : nat).

Definition typed_state (st : ctx_t * kernel D U) : Prop := well_typed st.1 (scheduler st.2).

Lemma return_typed r c s : well_typed c s -> well_typed (return_value r c) s.
Proof. intros [Hc Hs]. split; [by apply return_value_ok|done]. Qed.

Lemma svc_typed id place garbage c (k : kernel D U) c' k' :
  typed_state (c, k) -> kernel_handler_svc turns depth limit id place garbage c k = Ok (c', k') -> typed_state (c', k').
Proof.
  intros Ht E. unfold kernel_handler_svc in E. destruct (decide (id ∈ process_calls)) as [Hid|Hid].
  - unfold process_calls in Hid. rewrite !elem_of_cons, elem_of_nil in Hid. unfold typed_state in *; cbn in Ht |- *.
    destruct Hid as [-> |[->|[->|[->|[->|[->|[->|[->|[]]]]]]]]]; cbn [svc_process] in E.
    + apply bind_Ok in E as ([c1 s1] & E1 & [= <- <-]). by eapply exit_typed.
    + apply bind_Ok in E as ([r s1] & E1 & [= <- <-]). apply return_typed. split; [apply Ht|by eapply fork_typed].
    + destruct (negb _); [by injection E as <- <-; apply return_typed|]. apply bind_Ok in E as ([[r c1] s1] & E1 & [= <- <-]).
      apply return_typed. by eapply block_typed.
    + injection E as <- <-. by apply return_typed.
    + destruct (_ =? SIGKILL); [|by injection E as <- <-; apply return_typed]. apply bind_Ok in E as ([[r c1] s1] & E1 & [= <- <-]).
      apply return_typed. by eapply kill_typed.
    + injection E as <- <-. apply return_typed. split; [apply Ht|]. apply (setpriority_typed c), Ht.
    + apply bind_Ok in E as ([c1 s1] & E1 & [= <- <-]). by eapply run_typed.
    + apply bind_Ok in E as ([[r c1] s1] & E1 & [= <- <-]). by eapply exec_typed.
  - assert (Hap : apart c k c' k').
    { destruct (decide (id ∈ file_calls)); [by eapply svc_file_apart|by eapply svc_message_apart]. }
    destruct Hap as ([-> | (r & ->)] & Ep & _); destruct Ht as [Hc Hs]; (split; [|by eapply same_procs_typed]); [done|by apply return_value_ok].
Qed.

Lemma irq_typed c (k : kernel D U) c' k' : typed_state (c, k) -> kernel_handler_irq c k = Ok (c', k') -> typed_state (c', k').
Proof.
  intros Ht. unfold kernel_handler_irq. destruct (reg_read _ _) as [id u]. intros E. apply bind_Ok in E as ([c1 k1] & E & [= <- <-]).
  unfold irq_source in E. destruct (id =? GIC_SOURCE_TIMER0).
  - apply bind_Ok in E as ([c2 s2] & E2 & [= <- <-]). exact (run_typed _ _ _ _ Ht E2).
  - destruct (id =? GIC_SOURCE_UART0); [|by injection E as <- <-]. by apply bind_Ok in E as ([ch v] & _ & [= <- <-]).
Qed.

Lemma initialise_typed entry_sh c s c' s' : scheduler_initialise entry_sh c s = Ok (c', s') -> well_typed c' s'.
Proof.
  unfold scheduler_initialise. cbn [get_new_pid set_stack_break]. unfold run_process. intros E. apply bind_Ok in E as (item & Ei & [= <- <-]).
  match type of Ei with read_pcb _ ?s1 = _ => assert (typed_sched s1) as Hs by by repeat constructor end. split; [|exact Hs].
  unfold read_pcb in Ei. apply bind_Ok in Ei as (i & _ & Ei).
  match type of Ei with deref_opt (?l !! i) = _ => destruct (l !! i) as [x|] eqn:Hx; [|done] end. injection Ei as ->.
  exact (Forall_lookup_1 _ _ _ _ Hs Hx).
Qed.

Lemma rst_typed entry_sh root_path c (k : kernel D U) c' k' :
  kernel_handler_rst turns depth limit entry_sh root_path c k = Ok (c', k') -> typed_state (c', k').
Proof.
  unfold kernel_handler_rst. intros E. apply bind_Ok in E as ([c1 s1] & E1 & E). apply bind_Ok in E as (k1 & E2 & [= <- <-]).
  apply bind_Ok in E2 as ([f1 d1] & _ & [= <-]). apply initialise_typed in E1. exact E1.
Qed.
End Typed.

Section TypedSystem.
Context `{BlockDevice D} `{Board U} (turns depth limit : nat) (slack : Z).
Context (code_at : Z -> option (Z -> Z -> code unit)).
Abbreviation sys_step := (sys_step (D := D) (U := U) turns depth limit slack code_at).
Abbreviation sys_reachable := (sys_reachable (D := D) (U := U) turns depth limit slack code_at).

Definition sys_typed (S : system) : Prop := typed_state (uctx (machine (D := D) (U := U) S), ukernel (machine S)).

Lemma step_typed S S' : sys_typed S -> sys_step S S' -> sys_typed S'.
Proof.
  unfold sys_typed. intros Hty Hst. step_cases Hst.
  - done.
  - destruct (serves_kernel limit slack e s b s' Hs) as (-> & m & ->). exact Hty.
  - done.
  - eapply svc_typed; [|exact He]. destruct Hty as [Hc1 Hs1]. split; [by apply load_args_ok|done].
  - exact Hty.
  - by eapply irq_typed.
Qed.

(** In every state the system reaches from reset, the processor and every
    process, whatever its state, have their thirteen registers. *)
Lemma reachable_typed sh S : sys_reachable sh S -> sys_typed S.
Proof. intros HS. induction HS as [entry_sh root_path c k c' k' h Hp E|S S' _ IH Hst]; [by eapply rst_typed|by eapply step_typed]. Qed.
End TypedSystem.

(** ** A process that does not wait

    The calls of another leave it its context, but for its [r0] when a call
    hands it the processor and has its result still to write; its own leave it
    awake, if they do not block. *)
Section Steady.
Context `{BlockDevice D} `{Board U} (turns depth limit : nat) (q : Z).
Abbreviation kernel := (kernel D U).

(** A call that neither blocks nor goes on with other code. *)
Definition stays (id : Z) (c : ctx_t) : Prop := id <> 1000 /\ (id = 7 -> Z.land (i32 (get_gpr 2 c)) WAITPID_NOHANG <> 0).

Definition steady_call (id : Z) (c : ctx_t) (k : kernel) (c' : ctx_t) (k' : kernel) : Prop :=
  exists c1, steady q (c, scheduler k) (c1, scheduler k') /\
    (c' = c1 \/ (exists r, c' = return_value r c1) /\ (id ∈ late_results \/ current_pid (scheduler k') = current_pid (scheduler k))).

Lemma svc_process_steady id garbage c (k : kernel) c' k' :
  kernel_ok k -> current_pid (scheduler k) <> q \/ stays id c -> id ∈ process_calls ->
  svc_process id garbage c k = Ok (c', k') -> steady_call id c k c' k'.
Proof.
  intros Hk Hq Hid E. unfold process_calls in Hid. rewrite !elem_of_cons, elem_of_nil in Hid.
  destruct Hid as [-> |[->|[->|[->|[->|[->|[->|[->|[]]]]]]]]]; cbn [svc_process] in E; unfold steady_call, late_results.
  - apply bind_Ok in E as ([c1 s1] & E1 & [= <- <-]). exists c1. split; [by eapply exit_steady|by left].
  - apply bind_Ok in E as ([r s1] & E1 & [= <- <-]). pose proof (fork_current _ _ _ _ _ _ E1) as Hc. exists c.
    split; [by eapply fork_steady; [apply (wf_core _ (ko_sched _ Hk))|]|]. right. split; [by eexists|by right].
  - destruct (Z.eqb_spec (Z.land (i32 (get_gpr 2 c)) WAITPID_NOHANG) 0) as [Hz|Hz]; cbn [negb] in E.
    + apply bind_Ok in E as ([[r c1] s1] & E1 & [= <- <-]). exists c1. split; [|right; split; [by eexists|left; set_solver]].
      eapply block_steady; [|exact E1]. destruct Hq as [|[_ Hq]]; [done|]. by destruct (Hq eq_refl).
    + injection E as <- <-. exists c. split; [done|]. right. split; [by eexists|by right].
  - injection E as <- <-. exists c. split; [done|]. right. split; [by eexists|by right].
  - destruct (_ =? SIGKILL); [|injection E as <- <-; exists c; split; [done|right; split; [by eexists|by right]]].
    apply bind_Ok in E as ([[r c1] s1] & E1 & [= <- <-]). exists c1. split; [by eapply kill_steady|]. right. split; [by eexists|left; set_solver].
  - injection E as <- <-. exists c. split; [by apply set_priority_steady|]. right. split; [by eexists|right].
    cbn. unfold set_priority, add_pid, remove_pid. by repeat case_match.
  - apply bind_Ok in E as ([c1 s1] & E1 & [= <- <-]). exists c1. split; [by eapply run_steady|by left].
  - apply bind_Ok in E as ([[r c1] s1] & E1 & [= <- <-]). exists c1. split; [|by left]. eapply exec_steady; [|exact E1]. by destruct Hq as [|[Hq _]].
Qed.

Lemma svc_steady id place garbage c (k : kernel) c' k' :
  kernel_ok k -> current_pid (scheduler k) <> q \/ stays id c ->
  kernel_handler_svc turns depth limit id place garbage c k = Ok (c', k') -> steady_call id c k c' k'.
Proof.
  intros Hk Hq E. unfold kernel_handler_svc in E. destruct (decide (id ∈ process_calls)) as [Hid|Hid]; [by eapply svc_process_steady|].
  assert (Hap : apart c k c' k') by (destruct (decide (id ∈ file_calls)); [by eapply svc_file_apart|by eapply svc_message_apart]).
  destruct Hap as (Hc & Ep & _ & Ec). exists c. split; [by apply same_steady|]. destruct Hc as [->|Hc]; [by left|]. right. by split; [|right].
Qed.

(** The calls of another. *)
Lemma other_steady id c c0 (k : kernel) c' k' :
  current_pid (scheduler k) <> q -> id ∉ late_results \/ current_pid (scheduler k') <> q ->
  steady_call id c k c' k' -> steady q (c0, scheduler k) (c', scheduler k').
Proof.
  intros Hne Hno (c1 & Hs & Hc). etrans; [by apply (own_steady q c0 c)|]. etrans; [exact Hs|]. destruct Hc as [->|[_ Hc]]; [done|].
  apply own_steady. destruct Hc as [Hc|Hc]; [by destruct Hno|by rewrite Hc].
Qed.

Lemma irq_steady c (k : kernel) c' k' : kernel_handler_irq c k = Ok (c', k') -> steady q (c, scheduler k) (c', scheduler k').
Proof.
  unfold kernel_handler_irq. destruct (reg_read _ _) as [id u]. intros E. apply bind_Ok in E as ([c1 k1] & E & [= <- <-]).
  unfold irq_source in E. destruct (id =? GIC_SOURCE_TIMER0).
  - apply bind_Ok in E as ([c2 s2] & E2 & [= <- <-]). by eapply run_steady.
  - destruct (id =? GIC_SOURCE_UART0); [|by injection E as <- <-]. by apply bind_Ok in E as ([ch v] & _ & [= <- <-]).
Qed.
End Steady.

(** ** The others *)
Section OtherSteps.
Context `{BlockDevice D} `{Board U} (turns depth limit : nat) (slack : Z).
Context (code_at : Z -> option (Z -> Z -> code unit)) (q : Z).
Abbreviation ustate := (ustate D U).
Abbreviation system := (system (D := D) (U := U)).
Abbreviation current s := (current_pid (scheduler (ukernel s))).
Abbreviation sched_of S := (scheduler (ukernel (machine S))).
Abbreviation own_step := (own_step (D := D) (U := U) turns depth limit slack code_at).
Abbreviation sys_step := (sys_step (D := D) (U := U) turns depth limit slack code_at).

(** Another process makes a call that hands [q] the processor with its result
    still to write, to [r0] of [q]. *)
Definition steals (S S' : system) : Prop :=
  current (machine S) <> q /\ current (machine S') = q /\ exists t id args k, threads S !! current (machine S) = Some (Running t) /\
    observe t = VisF (Svc id args) k /\ id ∈ late_results /\ threads S' !! current (machine S) = Some (Awaiting k).

(** The other steps that [q] does not make itself. *)
Inductive other_step : system -> system -> Prop :=
| other_devices s ths u :
    other_step (Sys s ths) (Sys (UState (uctx s) (with_devices u (ukernel s)) (uheap s)) ths)
| other_irq s ths c ker :
    kernel_handler_irq (uctx s) (ukernel s) = Ok (c, ker) -> other_step (Sys s ths) (Sys (UState c ker (uheap s)) ths)
| other_own S S' :
    own_step S S' -> current (machine S) <> q -> ~ steals S S' -> other_step S S'.

Lemma other_or_own S S' : sys_step S S' -> ~ steals S S' -> (own_step S S' /\ current (machine S) = q) \/ other_step S S'.
Proof.
  intros [S1 S2 Hst|s ths u|s ths c ker E] Hno; [|right; by apply other_devices|right; by apply other_irq].
  destruct (decide (current (machine S1) = q)); [by left|right; by apply other_own].
Qed.

Lemma other_sys_step S S' : other_step S S' -> sys_step S S'.
Proof. intros [s ths u|s ths c ker E|S1 S2 E _ _]; [apply sys_devices|by apply sys_irq|by apply sys_own]. Qed.

Lemma called_own id args (s : ustate) k ths ths' :
  id <> 1000 -> current s <> next_pid (scheduler (ukernel s)) -> called code_at id args s k ths = Some ths' -> ths' !! current s = Some (Awaiting k).
Proof.
  intros Hx Hn. unfold called. destruct (id =? 2); [intros [= <-]; by rewrite lookup_insert_ne, lookup_insert_eq|].
  destruct (Z.eqb_spec id 1000); [done|]. intros [= <-]. by rewrite lookup_insert_eq.
Qed.

Lemma other_call_keeps s ths id args k place garbage c ker ths1 ths' t :
  kernel_ok (ukernel s) -> q ∈ pids (scheduler (ukernel s)) -> current s <> q ->
  ths !! current s = Some (Running t) -> observe t = VisF (Svc id args) k ->
  kernel_handler_svc turns depth limit id place garbage (load_args 0 args (uctx s)) (ukernel s) = Ok (c, ker) ->
  called code_at id args s k ths = Some ths1 -> handed id s ker ths1 ths' ->
  ~ steals (Sys s ths) (Sys (UState c ker (uheap s)) ths') ->
  ths' !! q = ths !! q /\ steady q (uctx s, scheduler (ukernel s)) (c, scheduler ker).
Proof.
  intros Hk Hq Hne Ht Ho He Hc Hh Hno. pose proof (wf_core _ (ko_sched _ Hk)) as Hcore.
  pose proof (core_range _ Hcore _ (core_current _ Hcore)) as Hcr. pose proof (core_range _ Hcore q Hq) as Hqr.
  assert (Hkeep : id ∉ late_results \/ current_pid (scheduler ker) <> q).
  { destruct (decide (id ∈ late_results)) as [Hl|]; [|by left]. right. intros Hcq. apply Hno. split; [done|]. split; [done|].
    exists t, id, args, k. split; [done|]. split; [done|]. split; [done|]. cbn.
    destruct (handed_other id s ker ths1 ths' (current s) Hh) as [->|(_ & _ & ?)]; [|done].
    eapply called_own; [|lia|exact Hc]. intros ->. unfold late_results in Hl. set_solver. }
  split; [|by eapply other_steady; [|exact Hkeep|eapply svc_steady; [exact Hk|by left|exact He]]].
  rewrite <- (other_called code_at q id args s k ths ths1) by (done || lia).
  destruct (handed_other id s ker ths1 ths' q Hh) as [|(? & ? & _)]; [done|]. by destruct Hkeep.
Qed.

Lemma other_step_keeps S S' :
  sys_ok S -> awake q (sched_of S) -> other_step S S' ->
  threads S' !! q = threads S !! q /\ steady q (uctx (machine S), sched_of S) (uctx (machine S'), sched_of S').
Proof.
  intros Hok Haw Hst. revert Hok Haw. destruct Hst as [s ths u|s ths c ker E|S1 S2 Hst Hne Hno]; intros Hok Haw; [done|split; [done|by eapply irq_steady]|].
  assert (Hq : q ∈ pids (sched_of S1)) by (destruct Haw as (item & Hi' & _); apply proc_known; by eexists).
  destruct Hst as [s ths t t' Ht Ho|s ths t X e k b s' Ht Ho Hs|s ths k Ht|s ths t id args k place garbage c ker ths1 ths' Ht Ho Hpl Ha He Hc Hh]; cbn in *.
  - by rewrite lookup_insert_ne.
  - destruct (serves_kernel limit slack e s b s' Hs) as (-> & mem & ->). rewrite lookup_insert_ne by done. split; [done|by apply same_steady].
  - by rewrite lookup_insert_ne.
  - by eapply other_call_keeps; [apply Hok|..].
Qed.

(** C14 (safety): no process loses its place in its code. Whatever the others
    do, in any order, to a process [q] that is not blocked - compute, call
    [fork], [exec], [kill], [waitpid], exit, send, write files -, and whatever
    interrupts come, as long as nobody else's call puts its own result in [r0]
    of [q], as a [waitpid] that blocks and a [kill] do when they hand it the
    processor: [q] is not blocked afterwards, it has the code it had, and its
    context, which is the processor's when it runs and the one saved for it
    when it does not, is the one it had. *)
Theorem context_is_kept S S' :
  sys_ok S -> awake q (sched_of S) -> rtc other_step S S' ->
  awake q (sched_of S') /\ threads S' !! q = threads S !! q /\
  context_in q (uctx (machine S')) (sched_of S') = context_in q (uctx (machine S)) (sched_of S).
Proof.
  intros Hok Haw Hr. revert Hok Haw. induction Hr as [S|S S1 S2 Hst _ IH]; intros Hok Haw; [done|].
  destruct (other_step_keeps S S1 Hok Haw Hst) as [Et Hs]. destruct (Hs Haw) as [Haw1 Hc].
  destruct (IH ltac:(by eapply step_ok, other_sys_step) Haw1) as (Haw2 & Et2 & Hc2). split; [done|].
  split; [congruence|]. etrans; [exact Hc2|exact Hc].
Qed.



End OtherSteps.

(** ** One process among others

    [G] holds in every state of the run, [E] is a fact that stays true; the
    code of process [q] asks only what [R] allows, and keeps to the safe side,
    until [E] holds. *)
Section Safe.
Context `{BlockDevice D} `{Board U} (turns depth limit : nat) (slack : Z).
Context (code_at : Z -> option (Z -> Z -> code unit)).
Abbreviation ustate := (ustate D U).
Abbreviation current s := (current_pid (scheduler (ukernel s))).
Abbreviation own_step := (own_step (D := D) (U := U) turns depth limit slack code_at).
Abbreviation sys_step := (sys_step (D := D) (U := U) turns depth limit slack code_at).
Context (G E : ustate -> Prop) (R : forall X, userE X -> ustate -> Prop).

(** The answers to a request: that of a call is what the call leaves in [r0] of
    the caller's context, whether it keeps the processor or not. *)
Definition answered {X} (e : userE X) (s : ustate) : X -> ustate -> Prop :=
  match e in userE X return X -> ustate -> Prop with
  | Svc id args => fun b s' => exists place garbage c k cq,
      kernel_handler_svc turns depth limit id place garbage (load_args 0 args (uctx s)) (ukernel s) = Ok (c, k) /\
      s' = UState c k (uheap s) /\ context_in (current s) c (scheduler k) = Some cq /\ b = get_gpr 0 cq
  | e => serves limit slack e s
  end.

(** What a set of trees needs to be kept to. *)
Definition kept {A} (Q : A -> Prop) (I : code A -> Prop) (t : code A) : Prop :=
  match observe t with
  | RetF a => Q a
  | TauF t' => I t'
  | VisF e k => forall s, G s -> R _ e s /\ forall b s', answered e s b s' -> E s' \/ I (k b)
  end.

Definition safe {A} (Q : A -> Prop) (t : code A) : Prop := exists I, (forall t, I t -> kept Q I t) /\ I t.

Lemma kept_mono {A} (Q : A -> Prop) (I I' : code A -> Prop) t : (forall t, I t -> I' t) -> kept Q I t -> kept Q I' t.
Proof.
  unfold kept. intros HI. destruct (observe t) as [a|t'|X e k]; [done|by apply HI|]. intros Hk s Hs. destruct (Hk s Hs) as [Hr Hb].
  split; [done|]. intros b s' Ha. destruct (Hb b s' Ha); [by left|right; by apply HI].
Qed.

Lemma safe_unfold {A} (Q : A -> Prop) t : safe Q t -> kept Q (safe Q) t.
Proof. intros (I & HI & Ht). eapply kept_mono; [|exact (HI t Ht)]. intros t' Ht'. by exists I. Qed.

Lemma safe_coind {A} (Q : A -> Prop) (I : code A -> Prop) t : (forall t, I t -> kept Q (fun t => I t \/ safe Q t) t) -> I t -> safe Q t.
Proof.
  intros HI Ht. exists (fun t => I t \/ safe Q t). split; [|by left]. intros t' [Ht'|Ht']; [by apply HI|].
  eapply kept_mono; [|by apply safe_unfold]. intros t2. by right.
Qed.

Lemma safe_fold {A} (Q : A -> Prop) t : kept Q (safe Q) t -> safe Q t.
Proof.
  intros Ht. apply (safe_coind Q (fun t' => t' = t)); [|done]. intros t' ->. eapply kept_mono; [|exact Ht]. intros t2. by right.
Qed.

Lemma safe_mret {A} (Q : A -> Prop) a : Q a -> safe Q (mret a).
Proof. intros Ha. by apply safe_fold. Qed.

Lemma kept_observe {A} (Q : A -> Prop) I (t t' : code A) : observe t = observe t' -> kept Q I t' -> kept Q I t.
Proof. unfold kept. by intros ->. Qed.

Lemma safe_bind {A B} (Q : B -> Prop) (m : code A) (f : A -> code B) : safe (fun a => safe Q (f a)) m -> safe Q (m ≫= f).
Proof.
  intros Hm. apply (safe_coind Q (fun t => exists m, safe (fun a => safe Q (f a)) m /\ t = m ≫= f)); [|by exists m].
  clear m Hm. intros t (m & Hm%safe_unfold & ->). unfold kept in *. rewrite observe_bind. destruct (observe m) as [a|m'|X e k].
  - apply safe_unfold in Hm. eapply kept_mono; [|exact Hm]. intros t2. by right.
  - left. by exists m'.
  - intros s Hs. destruct (Hm s Hs) as [Hr Hk]. split; [done|]. intros b s' Ha. destruct (Hk b s' Ha) as [He|Hb]; [by left|right; left; by exists (k b)].
Qed.

Lemma safe_trigger {X} (Q : X -> Prop) (e : userE X) :
  (forall s, G s -> R _ e s /\ forall b s', answered e s b s' -> E s' \/ Q b) -> safe Q (ITree.trigger e).
Proof.
  intros He. apply safe_fold. intros s Hs. destruct (He s Hs) as [Hr Hb]. split; [done|]. intros b s' Ha.
  destruct (Hb b s' Ha); [by left|right; by apply safe_mret].
Qed.

Lemma safe_lift {A} (Q : A -> Prop) m :
  (forall err s, R _ (Fault err) s) -> (forall a, m = Ok a -> Q a) -> safe Q (lift m).
Proof.
  intros Hf. destruct m as [a|err]; intros Hm; [by apply safe_mret, Hm|]. apply safe_bind, safe_trigger. intros s _. split; [done|]. intros b s' Ha. destruct Ha.
Qed.

Lemma safe_mono {A} (Q Q' : A -> Prop) t : (forall a, Q a -> Q' a) -> safe Q t -> safe Q' t.
Proof.
  intros HQ Ht. apply (safe_coind Q' (safe Q)); [|done]. clear t Ht. intros t Ht%safe_unfold.
  eapply (kept_mono Q'); [intros t2 H2; left; exact H2|]. revert Ht. unfold kept. destruct (observe t); [apply HQ|done..].
Qed.

Lemma safe_iter {A B} (Q : B -> Prop) (body : A -> code (A + B)) a :
  (forall a, safe (fun r => match r with inl _ => True | inr b => Q b end) (body a)) -> safe Q (ITree.iter body a).
Proof.
  intros Hb. set (P := fun r : A + B => match r with inl _ => True | inr b => Q b end).
  set (cont := fun lr : A + B => match lr with inl a => Tau (ITree.iter body a) | inr b => Ret b end).
  apply (safe_coind Q (fun t => (exists m, safe P m /\ t = m ≫= cont) \/ exists a, t = ITree.iter body a)); [|right; by exists a].
  clear a. assert (Hm : forall m, safe P m -> kept Q (fun t => ((exists m, safe P m /\ t = m ≫= cont) \/ exists a, t = ITree.iter body a) \/ safe Q t) (m ≫= cont)).
  { intros m Hm%safe_unfold. unfold kept in *. rewrite observe_bind. destruct (observe m) as [[a|b]|m'|X e k]; cbn.
    - left. right. by exists a.
    - exact Hm.
    - left. left. by exists m'.
    - intros s Hs. destruct (Hm s Hs) as [Hr Hk]. split; [done|]. intros b s' Ha. destruct (Hk b s' Ha) as [He|Hb']; [by left|right; left; left; by exists (k b)]. }
  intros t [(m & Hsm & ->)|(a & ->)]; [by apply Hm|]. eapply kept_observe; [|apply (Hm (body a)), Hb]. reflexivity.
Qed.

(** ** The thread of [q], up to the continuation [K] *)
Context {A : Type} (q : Z) (K : A -> code unit).
Context (Estable : forall S S', E (machine S) -> sys_step S S' -> E (machine S')).
Context (Rstays : forall id args s, R _ (Svc id args) s -> stays id (load_args 0 args (uctx s))).
Abbreviation system := (system (D := D) (U := U)).
Abbreviation sched_of S := (scheduler (ukernel (machine S))).

(** It has not come to [K], nor will it with the value that is in its [r0]. *)
Definition safe_thread (S : system) (th : thread) : Prop :=
  exists m, safe (fun _ : A => False) m /\
    match th with
    | Running t => t = m ≫= K
    | Awaiting k => exists c, context_in q (uctx (machine S)) (sched_of S) = Some c /\ k (get_gpr 0 c) = m ≫= K
    end.
Definition inside (S : system) : Prop := awake q (sched_of S) /\ exists th, threads S !! q = Some th /\ safe_thread S th.

Lemma awake_context c s : awake q s -> exists cq, context_in q c s = Some cq.
Proof. intros (item & Hi & _). unfold context_in. case_decide; [by eexists|]. rewrite Hi. by eexists. Qed.

(** Its thread is as before, and it keeps its context. *)
Lemma inside_steady (S S' : system) :
  threads S' !! q = threads S !! q -> steady q (uctx (machine S), sched_of S) (uctx (machine S'), sched_of S') -> inside S -> inside S'.
Proof.
  intros Et Hs [Ha (th & Hth & m & Hm & Hk)]. destruct (Hs Ha) as [Ha' Hc]. split; [done|]. exists th. rewrite Et. split; [done|].
  exists m. split; [done|]. destruct th as [t|k]; [done|]. destruct Hk as (c & Hck & Hk). exists c. by rewrite <- Hck.
Qed.

(** What a request of [q] itself leads to. *)
Lemma inside_event t X (e : userE X) k s m :
  safe (fun _ : A => False) m -> t = m ≫= K -> observe t = VisF e k -> G s ->
  R _ e s /\ forall b s', answered e s b s' -> E s' \/ exists m', safe (fun _ : A => False) m' /\ k b = m' ≫= K.
Proof.
  intros Hm%safe_unfold -> Ho Hg. rewrite observe_bind in Ho. unfold kept in Hm. destruct (observe m) as [a|m'|Y e' k'] eqn:Em; [done|done|].
  revert Hm. refine (match Ho in _ = t return match t with VisF e k => (_ : Prop) | _ => True end with eq_refl => _ end).
  intros Hm. destruct (Hm s Hg) as [Hr Hk]. split; [done|]. intros b s' Ha. destruct (Hk b s' Ha); [by left|right; by exists (k' b)].
Qed.

Lemma inside_own_call s t id args k place garbage c ker ths ths1 ths' m :
  safe (fun _ : A => False) m -> t = m ≫= K -> observe t = VisF (Svc id args) k -> G s -> kernel_ok (ukernel s) -> current s = q -> awake q (scheduler (ukernel s)) ->
  kernel_handler_svc turns depth limit id place garbage (load_args 0 args (uctx s)) (ukernel s) = Ok (c, ker) ->
  called code_at id args s k ths = Some ths1 -> handed id s ker ths1 ths' ->
  E (UState c ker (uheap s)) \/ inside (Sys (UState c ker (uheap s)) ths').
Proof.
  intros Hm Et Ho Hg Hok Hq Haw He Hc Hh. destruct (inside_event t _ _ _ _ m Hm Et Ho Hg) as [Hr Hev]. apply Rstays in Hr.
  destruct (svc_steady turns depth limit q id place garbage _ _ _ _ Hok (or_intror Hr) He) as (c1 & Hst & _).
  destruct (Hst Haw) as [Haw' _]. destruct (awake_context c _ Haw') as [cq Hcq].
  destruct (Hev (get_gpr 0 cq) (UState c ker (uheap s))) as [HEs|(m' & Hm' & Hk)]; [|by left|right].
  { exists place, garbage, c, ker, cq. by rewrite Hq. }
  split; [done|]. exists (Awaiting k). split; [|exists m'; split; [done|by exists cq]].
  pose proof (core_range _ (wf_core _ (ko_sched _ Hok)) _ (core_current _ (wf_core _ (ko_sched _ Hok)))).
  destruct (handed_other id s ker ths1 ths' q Hh) as [E1|(_ & _ & E1)]; [|done]. cbn. rewrite E1, <- Hq. eapply called_own; [apply Hr|lia|exact Hc].
Qed.

Lemma inside_own S S' :
  sys_ok S -> G (machine S) -> own_step S S' -> current (machine S) = q -> inside S -> E (machine S') \/ inside S'.
Proof.
  intros Hok Hg Hst Hcur [Haw (th & Hth & m & Hm & Hsafe)]. pose proof (so_kernel _ Hok) as Hk. rewrite <- Hcur in Hth.
  destruct Hst as [s ths t t' Ht Ho|s ths t X e k b s' Ht Ho Hs|s ths k Ht|s ths t id args k place garbage c ker ths1 ths' Ht Ho Hpl Ha He Hc Hh]; cbn in *;
    rewrite Ht in Hth; injection Hth as <-.
  - right. split; [done|]. exists (Running t'). cbn. rewrite Hcur, lookup_insert_eq. split; [done|].
    subst t. apply safe_unfold in Hm. rewrite observe_bind in Ho. unfold kept in Hm. destruct (observe m) as [a|m'|Y e' k']; [done| |done].
    injection Ho as <-. by exists m'.
  - destruct (serves_kernel limit slack e s b s' Hs) as (Ec & mem & Ek). destruct (inside_event t X e k s m Hm Hsafe Ho Hg) as [_ Hev].
    destruct (Hev b s') as [He|(m' & Hm' & Hk')]; [by destruct e|by left|]. right. split; [cbn; by rewrite Ek|].
    exists (Running (k b)). cbn. rewrite Hcur, lookup_insert_eq. split; [done|]. by exists m'.
  - right. split; [done|]. eexists. cbn. rewrite Hcur, lookup_insert_eq. split; [done|].
    destruct Hsafe as (c & Hc & Hsafe). exists m. split; [done|]. unfold context_in in Hc. rewrite decide_True in Hc by done. by injection Hc as <-.
  - by eapply inside_own_call.
Qed.

Lemma inside_step S S' :
  sys_ok S -> G (machine S) -> sys_step S S' -> ~ steals q S S' -> inside S -> E (machine S') \/ inside S'.
Proof.
  intros Hok Hg Hst Hno Hi. destruct (other_or_own turns depth limit slack code_at q S S' Hst Hno) as [[Ho Hcur]|Ho]; [by eapply inside_own|].
  destruct (other_step_keeps turns depth limit slack code_at q S S' Hok (proj1 Hi) Ho) as [Et Hs]. right. by eapply inside_steady.
Qed.

Lemma inside_run S S' :
  sys_ok S -> G (machine S) -> inside S -> rtc (fun S S' => (sys_step S S' /\ ~ steals q S S') /\ G (machine S')) S S' ->
  E (machine S') \/ inside S'.
Proof.
  intros Hok Hg Hi Hr. revert Hok Hg Hi. induction Hr as [S|S S1 S2 [[Hst Hno] Hg1] Hr IH]; intros Hok Hg Hi; [by right|].
  destruct (inside_step S S1 Hok Hg Hst Hno Hi) as [He|Hi1].
  - left. clear IH Hok Hg Hi Hno Hst. induction Hr as [S1|S1 S2 S3 [[Hst _] Hg2] _ IH]; [done|]. apply IH; [done|]. by eapply Estable.
  - apply IH; [by eapply step_ok|done|done].
Qed.
End Safe.

(** ** The shell and the programs it starts *)
Section Launch.
Context `{BlockDevice D} `{Board U} (turns depth limit : nat) (slack : Z).
Context (code_at : Z -> option (Z -> Z -> code unit)) (stored child top : Z) (Hchild : 0 < child < 2 ^ 31) (Htop : 0 <= top).
Abbreviation ustate := (ustate D U).
Abbreviation sys_step := (sys_step (D := D) (U := U) turns depth limit slack code_at).

(** The exit of the process is on record. *)
Definition exited (s : ustate) : Prop := gone child (scheduler (ukernel s)).

#[export] Instance exited_dec s : Decision (exited s).
Proof. unfold exited, gone. apply _. Defined.

(** The shell's cell holds the pid. *)
Definition pid_stored (s : ustate) : Prop := holds (umemory s) stored (word_bytes child).
Record launching (s : ustate) : Prop := {
  la_ctx : ctx_ok (uctx s);
  la_pid : pid_stored s;
  la_top : heap_top (uheap s) = top
}.

(** What the shell asks for while it waits: what other processes do not
    notice, or that the child be killed. *)
Definition waiting_request X (e : userE X) (s : ustate) : Prop :=
  match e with
  | Svc id args => (id <> 1000 /\ quiet_call id (load_args 0 args (uctx s)) s) \/ (id = 37 /\ args = [child; SIGKILL])
  | e => quiet e s
  end.

Abbreviation safe := (safe turns depth limit slack launching exited waiting_request).

Lemma safe_any {X} (Q : X -> Prop) (e : userE X) :
  (forall s, launching s -> waiting_request _ e s) -> (forall b, Q b) -> safe Q (ITree.trigger e).
Proof. intros He HQ. apply safe_trigger. intros s Hs. split; [by apply He|]. intros b s' _. right. apply HQ. Qed.

Lemma safe_lifted {A} (Q : A -> Prop) m : (forall a, m = Ok a -> Q a) -> safe Q (lift m).
Proof. by apply safe_lift. Qed.

Lemma safe_load (Q : list Z -> Prop) p n : (forall b, Q b) -> safe Q (load p n).
Proof. by apply safe_any. Qed.

Lemma safe_stored (Q : Z -> Prop) : Q child -> safe Q (load32 stored).
Proof.
  intros HQ. apply safe_bind, safe_trigger. intros s [_ Hs _]. split; [done|]. intros b s' [-> ->]. right. unfold pid_stored in Hs.
  rewrite (peek_holds _ _ _ Hs : peek (umemory s) stored 4 = _). apply safe_lifted. intros a Ha. pose proof (le32_sum child ltac:(lia)) as E.
  change (Ok (child mod 256 + 256 * (child / 2 ^ 8 mod 256 + 256 * (child / 2 ^ 16 mod 256 + 256 * (child / 2 ^ 24 mod 256)))) = Ok a) in Ha.
  injection Ha as <-. replace (_ + _) with child by lia. done.
Qed.

Lemma exited_events s s' : events_head (scheduler (ukernel s)) `prefix_of` events_head (scheduler (ukernel s')) -> exited s -> exited s'.
Proof. intros [l E]. unfold exited, gone. rewrite E. intros Hx. apply Exists_app. by left. Qed.

Lemma exited_stable (S S' : system) : exited (machine S) -> sys_step S S' -> exited (machine S').
Proof.
  intros Hx Hst. step_cases Hst.
  - done.
  - destruct (serves_kernel limit slack e s b s' Hs) as (_ & m & E). eapply exited_events; [|exact Hx]. by rewrite E.
  - done.
  - eapply exited_events; [|exact Hx]. by eapply svc_events.
  - exact Hx.
  - eapply exited_events; [|exact Hx]. by apply (ev_events _ _ (irq_evolves _ _ _ _ He)).
Qed.

(** Asking whether the process has exited. *)
Lemma safe_waitpid (Q : Z -> Prop) : Q 0 -> safe Q (_waitpid PROCESS_EVENT_EXITED (i32 child) WAITPID_NOHANG).
Proof.
  intros HQ. apply safe_bind, safe_trigger. intros s [Hc _ _]. split.
  { left. split; [done|]. cbn [quiet_call]. by registers Hc. }
  intros b s' (place & garbage & c & k & cq & Ek & -> & Hcq & ->).
  destruct (decide (exited (UState c k (uheap s)))) as [Hx|Hx]; [by left|right]. apply safe_mret.
  unfold kernel_handler_svc in Ek. rewrite decide_True in Ek by by apply (bool_decide_unpack _). cbn [svc_process] in Ek.
  match type of Ek with context [load_args 0 ?args _] =>
    rewrite (arg_register args _ 0 _ Hc eq_refl), (arg_register args _ 1 _ Hc eq_refl), (arg_register args _ 2 _ Hc eq_refl) in Ek by lia end.
  change (negb (Z.land (i32 (u32 (u32 WAITPID_NOHANG))) WAITPID_NOHANG =? 0)) with true in Ek. cbv beta iota in Ek. injection Ek as <- <-.
  unfold context_in in Hcq. rewrite decide_True in Hcq by done. injection Hcq as <-. rewrite return_value_r0 by by apply set_gpr_ok, set_gpr_ok, set_gpr_ok.
  rewrite !u32_u32, !i32_u32, i32_i32. unfold scheduler_has_event_occurred. rewrite decide_False; [done|].
  intros He. apply Hx. unfold exited, gone; cbn. eapply Exists_impl; [exact He|]. cbn. rewrite (i32_small child) by lia. done.
Qed.

(** A character from the standard input, by way of a local on the stack. *)
Lemma safe_readchar (Q : Z -> Prop) : (forall c, Q c) -> safe Q stdio_readchar_nonblocking.
Proof.
  intros HQ. apply safe_bind, safe_trigger. intros s [_ _ Ht]. split; [done|]. intros a s' [[Ha1 Ha2] ->]. rewrite Ht in Ha1. right.
  assert (Hst : forall s, launching s -> stacked s a 1) by (intros s1 [_ _ H1]; split; lia).
  apply safe_bind, safe_any; [exact Hst|]. intros _. apply safe_bind, safe_bind, safe_any; [|intros r; apply safe_mret, safe_bind, safe_load; intros b; apply safe_lifted; intros c _; apply HQ].
  intros s1 H1. left. split; [done|]. pose proof (Hst s1 H1) as Hs. destruct H1 as [Hc _ _]. cbn [quiet_call].
  registers Hc. by rewrite (u32_small a) by lia.
Qed.

(** [Ctrl+C] kills the child. *)
Lemma safe_kill (Q : Z -> Prop) : (forall r, Q r) -> safe Q (_kill (i32 child) SIGKILL).
Proof.
  intros HQ. apply safe_bind, safe_any; [|intros r; by apply safe_mret]. intros s _. right. split; [done|].
  rewrite (i32_small child), (u32_small child) by lia. done.
Qed.

Lemma safe_take_input buffer (Q : list Z -> Prop) : (forall b, Q b) -> safe Q (take_input (i32 child) buffer).
Proof.
  intros HQ. apply safe_iter. intros b. apply safe_bind, safe_readchar. intros c.
  assert (Hnext : safe (fun r => match r with inl _ => True | inr b => Q b end) (mret (if negb (c =? EOF) then inl (stdstream_push_char b c) else inr b)))
    by (apply safe_mret; by destruct (negb _)).
  apply safe_bind. unfold Programs.when. destruct (c =? 3); [|by apply safe_mret]. apply safe_bind, safe_kill. intros r. by apply safe_mret.
Qed.

Lemma launch_turn_safe buffer : safe (fun r => match r with inl _ => True | inr _ => False end) (launch_turn stored buffer).
Proof.
  apply safe_bind, safe_stored, safe_bind, safe_waitpid. change (0 =? 0) with true. cbv beta iota.
  apply safe_bind, safe_stored, safe_bind, safe_take_input. intros b. apply safe_bind, safe_bind, safe_any; [by left|].
  intros r. by apply safe_mret, safe_mret.
Qed.

Lemma launch_loop_safe buffer : safe (fun _ => False) (ITree.iter (launch_turn stored) buffer).
Proof. apply safe_iter, launch_turn_safe. Qed.

(** The thread [th] of [q] is somewhere before the continuation [K], or takes a
    value from [r0] of its context and then is. *)
Definition before {A} (q : Z) (K : A -> code unit) (S : system (D := D) (U := U)) (th : thread) : Prop :=
  exists m, (forall a, observe m <> RetF a) /\
    match th with
    | Running t => t = m ≫= K
    | Awaiting k => exists c, context_in q (uctx (machine S)) (scheduler (ukernel (machine S))) = Some c /\ k (get_gpr 0 c) = m ≫= K
    end.

Abbreviation inside q K := (inside turns depth limit slack launching exited waiting_request q K).
Abbreviation safe_thread q K := (safe_thread turns depth limit slack launching exited waiting_request q K).

Lemma inside_before {A} q (K : A -> code unit) S th : safe_thread q K S th -> before q K S th.
Proof. intros (m & Hm%safe_unfold & Hk). exists m. split; [|done]. intros a E. unfold kept in Hm. by rewrite E in Hm. Qed.

(** What the thread asks for next, if it is at a request. *)
Definition asks (s : ustate) (th : thread) : Prop :=
  forall t X (e : userE X) k, th = Running t -> observe t = VisF e k -> waiting_request _ e s.

Lemma inside_asks {A} q (K : A -> code unit) S th : safe_thread q K S th -> launching (machine S) -> asks (machine S) th.
Proof. intros (m & Hm & Hk) Hs t X e k -> Ho. by destruct (inside_event _ _ _ _ launching exited waiting_request K t X e k _ m Hm Hk Ho Hs). Qed.

Lemma waiting_stays id args (s : ustate) : waiting_request _ (Svc id args) s -> stays id (load_args 0 args (uctx s)).
Proof. intros [[Hid Hs]|[-> _]]; split; try done. by intros ->. Qed.

(** It asks for no more than the child does not notice. *)
Definition considerate (S : system (D := D) (U := U)) (th : thread) : Prop :=
  forall t X (e : userE X) k, th = Running t -> observe t = VisF e k ->
    quiet e (machine S) \/ match e with Svc id args => id = 37 /\ args = [child; SIGKILL] | _ => False end.

Lemma asks_considerate S th : asks (machine S) th -> considerate S th.
Proof.
  intros Ha t X e k Et Ho. specialize (Ha t X e k Et Ho). destruct e; try (by left). destruct Ha as [[_ Ha]|Ha]; [by left|by right].
Qed.

(** The end of the heap stays where it is. *)
Lemma step_top S S' : sys_step S S' -> heap_top (uheap (machine S')) = heap_top (uheap (machine S)).
Proof.
  intros Hst. step_cases Hst; try done. destruct e; cbn in Hs; try done; try (by subst s'); try (by destruct Hs as [_ ->]).
  - destruct Hs as (h & (_ & Hh & _) & _ & ->). cbn. by rewrite allocate_top.
  - destruct Hs as (h & (_ & Hh & _) & _ & ->). cbn. by rewrite allocate_top.
Qed.

(** A run that leaves the cell alone is a run of a launching shell. *)
Lemma launching_run (O : system -> system -> Prop) S S' :
  sys_typed S -> launching (machine S) -> rtc (fun S S' => (sys_step S S' /\ O S S') /\ pid_stored (machine S')) S S' ->
  rtc (fun S S' => (sys_step S S' /\ O S S') /\ launching (machine S')) S S' /\ launching (machine S').
Proof.
  intros Ht Hl Hr. induction Hr as [S|S S1 S2 [[Hst HO] Hp1] _ IH]; [done|]. pose proof (step_typed turns depth limit slack code_at S S1 Ht Hst) as Ht1.
  assert (Hl1 : launching (machine S1)) by (split; [apply Ht1|done|rewrite (step_top S S1 Hst); apply Hl]).
  destruct (IH Ht1 Hl1) as [Hr1 Hl2]. split; [|done]. by eapply rtc_l.
Qed.
End Launch.

Section Waits.
Context `{BlockDevice D} `{Board U} (turns depth limit : nat) (slack : Z).
Context (code_at : Z -> option (Z -> Z -> code unit)) (stored child : Z) (Hchild : 0 < child < 2 ^ 31).
Abbreviation sys_step := (sys_step (D := D) (U := U) turns depth limit slack code_at).

(** C17 (safety): the shell waits for the program it started, and does not
    disturb it. Let process [q], which is not blocked, enter the loop of
    [launch_process]; then let the others do anything, in any order with its
    own steps, but for two things: nobody writes to the cell with the child's
    pid, and nobody else's call puts its own result in [r0] of [q], as a
    [waitpid] that blocks and a [kill] do when they hand it the processor. Then
    either the exit of the child is on record, or [q] has not come to what
    follows the loop, nor will with the value in its [r0], and what it asks for
    next is among what the program does not notice (see [Sharing]), or is to
    kill the child. *)
Theorem shell_waits q buffer K (S S' : system (D := D) (U := U)) :
  sys_ok S -> sys_typed S -> awake q (scheduler (ukernel (machine S))) ->
  threads S !! q = Some (Running (ITree.iter (launch_turn stored) buffer ≫= K)) ->
  pid_stored stored child (machine S) -> 0 <= heap_top (uheap (machine S)) ->
  rtc (fun S S' => (sys_step S S' /\ ~ steals q S S') /\ pid_stored stored child (machine S')) S S' ->
  exited child (machine S') \/
  exists th, threads S' !! q = Some th /\ before q K S' th /\ considerate child S' th.
Proof.
  intros Hok Ht Hq Hth Hp Htop Hr. set (top := heap_top (uheap (machine S))) in *.
  assert (Hl : launching stored child top (machine S)) by (split; [apply Ht|done|done]).
  destruct (launching_run turns depth limit slack code_at stored child top _ S S' Ht Hl Hr) as [Hr' Hl'].
  destruct (inside_run turns depth limit slack code_at (launching stored child top) (exited child) (waiting_request child) q K
    (exited_stable turns depth limit slack code_at child) (waiting_stays child) S S')
    as [He|(_ & th & Hth' & Hi)]; try done; [|by left|].
  - split; [done|]. eexists. split; [exact Hth|]. eexists. split; [by eapply launch_loop_safe|done].
  - right. exists th. split; [done|]. split; [by eapply inside_before|]. by eapply asks_considerate, inside_asks.
Qed.
End Waits.

(** ** The theorems at work *)
Definition demo_lit (t : list Z) : Z := 4096.
Definition demo_code (a : Z) : option (Z -> Z -> code unit) := Some (program_code demo_lit touch).
Definition demo_heap : heap := Heap 65536 32768 196608.

Lemma demo_system : exists S, sys_reachable 1 1 64 0 demo_code (mush demo_lit (fun _ => 0)) S.
Proof. destruct demo_reset as (c & k & E). eexists. by apply (sys_reset _ _ _ _ _ _ 32768 100 demo_ctx demo_boot c k demo_heap demo_powered_on). Qed.

(** Process 1 waits for process 2, whose pid is at 4096; the timer strikes. *)
Definition demo_pids (a : Z) : Z := if a =? 4096 then 2 else 0.
Definition demo_next (b : list Z) : code unit := stdproc_exit EXIT_SUCCESS.
Definition demo_waiting : system :=
  Sys (UState demo_ctx (with_user demo_pids (with_devices ticking demo_kernel)) demo_heap)
    {[1 := Running (ITree.iter (launch_turn 4096) [] ≫= demo_next); 2 := Running (Programs.P0 demo_lit 0 0)]}.

Lemma demo_irq : exists c k, kernel_handler_irq demo_ctx (with_user demo_pids (with_devices ticking demo_kernel)) = Ok (c, k) /\ user k = demo_pids.
Proof. eexists _, _. split; [vm_compute; reflexivity|done]. Qed.

Lemma demo_two_ok t1 t2 : sys_ok (Sys (machine demo_waiting) {[1 := t1; 2 := t2]}).
Proof.
  split; [by apply ok_with_user, ok_with_devices, demo_kernel_ok|].
  intros p Hp. assert (p = 1 \/ p = 2) as [-> | ->]; [|by eexists..].
  change (p ∈ pids demo2) in Hp. assert (pids demo2 = [1; 2]) as E by by vm_compute. rewrite E in Hp. set_solver.
Qed.

Lemma demo_awake q m : q = 1 \/ q = 2 -> awake q (with_memory m demo2).
Proof. intros Hq. unfold awake. destruct Hq as [-> | ->]; (eexists; split; [vm_compute; reflexivity|done]). Qed.

Lemma demo_typed : sys_typed demo_waiting.
Proof. split; [done|]. vm_compute. by repeat constructor. Qed.

Lemma shell_waits_witness :
  exists S', sys_step 1 1 64 0 demo_code demo_waiting S' /\
    (exited 2 (machine S') \/ exists th, threads S' !! 1 = Some th /\ before 1 demo_next S' th /\ considerate 2 S' th).
Proof.
  destruct demo_irq as (c & k & E & Em). exists (Sys (UState c k demo_heap) (threads demo_waiting)).
  assert (Hst : sys_step 1 1 64 0 demo_code demo_waiting (Sys (UState c k demo_heap) (threads demo_waiting)))
    by (eapply (sys_irq _ _ _ _ _ (machine demo_waiting)), E).
  split; [exact Hst|]. apply (shell_waits 1 1 64 0 demo_code 4096 2 ltac:(lia) 1 [] demo_next demo_waiting).
  - apply demo_two_ok.
  - exact demo_typed.
  - apply demo_awake. by left.
  - done.
  - by apply holds_peek.
  - done.
  - apply rtc_once. split; [split; [exact Hst|by intros []]|]. unfold pid_stored, umemory; cbn. rewrite Em. by apply holds_peek.
Defined.

(** The timer strikes: process 1 keeps its context. *)
Lemma context_is_kept_witness :
  exists S', other_step 1 1 64 0 demo_code 1 demo_waiting S' /\ threads S' !! 1 = threads demo_waiting !! 1 /\
    context_in 1 (uctx (machine S')) (scheduler (ukernel (machine S'))) = Some demo_ctx.
Proof.
  destruct demo_irq as (c & k & E & _). exists (Sys (UState c k demo_heap) (threads demo_waiting)).
  assert (Hst : other_step 1 1 64 0 demo_code 1 demo_waiting (Sys (UState c k demo_heap) (threads demo_waiting)))
    by (eapply (other_irq _ _ _ _ _ _ (machine demo_waiting)), E).
  split; [exact Hst|].
  destruct (context_is_kept 1 1 64 0 demo_code 1 demo_waiting _ (demo_two_ok _ _) (demo_awake 1 demo_pids (or_introl eq_refl)) (rtc_once _ _ Hst)) as (_ & Et & Ec).
  split; [exact Et|exact Ec].
Defined.



