(* ===== verification/Launch.v ===== *)
(** * A program and the shell that waits for it

    The two halves together: the shell, in the loop of [launch_process], asks
    only for what the program it started does not notice ([Interleaving]), and
    a program is not disturbed by others that ask only for that ([Runs]). *)
From S2P Require Import Prelude Mem Strings Scheduler Stream Uart Devices Disk Fat16 Volume Files Directory Slots Root Paths FileSys Descriptors FileCalls Names Create NamedFiles Kernel Machine Syscalls Process Commands Session Shell Mush System Bystander Sharing Runs Interleaving.
From S2P Require Programs.

Section Launch.
Context `{BlockDevice D} `{Board U} (turns depth limit : nat) (slack : Z).
Context (code_at : Z -> option (Z -> Z -> code unit)) (stored child top q : Z) (Hchild : 0 < child < 2 ^ 31) (Htop : 0 <= top).
Abbreviation ustate := (ustate D U).
Abbreviation system := (system (D := D) (U := U)).
Abbreviation current s := (current_pid (scheduler (ukernel s))).
Abbreviation own_step := (own_step (D := D) (U := U) turns depth limit slack code_at).
Abbreviation sys_step := (sys_step (D := D) (U := U) turns depth limit slack code_at).
Abbreviation quiet_step := (quiet_step (D := D) (U := U) turns depth limit slack code_at).
Abbreviation shows := (shows (D := D) (U := U)).
Abbreviation wp := (wp (D := D) (U := U) turns depth limit slack).

(** The kill of the child. *)
Definition kills {X} (e : userE X) : Prop := match e with Svc id args => id = 37 /\ args = [child; SIGKILL] | _ => False end.

(** What the child does not do itself: the devices, the interrupts, the shell
    [q], unless it kills the child, and other processes that ask only for what
    is quiet. *)
Inductive company_step : system -> system -> Prop :=
| company_devices s ths u :
    company_step (Sys s ths) (Sys (UState (uctx s) (with_devices u (ukernel s)) (uheap s)) ths)
| company_irq s ths c ker :
    kernel_handler_irq (uctx s) (ukernel s) = Ok (c, ker) -> company_step (Sys s ths) (Sys (UState c ker (uheap s)) ths)
| company_own S S' :
    own_step S S' -> current (machine S) <> child ->
    (forall t X (e : userE X) k, threads S !! current (machine S) = Some (Running t) -> observe t = VisF e k ->
       if decide (current (machine S) = q) then ~ kills e else quiet e (machine S)) ->
    company_step S S'.

Lemma company_sys_step S S' : company_step S S' -> sys_step S S'.
Proof. intros [s ths u|s ths c ker E|S1 S2 E _ _]; [apply sys_devices|by apply sys_irq|by apply sys_own]. Qed.

Definition pid_kept (S : system) : Prop := pid_stored stored child (machine S).
Definition left_alone (S S' : system) : Prop := company_step S S' /\ pid_kept S'.

Context {A : Type} (K : A -> code unit).
Abbreviation inside := (inside (D := D) (U := U) turns depth limit slack (launching stored child top) (exited child) (waiting_request child) q K).

(** The shell waits. *)
Record waiting (S : system) : Prop := {
  wa_typed : sys_typed S;
  wa_launching : launching stored child top (machine S);
  wa_inside : inside S
}.

Lemma waiting_step S S' :
  sys_ok S -> waiting S -> sys_step S S' -> ~ steals q S S' -> pid_kept S' -> ~ exited child (machine S') -> waiting S'.
Proof.
  intros Hok [Hty Hl Hi] Hst Hno Hp Hx. pose proof (step_typed turns depth limit slack code_at S S' Hty Hst) as Hty'. split.
  - done.
  - split; [apply Hty'|exact Hp|]. rewrite (step_top _ _ _ _ _ _ _ Hst). apply Hl.
  - by destruct (inside_step turns depth limit slack code_at (launching stored child top) (exited child) (waiting_request child) q K
      (waiting_stays child) S S' Hok Hl Hst Hno Hi).
Qed.

(** No late result comes from a process that makes no such call, unless the
    call returns at once. *)
Lemma quiet_no_steal S S' :
  own_step S S' -> (forall t X (e : userE X) k, threads S !! current (machine S) = Some (Running t) -> observe t = VisF e k -> quiet e (machine S)) ->
  ~ steals q S S'.
Proof.
  intros Hst Hq (Hne & Hcur & t & id & args & k & Ht & Ho & Hid & _). pose proof (Hq _ _ _ _ Ht Ho) as Hquiet. destruct S as [s ths].
  apply (own_step_next turns depth limit slack code_at s ths _ S' Ht) in Hst. unfold next in Hst. rewrite Ho in Hst.
  destruct Hst as (place & garbage & c & ker & ths1 & ths' & _ & _ & He & _ & _ & ->). cbn in *.
  assert (id ∉ late_results \/ current_pid (scheduler ker) = current s) as [|Hc] by (by eapply quiet_call_keeps); [done|congruence].
Qed.

(** The company is quiet as long as the shell waits. *)
Lemma company_quiet s th S S' : shows child s th S -> waiting S -> left_alone S S' -> quiet_step child S S' /\ waiting S'.
Proof.
  intros Hs Hw [Hst Hp]. assert (Hqs : quiet_step child S S' /\ ~ steals q S S').
  { destruct Hst as [m ths u|m ths c ker E|S S' Hst Hne Hcomp].
    - split; [apply quiet_devices|]. by intros (Hne & Hcur & _).
    - split; [by apply quiet_irq|]. intros (_ & _ & t1 & id & args & k & Ht1 & _ & _ & Ht2). cbn in *. congruence.
    - destruct (decide (current (machine S) = q)) as [Hcur|Hcur].
      + split; [|by intros []]. apply quiet_own; [done|done|]. intros t1 X e k Ht1 Ho. specialize (Hcomp t1 X e k Ht1 Ho). destruct (wa_inside S Hw) as (_ & th' & Hth & Hi).
        rewrite Hcur, Hth in Ht1. injection Ht1 as ->.
        pose proof (inside_asks _ _ _ _ _ _ _ _ _ _ _ Hi (wa_launching S Hw) t1 X e k eq_refl Ho) as Ha.
        destruct e; try done. by destruct Ha as [[_ Ha]|Ha].
      + split; [by apply quiet_own|by eapply quiet_no_steal]. }
  destruct Hqs as [Hqs Hno]. split; [done|]. pose proof (quiet_shows _ _ _ _ _ _ _ _ _ _ Hs Hqs) as Hs'.
  apply (waiting_step S); [apply Hs|done|by apply company_sys_step|done|done|apply Hs'].
Qed.

Lemma launched_ends X t (s : ustate) S :
  wp (fun _ _ => False) X t s -> shows child s (Running t) S -> waiting S ->
  ends turns depth limit slack code_at left_alone pid_kept child (exits child X) S.
Proof.
  intros Hwp Hs Hw. apply (wp_ends turns depth limit slack code_at left_alone pid_kept waiting child) with t s; [exact company_quiet| |done..].
  intros s1 th1 s2 th2 S1 S2 Hs1 Hw1 Hc1 Hst Hs2 Hc2 Hp. apply (waiting_step S1); [apply Hs1|done|by apply sys_own| |done|apply Hs2].
  intros (Hne & Hcur & _). congruence.
Qed.
End Launch.

Section Command.
Context `{BlockDevice D} `{Board U} (depth limit : nat) (slack : Z).
Context (code_at : Z -> option (Z -> Z -> code unit)) (stored child q : Z) (Hchild : 0 < child < 2 ^ 31).
Abbreviation turns := (Z.to_nat 65536).
Abbreviation left_alone := (left_alone (D := D) (U := U) turns (S depth) limit slack code_at stored child q).

(** C9 (safety): a program under the shell that started it. Let a command,
    alone, come to a successful exit in a state in [Q]. In a system that shows
    it its state, where process [q], which is not blocked, is in the loop of
    [launch_process] with the command's pid in its cell, and whatever happens
    then - interrupts, keys, any step of the shell but to kill the command,
    quiet steps of others -, as long as the cell is left alone: the command
    keeps its place in the queue, is never stuck when it has the processor, and
    comes to a successful exit in a state in [Q]. *)
Theorem launched_command_exits buffer (K : list Z -> code unit) (Q : ustate D U -> Prop) t s (M : system (D := D) (U := U)) :
  command depth limit slack t s Q -> shows child s (Running t) M -> sys_typed M -> awake q (scheduler (ukernel (machine M))) ->
  threads M !! q = Some (Running (ITree.iter (launch_turn stored) buffer ≫= K)) -> pid_stored stored child (machine M) ->
  ends turns (S depth) limit slack code_at left_alone (pid_kept stored child) child
    (exits child (fun status s' => status = EXIT_SUCCESS /\ Q s')) M.
Proof.
  intros Hc Hs Hty Hq Hth Hp. set (top := heap_top (uheap (machine M))).
  assert (Htop : 0 <= top) by (unfold top; rewrite (sh_heap _ _ _ _ Hs); apply Hs).
  apply (launched_ends turns (S depth) limit slack code_at stored child top q K _ t s); [exact Hc|done|]. split; [done| |].
  - split; [apply Hty|done|done].
  - split; [done|]. eexists. split; [exact Hth|]. eexists. split; [by eapply launch_loop_safe|done].
Qed.
End Command.

(** ** At work: process 2 waits for process 1, a [touch] *)
Definition launch_memory : Z -> Z :=
  demo_bytes [(4096, [32; 0]); (4104, [10; 0]); (4112, word_bytes 4160); (4160, bytes_of "/TODO.TXT" ++ [0]); (5000, word_bytes 1)].
Definition launch_state : ustate ram_disk board := demo_state Create.demo_files launch_memory.
Definition launch_system : system :=
  Sys launch_state {[1 := Running (Programs.touch Session.demo_lit 1 4112); 2 := Running (ITree.iter (launch_turn 5000) [] ≫= demo_next)]}.

Lemma launch_touch : command 0 2000 0 (Programs.touch Session.demo_lit 1 4112) launch_state (fun s' => exists c,
  file_holds demo_fs 8 2000 (bytes_of "TODO") (bytes_of "TXT") s' [c] []).
Proof.
  eapply wp_mono; [apply (touch_command_spec demo_fs 8 demo_root_layout 0 2000 0 ltac:(lia) Session.demo_lit (bytes_of "TODO") (bytes_of "TXT") demo_todo eq_refl
    ltac:(done) ltac:(lia) 4112 4160 launch_state)|done|].
  - apply demo_can_create.
  - done.
  - apply heap_ok_Heap; lia.
  - apply demo_argument; [lia|lia|cbn; lia|by repeat constructor|by vm_compute|by vm_compute].
  - intros st s' [-> (_ & _ & _ & c & _ & _ & _ & Hf)]. by eauto.
Qed.

Lemma launch_shows : shows 1 launch_state (Running (Programs.touch Session.demo_lit 1 4112)) launch_system.
Proof. apply demo_shows, (cc_fds _ _ _ _ _ _ (demo_can_create launch_memory)). Qed.

Lemma launched_command_exits_witness :
  ends (Z.to_nat 65536) 1 2000 0 demo_code_at (left_alone (Z.to_nat 65536) 1 2000 0 demo_code_at 5000 1 2) (pid_kept 5000 1) 1
    (exits 1 (fun status s' => status = EXIT_SUCCESS /\ exists c, file_holds demo_fs 8 2000 (bytes_of "TODO") (bytes_of "TXT") s' [c] [])) launch_system.
Proof.
  apply (launched_command_exits 0 2000 0 demo_code_at 5000 1 2 ltac:(lia) [] demo_next _ (Programs.touch Session.demo_lit 1 4112) launch_state launch_system launch_touch launch_shows).
  - split; [done|]. apply (bool_decide_unpack (Forall (fun item => length (gpr (ctx item)) = 13%nat) (process_list demo2))). by vm_compute.
  - apply (demo_awake 2 launch_memory). by right.
  - done.
  - by apply holds_peek.
Defined.
