(* ===== verification/Editor.v ===== *)
(** * The line editor

    The editor of the shell against a zipper: the text before and after the
    cursor. *)
From S2P Require Import Prelude Mem Strings Stream Shell.

(** ** Specification *)
Inductive key := Char (c : Z) | Backspace | Left | Right.

Definition key_bytes (k : key) : list Z :=
  match k with Char c => [c] | Backspace => [127] | Left => [27; 91; 68] | Right => [27; 91; 67] end.

Definition key_ok (k : key) : Prop :=
  match k with Char c => c <> 0 /\ c <> 3 /\ c <> 13 /\ c <> 27 /\ c <> 127 /\ c <> EOF | _ => True end.

(** The line holds 100 characters; one more pushes the last one out, and at the
    very end nothing can be added. *)
Definition edit (z : list Z * list Z) (k : key) : list Z * list Z :=
  let '(before, after) := z in
  match k with
  | Char c => if zlength before <? 100 then (before ++ [c], take (99 - length before) after) else z
  | Backspace => (take (length before - 1) before, after)
  | Left => (take (length before - 1) before, drop (length before - 1) before ++ after)
  | Right => (before ++ take 1 after, drop 1 after)
  end.

(** The line of the editor that stands for a zipper. *)
Record shows (line : shell_line_t) (z : list Z * list Z) : Prop := {
  sh_contents : contents line = z.1 ++ z.2 ++ replicate (101 - length z.1 - length z.2) 0;
  sh_bytes : contents_bytes line = 100;
  sh_cursor : cursor_position line = zlength z.1;
  sh_nonul : nonul (z.1 ++ z.2);
  sh_fits : zlength z.1 + zlength z.2 <= 100;
  sh_prompt : prompt line = mush_prompt
}.

(** ** The loops *)
Lemma shift_right_loop X : forall A Y prev,
  for_loop (length X) (zlength A) (fun i '(b, prev) =>
      current ← buf_get b i;
      b ← buf_set b i prev;
      Ok (b, current)) (A ++ X ++ Y, prev) =
    Ok (A ++ take (length X) (prev :: X) ++ Y, default prev (last X)).
Proof.
  induction X as [|x X IH]; intros A Y prev; [done|]. cbn [length for_loop].
  rewrite (buf_get_lookup _ _ x); [|lia|rewrite Nat2Z.id; by apply list_lookup_middle]. ok_bind.
  rewrite buf_set_Ok by (rewrite length_app; simpl; lia). ok_bind. rewrite Nat2Z.id, insert_app_r_alt by lia. rewrite Nat.sub_diag. cbn [insert list_insert app].
  pose proof (IH (A ++ [prev]) Y x) as E. rewrite length_app, <- app_assoc in E. cbn [app length] in E. rewrite Nat2Z.inj_add in E.
  change (Z.of_nat 1) with 1 in E. rewrite E, <- app_assoc.
  assert (default x (last X) = default prev (last (x :: X))) as -> by (rewrite last_cons; by destruct (last X)). done.
Qed.

Lemma shift_left_loop X : forall A x,
  for_loop (length X) (zlength A) (fun i b => c ← buf_get b (i + 1); buf_set b i c) (A ++ x :: X) =
    Ok (A ++ X ++ [default x (last X)]).
Proof.
  induction X as [|y X IH]; intros A x; [done|]. cbn [length for_loop].
  rewrite (buf_get_lookup _ _ y); [|lia|rewrite lookup_app_r by lia; by replace (_ - _)%nat with 1%nat by lia]. ok_bind.
  rewrite buf_set_Ok by (rewrite length_app; simpl; lia). ok_bind. rewrite Nat2Z.id, insert_app_r_alt by lia. rewrite Nat.sub_diag. cbn [insert list_insert].
  pose proof (IH (A ++ [y]) y) as E. rewrite length_app, <- app_assoc in E. cbn [app length] in E. rewrite Nat2Z.inj_add in E.
  change (Z.of_nat 1) with 1 in E. rewrite E, <- app_assoc.
  assert (default y (last X) = default x (last (y :: X))) as -> by (rewrite last_cons; by destruct (last X)). done.
Qed.

(** ** Editing operations *)
Lemma insert_spec line z c :
  shows line z -> c <> 0 -> exists line', line_insert line c = Ok line' /\ shows line' (edit z (Char c)).
Proof.
  destruct z as [L R]. intros [Hc Hb Hcur Hn Hf Hp] Hc0; cbn [fst snd] in *. unfold line_insert. rewrite Hb, Hcur. cbn [edit].
  destruct (Z.leb_spec 0 (zlength L)); [|lia]. cbn [andb]. destruct (Z.ltb_spec (zlength L) 100) as [Hlt|]; [|exists line; by split].
  set (X := take (100 - length L) (R ++ replicate (101 - length L - length R) 0)).
  assert (HX : length X = (100 - length L)%nat) by (unfold X; rewrite length_take, length_app, length_replicate; lia).
  assert (EX : R ++ replicate (101 - length L - length R) 0 = X ++ [0]).
  { unfold X. rewrite take_app_ge, <- app_assoc by lia. f_equal. rewrite take_replicate.
    replace (101 - length L - length R)%nat with ((100 - length L - length R) + 1)%nat at 1 by lia. rewrite replicate_add. do 2 f_equal. lia. }
  pose proof (shift_right_loop X L [0] 32) as El. rewrite HX in El. rewrite Hc, EX. replace (Z.to_nat (100 - zlength L)) with (100 - length L)%nat by lia.
  rewrite El. ok_bind. rewrite buf_set_Ok by (rewrite length_app, length_app, length_take; simpl; lia). ok_bind.
  eexists. split; [done|]. destruct (100 - length L)%nat as [|m] eqn:Em; [lia|]. cbn [take app].
  rewrite Nat2Z.id, insert_app_r_alt by lia. rewrite Nat.sub_diag. cbn [insert list_insert].
  assert (Et : take m X ++ [0] = take (99 - length L) R ++ replicate (101 - length (L ++ [c]) - length (take (99 - length L) R)) 0).
  { unfold X. rewrite take_take. replace (m `min` S m)%nat with (99 - length L)%nat by lia. rewrite take_app, take_replicate, <- app_assoc. f_equal.
    rewrite !length_app, length_take. simpl length. change [0] with (replicate 1 0). rewrite <- replicate_add. f_equal. lia. }
  constructor; cbn [fst snd contents contents_bytes cursor_position prompt with_cursor with_contents]; try done.
  - rewrite Et. by rewrite <- app_assoc.
  - rewrite length_app; simpl; lia.
  - apply Forall_app in Hn as [HL HR]. unfold nonul. rewrite !Forall_app. split; [split; [done|by repeat constructor]|by apply Forall_take].
  - rewrite length_app, length_take. simpl. lia.
Qed.

Lemma backspace_spec line z :
  shows line z -> exists line', line_backspace line = Ok line' /\ shows line' (edit z Backspace).
Proof.
  destruct z as [L R]. intros [Hc Hb Hcur Hn Hf Hp]; cbn [fst snd] in *. unfold line_backspace. rewrite Hb, Hcur. cbn [edit].
  assert (Hset : forall A B k, length (A ++ B) = (100 - k)%nat -> (k <= 100)%nat ->
    buf_set (A ++ B ++ replicate (S k) 0) 100 0 = Ok (A ++ B ++ replicate (S k) 0)).
  { intros A B k Hl Hk. rewrite buf_set_Ok by (rewrite !app_assoc, length_app, length_replicate; lia). f_equal.
    rewrite list_insert_id; [done|]. rewrite app_assoc, lookup_app_r by lia. apply lookup_replicate_2. lia. }
  destruct (Z.ltb_spec 0 (zlength L)) as [Hlt|Hge]; cbn [andb].
  - destruct (Z.leb_spec (zlength L) 100); [|lia]. destruct L as [|x L] using rev_ind; [simpl in Hlt; lia|clear IHL].
    rewrite length_app in Hf, Hlt. simpl length in Hf, Hlt. unfold shift_left. rewrite Hb, Hc, <- app_assoc. cbn [app].
    rewrite !length_app; simpl length. replace (Z.of_nat (length L + 1) - 1) with (zlength L) by lia.
    set (X := R ++ replicate (101 - (length L + 1) - length R) 0).
    assert (HX : length X = (100 - length L)%nat) by (unfold X; rewrite length_app, length_replicate; lia).
    pose proof (shift_left_loop X L x) as E. rewrite HX in E. replace (Z.to_nat (100 - zlength L)) with (100 - length L)%nat by lia.
    rewrite E. ok_bind. cbn [contents contents_bytes with_contents with_cursor].
    assert (Hlast : default x (last X) = 0).
    { unfold X. destruct (101 - (length L + 1) - length R)%nat as [|m] eqn:Em; [lia|]. rewrite replicate_S_end, app_assoc, last_snoc. done. }
    rewrite Hlast. assert (EX : X ++ [0] = R ++ replicate (S (100 - length L - length R)) 0).
    { unfold X. rewrite <- app_assoc. f_equal. change [0] with (replicate 1 0). rewrite <- replicate_add. f_equal. lia. }
    rewrite EX, Hb, Hset by (rewrite ?length_app; lia). ok_bind. eexists. split; [done|].
    rewrite take_app_length' by lia.
    constructor; cbn [fst snd contents contents_bytes cursor_position prompt with_cursor with_contents]; try done.
    + do 3 f_equal. lia.
    + apply Forall_app in Hn as [[HL _]%Forall_app HR]. by apply Forall_app.
    + lia.
  - assert (L = []) as -> by (destruct L; [done|simpl in Hge; lia]). ok_bind. rewrite Hc. cbn [app length].
    rewrite Hb. pose proof (Hset [] R (100 - length R)%nat) as E. cbn [app] in E. replace (101 - 0 - length R)%nat with (S (100 - length R)) by (simpl in Hf; lia).
    rewrite E by (simpl in Hf; lia). ok_bind. eexists. split; [done|].
    constructor; cbn [fst snd contents contents_bytes cursor_position prompt with_cursor with_contents]; try done.
    change (take (0 - 1) (@nil Z)) with (@nil Z). cbn [app length]. simpl in Hf. do 2 f_equal; lia.
Qed.

(** ** Reading keys *)
Definition chars (kb : keyboard) : list Z := sh_stdin_buffer kb ++ typed kb.

Lemma next_char kb c rest :
  chars kb = c :: rest -> EOF ∉ chars kb -> exists kb', get_next_char kb = Ok (c, kb') /\ chars kb' = rest.
Proof.
  destruct kb as [[|b buffer] input]; unfold chars, get_next_char; cbn.
  - intros -> Hn. cbn. destruct (Z.eqb_spec c EOF); [set_solver|]. ok_bind. by eexists.
  - intros [= -> <-] Hn. destruct (Z.eqb_spec c EOF); [set_solver|]. by eexists.
Qed.

Lemma shows_text line z : shows line z -> exists x, contents line = cstr (z.1 ++ z.2) x.
Proof.
  intros [Hc _ _ _ Hf _]. destruct (101 - length z.1 - length z.2)%nat as [|m] eqn:Em; [lia|].
  exists (replicate m 0). rewrite Hc. unfold cstr. by rewrite <- app_assoc.
Qed.

Lemma shows_length line z : shows line z -> zlength (contents line) = 101.
Proof. intros [Hc _ _ _ Hf _]. rewrite Hc, !length_app, length_replicate. lia. Qed.

Lemma printed_spec s x : nonul s -> zlength s < 2 ^ 31 -> printed (cstr s x) = Ok s.
Proof.
  intros Hs Hl. unfold printed. rewrite stdstring_length_spec by done. ok_bind. unfold cstr. rewrite slice_app_l by lia. by rewrite slice_0 by lia.
Qed.

Lemma contents_length line z : shows line z -> stdstring_length (contents line) = Ok (zlength (z.1 ++ z.2)).
Proof.
  intros Hs. destruct (shows_text line z Hs) as [x ->]. destruct Hs as [_ _ _ Hn Hf _].
  rewrite stdstring_length_spec; [done|done|rewrite length_app; lia].
Qed.

Lemma contents_printed line z : shows line z -> printed (contents line) = Ok (z.1 ++ z.2).
Proof.
  intros Hs. destruct (shows_text line z Hs) as [x ->]. destruct Hs as [_ _ _ Hn Hf _].
  apply printed_spec; [done|rewrite length_app; lia].
Qed.

Lemma prompt_printed line z : shows line z -> exists p, printed (prompt line) = Ok p.
Proof. intros [_ _ _ _ _ ->]. by eexists. Qed.

Lemma print_spec line z : shows line z -> exists o, line_print line = Ok o.
Proof.
  intros Hs. unfold line_print. destruct (prompt_printed line z Hs) as [p ->]. ok_bind.
  rewrite (contents_printed line z), (contents_length line z) by done. ok_bind. by eexists.
Qed.

Lemma print_newline_spec line z : shows line z -> exists o, line_print_with_newline line = Ok o.
Proof.
  intros Hs. unfold line_print_with_newline. destruct (prompt_printed line z Hs) as [p ->]. ok_bind.
  rewrite (contents_printed line z) by done. ok_bind. by eexists.
Qed.

(** Moving the cursor. *)
Lemma shows_move line z z' :
  shows line z -> z'.1 ++ z'.2 = z.1 ++ z.2 -> shows (with_cursor (zlength z'.1) line) z'.
Proof.
  intros [Hc Hb _ Hn Hf Hp] E. pose proof (f_equal length E) as El. rewrite !length_app in El.
  constructor; cbn [contents contents_bytes cursor_position prompt with_cursor]; try done.
  - rewrite Hc, app_assoc, <- E, <- app_assoc. do 3 f_equal. lia.
  - by rewrite E.
  - lia.
Qed.

Lemma shows_stay line z z' : shows line z -> z'.1 = z.1 -> z'.2 = z.2 -> shows line z'.
Proof. destruct z, z'. cbn. by intros Hs -> ->. Qed.

Lemma key_spec k line z kb rest :
  shows line z -> key_ok k -> chars kb = drop 1 (key_bytes k) ++ rest -> EOF ∉ chars kb ->
  exists line' kb', line_key (default 0 (head (key_bytes k))) line kb = Ok (line', kb') /\ chars kb' = rest /\ shows line' (edit z k).
Proof.
  intros Hs Hk Hkb Hn. destruct k as [c| | |]; cbn [key_bytes head default drop] in *; unfold line_key; cbn in Hk.
  - unfold id. destruct Hk as (? & ? & ? & ? & ? & ?). destruct (Z.eqb_spec c 127); [done|]. destruct (Z.eqb_spec c 27); [done|].
    destruct (insert_spec line z c Hs) as (line' & E & Hs'); [done|]. rewrite E. ok_bind. by exists line', kb.
  - destruct (backspace_spec line z Hs) as (line' & E & Hs'). cbn. rewrite E. ok_bind. by exists line', kb.
  - cbn. unfold line_control_seq. destruct (next_char kb 91 (68 :: rest) Hkb Hn) as (kb1 & -> & Hkb1). ok_bind.
    destruct (next_char kb1 68 rest Hkb1) as (kb2 & -> & Hkb2); [rewrite Hkb1; rewrite Hkb in Hn; set_solver|]. ok_bind. cbn.
    eexists _, kb2. split; [done|]. split; [done|]. destruct z as [L R]. rewrite (sh_cursor _ _ Hs). cbn [fst snd].
    destruct (Z.gtb_spec (zlength L) 0).
    + replace (zlength L - 1) with (zlength (take (length L - 1) L)) by (rewrite length_take; lia).
      apply (shows_move line (L, R) (take (length L - 1) L, drop (length L - 1) L ++ R)); [done|]. cbn. by rewrite app_assoc, take_drop.
    + apply (shows_stay line (L, R)); [done|..]; destruct L; (done || simpl in *; lia).
  - cbn. unfold line_control_seq. destruct (next_char kb 91 (67 :: rest) Hkb Hn) as (kb1 & -> & Hkb1). ok_bind.
    destruct (next_char kb1 67 rest Hkb1) as (kb2 & -> & Hkb2); [rewrite Hkb1; rewrite Hkb in Hn; set_solver|]. ok_bind. cbn.
    rewrite (contents_length line z Hs). ok_bind.
    eexists _, kb2. split; [done|]. split; [done|]. destruct z as [L R]. rewrite (sh_cursor _ _ Hs). cbn [fst snd]. rewrite length_app.
    destruct R as [|r R]; cbn [length].
    + destruct (Z.ltb_spec (zlength L) (Z.of_nat (length L + 0))); [lia|]. apply (shows_stay line (L, [])); [done|cbn; by rewrite app_nil_r|done].
    + destruct (Z.ltb_spec (zlength L) (Z.of_nat (length L + S (length R)))); [|lia].
      replace (zlength L + 1) with (zlength (L ++ [r])) by (rewrite length_app; simpl; lia).
      apply (shows_move line (L, r :: R) (L ++ [r], R)); [done|]. cbn. by rewrite <- app_assoc.
Qed.

(** ** The editor *)
Definition keystrokes (keys : list key) : list Z := keys ≫= key_bytes.

Lemma key_first k : key_ok k -> exists c, head (key_bytes k) = Some c /\ key_bytes k = c :: drop 1 (key_bytes k) /\ c <> 13 /\ c <> 3.
Proof. destruct k; cbn; intros Hk; eexists; split_and!; try done; lia. Qed.

Lemma line_turn_eq c line kb out :
  line_turn (c, line, kb, out) =
    if c =? 13 then Ok (inr (Some line, kb, out))
    else if c =? 3 then Ok (inr (None, kb, out))
    else
      '(line, kb) ← line_key c line kb;
      o ← line_print line;
      '(c, kb) ← get_next_char kb;
      Ok (inl (c, line, kb, out ++ o)).
Proof. done. Qed.

Lemma line_loop keys : forall c line z kb out rest fuel,
  shows line z -> Forall key_ok keys -> c :: chars kb = keystrokes keys ++ 13 :: rest -> EOF ∉ chars kb -> (length keys < fuel)%nat ->
  exists line' kb' out', while_loop fuel line_turn (c, line, kb, out) = Ok (Some line', kb', out') /\ chars kb' = rest /\
    shows line' (foldl edit z keys).
Proof.
  induction keys as [|k keys IH]; intros c line z kb out rest fuel Hs Hk Hkb Hn Hf; (destruct fuel as [|fuel]; [simpl in Hf; lia|]);
    rewrite while_loop_S, line_turn_eq.
  - injection Hkb as -> Hkb. cbn. by eexists _, _, _.
  - apply Forall_cons in Hk as [Hk Hks]. destruct (key_first k Hk) as (c0 & Hh & Ek & H13 & H3).
    change (keystrokes (k :: keys)) with (key_bytes k ++ keystrokes keys) in Hkb. rewrite Ek in Hkb. cbn [app] in Hkb. injection Hkb as -> Hkb.
    destruct (Z.eqb_spec c0 13); [done|]. destruct (Z.eqb_spec c0 3); [done|]. rewrite <- app_assoc in Hkb.
    destruct (key_spec k line z kb _ Hs Hk Hkb Hn) as (line1 & kb1 & E1 & Hkb1 & Hs1). rewrite Hh in E1. cbn in E1. rewrite E1. ok_bind.
    destruct (print_spec line1 _ Hs1) as [o ->]. ok_bind.
    destruct (keystrokes keys ++ 13 :: rest) as [|c1 r1] eqn:Er; [by destruct (keystrokes keys)|].
    destruct (next_char kb1 c1 r1 Hkb1) as (kb2 & -> & Hkb2).
    { rewrite Hkb1. intros Hin. apply Hn. rewrite Hkb. apply elem_of_app. by right. }
    ok_bind. apply (IH c1 line1 (edit z k) kb2 (out ++ o) rest fuel Hs1 Hks); [by rewrite Hkb2| |simpl in Hf; lia].
    intros Hin. apply Hn. rewrite Hkb, Hkb2 in *. apply elem_of_app. right. by right.
Qed.

(** C26 (refinement): whatever keys are pressed before Return, of those of the
    editor - characters, backspace and the two arrows; not Ctrl+C, which ends
    the call, the characters NUL and 0xff or other escape sequences ([key_ok])
    -, [get_line] gives the text that a zipper of 100 characters holds after
    them, terminated, and leaves what was typed after Return for the next read.
    *)
Theorem get_line_spec keys buf kb rest fuel :
  Forall key_ok keys -> chars kb = keystrokes keys ++ 13 :: rest -> EOF ∉ chars kb -> zlength buf = 101 -> (length keys < fuel)%nat ->
  exists x kb' out, let '(before, after) := foldl edit ([], []) keys in
    get_line fuel buf 101 kb = Ok (cstr (before ++ after) x, kb', out) /\ chars kb' = rest /\ nonul (before ++ after).
Proof.
  intros Hk Hkb Hn Hb Hf. assert (Hs0 : shows (Line mush_prompt (replicate 101 0) 100 0) ([], [])).
  { constructor; cbn; try done. constructor. }
  assert (Em : make_line mush_prompt (replicate 101 0) 100 = Ok (Line mush_prompt (replicate 101 0) 100 0)) by reflexivity.
  unfold get_line. rewrite Em. ok_bind. destruct (print_spec _ _ Hs0) as [o Eo]. rewrite Eo. ok_bind.
  destruct (keystrokes keys ++ 13 :: rest) as [|c r] eqn:Er; [by destruct (keystrokes keys)|].
  destruct (next_char kb c r Hkb Hn) as (kb1 & Ec & Hkb1). rewrite Ec. ok_bind.
  destruct (line_loop keys c _ ([], []) kb1 o rest fuel Hs0 Hk) as (line & kb' & out & El & Hkb' & Hs); [by rewrite Hkb1| |done|].
  { rewrite Hkb1. rewrite Hkb in Hn. set_solver. }
  rewrite El. ok_bind. destruct (print_newline_spec line _ Hs) as [o2 Eo2]. rewrite Eo2. ok_bind.
  pose proof (shows_length line _ Hs) as Hlen. destruct (foldl edit ([], []) keys) as [L R].
  rewrite stdmem_copy_spec by lia. ok_bind. rewrite slice_0 by lia.
  assert (splice buf 0 (contents line) = contents line) as -> by (unfold splice; rewrite drop_ge by lia; by rewrite app_nil_r).
  destruct Hs as [Hc _ _ Hnn Hff _]. cbn [fst snd] in *. rewrite buf_set_Ok by lia. ok_bind.
  rewrite list_insert_id.
  - destruct (101 - length L - length R)%nat as [|m] eqn:Em2; [lia|]. eexists (replicate m 0), kb', _. split; [|done].
    rewrite Hc. unfold cstr. by rewrite <- app_assoc.
  - rewrite Hc, app_assoc, lookup_app_r by (rewrite length_app; lia). apply lookup_replicate_2. rewrite length_app. lia.
Qed.

Lemma get_line_spec_witness :
  exists x kb' out, get_line 10 (replicate 101 0) 101 (Keyboard (bytes_of "lx") ([127; 97; 27; 91; 68; 115; 13; 120])) =
    Ok (cstr (bytes_of "lsa") x, kb', out) /\ chars kb' = [120] /\ nonul (bytes_of "lsa").
Proof.
  apply (get_line_spec [Char 108; Char 120; Backspace; Char 97; Left; Char 115] (replicate 101 0)
    (Keyboard (bytes_of "lx") ([127; 97; 27; 91; 68; 115; 13; 120])) [120] 10); [|done| |done|simpl; lia].
  - repeat constructor; done.
  - apply (bool_decide_unpack _). by vm_compute.
Defined.
