(* ===== verification/Parser.v ===== *)
(** * Command lines

    The parser of the shell against the reference reading of a line: its words,
    between spaces. *)
From S2P Require Import Prelude Mem Strings Shell.

(** ** The words of a text *)
Fixpoint words_from (acc s : list Z) : list (list Z) :=
  match s with
  | [] => if decide (acc = []) then [] else [acc]
  | c :: s => if c =? 32 then (if decide (acc = []) then words_from [] s else acc :: words_from [] s) else words_from (acc ++ [c]) s
  end.
Definition words (s : list Z) : list (list Z) := words_from [] s.

Lemma words_spaces ds s : Forall (fun c => c = 32) ds -> words (ds ++ s) = words s.
Proof. induction 1 as [|c ds -> _ IH]; [done|exact IH]. Qed.

Lemma words_token tok acc s : Forall (fun c => c <> 32) tok -> words_from acc (tok ++ s) = words_from (acc ++ tok) s.
Proof.
  intros Ht. revert acc. induction Ht as [|c tok Hc _ IH]; intros acc; cbn; [by rewrite app_nil_r|].
  destruct (Z.eqb_spec c 32); [done|]. by rewrite IH, <- app_assoc.
Qed.

(** The next word: spaces, the word, and the end or a space and the rest. *)
Lemma next_word s :
  exists ds tok, Forall (fun c => c = 32) ds /\ Forall (fun c => c <> 32) tok /\
    ((s = ds ++ tok /\ words s = if decide (tok = []) then [] else [tok]) \/
     (exists rest, s = ds ++ tok ++ 32 :: rest /\ tok <> [] /\ words s = tok :: words rest)).
Proof.
  assert (Hsp : exists ds s', s = ds ++ s' /\ Forall (fun c => c = 32) ds /\ (s' = [] \/ exists c r, s' = c :: r /\ c <> 32)).
  { induction s as [|c s (ds & s' & -> & Hds & Hs')]; [exists [], []; naive_solver|]. destruct (decide (c = 32)) as [->|Hc].
    - exists (32 :: ds), s'. naive_solver.
    - exists [], (c :: ds ++ s'). naive_solver. }
  destruct Hsp as (ds & s' & -> & Hds & Hs').
  assert (Htok : exists tok r, s' = tok ++ r /\ Forall (fun c => c <> 32) tok /\ (r = [] \/ exists r', r = 32 :: r')).
  { clear Hs'. induction s' as [|c s' (tok & r & -> & Htok & Hr)]; [exists [], []; naive_solver|]. destruct (decide (c = 32)) as [->|Hc].
    - exists [], (32 :: tok ++ r). naive_solver.
    - exists (c :: tok), r. naive_solver. }
  destruct Htok as (tok & r & -> & Htok & Hr). exists ds, tok. split; [done|]. split; [done|]. rewrite words_spaces by done.
  unfold words. destruct Hr as [->|(rest & ->)].
  - left. split; [by rewrite app_nil_r|]. by rewrite (words_token tok) by done.
  - right. exists rest. assert (tok <> []) as Hne.
    { intros ->. destruct Hs' as [|(c & r & [= <- _] & Hc)]; done. }
    split; [done|]. split; [done|]. rewrite (words_token tok) by done. cbn. by rewrite decide_False.
Qed.

(** ** The reference parser *)
Definition AMPERSAND : list Z := [38].
Definition BANG : list Z := [33].

(** The words after the name, with [n] places left for arguments. *)
Fixpoint arguments (n : nat) (ws : list (list Z)) (c : shell_command_t) : shell_command_t :=
  match n, ws with
  | S n, w :: ws =>
      if decide (w = AMPERSAND) then Command (name c) (argv c) (priority c) true
      else if decide (w = BANG) then Command (name c) (argv c) 0 (background c)
      else arguments n ws (Command (name c) (argv c ++ [cstr w []]) (priority c) (background c))
  | _, _ => c
  end.
Definition command_of (ws : list (list Z)) : shell_command_t :=
  match ws with
  | [] => Command [0] [] 1 false
  | w :: ws => arguments 10 ws (Command (cstr w []) [] 1 false)
  end.

(** ** The parser, step by step *)
Lemma copy_string_spec line start w x :
  0 <= start -> drop (Z.to_nat start) line = cstr w x -> nonul w -> zlength line < 2 ^ 31 -> copy_string line start = Ok (cstr w []).
Proof.
  intros Hs E Hw Hint. assert (Hl : zlength line >= start + zlength w + 1).
  { apply (f_equal length) in E. unfold cstr in E. rewrite length_drop, length_app in E. simpl in E. lia. }
  unfold copy_string. rewrite E, stdstring_length_spec by (done || lia). ok_bind.
  rewrite stdmem_copy_spec by (rewrite ?length_replicate; lia). f_equal.
  assert (Esl : slice line start (zlength w + 1) = cstr w []).
  { unfold slice. rewrite E. replace (Z.to_nat (zlength w + 1)) with (length w + 1)%nat by lia. unfold cstr.
    rewrite take_app_add. done. }
  rewrite Esl. unfold splice. change (Z.to_nat 0) with 0%nat. rewrite take_0, drop_ge; [by rewrite app_nil_r|].
  rewrite length_replicate. unfold cstr. rewrite length_app. simpl. lia.
Qed.

(** What a turn does with a token. *)
Definition token_turn (line : list Z) (after : option Z) (tok : list Z) (r : shell_command_t)
  : (list Z * option Z * shell_command_t) + (shell_command_t * list Z) :=
  if decide (tok = AMPERSAND) then inr (Command (name r) (argv r) (priority r) true, line)
  else if decide (tok = BANG) then inr (Command (name r) (argv r) 0 (background r), line)
  else if decide (tok = []) then inl (line, after, r)
  else inl (line, after, Command (name r) (argv r ++ [cstr tok []]) (priority r) (background r)).

Lemma compare_with tok w x : nonul tok -> nonul w -> stdstring_compare (cstr tok x) (cstr w []) = Ok (lex tok w).
Proof. apply compare_lex. Qed.

Lemma parse_turn_token line i r line' start after tok x :
  zlength (argv r) < 10 -> stdstring_next_token line i [32; 0] = Ok (line', start, after) -> 0 <= start ->
  drop (Z.to_nat start) line' = cstr tok x -> nonul tok -> zlength line' < 2 ^ 31 -> parse_turn (line, Some i, r) = Ok (token_turn line' after tok r).
Proof.
  intros Hr E Hs Ed Ht Hint. assert (zlength tok < 2 ^ 31).
  { apply (f_equal length) in Ed. unfold cstr in Ed. rewrite length_drop, length_app in Ed. simpl in Ed. lia. }
  unfold parse_turn. destruct (Z.ltb_spec (zlength (argv r)) 10); [|lia]. rewrite E. ok_bind. rewrite Ed.
  rewrite stdstring_length_spec by (done || lia). ok_bind. change [38; 0] with (cstr AMPERSAND []). change [33; 0] with (cstr BANG []).
  rewrite (compare_with tok AMPERSAND) by (done || by repeat constructor). ok_bind. unfold token_turn.
  destruct (Z.eqb_spec (lex tok AMPERSAND) 0) as [Ea|Ea]; [apply lex_eq in Ea; by rewrite decide_True|].
  rewrite (decide_False (P := tok = AMPERSAND)) by (intros Et; by apply Ea, lex_eq).
  rewrite (compare_with tok BANG) by (done || by repeat constructor). ok_bind.
  destruct (Z.eqb_spec (lex tok BANG) 0) as [Eb|Eb]; [apply lex_eq in Eb; by rewrite decide_True|].
  rewrite (decide_False (P := tok = BANG)) by (intros Et; by apply Eb, lex_eq). destruct (decide (tok = [])) as [->|Hne]; [done|].
  destruct (Z.gtb_spec (zlength tok) 0); [|destruct tok; [done|simpl in *; lia]]. by rewrite (copy_string_spec line' start tok x).
Qed.

(** The token at a place of the line. *)
Lemma token_at line i s t :
  0 <= i -> drop (Z.to_nat i) line = cstr s t -> nonul s ->
  exists tok line' start after x, stdstring_next_token line i [32; 0] = Ok (line', start, after) /\ 0 <= start /\
    drop (Z.to_nat start) line' = cstr tok x /\ nonul tok /\ length line' = length line /\
    ((after = None /\ words s = if decide (tok = []) then [] else [tok]) \/
     (exists j rest, after = Some j /\ 0 <= j /\ drop (Z.to_nat j) line' = cstr rest t /\ nonul rest /\ tok <> [] /\ words s = tok :: words rest)).
Proof.
  intros Hi E Hs. destruct (next_word s) as (ds & tok & Hds & Htok & Hcase).
  assert (Hd32 : Forall (fun d => d ∈ [32]) ds) by (eapply Forall_impl; [exact Hds|]; intros d ->; set_solver).
  assert (Ht32 : Forall (fun d => d ∉ [32]) tok) by (eapply Forall_impl; [exact Htok|]; intros d Hd; set_solver).
  assert (Hdn : nonul ds) by (eapply Forall_impl; [exact Hds|]; by intros d ->).
  change [32; 0] with (cstr [32] []). exists tok.
  destruct Hcase as [(-> & Ew)|(rest & -> & Hne & Ew)].
  - apply Forall_app in Hs as [_ Hnt]. unfold cstr in E. rewrite <- app_assoc in E.
    pose proof (next_token_spec line i ds tok 0 t [32] [] Hi ltac:(by repeat constructor) E Hdn Hd32 Hnt Ht32 ltac:(by left)) as En.
    cbn in En. exists line, (i + zlength ds), None, t. split; [exact En|]. split; [lia|]. split; [|split; [done|split; [done|by left]]].
    replace (Z.to_nat (i + zlength ds)) with (Z.to_nat i + length ds)%nat by lia. rewrite <- drop_drop, E. by rewrite drop_app_length.
  - apply Forall_app in Hs as [_ [Hnt [_ Hnr]%Forall_cons]%Forall_app]. unfold cstr in E. rewrite <- !app_assoc in E. cbn [app] in E.
    pose proof (next_token_spec line i ds tok 32 (rest ++ 0 :: t) [32] [] Hi ltac:(by repeat constructor) E Hdn Hd32 Hnt Ht32
      ltac:(right; split; [set_solver|done])) as En. cbn in En.
    assert (Hl : (Z.to_nat i + length ds + length tok < length line)%nat).
    { apply (f_equal length) in E. rewrite length_drop, !length_app in E. simpl in E. lia. }
    set (e := i + zlength ds + zlength tok) in *. set (line' := <[Z.to_nat e := 0]> line) in *.
    exists line', (i + zlength ds), (Some (e + 1)), (rest ++ 0 :: t). split; [exact En|]. split; [lia|].
    assert (Eb : drop (Z.to_nat (i + zlength ds)) line = tok ++ 32 :: rest ++ 0 :: t).
    { replace (Z.to_nat (i + zlength ds)) with (Z.to_nat i + length ds)%nat by lia. rewrite <- drop_drop, E. by rewrite drop_app_length. }
    split; [|split; [done|split; [unfold line'; by rewrite length_insert|]]].
    + unfold line'. rewrite drop_insert_ge by lia. rewrite Eb. replace (Z.to_nat e - _)%nat with (length tok + 0)%nat by lia.
      by rewrite insert_app_r.
    + right. exists (e + 1), rest. split; [done|]. split; [lia|]. split; [|done]. unfold line'. rewrite drop_insert_lt by lia.
      replace (Z.to_nat (e + 1)) with (Z.to_nat (i + zlength ds) + (length tok + 1))%nat by lia. rewrite <- drop_drop, Eb.
      rewrite <- drop_drop, drop_app_length. done.
Qed.

(** The rest of a line, with [n] places left for arguments. *)
Lemma parse_rest t n : forall line i s r fuel,
  0 <= i -> drop (Z.to_nat i) line = cstr s t -> nonul s -> zlength line < 2 ^ 31 -> zlength (argv r) + Z.of_nat n = 10 -> (S n < fuel)%nat ->
  exists line', while_loop fuel parse_turn (line, Some i, r) = Ok (arguments n (words s) r, line') /\ length line' = length line.
Proof.
  induction n as [|n IH]; intros line i s r fuel Hi E Hs Hint Hr Hf; (destruct fuel as [|fuel]; [lia|]); rewrite while_loop_S.
  - unfold parse_turn. destruct (Z.ltb_spec (zlength (argv r)) 10); [lia|]. by exists line.
  - destruct (token_at line i s t Hi E Hs) as (tok & line' & start & after & x & En & Hst & Ed & Ht & Hl & Hcase).
    rewrite (parse_turn_token line i r line' start after tok x) by (done || lia). ok_bind. unfold token_turn.
    destruct Hcase as [(-> & ->)|(j & rest & -> & Hj & Ej & Hnr & Hne & ->)].
    + destruct (decide (tok = [])) as [->|Hne].
      * rewrite (decide_False (P := [] = AMPERSAND)), (decide_False (P := [] = BANG)) by done. destruct fuel as [|fuel]; [lia|]. exists line'. by rewrite while_loop_S.
      * exists line'. split; [|done]. cbn. destruct (decide (tok = AMPERSAND)); [done|]. destruct (decide (tok = BANG)); [done|].
        destruct fuel as [|fuel]; [lia|]. rewrite while_loop_S. by destruct n.
    + rewrite (decide_False (P := tok = [])) by done. cbn.
      destruct (decide (tok = AMPERSAND)); [by exists line'|]. destruct (decide (tok = BANG)); [by exists line'|].
      rewrite <- Hl. apply IH; try done; cbn; rewrite ?length_app; simpl; lia.
Qed.

(** C27 (equivalence): on every line the parser of the shell comes to an end
    within twelve turns of its loop and gives exactly the command of the
    line's words: the name is the first; the next ten at most are the
    arguments, up to a word [&], which puts the command in the background, or a
    word [!], which gives it the high priority; what follows them is not looked
    at. A line without words is a command with an empty name. The line keeps
    its length. *)
Theorem parse_shell_command_spec s t :
  nonul s -> zlength (cstr s t) < 2 ^ 31 -> 
  exists line', parse_shell_command 12 (cstr s t) = Ok (command_of (words s), line') /\ length line' = length (cstr s t).
Proof.
  intros Hs Hint. unfold parse_shell_command.
  destruct (token_at (cstr s t) 0 s t) as (tok & line' & start & after & x & En & Hst & Ed & Ht & Hl & Hcase); [lia|done|done|].
  rewrite En. ok_bind. rewrite (copy_string_spec line' start tok x) by (done || lia). ok_bind.
  destruct Hcase as [(-> & ->)|(j & rest & -> & Hj & Ej & Hnr & Hne & ->)].
  - exists line'. split; [|done]. rewrite while_loop_S. cbn. by destruct (decide (tok = [])) as [->|].
  - rewrite <- Hl. by apply (parse_rest t 10 line' j rest); (done || lia).
Qed.

(** At most ten arguments, each a string. *)
Lemma arguments_bound n ws r : zlength (argv r) + Z.of_nat n <= 10 -> zlength (argv (arguments n ws r)) <= 10.
Proof.
  revert ws r. induction n as [|n IH]; intros [|w ws] r Hr; cbn; try lia.
  destruct (decide (w = AMPERSAND)); [cbn; lia|]. destruct (decide (w = BANG)); [cbn; lia|]. apply IH. cbn. rewrite length_app. simpl. lia.
Qed.

Lemma parse_shell_command_spec_witness :
  exists line', parse_shell_command 12 (cstr (bytes_of " write  f.txt hello & x") [7]) =
    Ok (Command (cstr (bytes_of "write") []) [cstr (bytes_of "f.txt") []; cstr (bytes_of "hello") []] 1 true, line').
Proof.
  destruct (parse_shell_command_spec (bytes_of " write  f.txt hello & x") [7]) as (line' & E & _); [repeat constructor; done|done|].
  exists line'. exact E.
Defined.
